(** * Object-relation data generation: relations, balancers, batch generators
      and the structured dataset builders.

    A shallow embedding of
      - [simple_relational_reasoning/datagen/object_relations.py]
      - [simple_relational_reasoning/datagen/object_gen.py]
      - [simple_relational_reasoning/datagen/quinn_objects.py]

    Tensors hold the integer grid coordinates and 0/1 one-hot entries the
    field generators produce, so an entry is a [Z]; a scene (a 2-D tensor of
    shape object_count x object_length) is a list of rows.  Python code that
    mutates a tensor in place, draws random numbers and raises exceptions is
    written in a state-and-exception monad. *)

From Stdlib Require Import ZArith QArith Qround Lia String.
From stdpp Require Import base tactics option list.

Local Open Scope Z_scope.

(** ** Python outcomes and the state/exception monad *)

Inductive exn : Type :=
  | ValueError
  | IndexError
  | TypeError
  | RuntimeError.

(** [Diverge] is the outcome of a [while] loop that is still running when
    the fuel given to the model is spent. *)
Inductive outcome (A : Type) : Type :=
  | Ret (a : A)
  | Raise (e : exn)
  | Diverge.
Arguments Ret {A} a.
Arguments Raise {A} e.
Arguments Diverge {A}.

Definition M (S A : Type) : Type := S -> outcome A * S.

Definition ret {S A} (a : A) : M S A := fun s => (Ret a, s).

Definition raise {S A} (e : exn) : M S A := fun s => (Raise e, s).

Definition diverge {S A} : M S A := fun s => (Diverge, s).

Definition bind {S A B} (m : M S A) (k : A -> M S B) : M S B :=
  fun s =>
    match m s with
    | (Ret a, s') => k a s'
    | (Raise e, s') => (Raise e, s')
    | (Diverge, s') => (Diverge, s')
    end.

Declare Scope py_scope.
Delimit Scope py_scope with py.
Notation "x <- m ;; k" := (bind m (fun x => k))
  (at level 100, m at next level, right associativity) : py_scope.
Notation "m ;;; k" := (bind m (fun _ => k))
  (at level 100, right associativity) : py_scope.
Local Open Scope py_scope.

Definition get {S} : M S S := fun s => (Ret s, s).

Definition put {S} (s : S) : M S unit := fun _ => (Ret tt, s).

(** An [option] read as a Python lookup that raises [e] when it fails. *)
Definition or_raise {S A} (e : exn) (o : option A) : M S A :=
  match o with
  | Some a => ret a
  | None => raise e
  end.

(** ** Random sources

    [random.randint], [random.choices] (Python's [random] module) and
    [torch.randperm], [torch.rand] (torch's global generator) draw from a
    hidden state; [R] is that state.  The laws say what each draw is
    guaranteed to return and nothing about its distribution. *)

Class RandomSource (R : Type) : Type := {
  draw_randint : Z -> Z -> R -> Z * R;
  draw_randperm : nat -> R -> list nat * R;
  draw_rand : R -> Q * R;
  draw_choices : list nat -> nat -> R -> list nat * R
}.

Class RandomSourceLaws (R : Type) `{RandomSource R} : Prop := {
  randint_range : forall a b r,
    a <= b -> a <= fst (draw_randint a b r) <= b;
  randperm_perm : forall n r,
    Permutation (fst (draw_randperm n r)) (seq 0 n);
  rand_range : forall r,
    (0 <= fst (draw_rand r))%Q /\ (fst (draw_rand r) < 1)%Q;
  choices_spec : forall options k r,
    options <> [] ->
    length (fst (draw_choices options k r)) = k /\
    Forall (fun c => c ∈ options) (fst (draw_choices options k r))
}.

(** A deterministic source used to run the definitions on concrete inputs:
    the state is a counter, [randint a b] returns [a], [randperm n] the
    identity permutation, [rand] returns 1/4 and [choices] repeats the first
    option. *)
#[export] Instance counter_source : RandomSource nat := {
  draw_randint a _ r := (a, S r);
  draw_randperm n r := (seq 0 n, S r);
  draw_rand r := ((1 # 4)%Q, S r);
  draw_choices options k r := (replicate k (hd 0%nat options), S r)
}.

(** ** Tensor helpers *)

Abbreviation Obj := (list Z) (only parsing).
Abbreviation Scene := (list (list Z)) (only parsing).

(** A Python [slice(start, stop)] selecting a field of an object row. *)
Record slice : Type := Slice { start : nat; stop : nat }.

Definition width (s : slice) : nat := (stop s - start s)%nat.

(** [row[s]] *)
Definition get_slice (s : slice) (o : Obj) : list Z :=
  take (width s) (drop (start s) o).

(** [row[s] = v] for a value [v] of the slice's width. *)
Definition set_slice (s : slice) (v : list Z) (o : Obj) : Obj :=
  list_inserts (start s) v o.

(** [t = torch.zeros(n); t[i] = 1] *)
Definition one_hot (n i : nat) : list Z := <[i := 1]> (replicate n 0).

(** [objects[mask, s]] for a row mask given by a decidable predicate. *)
Definition select_rows (P : Obj -> Prop) `{forall o, Decision (P o)}
    (s : slice) (objects : Scene) : list (list Z) :=
  map (get_slice s) (filter P objects).

(** [torch.nonzero(mask).squeeze()] on a 1-D mask: the indices of the true
    entries, as a 0-dimensional tensor when there is exactly one. *)
Inductive squeezed : Type :=
  | Scalar (i : nat)
  | Vector (l : list nat).

Fixpoint nonzero_from (i : nat) (mask : list bool) : list nat :=
  match mask with
  | [] => []
  | b :: mask' =>
      if b then i :: nonzero_from (S i) mask' else nonzero_from (S i) mask'
  end.

Definition nonzero (mask : list bool) : list nat := nonzero_from 0 mask.

Definition nonzero_squeeze (mask : list bool) : squeezed :=
  match nonzero mask with
  | [i] => Scalar i
  | l => Vector l
  end.

(** [len(t)] raises [TypeError] on a 0-dimensional tensor. *)
Definition len_squeezed {S} (t : squeezed) : M S nat :=
  match t with
  | Scalar _ => raise TypeError
  | Vector l => ret (length l)
  end.

(** [t.shape[0]] raises [IndexError] on a 0-dimensional tensor. *)
Definition shape0_squeezed {S} (t : squeezed) : M S nat :=
  match t with
  | Scalar _ => raise IndexError
  | Vector l => ret (length l)
  end.

(** The truth value or [int()] of a tensor is defined for one element only. *)
Definition item {S} (v : list Z) : M S Z :=
  match v with
  | [x] => ret x
  | _ => raise RuntimeError
  end.

(** [torch.cdist(p, q, 1)]: the L1 distance of two rows. *)
Definition l1_distance (p q : list Z) : Z :=
  foldr Z.add 0 (zip_with (fun a b => Z.abs (a - b)) p q).

(** [torch.sign(u - 0.5)] for a draw [u] of [torch.rand]. *)
Definition sign_of_draw (u : Q) : Z :=
  match (u ?= 1 # 2)%Q with
  | Lt => -1
  | Eq => 0
  | Gt => 1
  end.

(** Attributes the relations read from the field generators (the generators
    themselves live in [object_fields.py], outside these files): a position
    field draws from [min_coord, max_coord), a one-hot field has [n_types]
    categories. *)
Record PositionField : Type := { min_coord : Z; max_coord : Z }.

(** ** The balancers' view of a scene

    A balancer receives the tensor [objects] and mutates it in place; its
    state is the tensor and the random source. *)
Section SceneState.
Context {R : Type} `{RandomSource R}.

Definition B (A : Type) : Type := M (Scene * R) A.

Definition objects : B Scene := fun st => (Ret (fst st), st).

Definition on_rng {A} (f : R -> A * R) : B A :=
  fun st => let (a, r') := f (snd st) in (Ret a, (fst st, r')).

(** [random.randint(a, b)] raises [ValueError] on an empty range. *)
Definition randint (a b : Z) : B Z :=
  if decide (a <= b) then on_rng (draw_randint a b) else raise ValueError.

(** [random.choices(options, k=k)] raises [IndexError] on no options. *)
Definition choices (options : list nat) (k : nat) : B (list nat) :=
  match options with
  | [] => raise IndexError
  | _ => on_rng (draw_choices options k)
  end.

(** [objects[i, s]] *)
Definition read_field (i : nat) (s : slice) : B (list Z) :=
  objs <- objects;;
  o <- or_raise IndexError (objs !! i);;
  ret (get_slice s o).

(** [objects[i, s] = v] *)
Definition write_field (i : nat) (s : slice) (v : list Z) : B unit :=
  fun st =>
    match fst st !! i with
    | Some o => (Ret tt, (<[i := set_slice s v o]> (fst st), snd st))
    | None => (Raise IndexError, st)
    end.

(** [objects[i, s] = c] for a number [c], broadcast over the slice. *)
Definition write_scalar (i : nat) (s : slice) (c : Z) : B unit :=
  write_field i s (replicate (width s) c).

(** [objects[i, s] += d] *)
Definition add_scalar (i : nat) (s : slice) (d : Z) : B unit :=
  v <- read_field i s;;
  write_field i s (map (fun x => x + d) v).

(** [objects[i, col] = c] for a single entry. *)
Definition write_entry (i col : nat) (c : Z) : B unit :=
  fun st =>
    match fst st !! i with
    | Some o =>
        if decide (col < length o)%nat
        then (Ret tt, (<[i := <[col := c]> o]> (fst st), snd st))
        else (Raise IndexError, st)
    | None => (Raise IndexError, st)
    end.

(** [for x in l: body(x)] *)
Fixpoint for_each {S A} (l : list A) (body : A -> M S unit) : M S unit :=
  match l with
  | [] => ret tt
  | x :: l' => body x;;; for_each l' body
  end.

(** [a, b = torch.randperm(n)[:2]]: unpacking needs exactly two values. *)
Definition two_random_indices (n : nat) : B (nat * nat) :=
  perm <- on_rng (draw_randperm n);;
  match take 2 perm with
  | [a; b] => ret (a, b)
  | _ => raise ValueError
  end.

(** The boundary-aware unit shift shared by the two adjacency balancers. *)
Definition shift_by_one (i : nat) (s : slice) (g : PositionField) : B unit :=
  v <- read_field i s;;
  x <- item v;;
  (* if at the edge of the grid, shift in the only valid direction *)
  if decide (x = min_coord g) then write_scalar i s (min_coord g + 1)
  else if decide (x = max_coord g - 1) then write_scalar i s (max_coord g - 2)
  (* if not, shift in either direction *)
  else u <- on_rng draw_rand;; add_scalar i s (sign_of_draw u).
End SceneState.

(** [torch.any(torch.isclose(torch.cdist(p, p, 1), 1.0))] on integer
    coordinates. *)
Definition any_unit_distance (positions : list (list Z)) : bool :=
  existsb
    (fun p => existsb (fun q => bool_decide (l1_distance p q = 1)) positions)
    positions.

(** [torch.cat([objects[:, s] for s in slices], dim=1)]: one row per object. *)
Definition cat_fields (slices : list slice) (objs : Scene) : list (list Z) :=
  map (fun o => concat (map (fun s => get_slice s o) slices)) objs.

(** ** [OneDAdjacentRelation] *)
Module OneDAdjacentRelation.
Record config : Type := {
  relevant_field_slice : slice;
  relevant_field_generator : PositionField
}.

Definition evaluate (c : config) (objs : Scene) : bool :=
  let positions := map (get_slice (relevant_field_slice c)) objs in
  any_unit_distance positions.

Definition balance {R} `{RandomSource R} (c : config) (current_label : Z)
    : B Scene :=
  if decide (current_label <> 0) then raise ValueError else
  objs <- objects;;
  ij <- two_random_indices (length objs);;
  let index_to_modify := fst ij in
  let index_to_set_next_to := snd ij in
  (* set x and y to be the same, then modify one *)
  v <- read_field index_to_set_next_to (relevant_field_slice c);;
  write_field index_to_modify (relevant_field_slice c) v;;;
  shift_by_one index_to_modify (relevant_field_slice c)
    (relevant_field_generator c);;;
  objects.
End OneDAdjacentRelation.

(** ** [MultipleDAdjacentRelation] *)
Module MultipleDAdjacentRelation.
Record config : Type := {
  position_fields : list (slice * PositionField)
}.

Definition position_field_slices (c : config) : list slice :=
  map fst (position_fields c).

Definition evaluate (c : config) (objs : Scene) : bool :=
  (* unsqueeze(0) adds a batch dimension of size one for cdist *)
  let positions := [cat_fields (position_field_slices c) objs] in
  existsb any_unit_distance positions.

Definition balance {R} `{RandomSource R} (c : config) (current_label : Z)
    : B Scene :=
  if decide (current_label <> 0) then raise ValueError else
  objs <- objects;;
  ij <- two_random_indices (length objs);;
  let index_to_modify := fst ij in
  let index_to_set_next_to := snd ij in
  for_each (position_field_slices c) (fun field_slice =>
    v <- read_field index_to_set_next_to field_slice;;
    write_field index_to_modify field_slice v);;;
  slice_index <- randint 0 (Z.of_nat (length (position_fields c)) - 1);;
  fg <- or_raise IndexError (position_fields c !! Z.to_nat slice_index);;
  shift_by_one index_to_modify (fst fg) (snd fg);;;
  objects.
End MultipleDAdjacentRelation.

(** ** [ObjectRelation._object_in_position]

    The tensors of this method, dimension by dimension. *)

(** [row == position] under broadcasting of the last dimension. *)
Definition broadcast_eq (row position : list Z) : option (list bool) :=
  if decide (length row = length position)
  then Some (zip_with Z.eqb row position)
  else match row, position with
       | [a], _ => Some (map (Z.eqb a) position)
       | _, [p] => Some (map (fun a => Z.eqb a p) row)
       | _, _ => None
       end.

(** [m.all(dim=...)] reducing the row dimension of an N x cols matrix. *)
Definition all_over_rows (cols : nat) (m : list (list bool)) : list bool :=
  map (fun j => forallb (fun row => default false (row !! j)) m) (seq 0 cols).

(** [torch.nonzero] of a 2-D mask: one index pair per true entry. *)
Definition nonzero2 (m : list (list bool)) : list (list nat) :=
  concat (imap (fun b row => map (fun j => [b; j]) (nonzero row)) m).

(** [.squeeze()] of a k x 2 index tensor: a single pair loses its first
    dimension. *)
Inductive index_tensor : Type :=
  | Idx1 (v : list nat)
  | Idx2 (rows : list (list nat)).

Definition squeeze_pairs (rows : list (list nat)) : index_tensor :=
  match rows with
  | [r] => Idx1 r
  | _ => Idx2 rows
  end.

Definition len_index_tensor (t : index_tensor) : nat :=
  match t with
  | Idx1 v => length v
  | Idx2 rows => length rows
  end.

Definition _object_in_position {S} (position_field_slices : list slice)
    (objs : Scene) (position : list Z) : M S (bool * index_tensor) :=
  (* cat(...).unsqueeze(0): shape 1 x N x P *)
  let object_positions := [cat_fields position_field_slices objs] in
  eqs <- or_raise RuntimeError
           (mapM (mapM (fun row => broadcast_eq row position))
                 object_positions);;
  let cols :=
    Nat.max (foldr Nat.add 0%nat (map width position_field_slices))
            (length position) in
  (* .all(dim=1) reduces the dimension of size N: shape 1 x cols *)
  let all1 := map (all_over_rows cols) eqs in
  let matching_indices := squeeze_pairs (nonzero2 all1) in
  ret (bool_decide (0 < len_index_tensor matching_indices)%nat,
       matching_indices).

(** [int(t.max())] *)
Definition tensor_max {S} (l : list Z) : M S Z :=
  match l with
  | [] => raise RuntimeError
  | x :: l' => ret (foldr Z.max x l')
  end.

(** A Python value that is either a tensor (a view of a field) or an int. *)
Inductive pyval : Type :=
  | Tensor (v : list Z)
  | Int (z : Z).

(** [torch.tensor([..., v, ...])] needs [v] to hold a single number. *)
Definition scalar_of {S} (v : pyval) : M S Z :=
  match v with
  | Tensor [x] => ret x
  | Tensor _ => raise ValueError
  | Int z => ret z
  end.

(** ** [ColorAboveColorRelation] *)
Module ColorAboveColorRelation.
Record config : Type := {
  x_field_slice : slice;
  x_field_gen : PositionField;
  y_field_slice : slice;
  y_field_gen : PositionField;
(** the slices of [position_field_names[2:]] *)
more_position_field_slices : list slice;
color_field_slice : slice;
color_n_types : nat;
above_color_index : nat;
below_color_index : nat;
stuck_count_to_perturb_x : Z
}.

Definition position_field_slices (c : config) : list slice :=
  x_field_slice c :: y_field_slice c :: more_position_field_slices c.

Definition above_color_tensor (c : config) : list Z :=
  one_hot (color_n_types c) (above_color_index c).

Definition below_color_tensor (c : config) : list Z :=
  one_hot (color_n_types c) (below_color_index c).

(** [colors.eq(t).all(dim=1)] at one row. *)
Definition has_color (c : config) (t : list Z) (o : Obj) : Prop :=
  get_slice (color_field_slice c) o = t.

#[export] Instance has_color_dec c t o : Decision (has_color c t o).
Proof. unfold has_color. apply _. Defined.

Definition evaluate (c : config) (objs : Scene) : bool :=
  let above_color_y_positions :=
    select_rows (has_color c (above_color_tensor c)) (y_field_slice c) objs in
  let below_color_y_positions :=
    select_rows (has_color c (below_color_tensor c)) (y_field_slice c) objs in
  if decide (length above_color_y_positions = 0%nat) then false
  else if decide (length below_color_y_positions = 0%nat) then true
  else
    (* (above.view(-1, 1) >= below.view(1, -1)).all(dim=1).any() *)
    existsb
      (fun a => forallb (fun b => bool_decide (b <= a))
                        (concat below_color_y_positions))
      (concat above_color_y_positions).

Section Balance.
Context {R : Type} `{RandomSource R}.

(** One pass of [while collision:] per unit of fuel. *)
Fixpoint relocate (fuel : nat) (c : config) (index_to_modify : nat)
    (max_below_color_position : Z) (stuck_count : Z) : B (pyval * Z) :=
  match fuel with
  | O => diverge
  | S fuel' =>
      let stuck_count := stuck_count + 1 in
      own_x <- read_field index_to_modify (x_field_slice c);;
      new_above_color_x_position <-
        (if decide (stuck_count_to_perturb_x c < stuck_count)
         then x <- randint (min_coord (x_field_gen c))
                           (max_coord (x_field_gen c) - 1);;
              ret (Int x)
         else ret (Tensor own_x));;
      new_above_color_y_position <-
        randint max_below_color_position (max_coord (y_field_gen c) - 1);;
      x <- scalar_of new_above_color_x_position;;
      let tentative_new_position := [x; new_above_color_y_position] in
      objs <- objects;;
      hit <- _object_in_position (position_field_slices c) objs
               tentative_new_position;;
      if fst hit
      then relocate fuel' c index_to_modify max_below_color_position
                    stuck_count
      else ret (new_above_color_x_position, new_above_color_y_position)
  end.

Definition balance (fuel : nat) (c : config) (current_label : Z)
    : B Scene :=
  if decide (current_label <> 0) then raise ValueError else
  objs <- objects;;
  let above_color_y_positions :=
    select_rows (has_color c (above_color_tensor c)) (y_field_slice c)
                objs in
  (* If no objects in the above color exist, create one *)
  (if decide (length above_color_y_positions = 0%nat)
   then index_to_modify <- randint 0 (Z.of_nat (length objs) - 1);;
        write_field (Z.to_nat index_to_modify) (color_field_slice c)
                    (above_color_tensor c);;;
        (* [colors] is a view of [objects]: the same entries again *)
        write_field (Z.to_nat index_to_modify) (color_field_slice c)
                    (above_color_tensor c)
   else ret tt);;;
  objs <- objects;;
  let below_color_y_positions :=
    select_rows (has_color c (below_color_tensor c)) (y_field_slice c)
                objs in
  max_below_color_position <-
    (if decide (length below_color_y_positions = 0%nat)
     then ret (min_coord (y_field_gen c))
     else tensor_max (concat below_color_y_positions));;
  let above_object_indices :=
    nonzero_squeeze
      (map (fun o => bool_decide (has_color c (above_color_tensor c) o))
           objs) in
  index_to_modify <-
    match above_object_indices with
    | Scalar i => ret i
    | Vector l =>
        perm <- on_rng (draw_randperm (length l));;
        p <- or_raise IndexError (perm !! 0%nat);;
        or_raise IndexError (l !! p)
    end;;
  xy <- relocate fuel c index_to_modify max_below_color_position 0;;
  match fst xy with
  | Tensor v => write_field index_to_modify (x_field_slice c) v
  | Int x => write_scalar index_to_modify (x_field_slice c) x
  end;;;
  write_scalar index_to_modify (y_field_slice c) (snd xy);;;
  objects.
End Balance.
End ColorAboveColorRelation.

(** ** [ObjectCountRelation] *)
Module ObjectCountRelation.
Record config : Type := {
  first_field_slice : slice;
  first_n_types : nat;
  first_field_index : nat;
  second_field_slice : slice;
  second_n_types : nat;
  second_field_index : nat
}.

Definition first_object_tensor (c : config) : list Z :=
  one_hot (first_n_types c) (first_field_index c).

Definition second_object_tensor (c : config) : list Z :=
  one_hot (second_n_types c) (second_field_index c).

Definition is_first (c : config) (o : Obj) : Prop :=
  get_slice (first_field_slice c) o = first_object_tensor c.

Definition is_second (c : config) (o : Obj) : Prop :=
  get_slice (second_field_slice c) o = second_object_tensor c.

#[export] Instance is_first_dec c o : Decision (is_first c o).
Proof. unfold is_first. apply _. Defined.

#[export] Instance is_second_dec c o : Decision (is_second c o).
Proof. unfold is_second. apply _. Defined.

(** [field.eq(t).all(dim=1).sum()] *)
Definition first_object_count (c : config) (objs : Scene) : Z :=
  Z.of_nat (length (filter (is_first c) objs)).

Definition second_object_count (c : config) (objs : Scene) : Z :=
  Z.of_nat (length (filter (is_second c) objs)).

Definition evaluate (c : config) (objs : Scene) : bool :=
  bool_decide (second_object_count c objs < first_object_count c objs).

(** [l.remove(x)] drops the first occurrence, or raises [ValueError]. *)
Fixpoint list_remove (x : nat) (l : list nat) : option (list nat) :=
  match l with
  | [] => None
  | y :: l' =>
      if decide (y = x) then Some l'
      else l'' ← list_remove x l'; Some (y :: l'')
  end.

Section Balance.
Context {R : Type} `{RandomSource R}.

(** [t[idx]] for an index tensor [idx]. *)
Definition gather {S A} (t : list A) (idx : list nat) : M S (list A) :=
  or_raise IndexError (mapM (fun i => t !! i) idx).

Definition balance (c : config) (current_label : Z) : B Scene :=
  if decide (current_label <> 0) then raise ValueError else
  objs <- objects;;
  let first_count := first_object_count c objs in
  let second_count := second_object_count c objs in
  let min_objects_to_modify := second_count - first_count + 1 in
  min_objects_to_modify <-
    (if decide (second_count = Z.of_nat (length objs))
     then
       let second_object_indices :=
         nonzero_squeeze (map (fun o => bool_decide (is_second c o)) objs) in
       n <- len_squeezed second_object_indices;;
       num_second_objects_to_modify <- randint 1 (Z.of_nat n - 1);;
       let k := Z.to_nat num_second_objects_to_modify in
       perm <- on_rng (draw_randperm n);;
       second_object_indices_to_modify <-
         match second_object_indices with
         | Scalar _ => raise IndexError
         | Vector l => gather l (take k perm)
         end;;
       new_assignment_options <-
         or_raise ValueError
           (list_remove (second_field_index c) (seq 0 (second_n_types c)));;
       cs <- choices new_assignment_options k;;
       let new_assignments :=
         map (fun ch => (start (second_field_slice c) + ch)%nat) cs in
       for_each second_object_indices_to_modify (fun i =>
         write_entry i
           (start (second_field_slice c) + second_field_index c)%nat 0);;;
       for_each (zip second_object_indices_to_modify new_assignments)
         (fun ia => write_entry (fst ia) (snd ia) 1);;;
       ret (min_objects_to_modify - num_second_objects_to_modify)
     else ret min_objects_to_modify);;
  if decide (min_objects_to_modify <= 0) then objects else
  let max_objects_to_modify := Z.of_nat (length objs) - first_count in
  num_objects_to_modify <-
    randint min_objects_to_modify max_objects_to_modify;;
  (* [first_objects] is a view: the mask is read from the tensor as it
     is now *)
  objs' <- objects;;
  let valid_indices_to_modify :=
    nonzero_squeeze
      (map (fun o => negb (bool_decide (is_first c o))) objs') in
  match valid_indices_to_modify with
  | Scalar i => write_field i (first_field_slice c) (first_object_tensor c)
  | Vector l =>
      perm <- on_rng (draw_randperm (length l));;
      shuffled <- gather l perm;;
      let indices_to_modify :=
        take (Z.to_nat num_objects_to_modify) shuffled in
      for_each indices_to_modify (fun i =>
        write_field i (first_field_slice c) (first_object_tensor c))
  end;;;
  objects.
End Balance.
End ObjectCountRelation.

(** ** [IdenticalObjectsRelation] *)
Module IdenticalObjectsRelation.
Record config : Type := {
  property_field_slices : list slice
}.

(** [(rest == m).all(dim=1).any()] for [rest] a stack of N x W matrices
    and [m] one N x W matrix. *)
Definition matches_any (rest : list (list (list Z))) (m : list (list Z))
    : bool :=
  existsb
    (fun m' =>
       let eq := zip_with (zip_with Z.eqb) m' m in
       let cols := match m with r :: _ => length r | [] => 0%nat end in
       existsb id (all_over_rows cols eq))
    rest.

Definition evaluate (c : config) (objs : Scene) : bool :=
  (* cat(...).unsqueeze(0): shape 1 x N x W *)
  let object_properties := [cat_fields (property_field_slices c) objs] in
  (* for i in range(object_properties.shape[0] - 1) *)
  existsb
    (fun i =>
       match object_properties !! i with
       | Some m => matches_any (drop (S i) object_properties) m
       | None => false
       end)
    (seq 0 (length object_properties - 1)).

Definition balance {R} `{RandomSource R} (c : config) (current_label : Z)
    : B Scene :=
  if decide (current_label <> 0) then raise ValueError else
  objs <- objects;;
  ij <- two_random_indices (length objs);;
  let index_to_modify := fst ij in
  let index_to_set_next_to := snd ij in
  for_each (property_field_slices c) (fun field_slice =>
    v <- read_field index_to_set_next_to field_slice;;
    write_field index_to_modify field_slice v);;;
  objects.
End IdenticalObjectsRelation.

(** ** The shared capability set of the relations

    [ObjectRelation] declares [evaluate(objects)] and
    [balance(objects, current_label)]; the generators call them through
    [self.relation].  The [nat] is the fuel of the balancer's [while] loop,
    for the one variant that has a loop. *)
Class ObjectRelation (R : Type) (C : Type) : Type := {
  evaluate : C -> Scene -> bool;
  balance : nat -> C -> Z -> M (Scene * R) Scene
}.

#[export] Instance OneD_relation {R} `{RandomSource R}
  : ObjectRelation R OneDAdjacentRelation.config := {
  evaluate := OneDAdjacentRelation.evaluate;
  balance _ := OneDAdjacentRelation.balance
}.

#[export] Instance MultipleD_relation {R} `{RandomSource R}
  : ObjectRelation R MultipleDAdjacentRelation.config := {
  evaluate := MultipleDAdjacentRelation.evaluate;
  balance _ := MultipleDAdjacentRelation.balance
}.

#[export] Instance ColorAbove_relation {R} `{RandomSource R}
  : ObjectRelation R ColorAboveColorRelation.config := {
  evaluate := ColorAboveColorRelation.evaluate;
  balance := ColorAboveColorRelation.balance
}.

#[export] Instance ObjectCount_relation {R} `{RandomSource R}
  : ObjectRelation R ObjectCountRelation.config := {
  evaluate := ObjectCountRelation.evaluate;
  balance _ := ObjectCountRelation.balance
}.

#[export] Instance Identical_relation {R} `{RandomSource R}
  : ObjectRelation R IdenticalObjectsRelation.config := {
  evaluate := IdenticalObjectsRelation.evaluate;
  balance _ := IdenticalObjectsRelation.balance
}.

(** The five relation classes of the module as one closed variant. *)
Inductive relation : Type :=
  | OneDAdjacent (c : OneDAdjacentRelation.config)
  | MultipleDAdjacent (c : MultipleDAdjacentRelation.config)
  | ColorAboveColor (c : ColorAboveColorRelation.config)
  | ObjectCount (c : ObjectCountRelation.config)
  | IdenticalObjects (c : IdenticalObjectsRelation.config).

#[export] Instance any_relation {R} `{RandomSource R}
  : ObjectRelation R relation := {
  evaluate rel :=
    match rel with
    | OneDAdjacent c => evaluate c
    | MultipleDAdjacent c => evaluate c
    | ColorAboveColor c => evaluate c
    | ObjectCount c => evaluate c
    | IdenticalObjects c => evaluate c
    end;
  balance fuel rel :=
    match rel with
    | OneDAdjacent c => balance fuel c
    | MultipleDAdjacent c => balance fuel c
    | ColorAboveColor c => balance fuel c
    | ObjectCount c => balance fuel c
    | IdenticalObjects c => balance fuel c
    end
}.

(** ** [object_gen.py]: the batch generators *)

(** [labels.sum()] for 0/1 labels. *)
Definition positive_count (labels : list bool) : nat :=
  length (filter (fun b => b = true) labels).

(** [data[mask]] *)
Definition masked {A} (data : list A) (mask : list bool) : list A :=
  map fst (filter (fun p => snd p = true) (zip data mask)).

(** [t[idx] = vals] for an index tensor [idx]. *)
Definition scatter {A} (t : list A) (idx : list nat) (vals : list A)
    : list A :=
  foldl (fun acc p => <[fst p := snd p]> acc) t (zip idx vals).

(** [torch.cat(l)] raises [RuntimeError] on an empty Python list. *)
Definition cat_list {S A} (l : list (list A)) : M S (list A) :=
  match l with
  | [] => raise RuntimeError
  | _ => ret (concat l)
  end.

(** [t[idx]] raises [IndexError] when an index is out of range. *)
Definition index_select {S A} (t : list A) (idx : list nat) : M S (list A) :=
  or_raise IndexError (mapM (fun i => t !! i) idx).

Abbreviation batch := (list Scene * list bool)%type (only parsing).

Module ObjectGen.
Section Generators.
Context {R : Type} `{RandomSource R} {C : Type} `{ObjectRelation R C}.

(** One scene drawn from the field generators,
    [torch.cat([gen() for gen in self.field_generators.values()], dim=1)];
    the generators are defined in [object_fields.py]. *)
Variable sample_scene : R -> Scene * R.
(** [self.relation], [self.batch_size] *)
Variable relation_ : C.
Variable default_batch_size : nat.
(** Fuel handed to the relation's balancer. *)
Variable balance_fuel : nat.

Definition G (A : Type) : Type := M R A.

Definition on_gen {A} (f : R -> A * R) : G A :=
  fun r => let (a, r') := f r in (Ret a, r').

Fixpoint draw_scenes (n : nat) : G (list Scene) :=
  match n with
  | O => ret []
  | S n' =>
      s <- on_gen sample_scene;;
      rest <- draw_scenes n';;
      ret (s :: rest)
  end.

(** [ObjectGenerator.__call__] *)
Definition ObjectGenerator_call (batch_size : option nat) : G batch :=
  let batch_size := default default_batch_size batch_size in
  (* torch.stack of an empty list fails *)
  if decide (batch_size = 0%nat) then raise RuntimeError else
  batch_tensor <- draw_scenes batch_size;;
  ret (batch_tensor, map (evaluate relation_) batch_tensor).

(** *** [BalancedBatchObjectGenerator] *)

(** [while negative_count < half or positive_count < half:], one draw per
    unit of fuel. *)
Fixpoint fill_pools (fuel : nat) (batch_size half_batch_size : nat)
    (negative_examples positive_examples : list (list Scene))
    (negative_count positive_count_ : nat)
    : G (list (list Scene) * list (list Scene)) :=
  if decide (negative_count < half_batch_size
             \/ positive_count_ < half_batch_size)%nat
  then
    match fuel with
    | O => diverge
    | S fuel' =>
        dl <- ObjectGenerator_call (Some batch_size);;
        let data := fst dl in
        let labels := snd dl in
        let positive_locations := labels in
        let batch_positive_count := positive_count labels in
        let pos :=
          if decide (positive_count_ < half_batch_size)%nat
          then (positive_examples ++ [masked data positive_locations],
                (positive_count_ + batch_positive_count)%nat)
          else (positive_examples, positive_count_) in
        let neg :=
          if decide (negative_count < half_batch_size)%nat
          then (negative_examples ++ [masked data (map negb positive_locations)],
                (negative_count + (batch_size - batch_positive_count))%nat)
          else (negative_examples, negative_count) in
        fill_pools fuel' batch_size half_batch_size
                   (fst neg) (fst pos) (snd neg) (snd pos)
    end
  else ret (negative_examples, positive_examples).

Definition BalancedBatch_call (fuel : nat) (batch_size : option nat)
    : G batch :=
  let batch_size := default default_batch_size batch_size in
  if decide (batch_size = 1%nat) then ObjectGenerator_call (Some 1%nat) else
  let half_batch_size := (batch_size / 2)%nat in
  pools <- fill_pools fuel batch_size half_batch_size [] [] 0%nat 0%nat;;
  positives <- cat_list (snd pools);;
  negatives <- cat_list (fst pools);;
  let data := take half_batch_size positives
              ++ take half_batch_size negatives in
  let labels := replicate half_batch_size true
                ++ replicate half_batch_size false in
  perm <- on_gen (draw_randperm batch_size);;
  data_perm <- index_select data perm;;
  labels_perm <- index_select labels perm;;
  ret (data_perm, labels_perm).

(** *** [SmartBalancedBatchObjectGenerator] *)
Variable negative_to_positive : bool.
Variable max_recursion_depth : Z.

(** How the [while] loop of [__call__] is left: by the [return] inside
    it, or by its condition turning false.  [rounds] is the value of
    [recursion_depth] at that point. *)
Inductive loop_exit : Type :=
  | Returned (data : list Scene) (labels : list bool) (rounds : Z)
  | Fallthrough (data : list Scene) (labels : list bool)
                (positive_count_ : nat) (rounds : Z).

Fixpoint resample_rounds (fuel : nat) (half_batch_size : nat)
    (data : list Scene) (labels : list bool) (positive_count_ : nat)
    (recursion_depth : Z) : G loop_exit :=
  let more_positive_examples :=
    bool_decide (half_batch_size < positive_count_)%nat in
  (* either more positive examples and converting positives to negatives
     or vice versa *)
  if decide (more_positive_examples = negative_to_positive) then
    match fuel with
    | O => diverge
    | S fuel' =>
        let recursion_depth := recursion_depth + 1 in
        if decide (max_recursion_depth < recursion_depth)
        then raise ValueError else
        let indices_to_resample :=
          nonzero_squeeze
            (map (fun b => bool_decide (b = negative_to_positive)) labels) in
        num_to_resample <- len_squeezed indices_to_resample;;
        resampled <- ObjectGenerator_call (Some num_to_resample);;
        let idx := match indices_to_resample with
                   | Scalar i => [i]
                   | Vector l => l
                   end in
        let data := scatter data idx (fst resampled) in
        let labels := scatter labels idx (snd resampled) in
        let positive_count_ := positive_count labels in
        if decide (positive_count_ = half_batch_size)
        then ret (Returned data labels recursion_depth)
        else resample_rounds fuel' half_batch_size data labels
                             positive_count_ recursion_depth
    end
  else ret (Fallthrough data labels positive_count_ recursion_depth).

(** [self.relation.balance(scene, label)] on a scene of the batch. *)
Definition call_balance (scene : Scene) (label : Z) : G Scene :=
  fun r =>
    let res := balance balance_fuel relation_ label (scene, r) in
    (fst res, snd (snd res)).

(** [for index in target_indices:] *)
Fixpoint modify_targets (target_indices : list nat)
    (data : list Scene) (labels : list bool) : G batch :=
  match target_indices with
  | [] => ret (data, labels)
  | index :: rest =>
      scene <- or_raise IndexError (data !! index);;
      scene' <- call_balance scene
                  (if negb negative_to_positive then 1 else 0);;
      let data := <[index := scene']> data in
      let labels := <[index := negative_to_positive]> labels in
      modify_targets rest data labels
  end.

(** [__call__], returning besides the batch the number of correction
    rounds ([recursion_depth]) it went through. *)
Definition SmartBalancedBatch_call_rounds (batch_size : option nat)
    (recursion_depth : Z) : G (batch * Z) :=
  let batch_size := default default_batch_size batch_size in
  if decide (batch_size = 1%nat)
  then b <- ObjectGenerator_call (Some 1%nat);; ret (b, recursion_depth)
  else
  if decide (max_recursion_depth < recursion_depth)
  then raise ValueError else
  dl <- ObjectGenerator_call (Some batch_size);;
  let data := fst dl in
  let labels := snd dl in
  let positive_count_ := positive_count labels in
  let half_batch_size := (batch_size / 2)%nat in
  if decide (positive_count_ = half_batch_size)
  then ret ((data, labels), recursion_depth) else
  ex <- resample_rounds (Z.to_nat (max_recursion_depth - recursion_depth) + 1)
          half_batch_size data labels positive_count_ recursion_depth;;
  match ex with
  | Returned data labels rounds => ret ((data, labels), rounds)
  | Fallthrough data labels positive_count_ rounds =>
      (* At this point, we're guaranteed to be able to modify in the
         direction the balancer supports *)
      let indices_to_modify :=
        nonzero_squeeze
          (map (fun b => bool_decide (b = negb negative_to_positive))
               labels) in
      let num_samples_to_modify :=
        Z.to_nat (Z.abs (Z.of_nat positive_count_
                         - Z.of_nat half_batch_size)) in
      m <- shape0_squeezed indices_to_modify;;
      perm <- on_gen (draw_randperm m);;
      target_indices <-
        match indices_to_modify with
        | Scalar _ => raise IndexError
        | Vector l => index_select l (take num_samples_to_modify perm)
        end;;
      b <- modify_targets target_indices data labels;;
      ret (b, rounds)
  end.

Definition SmartBalancedBatch_call (batch_size : option nat)
    (recursion_depth : Z) : G batch :=
  br <- SmartBalancedBatch_call_rounds batch_size recursion_depth;;
  ret (fst br).
End Generators.
End ObjectGen.

(** ** [quinn_objects.py]: the structured dataset builders *)

(** The draws of a [numpy.random.Generator] the builders use.
    [default_rng seed] is the generator [np.random.default_rng(seed)] of
    a seed that is not negative. *)
Class NumpyGenerator (G : Type) : Type := {
  default_rng : Z -> G;
  np_shuffle : forall {A : Type}, list A -> G -> list A * G;
  np_permutation : nat -> G -> list nat * G
}.

Class NumpyGeneratorLaws (G : Type) `{NumpyGenerator G} : Prop := {
  np_shuffle_perm : forall (A : Type) (l : list A) g,
    Permutation (fst (np_shuffle l g)) l;
  np_permutation_perm : forall n g,
    Permutation (fst (np_permutation n g)) (seq 0 n)
}.

(** A deterministic generator for running the builders on concrete
    configurations: the state counts the draws, a shuffle reverses. *)
#[export] Instance reversing_generator : NumpyGenerator nat := {
  default_rng _ := 0%nat;
  np_shuffle _ l g := (reverse l, S g);
  np_permutation n g := (reverse (seq 0 n), S g)
}.

(** [range(a, b)] *)
Definition py_range (a b : Z) : list Z := seqZ a (b - a).

(** The cut point of the Python slices [l[:m]] and [l[m:]]: a negative
    bound counts from the end. *)
Definition py_cut {A} (l : list A) (m : Z) : nat :=
  if decide (m < 0) then Z.to_nat (Z.max 0 (Z.of_nat (length l) + m))
  else Z.to_nat m.

Definition py_slice_to {A} (l : list A) (m : Z) : list A :=
  take (py_cut l m) l.

Definition py_slice_from {A} (l : list A) (m : Z) : list A :=
  drop (py_cut l m) l.

(** [int(np.floor(n * prop))]; the proportion is a float in the source and
    an exact rational here, so the cut can differ from the source's where
    the float product rounds across an integer.  The properties below that
    go through this cut hold wherever it falls. *)
Definition floor_prop (n : nat) (prop : Q) : Z :=
  Qfloor (inject_Z (Z.of_nat n) * prop).

Abbreviation location := (Z * Z)%type (only parsing).

(** [itertools.product(range(a, b), range(c, d))] as [np.array] pairs. *)
Definition grid (a b c d : Z) : list location :=
  list_prod (py_range a b) (py_range c d).

Module QuinnObjects.

(** The attributes of this file's [ObjectGenerator] the builders read. *)
Record ObjectGenerator : Type := {
  og_seed : Z;
  reference_object_length : Z;
  target_object_length : Z
}.

(** The (D, O, x_max, y_max) tensor of a [MinimalSpatialDataset]. *)
Abbreviation SpatialTensor := (list (list (list (list Z)))) (only parsing).

(** [MinimalDataset] and its spatial subclasses: the stacked objects,
    their labels, and [spatial_objects] when there is one. *)
Record Dataset : Type := {
  ds_objects : list Scene;
  ds_labels : list Z;
  ds_spatial_objects : option SpatialTensor
}.

(** [len(dataset)] *)
Definition ds_len (d : Dataset) : nat := length (ds_objects d).

(** [self.spatial_dataset]: false, true, or the string ['simplified']. *)
Inductive spatial_mode : Type :=
  | NotSpatial
  | Spatial
  | Simplified.

Definition TRAIN_REFERENCE_TEST_TARGET : string := "train_reference_test_target".
Definition TRAIN_REFERENCE_MIDDLE_TARGET : string := "train_reference_middle_target".
Definition TEST_REFERENCE_TRAIN_TARGET : string := "test_reference_train_target".
Definition TEST_REFERENCE_TEST_TARGET : string := "test_reference_test_target".
Definition TEST_REFERENCE_MIDDLE_TARGET : string := "test_reference_middle_target".

Section Builders.
Context {G : Type} `{NumpyGenerator G}.

(** A draw from a generator reached through the state [S]. *)
Definition on_np {S A} (get_g : S -> G) (set_g : G -> S -> S)
    (f : G -> A * G) : M S A :=
  fun s => let (a, g') := f (get_g s) in (Ret a, set_g g' s).

(** [np.random.default_rng(seed)]: a negative seed raises [ValueError]. *)
Definition np_default_rng (seed_ : Z) : outcome G :=
  if decide (seed_ < 0) then Raise ValueError else Ret (default_rng seed_).

(** [QuinnDatasetGenerator._split_train_test], on [self.rng]. *)
Definition _split_train_test {A} (items : list A) (prop_train : option Q)
    (max_train_index : option Z) : M G (list A * list A) :=
  match prop_train, max_train_index with
  | None, None => raise ValueError
  | _, _ =>
      items <- on_np id (fun g _ => g) (np_shuffle items);;
      let max_train_index :=
        match max_train_index, prop_train with
        | Some m, _ => m
        | None, Some p => floor_prop (length items) p
        | None, None => 0
        end in
      ret (py_slice_to items max_train_index,
           py_slice_from items max_train_index)
  end.

(** The attributes of a [QuinnDatasetGenerator] instance. *)
Record QuinnDatasetGenerator : Type := {
  object_generator : ObjectGenerator;
  x_max : Z;
  y_max : Z;
  seed : Z;
  rng : G;
  add_neither_train : bool;
  add_neither_test : bool;
  prop_train_reference_object_locations : option Q;
  reference_object_x_margin : Z;
  reference_object_y_margin_bottom : Z;
  reference_object_y_margin_top : Z;
  train_reference_object_locations : list location;
  test_reference_object_locations : list location;
  spatial_dataset : spatial_mode;
  prop_train_to_validation : option Q;
  train_dataset : option Dataset;
  validation_dataset : option Dataset;
  test_datasets : option (list (string * Dataset))
}.

Definition set_rng (g : G) (b : QuinnDatasetGenerator)
    : QuinnDatasetGenerator :=
  {| object_generator := object_generator b; x_max := x_max b;
     y_max := y_max b; seed := seed b; rng := g;
     add_neither_train := add_neither_train b;
     add_neither_test := add_neither_test b;
     prop_train_reference_object_locations :=
       prop_train_reference_object_locations b;
     reference_object_x_margin := reference_object_x_margin b;
     reference_object_y_margin_bottom := reference_object_y_margin_bottom b;
     reference_object_y_margin_top := reference_object_y_margin_top b;
     train_reference_object_locations := train_reference_object_locations b;
     test_reference_object_locations := test_reference_object_locations b;
     spatial_dataset := spatial_dataset b;
     prop_train_to_validation := prop_train_to_validation b;
     train_dataset := train_dataset b;
     validation_dataset := validation_dataset b;
     test_datasets := test_datasets b |}.

Definition set_train_dataset (d : option Dataset) (b : QuinnDatasetGenerator)
    : QuinnDatasetGenerator :=
  {| object_generator := object_generator b; x_max := x_max b;
     y_max := y_max b; seed := seed b; rng := rng b;
     add_neither_train := add_neither_train b;
     add_neither_test := add_neither_test b;
     prop_train_reference_object_locations :=
       prop_train_reference_object_locations b;
     reference_object_x_margin := reference_object_x_margin b;
     reference_object_y_margin_bottom := reference_object_y_margin_bottom b;
     reference_object_y_margin_top := reference_object_y_margin_top b;
     train_reference_object_locations := train_reference_object_locations b;
     test_reference_object_locations := test_reference_object_locations b;
     spatial_dataset := spatial_dataset b;
     prop_train_to_validation := prop_train_to_validation b;
     train_dataset := d;
     validation_dataset := validation_dataset b;
     test_datasets := test_datasets b |}.

Definition set_validation_dataset (d : option Dataset)
    (b : QuinnDatasetGenerator) : QuinnDatasetGenerator :=
  {| object_generator := object_generator b; x_max := x_max b;
     y_max := y_max b; seed := seed b; rng := rng b;
     add_neither_train := add_neither_train b;
     add_neither_test := add_neither_test b;
     prop_train_reference_object_locations :=
       prop_train_reference_object_locations b;
     reference_object_x_margin := reference_object_x_margin b;
     reference_object_y_margin_bottom := reference_object_y_margin_bottom b;
     reference_object_y_margin_top := reference_object_y_margin_top b;
     train_reference_object_locations := train_reference_object_locations b;
     test_reference_object_locations := test_reference_object_locations b;
     spatial_dataset := spatial_dataset b;
     prop_train_to_validation := prop_train_to_validation b;
     train_dataset := train_dataset b;
     validation_dataset := d;
     test_datasets := test_datasets b |}.

Definition set_test_datasets (d : option (list (string * Dataset)))
    (b : QuinnDatasetGenerator) : QuinnDatasetGenerator :=
  {| object_generator := object_generator b; x_max := x_max b;
     y_max := y_max b; seed := seed b; rng := rng b;
     add_neither_train := add_neither_train b;
     add_neither_test := add_neither_test b;
     prop_train_reference_object_locations :=
       prop_train_reference_object_locations b;
     reference_object_x_margin := reference_object_x_margin b;
     reference_object_y_margin_bottom := reference_object_y_margin_bottom b;
     reference_object_y_margin_top := reference_object_y_margin_top b;
     train_reference_object_locations := train_reference_object_locations b;
     test_reference_object_locations := test_reference_object_locations b;
     spatial_dataset := spatial_dataset b;
     prop_train_to_validation := prop_train_to_validation b;
     train_dataset := train_dataset b;
     validation_dataset := validation_dataset b;
     test_datasets := d |}.

(** The candidate reference-object locations computed by [__init__]. *)
Definition possible_reference_object_locations (og : ObjectGenerator)
    (x_max_ y_max_ x_margin y_margin_bottom y_margin_top : Z)
    : list location :=
  grid x_margin (x_max_ - x_margin - reference_object_length og)
       y_margin_bottom (y_max_ - y_margin_top).

(** [QuinnDatasetGenerator.__init__] *)
Definition QuinnDatasetGenerator_init (og : ObjectGenerator)
    (x_max_ y_max_ seed_ : Z) (add_neither_train_ add_neither_test_ : bool)
    (prop_train_reference : option Q) (x_margin : option Z)
    (y_margin_bottom y_margin_top : Z) (spatial_dataset_ : spatial_mode)
    (prop_train_to_validation_ : option Q)
    : outcome QuinnDatasetGenerator :=
  match np_default_rng seed_ with
  | Raise e => Raise e
  | Diverge => Diverge
  | Ret rng0 =>
  let x_margin := default 0 x_margin in
  let candidates :=
    possible_reference_object_locations og x_max_ y_max_ x_margin
      y_margin_bottom y_margin_top in
  match _split_train_test candidates prop_train_reference None rng0 with
  | (Ret tt_, rng1) =>
      Ret {| object_generator := og;
             x_max := x_max_;
             y_max := y_max_;
             seed := seed_;
             rng := rng1;
             add_neither_train := add_neither_train_;
             add_neither_test := add_neither_test_;
             prop_train_reference_object_locations := prop_train_reference;
             reference_object_x_margin := x_margin;
             reference_object_y_margin_bottom := y_margin_bottom;
             reference_object_y_margin_top := y_margin_top;
             train_reference_object_locations := fst tt_;
             test_reference_object_locations := snd tt_;
             spatial_dataset := spatial_dataset_;
             prop_train_to_validation := prop_train_to_validation_;
             train_dataset := None;
             validation_dataset := None;
             test_datasets := None |}
  | (Raise e, _) => Raise e
  | (Diverge, _) => Diverge
  end
  end.

(** *** [ReferenceInductiveBias] and its two subclasses *)
Record ReferenceInductiveBias : Type := {
  rib_base : QuinnDatasetGenerator;
  target_object_grid_size : Z;
  above_or_between_left : Z;
  n_train_target_object_locations : Z;
  train_target_object_locations : list location;
  test_target_object_locations : list location;
  middle_target_object_locations : list location
}.

(** [m is None or m < least]: the margin is raised to [least]. *)
Definition at_least (least : Z) (m : option Z) : Z :=
  match m with
  | None => least
  | Some m => if decide (m < least) then least else m
  end.

Definition ReferenceInductiveBias_init (og : ObjectGenerator)
    (x_max_ y_max_ seed_ : Z) (target_object_grid_size_ : Z)
    (add_neither_train_ : bool) (above_or_between_left_ : option Z)
    (n_train_target_object_locations_ : option Z)
    (prop_train_reference : option Q) (x_margin : option Z)
    (y_margin_bottom y_margin_top : option Z) (add_neither_test_ : bool)
    (spatial_dataset_ : spatial_mode) (prop_train_to_validation_ : option Q)
    : outcome ReferenceInductiveBias :=
  let y_margin_bottom := at_least target_object_grid_size_ y_margin_bottom in
  let y_margin_top := at_least target_object_grid_size_ y_margin_top in
  match QuinnDatasetGenerator_init og x_max_ y_max_ seed_ add_neither_train_
          add_neither_test_ prop_train_reference x_margin y_margin_bottom
          y_margin_top spatial_dataset_ prop_train_to_validation_ with
  | Ret base =>
      let above := default (seed_ `mod` 2) above_or_between_left_ in
      let n_train :=
        default (target_object_grid_size_ * (target_object_grid_size_ - 1))
                n_train_target_object_locations_ in
      let possible_target_object_locations :=
        grid 0 target_object_grid_size_ 1 (target_object_grid_size_ + 1) in
      match _split_train_test possible_target_object_locations None
              (Some n_train) (rng base) with
      | (Ret tt_, g) =>
          Ret {| rib_base := set_rng g base;
                 target_object_grid_size := target_object_grid_size_;
                 above_or_between_left := above;
                 n_train_target_object_locations := n_train;
                 train_target_object_locations := fst tt_;
                 test_target_object_locations := snd tt_;
                 middle_target_object_locations :=
                   grid target_object_grid_size_
                        (reference_object_length og
                         - target_object_grid_size_)
                        1 (target_object_grid_size_ + 1) |}
      | (Raise e, _) => Raise e
      | (Diverge, _) => Diverge
      end
  | Raise e => Raise e
  | Diverge => Diverge
  end.

Definition AboveBelowReferenceInductiveBias_init :=
  ReferenceInductiveBias_init.

Definition BetweenReferenceInductiveBias_init (og : ObjectGenerator)
    (x_max_ y_max_ seed_ : Z) (target_object_grid_size_ : Z)
    (add_neither_train_ : bool) (above_or_between_left_ : option Z)
    (n_train_target_object_locations_ : option Z)
    (prop_train_reference : option Q) (x_margin : option Z)
    (y_margin_bottom y_margin_top : option Z) (add_neither_test_ : bool)
    (spatial_dataset_ : spatial_mode) (prop_train_to_validation_ : option Q)
    : outcome ReferenceInductiveBias :=
  (* We assume that the generated reference object location is for the
     bottom reference object *)
  let min_y_margin := 2 * target_object_grid_size_ + 1 in
  let y_margin_top := at_least min_y_margin y_margin_top in
  ReferenceInductiveBias_init og x_max_ y_max_ seed_ target_object_grid_size_
    add_neither_train_ above_or_between_left_
    n_train_target_object_locations_ prop_train_reference x_margin
    y_margin_bottom (Some y_margin_top) add_neither_test_ spatial_dataset_
    prop_train_to_validation_.
(** *** [OneOrTwoReferenceObjects] *)
Record OneOrTwoReferenceObjects : Type := {
  oot_base : QuinnDatasetGenerator;
  between_relation : bool;
  two_reference_objects : bool;
  target_object_grid_height : Z;
  prop_train_target_object_locations : option Q;
  single_reference_height : Z;
  bottom_reference_height : Z;
  top_reference_height : Z;
  train_target_locations : list location;
  test_target_locations : list location
}.

(** [[self._split_train_test(locations, prop) for locations in
    all_locations]], drawing from [self.rng] band after band. *)
Fixpoint split_bands (all_locations : list (list location))
    (prop : option Q) : M G (list (list location * list location)) :=
  match all_locations with
  | [] => ret []
  | locations :: rest =>
      sp <- _split_train_test locations prop None;;
      sps <- split_bands rest prop;;
      ret (sp :: sps)
  end.

(** [_generate_and_split_target_object_locations] *)
Definition _generate_and_split_target_object_locations
    (og : ObjectGenerator) (two_reference_objects_ : bool)
    (single bottom top height : Z) (prop : option Q)
    : M G (list location * list location) :=
  let y_ranges :=
    if two_reference_objects_
    then [(0, bottom); (bottom, top); (top, height)]
    else [(0, single); (single, height)] in
  let all_locations :=
    map (fun yr => grid 0 (reference_object_length og) (fst yr) (snd yr))
        y_ranges in
  split_locations <- split_bands all_locations prop;;
  (* the bands' train parts summed into one list, and their test parts *)
  ret (concat (map fst split_locations), concat (map snd split_locations)).

(** [m is None or m < height]: the top margin becomes
    [height + 1 + int(two_reference_objects)]. *)
Definition oot_y_margin_top (height : Z) (two : bool) (m : option Z) : Z :=
  match m with
  | None => height + 1 + (if two then 1 else 0)
  | Some m =>
      if decide (m < height) then height + 1 + (if two then 1 else 0)
      else m
  end.

Definition OneOrTwoReferenceObjects_init (og : ObjectGenerator)
    (x_max_ y_max_ seed_ : Z) (between_relation_ : bool)
    (two_reference_objects_ : option bool) (add_neither_train_ : bool)
    (prop_train_target : option Q) (prop_train_reference : option Q)
    (target_object_grid_height_ : Z) (x_margin : option Z)
    (y_margin_bottom y_margin_top : option Z) (add_neither_test_ : bool)
    (spatial_dataset_ : spatial_mode) (prop_train_to_validation_ : option Q)
    : outcome OneOrTwoReferenceObjects :=
  let two := default between_relation_ two_reference_objects_ in
  if decide (target_object_grid_height_ `mod` 4 <> 0) then Raise ValueError
  else
  let y_margin_bottom := default 0 y_margin_bottom in
  let y_margin_top :=
    oot_y_margin_top target_object_grid_height_ two y_margin_top in
  match QuinnDatasetGenerator_init og x_max_ y_max_ seed_ add_neither_train_
          add_neither_test_ prop_train_reference x_margin y_margin_bottom
          y_margin_top spatial_dataset_ prop_train_to_validation_ with
  | Ret base =>
      let single := target_object_grid_height_ `div` 2 in
      let bottom := target_object_grid_height_ `div` 4 in
      let top := (target_object_grid_height_ * 3) `div` 4 in
      match _generate_and_split_target_object_locations og two single
              bottom top target_object_grid_height_ prop_train_target
              (rng base) with
      | (Ret tt_, g) =>
          Ret {| oot_base := set_rng g base;
                 between_relation := between_relation_;
                 two_reference_objects := two;
                 target_object_grid_height := target_object_grid_height_;
                 prop_train_target_object_locations := prop_train_target;
                 single_reference_height := single;
                 bottom_reference_height := bottom;
                 top_reference_height := top;
                 train_target_locations := fst tt_;
                 test_target_locations := snd tt_ |}
      | (Raise e, _) => Raise e
      | (Diverge, _) => Diverge
      end
  | Raise e => Raise e
  | Diverge => Diverge
  end.

(** *** The dataset accessors of [QuinnDatasetGenerator]

    [_create_training_dataset] and [_create_test_datasets] are the
    methods each paradigm overrides; [spatial_dataset_class] stands for
    the constructors of [MinimalSpatialDataset] ([false]) and
    [SimplifiedSpatialDataset] ([true]), which scatter the objects into a
    canvas-shaped tensor. *)
Section Accessors.
Variable _create_training_dataset : M QuinnDatasetGenerator Dataset.
Variable _create_test_datasets
  : M QuinnDatasetGenerator (list (string * Dataset)).
Variable spatial_dataset_class
  : bool -> list Scene -> list Z -> Z -> Z -> outcome SpatialTensor.

(** [_create_dataset] on tensors. *)
Definition _create_dataset (objs : list Scene) (labels : list Z)
    : M QuinnDatasetGenerator Dataset :=
  self <- get;;
  match spatial_dataset self with
  | NotSpatial =>
      ret {| ds_objects := objs; ds_labels := labels;
             ds_spatial_objects := None |}
  | mode =>
      match spatial_dataset_class
              (match mode with Simplified => true | _ => false end)
              objs labels (x_max self) (y_max self) with
      | Ret t => ret {| ds_objects := objs; ds_labels := labels;
                        ds_spatial_objects := Some t |}
      | Raise e => raise e
      | Diverge => diverge
      end
  end.

(** [_split_dataset] *)
Definition _split_dataset (dataset : Dataset) (prop_split : option Q)
    (split_index : option Z) : M QuinnDatasetGenerator (Dataset * Dataset) :=
  match prop_split, split_index with
  | None, None => raise ValueError
  | _, _ =>
      perm <- on_np rng set_rng (np_permutation (ds_len dataset));;
      let split_index :=
        match split_index, prop_split with
        | Some i, _ => i
        | None, Some p => floor_prop (ds_len dataset) p
        | None, None => 0
        end in
      let first_split := py_slice_to perm split_index in
      let second_split := py_slice_from perm split_index in
      o1 <- index_select (ds_objects dataset) first_split;;
      l1 <- index_select (ds_labels dataset) first_split;;
      d1 <- _create_dataset o1 l1;;
      o2 <- index_select (ds_objects dataset) second_split;;
      l2 <- index_select (ds_labels dataset) second_split;;
      d2 <- _create_dataset o2 l2;;
      ret (d1, d2)
  end.

Definition modify {S} (f : S -> S) : M S unit :=
  fun s => (Ret tt, f s).

Definition get_training_dataset : M QuinnDatasetGenerator Dataset :=
  self <- get;;
  match train_dataset self with
  | Some d => ret d
  | None =>
      d <- _create_training_dataset;;
      modify (set_train_dataset (Some d));;;
      self <- get;;
      match prop_train_to_validation self with
      | Some p =>
          if Qlt_le_dec 0 p then
            tv <- _split_dataset d (Some (1 - p)%Q) None;;
            modify (set_train_dataset (Some (fst tv)));;;
            modify (set_validation_dataset (Some (snd tv)));;;
            ret (fst tv)
          else ret d
      | None => ret d
      end
  end.

Definition get_validation_dataset
    : M QuinnDatasetGenerator (option Dataset) :=
  self <- get;;
  match validation_dataset self with
  | Some d => ret (Some d)
  | None =>
      match prop_train_to_validation self with
      | Some p =>
          if Qlt_le_dec 0 p then get_training_dataset;;; ret tt
          else ret tt
      | None => ret tt
      end;;;
      self <- get;;
      ret (validation_dataset self)
  end.

Definition get_test_datasets
    : M QuinnDatasetGenerator (list (string * Dataset)) :=
  self <- get;;
  match test_datasets self with
  | Some ds => ret ds
  | None =>
      ds <- _create_test_datasets;;
      modify (set_test_datasets (Some ds));;;
      ret ds
  end.
End Accessors.
End Builders.
End QuinnObjects.

(** ** [quinn_objects.py]: the object generators and the datasets built
    from them *)

(** The other draws of a [numpy.random.Generator] the file uses:
    [rng.integers(low, high)], [rng.choice(a, size)] and
    [rng.uniform()]. *)
Class NumpySampler (G : Type) : Type := {
  np_integers : Z -> Z -> G -> Z * G;
  np_choice : list Z -> nat -> G -> list Z * G;
  np_uniform : G -> Q * G
}.

Class NumpySamplerLaws (G : Type) `{NumpySampler G} : Prop := {
  np_integers_range : forall low high g,
    low < high -> low <= fst (np_integers low high g) < high;
  np_choice_spec : forall a k g,
    a <> [] \/ k = 0%nat ->
    length (fst (np_choice a k g)) = k /\
    Forall (fun x => x ∈ a) (fst (np_choice a k g));
  np_uniform_range : forall g,
    (0 <= fst (np_uniform g))%Q /\ (fst (np_uniform g) < 1)%Q
}.

(** A deterministic sampler for running the definitions: the state counts
    the draws, [integers] returns [low], [choice] repeats the first
    option and [uniform] returns 1/4. *)
#[export] Instance counting_sampler : NumpySampler nat := {
  np_integers low _ g := (low, S g);
  np_choice a k g := (replicate k (hd 0 a), S g);
  np_uniform g := ((1 # 4)%Q, S g)
}.

Module QuinnDatasets.
Import QuinnObjects.

(** [ObjectGeneratorWithSize] ([with_size]) or [ObjectGeneratorWithoutSize],
    with the attributes [ObjectGenerator.__init__] stores. *)
Record ObjectGeneratorConfig : Type := {
  og_lengths : ObjectGenerator;
  n_reference_types : Z;
  n_train_target_types : Z;
  n_test_target_types : Z;
  with_size : bool
}.

Definition n_types (og : ObjectGeneratorConfig) : Z :=
  n_reference_types og + n_train_target_types og + n_test_target_types og.

Definition n_non_type_fields (og : ObjectGeneratorConfig) : Z :=
  if with_size og then 3 else 2.

(** [get_type_slice] *)
Definition get_type_slice (og : ObjectGeneratorConfig) : Z * Z :=
  (n_non_type_fields og, n_non_type_fields og + n_types og).

(** [a + b] on [np.array] pairs. *)
Definition loc_add (a b : location) : location :=
  (fst a + fst b, snd a + snd b).

(** [int(b)] *)
Definition int_of_bool (b : bool) : Z := if b then 1 else 0.

Section Sampling.
Context {G : Type} `{NumpySampler G}.

(** [rng.integers(low, high)] raises [ValueError] on an empty range. *)
Definition integers (low high : Z) : M G Z :=
  if decide (low < high)
  then fun g => let (z, g') := np_integers low high g in (Ret z, g')
  else raise ValueError.

Definition _sample_type (og : ObjectGeneratorConfig) (target train : bool)
    : M G Z :=
  if negb target then (* reference *)
    if decide (n_reference_types og <= 1) then ret 0
    else integers 0 (n_reference_types og)
  else if train || bool_decide (n_test_target_types og = 0) then
    if decide (n_train_target_types og <= 1)
    then ret (n_reference_types og) (* 0-based, so this is the first index *)
    else integers (n_reference_types og)
                  (n_reference_types og + n_train_target_types og)
  (* test and we have test only target types *)
  else if decide (n_test_target_types og = 1)
  then ret (n_reference_types og + n_train_target_types og)
  else integers (n_reference_types og + n_train_target_types og)
                (n_types og).

(** [np.zeros(n_types)] refuses a negative size; [one_hot[n] = 1] takes
    a negative index from the end and raises [IndexError] out of range. *)
Definition _to_one_hot {S} (n n_types_ : Z) : M S (list Z) :=
  if decide (n_types_ < 0) then raise ValueError else
  if decide (0 <= n < n_types_)
  then ret (one_hot (Z.to_nat n_types_) (Z.to_nat n))
  else if decide (- n_types_ <= n < 0)
  then ret (one_hot (Z.to_nat n_types_) (Z.to_nat (n_types_ + n)))
  else raise IndexError.

Definition _sample_type_one_hot (og : ObjectGeneratorConfig)
    (target train : bool) : M G (list Z) :=
  n <- _sample_type og target train;;
  _to_one_hot n (n_types og).

(** The rows of an object of the given length at [(x, y)]: one row
    [x; y; length; type] with a size field, and without it one row
    [x + j; y; type] for each cell, concatenated by [torch.cat]. *)
Definition object_rows (og : ObjectGeneratorConfig) (target train : bool)
    (length_ x y : Z) : M G Scene :=
  if with_size og then
    object_type <- _sample_type_one_hot og target train;;
    ret [[x; y; length_] ++ object_type]
  else
    object_type <- _sample_type_one_hot og target train;;
    cat_list (map (fun j => [[x + j; y] ++ object_type])
                  (py_range 0 length_)).

Definition reference_object (og : ObjectGeneratorConfig) (x y : Z)
    (train : bool) : M G Scene :=
  object_rows og false train (reference_object_length (og_lengths og)) x y.

Definition target_object (og : ObjectGeneratorConfig) (x y : Z)
    (train : bool) : M G Scene :=
  object_rows og true train (target_object_length (og_lengths og)) x y.

(** [[f(x) for x in l]], the calls in order. *)
Fixpoint for_list {S A B} (l : list A) (f : A -> M S B) : M S (list B) :=
  match l with
  | [] => ret []
  | x :: l' => y <- f x;; ys <- for_list l' f;; ret (y :: ys)
  end.

(** [QuinnDatasetGenerator.create_input]: the target object's rows, then
    those of each reference object. *)
Definition create_input (og : ObjectGeneratorConfig) (target : location)
    (references : list location) (train : bool) : M G Scene :=
  t <- target_object og (fst target) (snd target) train;;
  rs <- for_list references (fun reference =>
          reference_object og (fst reference) (snd reference) train);;
  cat_list (t :: rs).
End Sampling.

(** [torch.stack(objects)]: the list must not be empty and its tensors
    must have one shape. *)
Definition same_shape (s s' : Scene) : bool :=
  bool_decide (map (fun row => length row) s
               = map (fun row => length row) s').

Definition stack {S} (objs : list Scene) : M S (list Scene) :=
  match objs with
  | [] => raise RuntimeError
  | s :: rest =>
      if forallb (same_shape s) rest then ret objs else raise RuntimeError
  end.

(** The dataset-creating methods.  The builder's [self.object_generator]
    is the argument [og] here: the builder record keeps only the lengths
    its constructor reads, and [og_lengths og] are those lengths. *)
Section Datasets.
Context {G : Type} `{NumpyGenerator G} `{NumpySampler G}.
Local Abbreviation Builder := (@QuinnDatasetGenerator G).

(** What a dataset-creating method works on: the builder's [self.rng],
    the object generator's own [rng], and the local lists [objects] and
    [labels] it appends to. *)
Record building : Type := {
  self_rng : G;
  generator_rng : G;
  objects_ : list Scene;
  labels_ : list Z
}.

Definition on_self_rng {A} (f : G -> A * G) : M building A :=
  fun st =>
    let (a, g') := f (self_rng st) in
    (Ret a, {| self_rng := g'; generator_rng := generator_rng st;
               objects_ := objects_ st; labels_ := labels_ st |}).

Definition on_generator {A} (m : M G A) : M building A :=
  fun st =>
    let (o, g') := m (generator_rng st) in
    (o, {| self_rng := self_rng st; generator_rng := g';
           objects_ := objects_ st; labels_ := labels_ st |}).

(** [objects.append(s)] *)
Definition append_object (s : Scene) : M building unit :=
  fun st =>
    (Ret tt, {| self_rng := self_rng st; generator_rng := generator_rng st;
                objects_ := objects_ st ++ [s]; labels_ := labels_ st |}).

(** [labels.extend(l)] *)
Definition extend_labels (l : list Z) : M building unit :=
  fun st =>
    (Ret tt, {| self_rng := self_rng st; generator_rng := generator_rng st;
                objects_ := objects_ st; labels_ := labels_ st ++ l |}).

(** [objects.append(self.create_input(target, *references, train=train))] *)
Definition append_input (og : ObjectGeneratorConfig) (target : location)
    (references : list location) (train : bool) : M building unit :=
  o <- on_generator (create_input og target references train);;
  append_object o.

(** [self.rng.choice(a, size)] raises [ValueError] when there is nothing
    to choose from and something is asked for. *)
Definition choice (a : list Z) (size : nat) : M building (list Z) :=
  if decide (a = [] /\ size <> 0%nat) then raise ValueError
  else on_self_rng (np_choice a size).

Variable spatial_dataset_class
  : bool -> list Scene -> list Z -> Z -> Z -> outcome SpatialTensor.

(** [self._create_dataset(objects, labels)] on the two Python lists:
    [MinimalDataset.__init__] stacks the objects. *)
Definition _create_dataset_of_lists (self : Builder) : M building Dataset :=
  fun st =>
    match stack (objects_ st) st with
    | (Ret stacked, _) =>
        match _create_dataset spatial_dataset_class stacked (labels_ st) self
        with
        | (Ret d, _) => (Ret d, st)
        | (Raise e, _) => (Raise e, st)
        | (Diverge, _) => (Diverge, st)
        end
    | (Raise e, _) => (Raise e, st)
    | (Diverge, _) => (Diverge, st)
    end.

(** A method that starts with [objects = []] and [labels = []] and ends
    with [return self._create_dataset(objects, labels)]; its state
    outside are the two generators. *)
Definition with_fresh_lists (self : Builder) (body : M building unit)
    : M (G * G) Dataset :=
  fun gs =>
    let st0 := {| self_rng := fst gs; generator_rng := snd gs;
                  objects_ := []; labels_ := [] |} in
    let (o, st) := (body;;; _create_dataset_of_lists self) st0 in
    (o, (self_rng st, generator_rng st)).

(** The "neither" examples of one reference location: targets at random
    places left or right of the reference object. *)
Definition append_neither (self : Builder) (og : ObjectGeneratorConfig)
    (corner : location) (references : list location) (count : nat)
    (train : bool) : M building unit :=
  let valid_x_locations :=
    py_range 0 (fst corner)
    ++ py_range (fst corner + reference_object_length (og_lengths og))
                (x_max self) in
  neither_x_locations <- choice valid_x_locations count;;
  neither_y_locations <- choice (py_range 0 (y_max self)) count;;
  let neither_locations := zip neither_x_locations neither_y_locations in
  for_each neither_locations (fun loc =>
    append_input og loc references train;;;
    extend_labels [0]).

(** *** [AboveBelowReferenceInductiveBias] *)
Definition AboveBelow_create_left_right_dataset (self : ReferenceInductiveBias)
    (og : ObjectGeneratorConfig) (reference_locations target_locations
      : list location) (train : bool) : M (G * G) Dataset :=
  with_fresh_lists (rib_base self) (
    let add_neither :=
      if train then add_neither_train (rib_base self)
      else add_neither_test (rib_base self) in
    for_each reference_locations (fun reference_location =>
      let reference_end :=
        loc_add reference_location
          (reference_object_length (og_lengths og)
           - target_object_grid_size self, 0) in
      for_each target_locations (fun target_location =>
        let target_y_below := loc_add target_location (0, -4) in
        (if decide (above_or_between_left self <> 0) then
           append_input og (loc_add reference_location target_location)
             [reference_location] train;;;
           append_input og (loc_add reference_end target_y_below)
             [reference_location] train
         else
           append_input og (loc_add reference_end target_location)
             [reference_location] train;;;
           append_input og (loc_add reference_location target_y_below)
             [reference_location] train);;;
        extend_labels [0 + int_of_bool add_neither;
                       1 + int_of_bool add_neither]);;;
      if add_neither
      then append_neither (rib_base self) og reference_location
             [reference_location] (length target_locations) train
      else ret tt)).

Definition AboveBelow_create_middle_dataset (self : ReferenceInductiveBias)
    (og : ObjectGeneratorConfig) (reference_locations : list location)
    (middle_locations : option (list location)) : M (G * G) Dataset :=
  with_fresh_lists (rib_base self) (
    let middle_locations :=
      default (middle_target_object_locations self) middle_locations in
    for_each reference_locations (fun reference_location =>
      for_each middle_locations (fun target_location =>
        let target_y_below := loc_add target_location (0, -4) in
        append_input og (loc_add reference_location target_location)
          [reference_location] false;;;
        append_input og (loc_add reference_location target_y_below)
          [reference_location] false;;;
        extend_labels
          [0 + int_of_bool (add_neither_train (rib_base self));
           1 + int_of_bool (add_neither_train (rib_base self))]))).

(** *** [BetweenReferenceInductiveBias] *)
Definition Between_create_left_right_dataset (self : ReferenceInductiveBias)
    (og : ObjectGeneratorConfig) (reference_locations target_locations
      : list location) (train : bool) : M (G * G) Dataset :=
  with_fresh_lists (rib_base self) (
    let add_neither :=
      if train then add_neither_train (rib_base self)
      else add_neither_test (rib_base self) in
    for_each reference_locations (fun bottom_reference_location =>
      let bottom_reference_end :=
        loc_add bottom_reference_location
          (reference_object_length (og_lengths og)
           - target_object_grid_size self, 0) in
      let top_reference_location :=
        loc_add bottom_reference_location
          (0, target_object_grid_size self + 1) in
      let top_reference_end :=
        loc_add top_reference_location
          (reference_object_length (og_lengths og)
           - target_object_grid_size self, 0) in
      let references :=
        [bottom_reference_location; top_reference_location] in
      for_each target_locations (fun target_location =>
        let target_y_below := loc_add target_location (0, -4) in
        (if decide (above_or_between_left self <> 0) then
           u <- on_self_rng np_uniform;;
           (if Qlt_le_dec u (1 # 2)
            then append_input og (loc_add top_reference_end target_location)
                   references train
            else append_input og
                   (loc_add bottom_reference_end target_y_below)
                   references train);;;
           append_input og (loc_add bottom_reference_location target_location)
             references train
         else
           u <- on_self_rng np_uniform;;
           (if Qlt_le_dec u (1 # 2)
            then append_input og
                   (loc_add top_reference_location target_location)
                   references train
            else append_input og
                   (loc_add bottom_reference_location target_y_below)
                   references train);;;
           append_input og (loc_add bottom_reference_end target_location)
             references train);;;
        extend_labels [0 + int_of_bool add_neither;
                       1 + int_of_bool add_neither]);;;
      if add_neither
      then append_neither (rib_base self) og bottom_reference_location
             references (length target_locations) train
      else ret tt)).

Definition Between_create_middle_dataset (self : ReferenceInductiveBias)
    (og : ObjectGeneratorConfig) (reference_locations : list location)
    (middle_locations : option (list location)) : M (G * G) Dataset :=
  with_fresh_lists (rib_base self) (
    let middle_locations :=
      default (middle_target_object_locations self) middle_locations in
    for_each reference_locations (fun bottom_reference_location =>
      let top_reference_location :=
        loc_add bottom_reference_location
          (0, target_object_grid_size self + 1) in
      let references :=
        [bottom_reference_location; top_reference_location] in
      for_each middle_locations (fun target_location =>
        let target_y_below := loc_add target_location (0, -4) in
        append_input og (loc_add top_reference_location target_location)
          references false;;;
        append_input og (loc_add bottom_reference_location target_y_below)
          references false;;;
        append_input og (loc_add bottom_reference_location target_location)
          references false;;;
        extend_labels
          [0 + int_of_bool (add_neither_train (rib_base self));
           0 + int_of_bool (add_neither_train (rib_base self));
           1 + int_of_bool (add_neither_train (rib_base self))]))).

(** *** [ReferenceInductiveBias]: the datasets of a paradigm

    [_create_left_right_dataset] and [_create_middle_dataset] are the two
    methods the subclasses define. *)
Inductive paradigm : Type :=
  | AboveBelowParadigm
  | BetweenParadigm.

Definition _create_left_right_dataset (p : paradigm) :=
  match p with
  | AboveBelowParadigm => AboveBelow_create_left_right_dataset
  | BetweenParadigm => Between_create_left_right_dataset
  end.

Definition _create_middle_dataset (p : paradigm) :=
  match p with
  | AboveBelowParadigm => AboveBelow_create_middle_dataset
  | BetweenParadigm => Between_create_middle_dataset
  end.

Definition rib_create_training_dataset (p : paradigm)
    (self : ReferenceInductiveBias) (og : ObjectGeneratorConfig)
    : M (G * G) Dataset :=
  _create_left_right_dataset p self og
    (train_reference_object_locations (rib_base self))
    (train_target_object_locations self) true.

Definition rib_create_test_datasets (p : paradigm)
    (self : ReferenceInductiveBias) (og : ObjectGeneratorConfig)
    : M (G * G) (list (string * Dataset)) :=
  d1 <- _create_left_right_dataset p self og
          (train_reference_object_locations (rib_base self))
          (test_target_object_locations self) false;;
  d2 <- _create_middle_dataset p self og
          (train_reference_object_locations (rib_base self))
          (Some (middle_target_object_locations self));;
  d3 <- _create_left_right_dataset p self og
          (test_reference_object_locations (rib_base self))
          (train_target_object_locations self) false;;
  d4 <- _create_left_right_dataset p self og
          (test_reference_object_locations (rib_base self))
          (test_target_object_locations self) false;;
  d5 <- _create_middle_dataset p self og
          (test_reference_object_locations (rib_base self))
          (Some (middle_target_object_locations self));;
  ret [(TRAIN_REFERENCE_TEST_TARGET, d1);
       (TRAIN_REFERENCE_MIDDLE_TARGET, d2);
       (TEST_REFERENCE_TRAIN_TARGET, d3);
       (TEST_REFERENCE_TEST_TARGET, d4);
       (TEST_REFERENCE_MIDDLE_TARGET, d5)].

(** *** [OneOrTwoReferenceObjects] *)
Definition _create_single_dataset (self : OneOrTwoReferenceObjects)
    (og : ObjectGeneratorConfig) (reference_locations target_locations
      : list location) (train : bool) : M (G * G) Dataset :=
  with_fresh_lists (oot_base self) (
    let add_neither :=
      if train then add_neither_train (oot_base self)
      else add_neither_test (oot_base self) in
    (if two_reference_objects self then
       for_each reference_locations (fun grid_bottom_left_corner =>
         let bottom_reference_location :=
           loc_add grid_bottom_left_corner
                   (0, bottom_reference_height self) in
         (* the + 1 accounts for the bottom object *)
         let top_reference_location :=
           loc_add grid_bottom_left_corner
                   (0, top_reference_height self + 1) in
         for_each target_locations (fun rel_target_location =>
           let target_location :=
             loc_add grid_bottom_left_corner rel_target_location in
           let tl :=
             if decide (top_reference_height self <= snd rel_target_location)
             then (* above both *) (loc_add target_location (0, 2), 0)
             else if decide (bottom_reference_height self
                             <= snd rel_target_location)
             then (* above bottom only *) (loc_add target_location (0, 1), 1)
             else (target_location, 0) in
           append_input og (fst tl)
             [bottom_reference_location; top_reference_location] train;;;
           extend_labels [snd tl + int_of_bool add_neither]))
     else (* one reference object *)
       for_each reference_locations (fun grid_bottom_left_corner =>
         let reference_location :=
           loc_add grid_bottom_left_corner
                   (0, single_reference_height self) in
         for_each target_locations (fun rel_target_location =>
           let target_location :=
             loc_add grid_bottom_left_corner rel_target_location in
           let tl :=
             if decide (single_reference_height self
                        <= snd rel_target_location)
             then (* above *) (loc_add target_location (0, 1), 1)
             else (target_location, 0) in
           append_input og (fst tl) [reference_location] train;;;
           extend_labels [snd tl + int_of_bool add_neither])));;;
    if add_neither then
      let total_target_locations := (length target_locations / 2)%nat in
      for_each reference_locations (fun grid_bottom_left_corner =>
        append_neither (oot_base self) og grid_bottom_left_corner
          (if two_reference_objects self
           then [loc_add grid_bottom_left_corner
                         (0, bottom_reference_height self);
                 loc_add grid_bottom_left_corner
                         (0, top_reference_height self)]
           else [loc_add grid_bottom_left_corner
                         (0, single_reference_height self)])
          total_target_locations train)
    else ret tt).

Definition oot_create_training_dataset (self : OneOrTwoReferenceObjects)
    (og : ObjectGeneratorConfig) : M (G * G) Dataset :=
  _create_single_dataset self og
    (train_reference_object_locations (oot_base self))
    (train_target_locations self) true.

Definition oot_create_test_datasets (self : OneOrTwoReferenceObjects)
    (og : ObjectGeneratorConfig) : M (G * G) (list (string * Dataset)) :=
  d1 <- _create_single_dataset self og
          (train_reference_object_locations (oot_base self))
          (test_target_locations self) false;;
  d2 <- _create_single_dataset self og
          (test_reference_object_locations (oot_base self))
          (train_target_locations self) false;;
  d3 <- _create_single_dataset self og
          (test_reference_object_locations (oot_base self))
          (test_target_locations self) false;;
  ret [(TRAIN_REFERENCE_TEST_TARGET, d1);
       (TEST_REFERENCE_TRAIN_TARGET, d2);
       (TEST_REFERENCE_TEST_TARGET, d3)].
End Datasets.
End QuinnDatasets.

(** * Properties *)

(** ** The deterministic sources satisfy the laws *)

Lemma counter_source_laws : RandomSourceLaws nat.
Proof.
  split; simpl; intros.
  - lia.
  - reflexivity.
  - unfold Qle, Qlt; simpl; lia.
  - split; [apply length_replicate|].
    destruct options as [|o options]; [congruence|].
    apply Forall_replicate. simpl. left.
Qed.

Lemma reversing_generator_laws : NumpyGeneratorLaws nat.
Proof.
  split; simpl; intros.
  - apply reverse_Permutation.
  - apply reverse_Permutation.
Qed.

(** ** [ColorAboveColorRelation.evaluate] *)
Section ColorAboveEvaluate.
Import ColorAboveColorRelation.
Variable c : config.

(** The vertical coordinate of an object: the entry of its y field. *)
Definition y_coordinate (o : Obj) : Z :=
  default 0 (o !! start (y_field_slice c)).

(** An object of category A (the "above" colour) or B (the "below"
    colour): its colour field is that colour's one-hot vector. *)
Definition category_A (o : Obj) : Prop :=
  has_color c (above_color_tensor c) o.
Definition category_B (o : Obj) : Prop :=
  has_color c (below_color_tensor c) o.

(** A scene is a tensor: every row reaches past the y field, and the y
    field is one entry wide. *)
Definition y_field_ok (objs : Scene) : Prop :=
  width (y_field_slice c) = 1%nat /\
  Forall (fun o => (stop (y_field_slice c) <= length o)%nat) objs.

Lemma get_y_slice (o : Obj) :
  width (y_field_slice c) = 1%nat ->
  (stop (y_field_slice c) <= length o)%nat ->
  get_slice (y_field_slice c) o = [y_coordinate o].
Proof.
  unfold get_slice, y_coordinate, width. intros Hw Hlen.
  rewrite Hw.
  destruct (drop (start (y_field_slice c)) o) as [|y rest] eqn:Hd.
  - apply (f_equal length) in Hd. rewrite length_drop in Hd. simpl in Hd. lia.
  - assert (Hl : o !! (start (y_field_slice c) + 0)%nat = Some y).
    { rewrite <- lookup_drop, Hd. reflexivity. }
    rewrite Nat.add_0_r in Hl. rewrite Hl. reflexivity.
Qed.

Lemma select_rows_y (P : Obj -> Prop) `{forall o, Decision (P o)}
    (objs : Scene) :
  y_field_ok objs ->
  concat (select_rows P (y_field_slice c) objs)
  = map y_coordinate (filter P objs).
Proof.
  intros [Hw Hall]. unfold select_rows.
  induction Hall as [|o objs Ho Hall IH]; [reflexivity|].
  rewrite filter_cons. destruct (decide (P o)); [|exact IH].
  simpl. rewrite get_y_slice by assumption. simpl. f_equal. exact IH.
Qed.

Lemma select_rows_empty (P : Obj -> Prop) `{forall o, Decision (P o)}
    (s : slice) (objs : Scene) :
  length (select_rows P s objs) = 0%nat <-> forall o, o ∈ objs -> ~ P o.
Proof.
  unfold select_rows. rewrite length_map. split.
  - intros Hl o Ho HP.
    assert (Hin : o ∈ filter P objs) by (apply list_elem_of_filter; auto).
    destruct (filter P objs); [inversion Hin | simpl in Hl; lia].
  - intros Hno. destruct (filter P objs) as [|o rest] eqn:Hf; [reflexivity|].
    assert (Hin : o ∈ filter P objs) by (rewrite Hf; left).
    apply list_elem_of_filter in Hin as [HP Ho]. destruct (Hno o Ho HP).
Qed.

Lemma evaluate_iff (objs : Scene) :
  y_field_ok objs ->
  evaluate c objs = true <->
  exists a, a ∈ objs /\ category_A a /\
    forall b, b ∈ objs -> category_B b -> y_coordinate b <= y_coordinate a.
Proof.
  intros Hok. unfold evaluate.
  destruct (decide (length (select_rows (has_color c (above_color_tensor c))
                              (y_field_slice c) objs) = 0%nat)) as [Ha|Ha].
  { split; [discriminate|]. intros (a & Hin & HA & _).
    rewrite select_rows_empty in Ha. destruct (Ha a Hin HA). }
  destruct (decide (length (select_rows (has_color c (below_color_tensor c))
                              (y_field_slice c) objs) = 0%nat)) as [Hb|Hb].
  { split; [|reflexivity]. intros _.
    rewrite select_rows_empty in Hb.
    unfold select_rows in Ha. rewrite length_map in Ha.
    destruct (filter (has_color c (above_color_tensor c)) objs)
      as [|a rest] eqn:Hf; [simpl in Ha; lia|].
    assert (Hin : a ∈ filter (has_color c (above_color_tensor c)) objs)
      by (rewrite Hf; left).
    apply list_elem_of_filter in Hin as [HA Hin].
    exists a. split; [exact Hin|]. split; [exact HA|].
    intros b Hbin HB. destruct (Hb b Hbin HB). }
  rewrite !select_rows_y by assumption.
  rewrite existsb_exists. split.
  - intros (ya & Hya & Hall).
    apply list_elem_of_In, list_elem_of_fmap in Hya as (a & -> & Hain).
    apply list_elem_of_filter in Hain as [HA Hain].
    exists a. split; [exact Hain|]. split; [exact HA|].
    intros b Hbin HB. rewrite forallb_forall in Hall.
    specialize (Hall (y_coordinate b)).
    rewrite bool_decide_eq_true in Hall. apply Hall.
    apply list_elem_of_In, list_elem_of_fmap. exists b. split; [reflexivity|].
    apply list_elem_of_filter. auto.
  - intros (a & Hain & HA & Hall).
    exists (y_coordinate a). split.
    + apply list_elem_of_In, list_elem_of_fmap. exists a. split; [reflexivity|].
      apply list_elem_of_filter. auto.
    + rewrite forallb_forall. intros yb Hyb.
      apply list_elem_of_In, list_elem_of_fmap in Hyb as (b & -> & Hbin).
      apply list_elem_of_filter in Hbin as [HB Hbin].
      rewrite bool_decide_eq_true. auto.
Qed.

(** C3: the colour-above-colour label is true exactly when some object of
    category A has a y coordinate at least that of every object of
    category B; it is true when there is an A object and no B object, and
    false when there is no A object. *)
Theorem color_above_color_evaluate_spec (objs : Scene) :
  y_field_ok objs ->
  (evaluate c objs = true <->
   exists a, a ∈ objs /\ category_A a /\
     forall b, b ∈ objs -> category_B b -> y_coordinate b <= y_coordinate a)
  /\ ((forall b, b ∈ objs -> ~ category_B b) ->
      (exists a, a ∈ objs /\ category_A a) ->
      evaluate c objs = true)
  /\ ((forall a, a ∈ objs -> ~ category_A a) -> evaluate c objs = false).
Proof.
  intros Hok. split; [exact (evaluate_iff objs Hok)|]. split.
  - intros HnoB (a & Hin & HA). apply evaluate_iff; [exact Hok|].
    exists a. split; [exact Hin|]. split; [exact HA|].
    intros b Hb HB. destruct (HnoB b Hb HB).
  - intros HnoA. destruct (evaluate c objs) eqn:He; [|reflexivity].
    apply evaluate_iff in He as (a & Hin & HA & _); [|exact Hok].
    destruct (HnoA a Hin HA).
Qed.
End ColorAboveEvaluate.

(** ** [IdenticalObjectsRelation.evaluate] *)

(** The loop of [evaluate] ranges over [range(shape[0] - 1)] of a tensor
    whose first dimension is the [unsqueeze(0)] dimension of size one: its
    body never runs. *)
Lemma identical_objects_evaluate_false
    (c : IdenticalObjectsRelation.config) (objs : Scene) :
  IdenticalObjectsRelation.evaluate c objs = false.
Proof. reflexivity. Qed.

(** Objects are rows [x; y; colour one-hot (2); shape one-hot (2)]. *)
Definition xy_color_shape : IdenticalObjectsRelation.config :=
  {| IdenticalObjectsRelation.property_field_slices :=
       [Slice 2 4; Slice 4 6] |}.

(** Two objects with the same colour and shape at different positions. *)
Definition identical_pair : Scene :=
  [[0; 0; 1; 0; 0; 1]; [3; 4; 1; 0; 0; 1]].

(** Two objects that differ in colour and in shape. *)
Definition distinct_pair : Scene :=
  [[0; 0; 1; 0; 0; 1]; [3; 4; 0; 1; 1; 0]].

(** C2: on a scene whose two objects have equal colour and shape fields at
    different positions the identical-objects label is false, as it is on
    every scene. *)
Theorem identical_objects_evaluate_misses_pair :
  cat_fields (IdenticalObjectsRelation.property_field_slices xy_color_shape)
             identical_pair = [[1; 0; 0; 1]; [1; 0; 0; 1]]
  /\ IdenticalObjectsRelation.evaluate xy_color_shape identical_pair = false
  /\ forall c objs, IdenticalObjectsRelation.evaluate c objs = false.
Proof.
  split; [reflexivity|]. split; [reflexivity|].
  exact identical_objects_evaluate_false.
Qed.

(** C1: balancing a negative scene under the identical-objects relation
    copies one object's properties onto the other, and the relation still
    labels the returned scene negative. *)
Theorem identical_objects_balance_not_label_exact :
  IdenticalObjectsRelation.evaluate xy_color_shape distinct_pair = false
  /\ fst (balance (R := nat) 0 (IdenticalObjects xy_color_shape) 0
            (distinct_pair, 0%nat))
     = Ret [[0; 0; 0; 1; 1; 0]; [3; 4; 0; 1; 1; 0]]
  /\ evaluate (R := nat) (IdenticalObjects xy_color_shape)
       [[0; 0; 0; 1; 1; 0]; [3; 4; 0; 1; 1; 0]] = false.
Proof. repeat split; reflexivity. Qed.

(** ** The label check of the balancers *)

(** C5: every balancer called with a label other than 0 raises
    [ValueError], and neither the scene nor the random source has changed
    when it does. *)
Theorem balance_rejects_positive_label {R : Type} `{RandomSource R}
    (rel : relation) (fuel : nat) (current_label : Z) (objs : Scene) (r : R) :
  current_label <> 0 ->
  balance fuel rel current_label (objs, r) = (Raise ValueError, (objs, r)).
Proof.
  intros Hl.
  destruct rel as [c|c|c|c|c]; simpl;
    [ unfold OneDAdjacentRelation.balance
    | unfold MultipleDAdjacentRelation.balance
    | unfold ColorAboveColorRelation.balance
    | unfold ObjectCountRelation.balance
    | unfold IdenticalObjectsRelation.balance ];
    destruct (decide (current_label <> 0)); try contradiction; reflexivity.
Qed.

Lemma balance_rejects_positive_label_witness :
  balance (R := nat) 0 (IdenticalObjects xy_color_shape) 1
    (identical_pair, 0%nat)
  = (Raise ValueError, (identical_pair, 0%nat)).
Proof.
  apply (balance_rejects_positive_label (R := nat)). lia.
Defined.

(** ** The relocation loop of [ColorAboveColorRelation.balance] *)
Section Relocation.
Import ColorAboveColorRelation.
Context {R : Type} `{RandomSourceLaws R}.
Variable c : config.

(** The collision flag [_object_in_position] returns for the candidate
    position [(x, y)]. *)
Definition collides (objs : Scene) (x y : Z) : bool :=
  match fst (_object_in_position (S := unit) (position_field_slices c)
               objs [x; y] tt) with
  | Ret hit => fst hit
  | _ => false
  end.

(** The position fields of every object make up two columns, as they do
    for the fields x and y of width one. *)
Definition two_position_columns (objs : Scene) : Prop :=
  Forall (fun row => length row = 2%nat)
         (cat_fields (position_field_slices c) objs).

Lemma broadcast_rows (rows : list (list Z)) (position : list Z) :
  Forall (fun row => length row = length position) rows ->
  mapM (fun row => broadcast_eq row position) rows
  = Some (map (fun row => zip_with Z.eqb row position) rows).
Proof.
  induction 1 as [|row rows Hrow _ IH]; [reflexivity|].
  simpl. rewrite IH. unfold broadcast_eq.
  destruct (decide (length row = length position)); [|contradiction].
  reflexivity.
Qed.

Lemma object_in_position_run {S} (objs : Scene) (x y : Z) (s : S) :
  two_position_columns objs ->
  exists t, _object_in_position (position_field_slices c) objs [x; y] s
            = (Ret (collides objs x y, t), s).
Proof.
  intros Hcols. unfold collides, _object_in_position, bind. simpl.
  rewrite (broadcast_rows _ [x; y]) by exact Hcols. simpl.
  eexists. reflexivity.
Qed.

Lemma read_field_run (i : nat) (s : slice) (objs : Scene) (o : Obj) (r : R) :
  objs !! i = Some o ->
  read_field i s (objs, r) = (Ret (get_slice s o), (objs, r)).
Proof. intros Ho. unfold read_field, bind. simpl. rewrite Ho. reflexivity. Qed.

Lemma randint_run (a b : Z) (objs : Scene) (r : R) :
  a <= b ->
  exists z r', a <= z <= b /\ randint a b (objs, r) = (Ret z, (objs, r')).
Proof.
  intros Hab. unfold randint, on_rng.
  destruct (decide (a <= b)); [|contradiction]. simpl.
  pose proof (randint_range a b r Hab) as Hr.
  destruct (draw_randint a b r) as [z r']. simpl in Hr.
  exists z, r'. split; [exact Hr | reflexivity].
Qed.

Variable index_to_modify : nat.
Variable max_below : Z.
Variable objs : Scene.
Variable own_x : Z.

(** The loop is entered on a tensor whose position fields are two
    columns, at an object whose x field is one entry, with non-empty
    ranges for the draws of x and y. *)
Definition relocation_ready : Prop :=
  two_position_columns objs /\
  (exists o, objs !! index_to_modify = Some o /\
             get_slice (x_field_slice c) o = [own_x]) /\
  min_coord (x_field_gen c) <= max_coord (x_field_gen c) - 1 /\
  max_below <= max_coord (y_field_gen c) - 1.

(** What a pass may return: the object's own x while the pass count is
    within [stuck_count_to_perturb_x], a drawn x after that, and a y no
    lower than [max_below]. *)
Definition candidate (stuck_count : Z) (px : pyval) (x y : Z) : Prop :=
  max_below <= y <= max_coord (y_field_gen c) - 1 /\
  ((px = Tensor [own_x] /\ x = own_x
    /\ stuck_count <= stuck_count_to_perturb_x c)
   \/ (px = Int x /\ stuck_count_to_perturb_x c < stuck_count
       /\ min_coord (x_field_gen c) <= x <= max_coord (x_field_gen c) - 1)).

(** One pass of the loop. *)
Lemma relocate_pass (stuck_count : Z) (r : R) :
  relocation_ready ->
  exists px x y r', candidate (stuck_count + 1) px x y /\
    forall fuel,
      relocate (S fuel) c index_to_modify max_below stuck_count (objs, r)
      = if collides objs x y
        then relocate fuel c index_to_modify max_below (stuck_count + 1)
                      (objs, r')
        else (Ret (px, y), (objs, r')).
Proof.
  intros (Hcols & (o & Ho & Hx) & Hxr & Hyr).
  destruct (decide (stuck_count_to_perturb_x c < stuck_count + 1)) as [Hp|Hp].
  - destruct (randint_run _ _ objs r Hxr) as (x & r1 & Hxin & Hex).
    destruct (randint_run _ _ objs r1 Hyr) as (y & r2 & Hyin & Hey).
    destruct (object_in_position_run objs x y (objs, r2) Hcols) as (t & Het).
    exists (Int x), x, y, r2. split.
    { split; [exact Hyin|]. right. auto. }
    intros fuel. cbn [relocate]. unfold bind at 1.
    rewrite (read_field_run _ _ _ _ _ Ho), Hx.
    destruct (decide (stuck_count_to_perturb_x c < stuck_count + 1));
      [|contradiction].
    unfold bind at 1. unfold bind at 1. rewrite Hex.
    unfold ret at 1. unfold bind at 1. rewrite Hey.
    unfold bind at 1. simpl scalar_of. unfold ret at 1.
    unfold bind at 1. unfold objects at 1. simpl fst.
    unfold bind at 1. rewrite Het.
    simpl fst. destruct (collides objs x y); reflexivity.
  - destruct (randint_run _ _ objs r Hyr) as (y & r2 & Hyin & Hey).
    destruct (object_in_position_run objs own_x y (objs, r2) Hcols)
      as (t & Het).
    exists (Tensor [own_x]), own_x, y, r2. split.
    { split; [exact Hyin|]. left. split; [reflexivity|].
      split; [reflexivity|lia]. }
    intros fuel. cbn [relocate]. unfold bind at 1.
    rewrite (read_field_run _ _ _ _ _ Ho), Hx.
    destruct (decide (stuck_count_to_perturb_x c < stuck_count + 1));
      [contradiction|].
    unfold bind at 1. unfold ret at 1. unfold bind at 1. rewrite Hey.
    unfold bind at 1. simpl scalar_of. unfold ret at 1.
    unfold bind at 1. unfold objects at 1. simpl fst.
    unfold bind at 1. rewrite Het.
    simpl fst. destruct (collides objs own_x y); reflexivity.
Qed.

(** When every candidate collides the loop is still running after any
    number of passes. *)
Lemma relocate_runs_on (fuel : nat) (stuck_count : Z) (r : R) :
  relocation_ready ->
  (forall x y, max_below <= y <= max_coord (y_field_gen c) - 1 ->
               collides objs x y = true) ->
  exists r',
    relocate fuel c index_to_modify max_below stuck_count (objs, r)
    = (Diverge, (objs, r')).
Proof.
  intros Hready Hall. revert stuck_count r.
  induction fuel as [|fuel IH]; intros stuck_count r.
  { exists r. reflexivity. }
  destruct (relocate_pass stuck_count r Hready)
    as (px & x & y & r' & [Hy _] & Hpass).
  rewrite (Hpass fuel), (Hall x y Hy). apply IH.
Qed.

(** C6, as the code has it: the loop has no maximum number of passes.
    Entered as [balance] enters it, it never raises, whatever the number
    of passes; it ends only on a pass [k] whose candidate position passed
    the collision test (a candidate that keeps the object's x while [k]
    is within [stuck_count_to_perturb_x] and draws x after that); a
    result, once reached, is the result for any larger fuel; and when
    every candidate collides it is still running after any number of
    passes. *)
Theorem relocate_has_no_iteration_cap (fuel : nat) (stuck_count : Z) (r : R) :
  relocation_ready ->
  (forall e,
      fst (relocate fuel c index_to_modify max_below stuck_count (objs, r))
      <> Raise e)
  /\ (forall px y st,
        relocate fuel c index_to_modify max_below stuck_count (objs, r)
        = (Ret (px, y), st) ->
        fst st = objs /\
        exists x k, 1 <= k <= Z.of_nat fuel /\
          candidate (stuck_count + k) px x y /\ collides objs x y = false)
  /\ (forall v st more,
        relocate fuel c index_to_modify max_below stuck_count (objs, r)
        = (Ret v, st) ->
        relocate (fuel + more) c index_to_modify max_below stuck_count
                 (objs, r) = (Ret v, st))
  /\ ((forall x y, max_below <= y <= max_coord (y_field_gen c) - 1 ->
                   collides objs x y = true) ->
      fst (relocate fuel c index_to_modify max_below stuck_count (objs, r))
      = Diverge).
Proof.
  intros Hready. revert stuck_count r.
  induction fuel as [|fuel IH]; intros stuck_count r.
  { cbn [relocate]. unfold diverge. simpl.
    repeat split; try discriminate; try reflexivity; intros; discriminate. }
  destruct (relocate_pass stuck_count r Hready)
    as (px & x & y & r' & Hcand & Hpass).
  destruct (IH (stuck_count + 1) r') as (IH1 & IH2 & IH3 & IH4).
  rewrite (Hpass fuel).
  destruct (collides objs x y) eqn:Hhit.
  - split; [exact IH1|]. split; [|split].
    + intros px' y' st Hret.
      destruct (IH2 px' y' st Hret) as (Hst & x' & k & Hk & Hc & Hfree).
      split; [exact Hst|]. exists x', (k + 1). split; [lia|].
      replace (stuck_count + (k + 1)) with (stuck_count + 1 + k) by lia.
      auto.
    + intros v st more Hret. cbn [Nat.add]. rewrite (Hpass (fuel + more)%nat).
      apply IH3. exact Hret.
    + exact IH4.
  - split; [simpl; discriminate|]. split; [|split].
    + intros px' y' st Hret. inversion Hret; subst. split; [reflexivity|].
      exists x, 1. split; [lia|]. auto.
    + intros v st more Hret. cbn [Nat.add]. rewrite (Hpass (fuel + more)%nat).
      exact Hret.
    + intros Hall. destruct Hcand as [Hy _].
      rewrite (Hall x y Hy) in Hhit. discriminate.
Qed.
End Relocation.

(** A 2 x 2 canvas with two colours; objects are rows
    [x; y; colour one-hot (2)], colour 0 above colour 1. *)
Definition small_canvas : ColorAboveColorRelation.config :=
  {| ColorAboveColorRelation.x_field_slice := Slice 0 1;
     ColorAboveColorRelation.x_field_gen := {| min_coord := 0; max_coord := 2 |};
     ColorAboveColorRelation.y_field_slice := Slice 1 2;
     ColorAboveColorRelation.y_field_gen := {| min_coord := 0; max_coord := 2 |};
     ColorAboveColorRelation.more_position_field_slices := [];
     ColorAboveColorRelation.color_field_slice := Slice 2 4;
     ColorAboveColorRelation.color_n_types := 2;
     ColorAboveColorRelation.above_color_index := 0;
     ColorAboveColorRelation.below_color_index := 1;
     ColorAboveColorRelation.stuck_count_to_perturb_x := 10 |}.

(** Two objects of the below colour filling the top row: the label is
    negative, since no object has the above colour. *)
Definition top_row_pair : Scene := [[0; 1; 0; 1]; [1; 1; 0; 1]].

Lemma top_row_collides (objs : Scene) (x : Z) :
  objs = [[0; 1; 1; 0]; [1; 1; 0; 1]] \/ objs = [[0; 1; 0; 1]; [1; 1; 1; 0]] ->
  collides small_canvas objs x 1 = true.
Proof.
  intros [-> | ->]; unfold collides;
    destruct x as [|[p|p|]|p]; reflexivity.
Qed.

Lemma top_row_pair_never_balanced {R : Type} `{RandomSourceLaws R}
    (fuel : nat) (r : R) :
  fst (balance fuel (ColorAboveColor small_canvas) 0 (top_row_pair, r))
  = Diverge.
Proof.
  simpl. unfold ColorAboveColorRelation.balance.
  destruct (decide (0 <> 0)) as [Hne|_]; [destruct Hne; reflexivity|].
  unfold bind at 1. unfold objects at 1. simpl fst.
  unfold bind at 1. unfold bind at 1.
  change (Z.of_nat 2 - 1) with 1.
  destruct (randint_run 0 1 top_row_pair r) as (i & r1 & Hi & Hrun); [lia|].
  rewrite Hrun.
  assert (Hcase : i = 0 \/ i = 1) by lia.
  destruct Hcase as [-> | ->].
  - unfold bind at 1. unfold write_field at 1. simpl.
    unfold bind at 1. unfold objects at 1. simpl.
    unfold bind at 1. unfold ret at 1. unfold bind at 1. unfold ret at 1.
    unfold bind at 1.
    change (set_slice _ _ (set_slice _ _ [0; 1; 0; 1])) with [0; 1; 1; 0].
    destruct (relocate_runs_on small_canvas 0%nat 1
                [[0; 1; 1; 0]; [1; 1; 0; 1]] 0 fuel 0 r1) as (r2 & ->).
    + split; [repeat constructor|]. split; [eexists; split; reflexivity|].
      simpl. lia.
    + intros x y Hy. simpl in Hy. assert (y = 1) as -> by lia.
      apply top_row_collides. left. reflexivity.
    + reflexivity.
  - unfold bind at 1. unfold write_field at 1. simpl.
    unfold bind at 1. unfold objects at 1. simpl.
    unfold bind at 1. unfold ret at 1. unfold bind at 1. unfold ret at 1.
    unfold bind at 1.
    change (set_slice _ _ (set_slice _ _ [1; 1; 0; 1])) with [1; 1; 1; 0].
    destruct (relocate_runs_on small_canvas 1%nat 1
                [[0; 1; 0; 1]; [1; 1; 1; 0]] 1 fuel 0 r1) as (r2 & ->).
    + split; [repeat constructor|]. split; [eexists; split; reflexivity|].
      simpl. lia.
    + intros x y Hy. simpl in Hy. assert (y = 1) as -> by lia.
      apply top_row_collides. right. reflexivity.
    + reflexivity.
Qed.

(** C6 as stated fails: on [top_row_pair] (label 0) no bound on the number
    of passes makes the balancer return or raise, for any random source. *)
Lemma color_above_balance_unbounded :
  ColorAboveColorRelation.evaluate small_canvas top_row_pair = false
  /\ ~ exists (R : Type) (H : RandomSource R) (_ : RandomSourceLaws R)
              (fuel : nat) (r : R),
        fst (balance fuel (ColorAboveColor small_canvas) 0 (top_row_pair, r))
        <> Diverge.
Proof.
  split; [reflexivity|].
  intros (R & H & HL & fuel & r & Hne).
  apply Hne. apply top_row_pair_never_balanced.
Qed.

Lemma relocate_has_no_iteration_cap_witness :
  relocation_ready small_canvas 0%nat 1 [[0; 1; 1; 0]; [1; 1; 0; 1]] 0
  /\ fst (ColorAboveColorRelation.relocate (R := nat) 5 small_canvas 0%nat 1 0
            ([[0; 1; 1; 0]; [1; 1; 0; 1]], 0%nat)) = Diverge.
Proof.
  assert (Hready : relocation_ready small_canvas 0%nat 1
                     [[0; 1; 1; 0]; [1; 1; 0; 1]] 0).
  { split; [repeat constructor|]. split; [eexists; split; reflexivity|].
    simpl. lia. }
  split; [exact Hready|].
  apply (relocate_has_no_iteration_cap (H0 := counter_source_laws)
           small_canvas 0%nat 1 [[0; 1; 1; 0]; [1; 1; 0; 1]] 0 5 0 0%nat Hready).
  intros x y Hy. simpl in Hy. assert (y = 1) as -> by lia.
  apply top_row_collides. left. reflexivity.
Defined.

(** ** The batch generators *)
Section GeneratorProperties.
Import ObjectGen.
Context {R : Type} `{RandomSourceLaws R} {C : Type} `{!ObjectRelation R C}.
Variable sample_scene : R -> Scene * R.
Variable relation_ : C.
Variable default_batch_size : nat.
Variable balance_fuel : nat.

Lemma draw_scenes_run (n : nat) (r : R) :
  exists l r', draw_scenes sample_scene n r = (Ret l, r') /\ length l = n.
Proof.
  revert r. induction n as [|n IH]; intros r.
  - exists [], r. split; reflexivity.
  - cbn [draw_scenes]. unfold bind at 1. unfold on_gen at 1.
    destruct (sample_scene r) as [s r1].
    destruct (IH r1) as (l & r2 & Hl & Hlen).
    unfold bind at 1. rewrite Hl.
    exists (s :: l), r2. split; [reflexivity|]. simpl. lia.
Qed.

Lemma ObjectGenerator_call_run (batch_size : nat) (r : R) :
  batch_size <> 0%nat ->
  exists data r',
    ObjectGenerator_call sample_scene relation_ default_batch_size
      (Some batch_size) r
    = (Ret (data, map (evaluate relation_) data), r')
    /\ length data = batch_size.
Proof.
  intros Hn. unfold ObjectGenerator_call. simpl.
  destruct (decide (batch_size = 0%nat)); [contradiction|].
  destruct (draw_scenes_run batch_size r) as (l & r' & Hl & Hlen).
  unfold bind. rewrite Hl. exists l, r'. split; [reflexivity|exact Hlen].
Qed.

(** The rejection loop neither raises nor leaves a pool empty that it
    had to fill. *)
Lemma fill_pools_outcome (fuel batch_size half : nat)
    (neg pos : list (list Scene)) (nc pc : nat) (r : R) :
  batch_size <> 0%nat ->
  fst (fill_pools sample_scene relation_ default_batch_size fuel batch_size
         half neg pos nc pc r) = Diverge
  \/ exists neg' pos',
       fst (fill_pools sample_scene relation_ default_batch_size fuel
              batch_size half neg pos nc pc r) = Ret (neg', pos')
       /\ ((nc < half)%nat \/ neg <> [] -> neg' <> [])
       /\ ((pc < half)%nat \/ pos <> [] -> pos' <> []).
Proof.
  intros Hn. revert neg pos nc pc r.
  induction fuel as [|fuel IH]; intros neg pos nc pc r; cbn [fill_pools].
  - destruct (decide _) as [Hc|Hc]; [left; reflexivity|].
    right. exists neg, pos. split; [reflexivity|].
    split; intros [Hlt|Hne]; try exact Hne; exfalso; apply Hc; auto.
  - destruct (decide _) as [Hc|Hc].
    + destruct (ObjectGenerator_call_run batch_size r Hn)
        as (data & r' & Hrun & Hlen).
      unfold bind. rewrite Hrun. cbn [fst snd].
      match goal with
      | |- context [fill_pools _ _ _ fuel _ _ ?n ?p ?a ?b r'] =>
          destruct (IH n p a b r') as [Hd | (neg' & pos' & Hret & Hneg & Hpos)]
      end.
      * left. exact Hd.
      * right. exists neg', pos'. split; [exact Hret|].
        split.
        -- intros Hor. apply Hneg. right.
           destruct (decide (nc < half)%nat) as [Hlt|Hge]; simpl.
           ++ intros Hnil. apply app_eq_nil in Hnil as [_ Hnil]. discriminate.
           ++ destruct Hor as [Hlt|Hne]; [contradiction|exact Hne].
        -- intros Hor. apply Hpos. right.
           destruct (decide (pc < half)%nat) as [Hlt|Hge]; simpl.
           ++ intros Hnil. apply app_eq_nil in Hnil as [_ Hnil]. discriminate.
           ++ destruct Hor as [Hlt|Hne]; [contradiction|exact Hne].
    + right. exists neg, pos. split; [reflexivity|].
      split; intros [Hlt|Hne]; try exact Hne; exfalso; apply Hc; auto.
Qed.

Lemma index_select_out_of_range {S A} (t : list A) (idx : list nat) (i : nat)
    (s : S) :
  i ∈ idx -> (length t <= i)%nat ->
  index_select t idx s = (Raise IndexError, s).
Proof.
  intros Hin Hlen. unfold index_select.
  assert (Hnone : mapM (fun i => t !! i) idx = None).
  { apply mapM_None. apply Exists_exists. exists i.
    split; [exact Hin|]. apply lookup_ge_None_2. exact Hlen. }
  rewrite Hnone. reflexivity.
Qed.

Lemma randperm_elem (n i : nat) (r : R) :
  (i < n)%nat -> i ∈ fst (draw_randperm n r).
Proof.
  intros Hi. rewrite (randperm_perm n r). apply elem_of_seq. lia.
Qed.

Lemma cat_list_run {S A} (l : list (list A)) (s : S) :
  l <> [] -> cat_list l s = (Ret (concat l), s).
Proof. destruct l; [congruence|reflexivity]. Qed.

(** *** Index tensors and label counts *)

Lemma nonzero_from_elem (mask : list bool) (i j : nat) :
  j ∈ nonzero_from i mask <->
  (i <= j)%nat /\ mask !! (j - i)%nat = Some true.
Proof.
  revert i. induction mask as [|b mask IH]; intros i; simpl.
  - split; [intros Hin; inversion Hin | intros [_ Hn]; discriminate].
  - destruct b.
    + rewrite elem_of_cons, IH. split.
      * intros [-> | [Hle Hl]].
        -- split; [lia|]. replace (i - i)%nat with 0%nat by lia. reflexivity.
        -- split; [lia|]. replace (j - i)%nat with (S (j - S i)) by lia.
           exact Hl.
      * intros [Hle Hl]. destruct (decide (j = i)) as [->|Hne]; [left; reflexivity|].
        right. split; [lia|].
        replace (j - i)%nat with (S (j - S i)) in Hl by lia. exact Hl.
    + rewrite IH. split.
      * intros [Hle Hl]. split; [lia|].
        replace (j - i)%nat with (S (j - S i)) by lia. exact Hl.
      * intros [Hle Hl]. destruct (decide (j = i)) as [->|Hne].
        { replace (i - i)%nat with 0%nat in Hl by lia. discriminate. }
        split; [lia|].
        replace (j - i)%nat with (S (j - S i)) in Hl by lia. exact Hl.
Qed.

Lemma nonzero_elem (mask : list bool) (j : nat) :
  j ∈ nonzero mask <-> mask !! j = Some true.
Proof.
  unfold nonzero. rewrite nonzero_from_elem, Nat.sub_0_r.
  split; [intros [_ Hl]; exact Hl | intros Hl; split; [lia | exact Hl]].
Qed.

Lemma nonzero_from_NoDup (mask : list bool) (i : nat) :
  NoDup (nonzero_from i mask).
Proof.
  revert i. induction mask as [|b mask IH]; intros i; simpl.
  - constructor.
  - destruct b; [|apply IH]. constructor; [|apply IH].
    rewrite nonzero_from_elem. lia.
Qed.

Lemma length_nonzero_from (mask : list bool) (i : nat) :
  length (nonzero_from i mask) = length (filter (fun b => b = true) mask).
Proof.
  revert i. induction mask as [|b mask IH]; intros i; [reflexivity|].
  simpl. rewrite filter_cons. destruct b; simpl.
  - destruct (decide (true = true)); [|congruence]. simpl. f_equal. apply IH.
  - destruct (decide (false = true)); [discriminate|]. apply IH.
Qed.

Lemma count_negative (labels : list bool) :
  length (filter (fun b => b = true)
            (map (fun b => bool_decide (b = false)) labels))
  = (length labels - positive_count labels)%nat.
Proof.
  unfold positive_count.
  induction labels as [|b labels IH]; [reflexivity|].
  pose proof (length_filter (fun b => b = true) labels) as Hle.
  simpl. rewrite !filter_cons. destruct b; simpl.
  - destruct (decide (false = true)); [discriminate|].
    destruct (decide (true = true)); [|congruence]. simpl. exact IH.
  - destruct (decide (true = true)); [|congruence].
    destruct (decide (false = true)); [discriminate|]. simpl.
    rewrite IH. lia.
Qed.

Lemma positive_count_le (labels : list bool) :
  (positive_count labels <= length labels)%nat.
Proof. apply length_filter. Qed.

Lemma positive_count_insert (labels : list bool) (i : nat) :
  labels !! i = Some false ->
  positive_count (<[i := true]> labels) = S (positive_count labels).
Proof.
  unfold positive_count. revert i.
  induction labels as [|b labels IH]; intros i Hl; [discriminate|].
  destruct i as [|i]; simpl in *.
  - inversion Hl; subst. rewrite !filter_cons.
    destruct (decide (true = true)); [|congruence].
    destruct (decide (false = true)); [discriminate|]. reflexivity.
  - rewrite !filter_cons. destruct (decide (b = true)); simpl;
      rewrite (IH i Hl); reflexivity.
Qed.

Lemma length_scatter {A} (t : list A) (idx : list nat) (vals : list A) :
  length (scatter t idx vals) = length t.
Proof.
  unfold scatter. generalize (zip idx vals). intros ps. revert t.
  induction ps as [|p ps IH]; intros t; [reflexivity|].
  simpl. rewrite IH, length_insert. reflexivity.
Qed.

Lemma balanced_batch_odd (fuel batch_size : nat) (r : R) :
  (3 <= batch_size)%nat -> Nat.Odd batch_size ->
  let out := fst (BalancedBatch_call sample_scene relation_
                    default_batch_size fuel (Some batch_size) r) in
  out = Diverge \/ out = Raise IndexError.
Proof.
  intros Hge [k Hk] out. subst out. unfold BalancedBatch_call.
  change (default default_batch_size (Some batch_size)) with batch_size.
  cbv zeta.
  destruct (decide (batch_size = 1%nat)); [lia|].
  assert (Hhalf : (batch_size / 2 = k)%nat).
  { subst batch_size. rewrite Nat.add_comm, Nat.mul_comm.
    rewrite Nat.div_add by lia. reflexivity. }
  rewrite Hhalf.
  destruct (fill_pools_outcome fuel batch_size k [] [] 0 0 r ltac:(lia))
    as [Hd | (neg' & pos' & Hret & Hneg & Hpos)].
  - left. unfold bind at 1.
    destruct (fill_pools _ _ _ _ _ _ _ _ _ _ r) as [o r'].
    simpl in Hd. subst o. reflexivity.
  - right. unfold bind at 1.
    destruct (fill_pools _ _ _ _ _ _ _ _ _ _ r) as [o r'].
    simpl in Hret. subst o. cbn [fst snd].
    unfold bind at 1. rewrite cat_list_run by (apply Hpos; left; lia).
    unfold bind at 1. rewrite cat_list_run by (apply Hneg; left; lia).
    unfold bind at 1. unfold on_gen at 1.
    pose proof (randperm_elem batch_size (batch_size - 1) r' ltac:(lia))
      as Hin.
    destruct (draw_randperm batch_size r') as [perm r'']. simpl in Hin.
    unfold bind at 1.
    rewrite (index_select_out_of_range _ perm (batch_size - 1)%nat);
      [reflexivity | exact Hin |].
    rewrite length_app, !length_take. lia.
Qed.

(** C10: for an odd batch size of at least 3 the post-hoc balanced
    generator never returns a batch: its call is still drawing, or has
    raised [IndexError] at [data[perm]]; a call that returns has batch
    size 1 or an even batch size. *)
Theorem balanced_batch_returns_only_even (fuel batch_size : nat) (r : R) :
  let out := fst (BalancedBatch_call sample_scene relation_
                    default_batch_size fuel (Some batch_size) r) in
  ((3 <= batch_size)%nat -> Nat.Odd batch_size ->
   out = Diverge \/ out = Raise IndexError)
  /\ (forall b, out = Ret b -> batch_size = 1%nat \/ Nat.Even batch_size).
Proof.
  cbv zeta. split; [apply balanced_batch_odd|].
  intros b Hret.
  destruct (Nat.Even_or_Odd batch_size) as [He|Ho]; [right; exact He|].
  destruct (decide (batch_size = 1%nat)) as [H1|H1]; [left; exact H1|].
  assert (Hge : (3 <= batch_size)%nat).
  { destruct Ho as [k Hk]. lia. }
  destruct (balanced_batch_odd fuel batch_size r Hge Ho) as [Hd|Hd];
    cbv zeta in Hd; rewrite Hd in Hret; discriminate.
Qed.
(** *** [SmartBalancedBatchObjectGenerator] converting negatives to
    positives *)
Variable max_recursion_depth : Z.

Lemma resample_rounds_spec (fuel half : nat) (data : list Scene)
    (labels : list bool) (pc : nat) (depth : Z) (r r' : R)
    (ex : loop_exit) :
  pc = positive_count labels -> pc <> half ->
  resample_rounds sample_scene relation_ default_batch_size true
    max_recursion_depth fuel half data labels pc depth r = (Ret ex, r') ->
  match ex with
  | Returned d l k =>
      length d = length data /\ length l = length labels /\
      positive_count l = half /\ depth < k <= max_recursion_depth
  | Fallthrough d l pc' k =>
      length d = length data /\ length l = length labels /\
      pc' = positive_count l /\ (pc' < half)%nat /\
      (k = depth \/ depth < k <= max_recursion_depth)
  end.
Proof.
  revert data labels pc depth r.
  induction fuel as [|fuel IH]; intros data labels pc depth r Hpc Hne Hrun;
    cbn [resample_rounds] in Hrun;
    destruct (decide (bool_decide (half < pc)%nat = true)) as [Hmore|Hmore].
  - discriminate.
  - inversion Hrun; subst ex r'. rewrite bool_decide_eq_true in Hmore.
    repeat split; auto; lia.
  - destruct (decide (max_recursion_depth < depth + 1)) as [Hlim|Hlim];
      [discriminate|].
    unfold bind at 1 in Hrun.
    destruct (len_squeezed _ r) as [[n|e|] r1]; try discriminate.
    unfold bind at 1 in Hrun.
    destruct (ObjectGenerator_call _ _ _ _ r1) as [[rs|e|] r2];
      try discriminate.
    destruct (decide _) as [Heq|Hneq] in Hrun.
    + inversion Hrun; subst ex r'.
      rewrite !length_scatter. repeat split; auto; lia.
    + apply IH in Hrun; [|reflexivity|exact Hneq].
      rewrite !length_scatter in Hrun.
      destruct ex as [d l k|d l pc' k].
      * destruct Hrun as (Hd & Hl & Hp & Hk). repeat split; auto; lia.
      * destruct Hrun as (Hd & Hl & Hp & Hlt & Hk).
        repeat split; auto. right. lia.
  - inversion Hrun; subst ex r'. rewrite bool_decide_eq_true in Hmore.
    repeat split; auto; lia.
Qed.

(** At the limit the loop raises instead of starting another round. *)
Lemma resample_rounds_limit (fuel half : nat) (data : list Scene)
    (labels : list bool) (pc : nat) (depth : Z) (r : R) :
  (half < pc)%nat -> max_recursion_depth <= depth ->
  resample_rounds sample_scene relation_ default_batch_size true
    max_recursion_depth (S fuel) half data labels pc depth r
  = (Raise ValueError, r).
Proof.
  intros Hmore Hlim. cbn [resample_rounds].
  destruct (decide (bool_decide (half < pc)%nat = true)) as [_|Hn].
  - destruct (decide (max_recursion_depth < depth + 1)); [reflexivity|lia].
  - destruct Hn. apply bool_decide_eq_true. exact Hmore.
Qed.

(** With the fuel [__call__] gives it, the loop ends by itself: it
    returns, falls through or raises. *)
Lemma resample_rounds_ends (fuel half : nat) (data : list Scene)
    (labels : list bool) (pc : nat) (depth : Z) (r : R) :
  (0 < fuel)%nat -> max_recursion_depth - depth < Z.of_nat fuel ->
  fst (resample_rounds sample_scene relation_ default_batch_size true
         max_recursion_depth fuel half data labels pc depth r) <> Diverge.
Proof.
  revert data labels pc depth r.
  induction fuel as [|fuel IH]; intros data labels pc depth r Hpos Hfuel;
    [lia|].
  cbn [resample_rounds];
    destruct (decide (bool_decide (half < pc)%nat = true)) as [Hmore|Hmore];
    try (simpl; discriminate).
  - destruct (decide (max_recursion_depth < depth + 1)) as [Hlim|Hlim];
      [simpl; discriminate|].
    unfold bind at 1.
    destruct (len_squeezed _ r) as [[n|e|] r1] eqn:Hlen;
      try (simpl; discriminate).
    { unfold bind at 1.
      destruct (ObjectGenerator_call _ _ _ _ r1) as [[rs|e|] r2] eqn:Hcall;
        try (simpl; discriminate).
      - destruct (decide _); [simpl; discriminate|]. apply IH; lia.
      - exfalso. unfold ObjectGenerator_call in Hcall. simpl in Hcall.
        destruct (decide (n = 0%nat)); [discriminate|].
        destruct (draw_scenes_run n r1) as (l & r3 & Hl & _).
        unfold bind in Hcall. rewrite Hl in Hcall. discriminate. }
    exfalso. destruct (nonzero_squeeze _); discriminate.
Qed.

Lemma modify_targets_spec (targets : list nat) (data : list Scene)
    (labels : list bool) (r r' : R) (d' : list Scene) (l' : list bool) :
  NoDup targets ->
  Forall (fun i => labels !! i = Some false) targets ->
  modify_targets relation_ balance_fuel true targets data labels r
  = (Ret (d', l'), r') ->
  positive_count l' = (positive_count labels + length targets)%nat
  /\ length l' = length labels /\ length d' = length data.
Proof.
  revert data labels r.
  induction targets as [|i targets IH]; intros data labels r Hnd Hall Hrun.
  - inversion Hrun; subst. simpl. split; [lia|]. split; reflexivity.
  - cbn [modify_targets] in Hrun.
    apply NoDup_cons in Hnd as [Hni Hnd].
    apply Forall_cons in Hall as [Hi Hall].
    unfold bind at 1 in Hrun.
    destruct (data !! i) as [scene|]; [|discriminate].
    unfold or_raise at 1 in Hrun. unfold ret at 1 in Hrun.
    unfold bind at 1 in Hrun.
    destruct (call_balance _ _ _ _ r) as [[scene'|e|] r1]; try discriminate.
    apply IH in Hrun; [|exact Hnd|].
    + destruct Hrun as (Hp & Hl & Hd).
      rewrite length_insert in Hl. rewrite length_insert in Hd.
      rewrite positive_count_insert in Hp by exact Hi.
      simpl. split; [lia|]. split; assumption.
    + apply Forall_forall. intros j Hj.
      rewrite list_lookup_insert_ne.
      * rewrite Forall_forall in Hall. apply Hall. exact Hj.
      * intros ->. contradiction.
Qed.

(** Gathering distinct positions of a duplicate-free index tensor gives
    distinct entries of it. *)
Lemma gather_NoDup {A} (l : list A) (idx : list nat) (out : list A) :
  NoDup l -> NoDup idx ->
  mapM (fun i => l !! i) idx = Some out ->
  NoDup out /\ length out = length idx /\
  (forall y, y ∈ out -> exists j, j ∈ idx /\ l !! j = Some y).
Proof.
  intros Hl. revert out.
  induction idx as [|i idx IH]; intros out Hidx Hm.
  - inversion Hm; subst. split; [constructor|]. split; [reflexivity|].
    intros y Hy. inversion Hy.
  - apply NoDup_cons in Hidx as [Hni Hidx].
    simpl in Hm. destruct (l !! i) as [y|] eqn:Hy; [|discriminate].
    simpl in Hm. destruct (mapM _ idx) as [out'|] eqn:Hm'; [|discriminate].
    inversion Hm; subst out. clear Hm.
    destruct (IH out' Hidx eq_refl) as (Hnd & Hlen & Hsrc).
    split; [|split].
    + constructor; [|exact Hnd]. intros Hin.
      destruct (Hsrc y Hin) as (j & Hj & Hjy).
      assert (j = i) as -> by exact (NoDup_lookup l j i y Hl Hjy Hy).
      contradiction.
    + simpl. f_equal. exact Hlen.
    + intros z Hz. apply elem_of_cons in Hz as [-> | Hz].
      * exists i. split; [left|exact Hy].
      * destruct (Hsrc z Hz) as (j & Hj & Hjz). exists j.
        split; [right; exact Hj | exact Hjz].
Qed.

Lemma half_le (n : nat) : (2 * (n / 2) <= n)%nat.
Proof. apply Nat.Div0.mul_div_le. Qed.

Lemma smart_call_rounds_spec (batch_size : nat) (recursion_depth : Z)
    (r r' : R) (data : list Scene) (labels : list bool) (rounds : Z) :
  (2 <= batch_size)%nat ->
  SmartBalancedBatch_call_rounds sample_scene relation_ default_batch_size
    balance_fuel true max_recursion_depth (Some batch_size)
    recursion_depth r = (Ret ((data, labels), rounds), r') ->
  positive_count labels = (batch_size / 2)%nat
  /\ length labels = batch_size /\ length data = batch_size
  /\ recursion_depth <= rounds <= max_recursion_depth.
Proof.
  intros Hbs. unfold SmartBalancedBatch_call_rounds.
  change (default default_batch_size (Some batch_size)) with batch_size.
  cbv zeta.
  destruct (decide (batch_size = 1%nat)); [lia|].
  destruct (decide (max_recursion_depth < recursion_depth)) as [|Hdepth];
    [discriminate|].
  destruct (ObjectGenerator_call_run batch_size r ltac:(lia))
    as (data0 & r1 & Hcall & Hlen0).
  unfold bind at 1. rewrite Hcall. cbn [fst snd].
  destruct (decide _) as [Heq|Hneq].
  { intros Hret. inversion Hret; subst.
    rewrite length_map. repeat split; auto; lia. }
  unfold bind at 1.
  destruct (resample_rounds _ _ _ _ _ _ _ _ _ _ _ r1) as [[ex| |] r2] eqn:Hloop;
    try discriminate.
  apply resample_rounds_spec in Hloop; [|reflexivity|exact Hneq].
  rewrite length_map, Hlen0 in Hloop.
  destruct ex as [d l k|d l pc' k].
  { intros Hret. inversion Hret; subst.
    destruct Hloop as (Hd & Hl & Hp & Hk). repeat split; auto; lia. }
  destruct Hloop as (Hd & Hl & Hpc & Hlt & Hk).
  cbn [negb].
  pose proof (length_nonzero_from
                (map (fun b => bool_decide (b = false)) l) 0) as Hcount.
  rewrite count_negative, Hl, <- Hpc in Hcount.
  pose proof (half_le batch_size) as Hhalf.
  pose proof (nonzero_from_NoDup
                (map (fun b => bool_decide (b = false)) l) 0) as Hnd.
  assert (Hfalse : forall i,
             i ∈ nonzero (map (fun b => bool_decide (b = false)) l) ->
             l !! i = Some false).
  { intros i Hi. apply nonzero_elem in Hi.
    rewrite list_lookup_fmap in Hi.
    destruct (l !! i) as [b|]; [|discriminate]. simpl in Hi.
    inversion Hi as [Hb]. apply bool_decide_eq_true in Hb. congruence. }
  unfold nonzero_squeeze.
  fold (nonzero (map (fun b => bool_decide (b = false)) l)) in Hcount, Hnd.
  destruct (nonzero (map (fun b => bool_decide (b = false)) l))
    as [|i0 [|i1 idxs]] eqn:Hidx; simpl in Hcount; try lia.
  unfold bind at 1. unfold shape0_squeezed, ret at 1.
  unfold bind at 1. unfold on_gen at 1.
  pose proof (randperm_perm (length (i0 :: i1 :: idxs)) r2) as Hperm.
  destruct (draw_randperm (length (i0 :: i1 :: idxs)) r2) as [perm r3].
  simpl fst in Hperm.
  unfold bind at 1. unfold index_select at 1.
  destruct (mapM _ (take _ perm)) as [targets|] eqn:Hgather; [|discriminate].
  unfold or_raise at 1. unfold ret at 1.
  unfold bind at 1.
  destruct (modify_targets _ _ _ _ _ _ r3) as [[[d' l']| |] r4] eqn:Hmod;
    try discriminate.
  intros Hret. inversion Hret; subst d' l' rounds r4. clear Hret.
  assert (Hndperm : NoDup perm) by (rewrite Hperm; apply NoDup_seq).
  apply gather_NoDup in Hgather as (Hndt & Hlent & Hsrc);
    [|exact Hnd|exact (sublist_NoDup _ _ Hndperm (sublist_take _ _))].
  apply modify_targets_spec in Hmod as (Hp & Hll & Hdd); [|exact Hndt|].
  - rewrite Hlent, length_take, (Permutation_length Hperm), length_seq in Hp.
    simpl length in Hp. simpl length in Hcount.
    repeat split; try lia.
  - apply Forall_forall. intros t Ht.
    destruct (Hsrc t Ht) as (j & _ & Hj). apply Hfalse.
    eapply list_elem_of_lookup_2. exact Hj.
Qed.

(** C4: the directed balanced generator converting negatives to
    positives, asked for a batch of at least 2: a batch it returns has
    exactly [batch_size / 2] positive labels (and [batch_size] scenes and
    labels), and was reached within [max_recursion_depth] correction
    rounds; a round that would exceed that depth raises [ValueError], as
    does a call entered beyond it. *)
Theorem smart_balanced_batch_exact (batch_size : nat) (recursion_depth : Z)
    (r : R) :
  (2 <= batch_size)%nat ->
  (forall data labels r',
      SmartBalancedBatch_call sample_scene relation_ default_batch_size
        balance_fuel true max_recursion_depth (Some batch_size)
        recursion_depth r = (Ret (data, labels), r') ->
      positive_count labels = (batch_size / 2)%nat
      /\ length labels = batch_size /\ length data = batch_size)
  /\ (forall b rounds r',
        SmartBalancedBatch_call_rounds sample_scene relation_
          default_batch_size balance_fuel true max_recursion_depth
          (Some batch_size) recursion_depth r = (Ret (b, rounds), r') ->
        recursion_depth <= rounds <= max_recursion_depth)
  /\ (forall fuel half data labels pc depth r0,
        (half < pc)%nat -> max_recursion_depth <= depth ->
        resample_rounds sample_scene relation_ default_batch_size true
          max_recursion_depth (S fuel) half data labels pc depth r0
        = (Raise ValueError, r0))
  /\ (max_recursion_depth < recursion_depth ->
      SmartBalancedBatch_call sample_scene relation_ default_batch_size
        balance_fuel true max_recursion_depth (Some batch_size)
        recursion_depth r = (Raise ValueError, r)).
Proof.
  intros Hbs. split; [|split; [|split]].
  - intros data labels r' Hret. unfold SmartBalancedBatch_call, bind in Hret.
    destruct (SmartBalancedBatch_call_rounds _ _ _ _ _ _ _ _ r)
      as [[[[d l] k]| |] r1] eqn:Hrun; try discriminate.
    inversion Hret; subst.
    apply smart_call_rounds_spec in Hrun; [|exact Hbs].
    destruct Hrun as (Hp & Hl & Hd & _). auto.
  - intros [d l] rounds r' Hrun.
    apply smart_call_rounds_spec in Hrun; [|exact Hbs].
    destruct Hrun as (_ & _ & _ & Hk). exact Hk.
  - intros fuel half data labels pc depth r0. apply resample_rounds_limit.
  - intros Hlim. unfold SmartBalancedBatch_call, bind,
      SmartBalancedBatch_call_rounds.
    change (default default_batch_size (Some batch_size)) with batch_size.
    cbv zeta.
    destruct (decide (batch_size = 1%nat)); [lia|].
    destruct (decide (max_recursion_depth < recursion_depth));
      [reflexivity|contradiction].
Qed.
End GeneratorProperties.

(** ** The structured dataset builders *)
Section BuilderProperties.
Import QuinnObjects.
Context {G : Type} `{NumpyGeneratorLaws G}.

Lemma py_slices_app {A} (l : list A) (m : Z) :
  py_slice_to l m ++ py_slice_from l m = l.
Proof. apply take_drop. Qed.

Lemma split_train_test_perm {A} (items train test : list A)
    (prop_train : option Q) (max_train_index : option Z) (g g' : G) :
  _split_train_test items prop_train max_train_index g
  = (Ret (train, test), g') ->
  Permutation (train ++ test) items.
Proof.
  unfold _split_train_test, bind, on_np, ret, id.
  pose proof (np_shuffle_perm A items g) as Hperm.
  destruct prop_train as [p|], max_train_index as [m|]; cbv beta;
    destruct (np_shuffle items g) as [shuffled g1]; simpl in Hperm;
    intros Hrun; inversion Hrun; subst;
    rewrite py_slices_app; exact Hperm.
Qed.

Lemma split_train_test_returns {A} (items : list A) (prop_train : option Q)
    (max_train_index : option Z) (g : G) :
  (prop_train <> None \/ max_train_index <> None) ->
  exists train test,
    _split_train_test items prop_train max_train_index g
    = (Ret (train, test), snd (np_shuffle items g)).
Proof.
  unfold _split_train_test, bind, on_np, ret, id.
  destruct prop_train as [p|], max_train_index as [m|]; cbv beta;
    destruct (np_shuffle items g) as [shuffled g1];
    intros [Hn|Hn]; try congruence; eexists; eexists; reflexivity.
Qed.

Lemma NoDup_list_prod {A B} (l : list A) (k : list B) :
  NoDup l -> NoDup k -> NoDup (list_prod l k).
Proof.
  intros Hl Hk. induction Hl as [|x l Hx Hl IH]; [constructor|].
  simpl. apply NoDup_app. split; [|split].
  - apply NoDup_fmap_2; [|exact Hk]. intros y1 y2 Heq. congruence.
  - intros [a b] Hin1 Hin2.
    apply list_elem_of_fmap in Hin1 as (b' & Heq & _). inversion Heq; subst.
    apply list_elem_of_In, in_prod_iff in Hin2 as [Hin2 _].
    apply Hx. apply list_elem_of_In. exact Hin2.
  - exact IH.
Qed.

Lemma NoDup_grid (a b c d : Z) : NoDup (grid a b c d).
Proof. apply NoDup_list_prod; apply NoDup_seqZ. Qed.

(** [train] and [test] are disjoint and together hold exactly the
    [candidates]. *)
Definition partitions {A} (train test candidates : list A) : Prop :=
  (forall p, p ∈ train -> p ∉ test)
  /\ (forall p, p ∈ train \/ p ∈ test <-> p ∈ candidates).

Lemma perm_partitions {A} (train test candidates : list A) :
  NoDup candidates -> Permutation (train ++ test) candidates ->
  partitions train test candidates.
Proof.
  intros Hnd Hperm. rewrite <- Hperm in Hnd.
  apply NoDup_app in Hnd as (_ & Hdisj & _). split; [exact Hdisj|].
  intros p. rewrite <- Hperm, elem_of_app. reflexivity.
Qed.

Lemma base_init_partitions (og : ObjectGenerator) (x_max_ y_max_ seed_ : Z)
    (ant ane : bool) (prop : option Q) (x_margin : option Z)
    (ymb ymt : Z) (sp : spatial_mode) (pv : option Q)
    (b : QuinnDatasetGenerator) :
  QuinnDatasetGenerator_init og x_max_ y_max_ seed_ ant ane prop x_margin
    ymb ymt sp pv = Ret b ->
  partitions (train_reference_object_locations b)
             (test_reference_object_locations b)
             (possible_reference_object_locations og x_max_ y_max_
                (default 0 x_margin) ymb ymt).
Proof.
  unfold QuinnDatasetGenerator_init, np_default_rng.
  destruct (decide (seed_ < 0)); [discriminate|].
  destruct (_split_train_test _ prop None (default_rng seed_))
    as [[[train test]|e|] g1] eqn:Hsplit; try discriminate.
  intros Hb. inversion Hb; subst b. simpl.
  apply perm_partitions; [apply NoDup_grid|].
  eapply split_train_test_perm. exact Hsplit.
Qed.

Lemma rib_init_partitions (og : ObjectGenerator) (x_max_ y_max_ seed_ : Z)
    (grid_size : Z) (ant : bool) (left : option Z) (n_train : option Z)
    (prop : option Q) (x_margin : option Z) (ymb ymt : option Z)
    (ane : bool) (sp : spatial_mode) (pv : option Q)
    (b : ReferenceInductiveBias) :
  ReferenceInductiveBias_init og x_max_ y_max_ seed_ grid_size ant left
    n_train prop x_margin ymb ymt ane sp pv = Ret b ->
  partitions (train_reference_object_locations (rib_base b))
             (test_reference_object_locations (rib_base b))
             (possible_reference_object_locations og x_max_ y_max_
                (default 0 x_margin) (at_least grid_size ymb)
                (at_least grid_size ymt))
  /\ partitions (train_target_object_locations b)
                (test_target_object_locations b)
                (grid 0 grid_size 1 (grid_size + 1)).
Proof.
  unfold ReferenceInductiveBias_init.
  destruct (QuinnDatasetGenerator_init _ _ _ _ _ _ _ _ _ _ _ _)
    as [base|e|] eqn:Hbase; try discriminate.
  destruct (_split_train_test _ None _ (rng base))
    as [[[train test]|e|] g1] eqn:Hsplit; try discriminate.
  intros Hb. inversion Hb; subst b. simpl. split.
  - eapply base_init_partitions. exact Hbase.
  - apply perm_partitions; [apply NoDup_grid|].
    eapply split_train_test_perm. exact Hsplit.
Qed.

Lemma oot_init_partitions (og : ObjectGenerator) (x_max_ y_max_ seed_ : Z)
    (between : bool) (two : option bool) (ant : bool)
    (prop_target prop : option Q) (height : Z) (x_margin : option Z)
    (ymb ymt : option Z) (ane : bool) (sp : spatial_mode) (pv : option Q)
    (b : OneOrTwoReferenceObjects) :
  OneOrTwoReferenceObjects_init og x_max_ y_max_ seed_ between two ant
    prop_target prop height x_margin ymb ymt ane sp pv = Ret b ->
  partitions (train_reference_object_locations (oot_base b))
             (test_reference_object_locations (oot_base b))
             (possible_reference_object_locations og x_max_ y_max_
                (default 0 x_margin) (default 0 ymb)
                (oot_y_margin_top height (default between two) ymt)).
Proof.
  unfold OneOrTwoReferenceObjects_init.
  destruct (decide (height `mod` 4 <> 0)); [discriminate|].
  destruct (QuinnDatasetGenerator_init _ _ _ _ _ _ _ _ _ _ _ _)
    as [base|e|] eqn:Hbase; try discriminate.
  destruct (_generate_and_split_target_object_locations _ _ _ _ _ _ _ _)
    as [[[train test]|e|] g1]; try discriminate.
  intros Hb. inversion Hb; subst b. simpl.
  eapply base_init_partitions. exact Hbase.
Qed.

(** C7: the train and test reference-object locations a builder is
    constructed with are disjoint and together are exactly the candidate
    locations, for the base constructor and for each paradigm's; and two
    constructions from the same seed and configuration have the same
    train and test lists. *)
Theorem reference_locations_partition (og : ObjectGenerator)
    (x_max_ y_max_ seed_ : Z) (ant ane : bool) (prop : option Q)
    (x_margin : option Z) (sp : spatial_mode) (pv : option Q) :
  (forall ymb ymt b,
      QuinnDatasetGenerator_init og x_max_ y_max_ seed_ ant ane prop
        x_margin ymb ymt sp pv = Ret b ->
      partitions (train_reference_object_locations b)
                 (test_reference_object_locations b)
                 (possible_reference_object_locations og x_max_ y_max_
                    (default 0 x_margin) ymb ymt)
      /\ forall b',
           QuinnDatasetGenerator_init og x_max_ y_max_ seed_ ant ane prop
             x_margin ymb ymt sp pv = Ret b' ->
           train_reference_object_locations b'
           = train_reference_object_locations b
           /\ test_reference_object_locations b'
              = test_reference_object_locations b)
  /\ (forall grid_size left n_train ymb ymt b,
        AboveBelowReferenceInductiveBias_init og x_max_ y_max_ seed_
          grid_size ant left n_train prop x_margin ymb ymt ane sp pv
        = Ret b ->
        partitions (train_reference_object_locations (rib_base b))
                   (test_reference_object_locations (rib_base b))
                   (possible_reference_object_locations og x_max_ y_max_
                      (default 0 x_margin) (at_least grid_size ymb)
                      (at_least grid_size ymt)))
  /\ (forall grid_size left n_train ymb ymt b,
        BetweenReferenceInductiveBias_init og x_max_ y_max_ seed_
          grid_size ant left n_train prop x_margin ymb ymt ane sp pv
        = Ret b ->
        partitions (train_reference_object_locations (rib_base b))
                   (test_reference_object_locations (rib_base b))
                   (possible_reference_object_locations og x_max_ y_max_
                      (default 0 x_margin) (at_least grid_size ymb)
                      (at_least grid_size
                         (Some (at_least (2 * grid_size + 1) ymt)))))
  /\ (forall between two prop_target height ymb ymt b,
        OneOrTwoReferenceObjects_init og x_max_ y_max_ seed_ between two
          ant prop_target prop height x_margin ymb ymt ane sp pv = Ret b ->
        partitions (train_reference_object_locations (oot_base b))
                   (test_reference_object_locations (oot_base b))
                   (possible_reference_object_locations og x_max_ y_max_
                      (default 0 x_margin) (default 0 ymb)
                      (oot_y_margin_top height (default between two) ymt))).
Proof.
  split; [|split; [|split]].
  - intros ymb ymt b Hb. split; [eapply base_init_partitions; exact Hb|].
    intros b' Hb'. rewrite Hb in Hb'. inversion Hb'; subst. auto.
  - intros grid_size left n_train ymb ymt b Hb.
    apply rib_init_partitions in Hb as [Hb _]. exact Hb.
  - intros grid_size left n_train ymb ymt b Hb.
    unfold BetweenReferenceInductiveBias_init in Hb.
    apply rib_init_partitions in Hb as [Hb _]. exact Hb.
  - intros between two prop_target height ymb ymt b Hb.
    eapply oot_init_partitions. exact Hb.
Qed.

Lemma partitions_nil {A} (train test : list A) :
  partitions train test [] -> train = [] /\ test = [].
Proof.
  intros [_ Hall]. split.
  - destruct train as [|p train]; [reflexivity|].
    exfalso. apply (not_elem_of_nil p). apply Hall. left. left.
  - destruct test as [|p test]; [reflexivity|].
    exfalso. apply (not_elem_of_nil p). apply Hall. right. left.
Qed.

Lemma base_init_returns (og : ObjectGenerator) (x_max_ y_max_ seed_ : Z)
    (ant ane : bool) (p : Q) (x_margin : option Z) (ymb ymt : Z)
    (sp : spatial_mode) (pv : option Q) :
  0 <= seed_ ->
  exists b,
    QuinnDatasetGenerator_init og x_max_ y_max_ seed_ ant ane (Some p)
      x_margin ymb ymt sp pv = Ret b
    /\ train_dataset b = None /\ validation_dataset b = None
    /\ test_datasets b = None.
Proof.
  intros Hseed. unfold QuinnDatasetGenerator_init, np_default_rng.
  destruct (decide (seed_ < 0)); [lia|].
  destruct (split_train_test_returns
              (possible_reference_object_locations og x_max_ y_max_
                 (default 0 x_margin) ymb ymt)
              (Some p) None (default_rng seed_))
    as (train & test & ->); [left; discriminate|].
  eexists. split; [reflexivity|]. simpl. auto.
Qed.

End BuilderProperties.

(** ** The cached dataset accessors *)
Section AccessorProperties.
Import QuinnObjects.
Context {G : Type} `{NumpyGenerator G}.
Local Abbreviation Builder := (@QuinnDatasetGenerator G).
Variable _create_training_dataset : M Builder Dataset.
Variable _create_test_datasets : M Builder (list (string * Dataset)).
Variable spatial_dataset_class
  : bool -> list Scene -> list Z -> Z -> Z -> outcome SpatialTensor.

(** A call that returns leaves its result in [self.train_dataset]. *)
Lemma get_training_dataset_caches (self self' : Builder)
    (d : Dataset) :
  get_training_dataset _create_training_dataset spatial_dataset_class self
  = (Ret d, self') ->
  train_dataset self' = Some d.
Proof.
  unfold get_training_dataset. unfold bind at 1. unfold get at 1.
  destruct (train_dataset self) as [d0|] eqn:Hcache.
  { intros Hrun. inversion Hrun; subst. exact Hcache. }
  unfold bind at 1.
  destruct (_create_training_dataset self) as [[d1|e|] s1]; try discriminate.
  unfold bind at 1. unfold modify at 1. unfold bind at 1. unfold get at 1.
  destruct (prop_train_to_validation (set_train_dataset (Some d1) s1))
    as [p|].
  - destruct (Qlt_le_dec 0 p).
    + unfold bind at 1.
      destruct (_split_dataset _ _ _ _ _) as [[tv|e|] s2]; try discriminate.
      unfold bind at 1. unfold modify at 1.
      unfold bind at 1. unfold modify at 1.
      intros Hrun. inversion Hrun; subst. reflexivity.
    + intros Hrun. inversion Hrun; subst. reflexivity.
  - intros Hrun. inversion Hrun; subst. reflexivity.
Qed.

Lemma get_training_dataset_cached (self : Builder)
    (d : Dataset) :
  train_dataset self = Some d ->
  get_training_dataset _create_training_dataset spatial_dataset_class self
  = (Ret d, self).
Proof.
  intros Hcache. unfold get_training_dataset, bind, get.
  rewrite Hcache. reflexivity.
Qed.

Lemma get_test_datasets_caches (self self' : Builder)
    (ds : list (string * Dataset)) :
  get_test_datasets _create_test_datasets self = (Ret ds, self') ->
  test_datasets self' = Some ds.
Proof.
  unfold get_test_datasets. unfold bind at 1. unfold get at 1.
  destruct (test_datasets self) as [ds0|] eqn:Hcache.
  { intros Hrun. inversion Hrun; subst. exact Hcache. }
  unfold bind at 1.
  destruct (_create_test_datasets self) as [[ds1|e|] s1]; try discriminate.
  unfold bind at 1. unfold modify at 1.
  intros Hrun. inversion Hrun; subst. reflexivity.
Qed.

(** C8: after a call of the training-dataset accessor has returned, a
    second call returns the same dataset and leaves the builder,
    random generator included, as it was: nothing is created or sampled
    again.  The same holds for the test-datasets accessor. *)
Theorem dataset_accessors_idempotent (self self' : Builder) :
  (forall d,
      get_training_dataset _create_training_dataset spatial_dataset_class
        self = (Ret d, self') ->
      get_training_dataset _create_training_dataset spatial_dataset_class
        self' = (Ret d, self'))
  /\ (forall ds,
        get_test_datasets _create_test_datasets self = (Ret ds, self') ->
        get_test_datasets _create_test_datasets self' = (Ret ds, self')).
Proof.
  split.
  - intros d Hrun. apply get_training_dataset_cached.
    eapply get_training_dataset_caches. exact Hrun.
  - intros ds Hrun. apply get_test_datasets_caches in Hrun.
    unfold get_test_datasets, bind, get. rewrite Hrun. reflexivity.
Qed.
End AccessorProperties.

(** ** The properties on concrete configurations *)

(** A 20 x 20 canvas with two colours; objects are rows
    [x; y; colour one-hot (2)], colour 0 above colour 1. *)
Definition canvas20 : ColorAboveColorRelation.config :=
  {| ColorAboveColorRelation.x_field_slice := Slice 0 1;
     ColorAboveColorRelation.x_field_gen := {| min_coord := 0; max_coord := 20 |};
     ColorAboveColorRelation.y_field_slice := Slice 1 2;
     ColorAboveColorRelation.y_field_gen := {| min_coord := 0; max_coord := 20 |};
     ColorAboveColorRelation.more_position_field_slices := [];
     ColorAboveColorRelation.color_field_slice := Slice 2 4;
     ColorAboveColorRelation.color_n_types := 2;
     ColorAboveColorRelation.above_color_index := 0;
     ColorAboveColorRelation.below_color_index := 1;
     ColorAboveColorRelation.stuck_count_to_perturb_x := 10 |}.

(** An A object at y = 10 and a B object at y = 5, and the two y swapped. *)
Definition a_over_b : Scene := [[3; 10; 1; 0]; [4; 5; 0; 1]].
Definition b_over_a : Scene := [[3; 5; 1; 0]; [4; 10; 0; 1]].

Example a_over_b_true :
  ColorAboveColorRelation.evaluate canvas20 a_over_b = true.
Proof. reflexivity. Qed.

Example b_over_a_false :
  ColorAboveColorRelation.evaluate canvas20 b_over_a = false.
Proof. reflexivity. Qed.

Lemma color_above_color_evaluate_spec_witness :
  y_field_ok canvas20 a_over_b
  /\ (ColorAboveColorRelation.evaluate canvas20 a_over_b = true <->
      exists a, a ∈ a_over_b /\ category_A canvas20 a /\
        forall b, b ∈ a_over_b -> category_B canvas20 b ->
                  y_coordinate canvas20 b <= y_coordinate canvas20 a).
Proof.
  assert (Hok : y_field_ok canvas20 a_over_b).
  { split; [reflexivity|]. repeat constructor; simpl; lia. }
  split; [exact Hok|].
  exact (proj1 (color_above_color_evaluate_spec canvas20 a_over_b Hok)).
Defined.

(** The 1-D adjacency relation on x in [0, 20); objects are rows [x]. *)
Definition line20 : OneDAdjacentRelation.config :=
  {| OneDAdjacentRelation.relevant_field_slice := Slice 0 1;
     OneDAdjacentRelation.relevant_field_generator :=
       {| min_coord := 0; max_coord := 20 |} |}.

(** Field generators that keep drawing the same two-object scene: never
    adjacent, always adjacent, and adjacent on every other draw. *)
Definition far_apart (r : nat) : Scene * nat := ([[0]; [5]], S r).
Definition side_by_side (r : nat) : Scene * nat := ([[0]; [1]], S r).
Definition alternating (r : nat) : Scene * nat :=
  ([[0]; [1 + Z.of_nat (r mod 2)]], S r).

Example smart_batch_balances_negatives :
  fst (ObjectGen.SmartBalancedBatch_call far_apart line20 1 0 true 20
         (Some 4%nat) 0 0%nat)
  = Ret ([[[4]; [5]]; [[4]; [5]]; [[0]; [5]]; [[0]; [5]]],
         [true; true; false; false]).
Proof. reflexivity. Qed.

Example smart_batch_hits_recursion_limit :
  fst (ObjectGen.SmartBalancedBatch_call side_by_side line20 1 0 true 3
         (Some 4%nat) 0 0%nat)
  = Raise ValueError.
Proof. reflexivity. Qed.

Lemma smart_balanced_batch_exact_witness :
  (2 <= 4)%nat
  /\ forall data labels r',
       ObjectGen.SmartBalancedBatch_call far_apart line20 1 0 true 20
         (Some 4%nat) 0 0%nat = (Ret (data, labels), r') ->
       positive_count labels = (4 / 2)%nat
       /\ length labels = 4%nat /\ length data = 4%nat.
Proof.
  assert (Hbs : (2 <= 4)%nat) by lia.
  split; [exact Hbs|].
  exact (proj1 (smart_balanced_batch_exact (H0 := counter_source_laws)
                  far_apart line20 1 0 20 4 0 0%nat Hbs)).
Defined.

Example balanced_batch_of_three_raises :
  fst (ObjectGen.BalancedBatch_call alternating line20 1 5 (Some 3%nat) 0%nat)
  = Raise IndexError.
Proof. reflexivity. Qed.

Example balanced_batch_of_four_returns :
  fst (ObjectGen.BalancedBatch_call alternating line20 1 5 (Some 4%nat) 0%nat)
  = Ret ([[[0]; [1]]; [[0]; [1]]; [[0]; [2]]; [[0]; [2]]],
         [true; true; false; false]).
Proof. reflexivity. Qed.

Lemma balanced_batch_returns_only_even_witness :
  (3 <= 3)%nat /\ Nat.Odd 3
  /\ (fst (ObjectGen.BalancedBatch_call alternating line20 1 5 (Some 3%nat)
             0%nat) = Diverge
      \/ fst (ObjectGen.BalancedBatch_call alternating line20 1 5
                (Some 3%nat) 0%nat) = Raise IndexError).
Proof.
  assert (Hge : (3 <= 3)%nat) by lia.
  assert (Hodd : Nat.Odd 3) by (exists 1%nat; reflexivity).
  split; [exact Hge|]. split; [exact Hodd|].
  exact (proj1 (balanced_batch_returns_only_even (H0 := counter_source_laws)
                  alternating line20 1 5 3 0%nat) Hge Hodd).
Defined.

(** A reference object nine cells long, the default of the experiments. *)
Definition long_reference : QuinnObjects.ObjectGenerator :=
  {| QuinnObjects.og_seed := 33;
     QuinnObjects.reference_object_length := 9;
     QuinnObjects.target_object_length := 1 |}.

Lemma reference_locations_partition_witness :
  exists b,
    QuinnObjects.QuinnDatasetGenerator_init (G := nat) long_reference 20 20 33
      true false (Some (4 # 5)%Q) (Some 0) 3 3 QuinnObjects.NotSpatial
      (Some (1 # 10)%Q) = Ret b
    /\ partitions (QuinnObjects.train_reference_object_locations b)
                  (QuinnObjects.test_reference_object_locations b)
                  (QuinnObjects.possible_reference_object_locations
                     long_reference 20 20 0 3 3).
Proof.
  eexists. split; [reflexivity|].
  exact (proj1 (proj1 (reference_locations_partition
                         (H0 := reversing_generator_laws) long_reference 20 20
                         33 true false (Some (4 # 5)%Q) (Some 0)
                         QuinnObjects.NotSpatial (Some (1 # 10)%Q))
                  3 3 _ eq_refl)).
Defined.

(** C9 as stated fails: on a canvas 5 wide a reference object 9 long has
    no legal location, and the above/below builder is constructed all the
    same, with empty train and test reference locations. *)
Lemma narrow_canvas_constructs :
  QuinnObjects.possible_reference_object_locations long_reference 5 20 0 3 3
  = []
  /\ exists b,
       QuinnObjects.AboveBelowReferenceInductiveBias_init (G := nat)
         long_reference 5 20 33 3 true None None (Some (4 # 5)%Q) (Some 0)
         None None false QuinnObjects.NotSpatial (Some (1 # 10)%Q) = Ret b
       /\ QuinnObjects.train_reference_object_locations
            (QuinnObjects.rib_base b) = []
       /\ QuinnObjects.test_reference_object_locations
            (QuinnObjects.rib_base b) = [].
Proof.
  split; [reflexivity|]. eexists. split; [reflexivity|].
  split; reflexivity.
Qed.

(** A builder as [__init__] leaves it, with a validation proportion of one
    half, and a paradigm whose training set is four one-object scenes. *)
Definition fresh_builder : @QuinnObjects.QuinnDatasetGenerator nat :=
  {| QuinnObjects.object_generator := long_reference;
     QuinnObjects.x_max := 20;
     QuinnObjects.y_max := 20;
     QuinnObjects.seed := 33;
     QuinnObjects.rng := 0%nat;
     QuinnObjects.add_neither_train := false;
     QuinnObjects.add_neither_test := false;
     QuinnObjects.prop_train_reference_object_locations := Some (4 # 5)%Q;
     QuinnObjects.reference_object_x_margin := 0;
     QuinnObjects.reference_object_y_margin_bottom := 3;
     QuinnObjects.reference_object_y_margin_top := 3;
     QuinnObjects.train_reference_object_locations := [(0, 3)];
     QuinnObjects.test_reference_object_locations := [(1, 3)];
     QuinnObjects.spatial_dataset := QuinnObjects.NotSpatial;
     QuinnObjects.prop_train_to_validation := Some (1 # 2)%Q;
     QuinnObjects.train_dataset := None;
     QuinnObjects.validation_dataset := None;
     QuinnObjects.test_datasets := None |}.

Definition four_scenes : QuinnObjects.Dataset :=
  {| QuinnObjects.ds_objects := [[[0; 4]]; [[0; 2]]; [[1; 4]]; [[1; 2]]];
     QuinnObjects.ds_labels := [1; 0; 1; 0];
     QuinnObjects.ds_spatial_objects := None |}.

Definition create_four_scenes
    : M (@QuinnObjects.QuinnDatasetGenerator nat) QuinnObjects.Dataset :=
  fun self =>
    (Ret four_scenes, QuinnObjects.set_rng (S (QuinnObjects.rng self)) self).

Definition no_spatial_class (simplified : bool) (objs : list Scene)
    (labels : list Z) (x_max_ y_max_ : Z)
    : outcome (list (list (list (list Z)))) :=
  Raise RuntimeError.

Definition create_no_tests
    : M (@QuinnObjects.QuinnDatasetGenerator nat)
        (list (string * QuinnObjects.Dataset)) :=
  fun self => (Ret [(QuinnObjects.TEST_REFERENCE_TEST_TARGET, four_scenes)],
               QuinnObjects.set_rng (S (QuinnObjects.rng self)) self).

Example first_training_access_splits :
  fst (QuinnObjects.get_training_dataset create_four_scenes no_spatial_class
         fresh_builder)
  = Ret {| QuinnObjects.ds_objects := [[[1; 2]]; [[1; 4]]];
           QuinnObjects.ds_labels := [0; 1];
           QuinnObjects.ds_spatial_objects := None |}.
Proof. reflexivity. Qed.

Lemma dataset_accessors_idempotent_witness :
  exists d self',
    QuinnObjects.get_training_dataset create_four_scenes no_spatial_class
      fresh_builder = (Ret d, self')
    /\ QuinnObjects.rng self' = 2%nat
    /\ QuinnObjects.get_training_dataset create_four_scenes no_spatial_class
         self' = (Ret d, self').
Proof.
  eexists. eexists. split; [reflexivity|]. split; [reflexivity|].
  apply (proj1 (dataset_accessors_idempotent create_four_scenes
                  create_no_tests no_spatial_class fresh_builder _)).
  reflexivity.
Defined.

(** ** Label-exact balancers *)

(** *** Reading and writing fields of a row *)

Lemma length_set_slice (s : slice) (v : list Z) (o : list Z) :
  length (set_slice s v o) = length o.
Proof. apply length_inserts. Qed.

Lemma get_set_slice_same (s : slice) (v : list Z) (o : list Z) :
  length v = width s -> (stop s <= length o)%nat ->
  get_slice s (set_slice s v o) = v.
Proof.
  unfold get_slice, set_slice, width. intros Hv Hlen.
  apply list_eq. intros i. rewrite lookup_take, lookup_drop.
  destruct (decide (i < stop s - start s)%nat) as [Hi|Hi].
  - rewrite list_lookup_inserts by (rewrite ?Hv; lia).
    f_equal. lia.
  - symmetry. apply lookup_ge_None_2. lia.
Qed.

Lemma get_set_slice_other (s s' : slice) (v : list Z) (o : list Z) :
  length v = width s' ->
  (stop s <= start s' \/ stop s' <= start s)%nat ->
  get_slice s (set_slice s' v o) = get_slice s o.
Proof.
  unfold get_slice, set_slice, width. intros Hv Hdisj.
  apply list_eq. intros i. rewrite !lookup_take, !lookup_drop.
  destruct (decide (i < stop s - start s)%nat) as [Hi|Hi]; [|reflexivity].
  destruct Hdisj as [Hd|Hd].
  - apply list_lookup_inserts_lt. lia.
  - destruct (decide (start s' <= stop s')%nat).
    + apply list_lookup_inserts_ge. lia.
    + assert (length v = 0%nat) as Hv0 by lia.
      destruct v; [reflexivity|discriminate].
Qed.

Lemma write_field_run {R} (i : nat) (s : slice) (v : list Z)
    (objs : list (list Z)) (o : list Z) (r : R) :
  objs !! i = Some o ->
  write_field i s v (objs, r) = (Ret tt, (<[i := set_slice s v o]> objs, r)).
Proof. intros Ho. unfold write_field. simpl. rewrite Ho. reflexivity. Qed.

Lemma write_field_ret {R} (i : nat) (s : slice) (v : list Z)
    (st st' : list (list Z) * R) (u : unit) :
  write_field i s v st = (Ret u, st') ->
  exists o, fst st !! i = Some o
            /\ st' = (<[i := set_slice s v o]> (fst st), snd st).
Proof.
  unfold write_field. destruct (fst st !! i) as [o|]; [|discriminate].
  intros Hrun. inversion Hrun; subst. exists o. auto.
Qed.

(** *** Inversion of the monadic steps *)

Lemma bind_ret_inv {S A B} (m : M S A) (k : A -> M S B) (s s' : S) (b : B) :
  bind m k s = (Ret b, s') ->
  exists a s1, m s = (Ret a, s1) /\ k a s1 = (Ret b, s').
Proof.
  unfold bind. destruct (m s) as [[a|e|] s1]; try discriminate.
  intros Hk. exists a, s1. auto.
Qed.

Lemma ret_inv {S A} (a b : A) (s s' : S) :
  ret a s = (Ret b, s') -> a = b /\ s = s'.
Proof. unfold ret. intros Hr. inversion Hr. auto. Qed.

Lemma or_raise_ret {S A} (e : exn) (o : option A) (a : A) (s s' : S) :
  or_raise e o s = (Ret a, s') -> o = Some a /\ s' = s.
Proof.
  destruct o as [a'|]; simpl; [|discriminate].
  intros Hr. inversion Hr. auto.
Qed.

Section SceneSteps.
Context {R : Type} `{RandomSourceLaws R}.

Lemma objects_ret (st st' : list (list Z) * R) (o : list (list Z)) :
  objects st = (Ret o, st') -> o = fst st /\ st' = st.
Proof. unfold objects. intros Hr. inversion Hr. auto. Qed.

Lemma on_rng_ret {A} (f : R -> A * R) (st st' : list (list Z) * R) (a : A) :
  on_rng f st = (Ret a, st') ->
  fst st' = fst st /\ a = fst (f (snd st)).
Proof.
  unfold on_rng. destruct (f (snd st)) as [a' r'].
  intros Hr. inversion Hr. auto.
Qed.

Lemma randint_ret (a b z : Z) (st st' : list (list Z) * R) :
  randint a b st = (Ret z, st') -> fst st' = fst st /\ a <= z <= b.
Proof.
  unfold randint. destruct (decide (a <= b)) as [Hab|]; [|discriminate].
  intros Hr. apply on_rng_ret in Hr as [Hst ->]. split; [exact Hst|].
  apply randint_range. exact Hab.
Qed.

Lemma read_field_ret (i : nat) (s : slice) (v : list Z)
    (st st' : list (list Z) * R) :
  read_field i s st = (Ret v, st') ->
  st' = st /\ exists o, fst st !! i = Some o /\ v = get_slice s o.
Proof.
  unfold read_field. intros Hr.
  apply bind_ret_inv in Hr as (objs & s1 & Ho & Hr).
  apply objects_ret in Ho as [-> ->].
  apply bind_ret_inv in Hr as (o & s2 & Ho & Hr).
  apply or_raise_ret in Ho as [Ho ->].
  apply ret_inv in Hr as [<- <-]. split; [reflexivity|].
  exists o. auto.
Qed.

Lemma scalar_of_ret {S} (v : pyval) (x : Z) (s s' : S) :
  scalar_of v s = (Ret x, s') -> s' = s.
Proof.
  destruct v as [[|a [|b l]]|z]; simpl; try discriminate;
    intros Hr; inversion Hr; reflexivity.
Qed.

Lemma object_in_position_ret {S} (slices : list slice) (objs : list (list Z))
    (position : list Z) (hit : bool * index_tensor) (s s' : S) :
  _object_in_position slices objs position s = (Ret hit, s') -> s' = s.
Proof.
  unfold _object_in_position. intros Hr.
  apply bind_ret_inv in Hr as (eqs & s1 & He & Hr).
  apply or_raise_ret in He as [_ ->].
  apply ret_inv in Hr as [_ <-]. reflexivity.
Qed.

Lemma tensor_max_ret {S} (l : list Z) (m : Z) (s s' : S) :
  tensor_max l s = (Ret m, s') ->
  s' = s /\ forall x, x ∈ l -> x <= m.
Proof.
  destruct l as [|x l]; simpl; [discriminate|].
  intros Hr. apply ret_inv in Hr as [<- <-]. split; [reflexivity|].
  intros z Hz. apply elem_of_cons in Hz as [-> | Hz].
  - clear. induction l as [|y l IH]; simpl; lia.
  - induction l as [|y l IH]; [inversion Hz|].
    simpl. apply elem_of_cons in Hz as [-> | Hz]; [lia|].
    specialize (IH Hz). lia.
Qed.

Import ColorAboveColorRelation.

(** What [relocate] returns: the tensor is as it was, the new y is no
    lower than [max_below], and the new x is the object's own x field or a
    drawn number. *)
Lemma relocate_ret (c : config) (fuel : nat) (index_to_modify : nat)
    (max_below stuck_count : Z) (st st' : list (list Z) * R)
    (px : pyval) (y : Z) :
  relocate fuel c index_to_modify max_below stuck_count st
  = (Ret (px, y), st') ->
  fst st' = fst st /\ max_below <= y /\
  exists o, fst st !! index_to_modify = Some o /\
    (px = Tensor (get_slice (x_field_slice c) o) \/ exists x, px = Int x).
Proof.
  revert stuck_count st.
  induction fuel as [|fuel IH]; intros stuck_count st Hr; [discriminate|].
  cbn [relocate] in Hr.
  apply bind_ret_inv in Hr as (own_x & s1 & Hown & Hr).
  apply read_field_ret in Hown as [-> (o & Ho & ->)].
  apply bind_ret_inv in Hr as (new_x & s2 & Hx & Hr).
  assert (Hs2 : fst s2 = fst st /\
                (new_x = Tensor (get_slice (x_field_slice c) o)
                 \/ exists x, new_x = Int x)).
  { destruct (decide _) in Hx.
    - apply bind_ret_inv in Hx as (x & s3 & Hx & Hret).
      apply randint_ret in Hx as [Hs3 _].
      apply ret_inv in Hret as [<- <-]. split; [exact Hs3|]. right. eauto.
    - apply ret_inv in Hx as [<- <-]. auto. }
  destruct Hs2 as [Hs2 Hnew].
  apply bind_ret_inv in Hr as (new_y & s3 & Hy & Hr).
  apply randint_ret in Hy as [Hs3 Hyr].
  apply bind_ret_inv in Hr as (x & s4 & Hsc & Hr).
  apply scalar_of_ret in Hsc as ->.
  apply bind_ret_inv in Hr as (objs & s5 & Hobjs & Hr).
  apply objects_ret in Hobjs as [-> ->].
  apply bind_ret_inv in Hr as (hit & s6 & Hhit & Hr).
  apply object_in_position_ret in Hhit as ->.
  destruct (fst hit).
  - apply IH in Hr as (Hst & Hle & o' & Ho' & Hpx).
    rewrite Hs3, Hs2 in Hst, Ho'. split; [exact Hst|]. split; [exact Hle|].
    exists o'. auto.
  - apply ret_inv in Hr as [Heq <-]. inversion Heq; subst.
    split; [congruence|]. split; [lia|]. exists o. auto.
Qed.
End SceneSteps.

(** *** [ColorAboveColorRelation.balance] is label-exact *)
Section ColorAboveBalance.
Import ColorAboveColorRelation.
Context {R : Type} `{RandomSourceLaws R}.
Variable c : config.

(** Two fields share no column. *)
Definition disjoint_slices (s s' : slice) : Prop :=
  (stop s <= start s' \/ stop s' <= start s)%nat.

(** The layout of an object row of length [L]: x and y are single
    columns, the colour field is as wide as the colour one-hot vectors,
    and the three fields lie within the row and do not overlap. *)
Definition layout_ok (L : nat) : Prop :=
  width (x_field_slice c) = 1%nat /\ width (y_field_slice c) = 1%nat
  /\ width (color_field_slice c) = color_n_types c
  /\ (stop (x_field_slice c) <= L)%nat /\ (stop (y_field_slice c) <= L)%nat
  /\ (stop (color_field_slice c) <= L)%nat
  /\ disjoint_slices (x_field_slice c) (y_field_slice c)
  /\ disjoint_slices (x_field_slice c) (color_field_slice c)
  /\ disjoint_slices (y_field_slice c) (color_field_slice c).

(** Every row of the tensor has length [L]. *)
Definition rows (L : nat) (objs : list (list Z)) : Prop :=
  Forall (fun o => length o = L) objs.

Lemma length_one_hot (n i : nat) : length (one_hot n i) = n.
Proof. unfold one_hot. rewrite length_insert. apply length_replicate. Qed.

Lemma length_get_slice (s : slice) (o : list Z) :
  (stop s <= length o)%nat -> length (get_slice s o) = width s.
Proof.
  unfold get_slice, width. intros Hs.
  rewrite length_take, length_drop. lia.
Qed.

Lemma write_field_rows (L : nat) (i : nat) (s : slice) (v : list Z)
    (st st' : list (list Z) * R) (u : unit) :
  write_field i s v st = (Ret u, st') -> rows L (fst st) ->
  rows L (fst st') /\ length (fst st') = length (fst st).
Proof.
  intros Hw Hrows. apply write_field_ret in Hw as (o & Ho & ->). simpl.
  split; [|apply length_insert].
  apply Forall_insert; [exact Hrows|].
  rewrite length_set_slice.
  exact (proj1 (Forall_lookup _ _) Hrows i o Ho).
Qed.

Lemma elem_of_insert_inv {A} (l : list A) (i : nat) (x y : A) :
  y ∈ <[i := x]> l -> y = x \/ y ∈ l.
Proof.
  intros Hy. apply list_elem_of_lookup in Hy as (j & Hj).
  destruct (decide (i = j)) as [->|Hne].
  - destruct (decide (j < length l)%nat).
    + rewrite list_lookup_insert_eq in Hj by assumption. left. congruence.
    + rewrite list_insert_ge in Hj by lia. right.
      eapply list_elem_of_lookup_2. exact Hj.
  - rewrite list_lookup_insert_ne in Hj by assumption. right.
    eapply list_elem_of_lookup_2. exact Hj.
Qed.

Lemma y_coordinate_set (o : list Z) (y : Z) :
  width (y_field_slice c) = 1%nat -> (stop (y_field_slice c) <= length o)%nat ->
  y_coordinate c (set_slice (y_field_slice c) [y] o) = y.
Proof.
  unfold width. intros Hw Hlen. unfold y_coordinate, set_slice.
  rewrite list_lookup_inserts by (simpl; lia).
  rewrite Nat.sub_diag. reflexivity.
Qed.

(** The balancer, called on a negative scene, returns only scenes the
    relation labels positive, of the same number of objects. *)
Theorem color_above_balance_label_exact (L : nat) (objs objs' : list (list Z))
    (fuel : nat) (r : R) (st' : list (list Z) * R) :
  layout_ok L -> rows L objs ->
  balance fuel c 0 (objs, r) = (Ret objs', st') ->
  evaluate c objs' = true /\ length objs' = length objs.
Proof.
  intros (Hwx & Hwy & Hwc & Hsx & Hsy & Hsc & Dxy & Dxc & Dyc) Hrows.
  unfold balance. destruct (decide (0 <> 0)) as [Hne|_]; [congruence|].
  intros Hr.
  apply bind_ret_inv in Hr as (objs0 & s0 & Ho & Hr).
  apply objects_ret in Ho as [-> ->]. simpl fst in Hr.
  apply bind_ret_inv in Hr as (u & s1 & Hphase & Hr).
  assert (Hs1 : rows L (fst s1) /\ length (fst s1) = length objs).
  { destruct (decide _) in Hphase.
    - apply bind_ret_inv in Hphase as (i & t1 & Hi & Hphase).
      apply randint_ret in Hi as [Ht1 _].
      apply bind_ret_inv in Hphase as (u1 & t2 & Hw1 & Hw2).
      apply (write_field_rows L) in Hw1 as [Hr1 Hl1];
        [|rewrite Ht1; exact Hrows].
      apply (write_field_rows L) in Hw2 as [Hr2 Hl2]; [|exact Hr1].
      split; [exact Hr2|]. rewrite Hl2, Hl1, Ht1. reflexivity.
    - apply ret_inv in Hphase as [_ <-]. auto. }
  destruct Hs1 as [Hrows1 Hlen1].
  apply bind_ret_inv in Hr as (objs1 & s2 & Ho & Hr).
  apply objects_ret in Ho as [-> ->].
  assert (Hyok : y_field_ok c (fst s1)).
  { split; [exact Hwy|]. eapply Forall_impl; [exact Hrows1|].
    simpl. intros o Ho. lia. }
  apply bind_ret_inv in Hr as (mb & s3 & Hmb & Hr).
  assert (Hs3 : s3 = s1 /\
                forall b, b ∈ fst s1 -> category_B c b -> y_coordinate c b <= mb).
  { destruct (decide _) as [Hnone|Hsome] in Hmb.
    - apply ret_inv in Hmb as [_ <-]. split; [reflexivity|].
      intros b Hb HB.
      destruct (proj1 (select_rows_empty _ _ _) Hnone b Hb HB).
    - apply tensor_max_ret in Hmb as [-> Hmax]. split; [reflexivity|].
      intros b Hb HB. apply Hmax.
      rewrite (select_rows_y c) by exact Hyok.
      apply list_elem_of_fmap. exists b. split; [reflexivity|].
      apply list_elem_of_filter. auto. }
  destruct Hs3 as [-> Hbelow].
  apply bind_ret_inv in Hr as (idx & s4 & Hidx & Hr).
  assert (Hs4 : fst s4 = fst s1 /\
                exists o, fst s1 !! idx = Some o /\ category_A c o).
  { assert (Hmask : forall j,
               j ∈ nonzero (map (fun o => bool_decide
                               (has_color c (above_color_tensor c) o)) (fst s1))
               -> exists o, fst s1 !! j = Some o /\ category_A c o).
    { intros j Hj. apply nonzero_elem in Hj.
      rewrite list_lookup_fmap in Hj.
      destruct (fst s1 !! j) as [o|]; [|discriminate].
      simpl in Hj. inversion Hj as [Hb]. apply bool_decide_eq_true in Hb.
      exists o. auto. }
    unfold nonzero_squeeze in Hidx.
    destruct (nonzero _) as [|i0 [|i1 rest]] eqn:Hnz.
    - apply bind_ret_inv in Hidx as (perm & t1 & Hperm & Hidx).
      apply on_rng_ret in Hperm as [Ht1 _].
      apply bind_ret_inv in Hidx as (p & t2 & Hp & Hidx).
      apply or_raise_ret in Hp as [_ ->].
      apply or_raise_ret in Hidx as [Hl _]. rewrite lookup_nil in Hl.
      discriminate.
    - apply ret_inv in Hidx as [<- <-]. split; [reflexivity|].
      apply Hmask. left.
    - apply bind_ret_inv in Hidx as (perm & t1 & Hperm & Hidx).
      apply on_rng_ret in Hperm as [Ht1 _].
      apply bind_ret_inv in Hidx as (p & t2 & Hp & Hidx).
      apply or_raise_ret in Hp as [_ ->].
      apply or_raise_ret in Hidx as [Hl ->]. split; [exact Ht1|].
      apply Hmask. eapply list_elem_of_lookup_2. exact Hl. }
  destruct Hs4 as [Hs4 (o & Ho & HA)].
  apply bind_ret_inv in Hr as ([px y] & s5 & Hrel & Hr).
  apply relocate_ret in Hrel as (Hs5 & Hy & o' & Ho' & Hpx).
  rewrite Hs4 in Hs5, Ho'. rewrite Ho in Ho'. inversion Ho'; subst o'.
  clear Ho'. simpl fst in Hr. simpl snd in Hr.
  assert (HoL : length o = L)
    by exact (proj1 (Forall_lookup _ _) Hrows1 idx o Ho).
  apply bind_ret_inv in Hr as (u1 & s6 & Hwx' & Hr).
  assert (Hs6 : exists vx, length vx = 1%nat /\
                  s6 = (<[idx := set_slice (x_field_slice c) vx o]> (fst s1),
                        snd s5)).
  { destruct Hpx as [-> | [x ->]].
    - apply write_field_ret in Hwx' as (o1 & Ho1 & ->).
      rewrite Hs5, Ho in Ho1. inversion Ho1; subst o1.
      exists (get_slice (x_field_slice c) o).
      split; [rewrite length_get_slice; lia|]. rewrite Hs5. reflexivity.
    - unfold write_scalar in Hwx'.
      apply write_field_ret in Hwx' as (o1 & Ho1 & ->).
      rewrite Hs5, Ho in Ho1. inversion Ho1; subst o1.
      exists (replicate (width (x_field_slice c)) x).
      split; [rewrite length_replicate; exact Hwx|]. rewrite Hs5.
      reflexivity. }
  destruct Hs6 as (vx & Hvx & ->).
  apply bind_ret_inv in Hr as (u2 & s7 & Hwy' & Hr).
  unfold write_scalar in Hwy'.
  apply write_field_ret in Hwy' as (o1 & Ho1 & ->).
  simpl fst in Ho1. simpl fst in Hr. simpl snd in Hr.
  assert (Hidx_lt : (idx < length (fst s1))%nat)
    by (eapply lookup_lt_Some; exact Ho).
  rewrite list_lookup_insert_eq in Ho1 by exact Hidx_lt.
  inversion Ho1; subst o1. clear Ho1.
  rewrite list_insert_insert_eq in Hr.
  apply objects_ret in Hr as [-> _]. simpl fst.
  rewrite Hwy. simpl replicate.
  set (o2 := set_slice (y_field_slice c) [y]
               (set_slice (x_field_slice c) vx o)).
  split; [|rewrite length_insert; exact Hlen1].
  assert (Ho2L : length o2 = L).
  { unfold o2. rewrite !length_set_slice. exact HoL. }
  apply evaluate_iff.
  { split; [exact Hwy|]. apply Forall_insert.
    - eapply Forall_impl; [exact Hrows1|]. simpl. intros o0 Ho0. lia.
    - lia. }
  exists o2. split; [|split].
  - eapply list_elem_of_lookup_2. apply list_lookup_insert_eq. exact Hidx_lt.
  - unfold category_A, has_color, o2.
    rewrite get_set_slice_other;
      [|simpl; lia|destruct Dyc; [right|left]; assumption].
    rewrite get_set_slice_other;
      [|lia|destruct Dxc; [right|left]; assumption].
    exact HA.
  - assert (Hy2 : y_coordinate c o2 = y).
    { unfold o2. apply y_coordinate_set; [exact Hwy|].
      rewrite length_set_slice. lia. }
    intros b Hb HB. rewrite Hy2.
    apply elem_of_insert_inv in Hb as [-> | Hb]; [lia|].
    specialize (Hbelow b Hb HB). lia.
Qed.
End ColorAboveBalance.

(** *** The adjacency balancers *)
Section AdjacentBalance.
Context {R : Type} `{RandomSourceLaws R}.

(** [torch.rand] never returns exactly 0.5: the one draw at which
    [torch.sign(u - 0.5)] is 0. *)
Definition never_half : Prop :=
  forall r : R, ~ (fst (draw_rand r) == 1 # 2)%Q.

Lemma sign_of_draw_unit (u : Q) :
  ~ (u == 1 # 2)%Q -> sign_of_draw u = -1 \/ sign_of_draw u = 1.
Proof.
  intros Hu. unfold sign_of_draw.
  destruct (u ?= 1 # 2)%Q eqn:Hc; auto.
  apply Qeq_alt in Hc. contradiction.
Qed.

Lemma item_ret {S} (v : list Z) (x : Z) (s s' : S) :
  item v s = (Ret x, s') -> v = [x] /\ s' = s.
Proof.
  destruct v as [|a [|b l]]; simpl; try discriminate.
  intros Hr. inversion Hr. auto.
Qed.

Lemma two_random_indices_ret (n a b : nat) (st st' : list (list Z) * R) :
  two_random_indices n st = (Ret (a, b), st') ->
  fst st' = fst st /\ a <> b /\ (a < n)%nat /\ (b < n)%nat.
Proof.
  unfold two_random_indices. intros Hr.
  apply bind_ret_inv in Hr as (perm & s1 & Hperm & Hr).
  apply on_rng_ret in Hperm as [Hs1 ->].
  pose proof (randperm_perm n (snd st)) as Hp.
  revert Hr Hp.
  destruct (fst (draw_randperm n (snd st))) as [|x [|y rest]];
    simpl; intros Hr Hp; try discriminate.
  apply ret_inv in Hr as [Heq <-].
  inversion Heq; subst x y.
  assert (Hnd : NoDup (a :: b :: rest)) by (rewrite Hp; apply NoDup_seq).
  assert (Ha : a ∈ seq 0 n) by (rewrite <- Hp; left).
  assert (Hb : b ∈ seq 0 n) by (rewrite <- Hp; right; left).
  apply elem_of_seq in Ha, Hb.
  apply NoDup_cons in Hnd as [Hnot _].
  split; [exact Hs1|]. split; [|lia].
  intros ->. apply Hnot. left.
Qed.

(** The boundary-aware shift moves the one-entry field of row [i] by
    exactly one unit. *)
Lemma shift_by_one_ret (i : nat) (s : slice) (g : PositionField)
    (st st' : list (list Z) * R) (u : unit) :
  never_half -> width s = 1%nat ->
  shift_by_one i s g st = (Ret u, st') ->
  exists o x x', fst st !! i = Some o /\ get_slice s o = [x]
    /\ Z.abs (x' - x) = 1
    /\ fst st' = <[i := set_slice s [x'] o]> (fst st).
Proof.
  intros Hhalf Hw. unfold shift_by_one. intros Hr.
  apply bind_ret_inv in Hr as (v & s1 & Hv & Hr).
  apply read_field_ret in Hv as [-> (o & Ho & ->)].
  apply bind_ret_inv in Hr as (x & s2 & Hx & Hr).
  apply item_ret in Hx as [Hx ->].
  exists o, x.
  destruct (decide (x = min_coord g)) as [Hmin|Hmin].
  { unfold write_scalar in Hr. rewrite Hw in Hr.
    apply write_field_ret in Hr as (o1 & Ho1 & ->).
    rewrite Ho in Ho1. inversion Ho1; subst o1.
    exists (min_coord g + 1). repeat split; auto. lia. }
  destruct (decide (x = max_coord g - 1)) as [Hmax|Hmax].
  { unfold write_scalar in Hr. rewrite Hw in Hr.
    apply write_field_ret in Hr as (o1 & Ho1 & ->).
    rewrite Ho in Ho1. inversion Ho1; subst o1.
    exists (max_coord g - 2). repeat split; auto. lia. }
  apply bind_ret_inv in Hr as (q & s3 & Hq & Hr).
  apply on_rng_ret in Hq as [Hs3 ->].
  unfold add_scalar in Hr.
  apply bind_ret_inv in Hr as (v & s4 & Hv & Hr).
  apply read_field_ret in Hv as [-> (o1 & Ho1 & ->)].
  rewrite Hs3, Ho in Ho1. inversion Ho1; subst o1.
  apply write_field_ret in Hr as (o2 & Ho2 & ->).
  rewrite Hs3, Ho in Ho2. inversion Ho2; subst o2.
  rewrite Hx. simpl map.
  exists (x + sign_of_draw (fst (draw_rand (snd st)))).
  repeat split; auto.
  - destruct (sign_of_draw_unit _ (Hhalf (snd st))) as [-> | ->]; lia.
  - simpl. rewrite Hs3. reflexivity.
Qed.

Lemma any_unit_distance_intro (positions : list (list Z)) (p q : list Z) :
  p ∈ positions -> q ∈ positions -> l1_distance p q = 1 ->
  any_unit_distance positions = true.
Proof.
  intros Hp Hq Hd. unfold any_unit_distance.
  apply existsb_exists. exists p. split; [apply list_elem_of_In; exact Hp|].
  apply existsb_exists. exists q. split; [apply list_elem_of_In; exact Hq|].
  apply bool_decide_eq_true. exact Hd.
Qed.

(** [OneDAdjacentRelation.balance], called on a scene of rows of length
    [L] whose relevant field is one column, returns only scenes the
    relation labels positive, of the same number of objects, provided no
    draw of [torch.rand] is exactly 0.5. *)
Theorem one_d_balance_label_exact (c : OneDAdjacentRelation.config)
    (L : nat) (objs objs' : list (list Z)) (r : R)
    (st' : list (list Z) * R) :
  never_half ->
  width (OneDAdjacentRelation.relevant_field_slice c) = 1%nat ->
  (stop (OneDAdjacentRelation.relevant_field_slice c) <= L)%nat ->
  Forall (fun o => length o = L) objs ->
  OneDAdjacentRelation.balance c 0 (objs, r) = (Ret objs', st') ->
  OneDAdjacentRelation.evaluate c objs' = true
  /\ length objs' = length objs.
Proof.
  intros Hhalf Hw Hs Hrows. unfold OneDAdjacentRelation.balance.
  set (sl := OneDAdjacentRelation.relevant_field_slice c) in *.
  destruct (decide (0 <> 0)) as [Hne|_]; [congruence|].
  intros Hr.
  apply bind_ret_inv in Hr as (objs0 & s0 & Ho & Hr).
  apply objects_ret in Ho as [-> ->]. simpl fst in Hr.
  apply bind_ret_inv in Hr as ([i j] & s1 & Hij & Hr).
  apply two_random_indices_ret in Hij as (Hs1 & Hne & Hi & Hj).
  simpl fst in Hr. simpl snd in Hr. simpl in Hs1.
  apply bind_ret_inv in Hr as (v & s2 & Hv & Hr).
  apply read_field_ret in Hv as [-> (oj & Hoj & ->)].
  rewrite Hs1 in Hoj.
  apply bind_ret_inv in Hr as (u1 & s3 & Hw1 & Hr).
  apply write_field_ret in Hw1 as (oi & Hoi & ->).
  rewrite Hs1 in Hoi. rewrite Hs1 in Hr.
  apply bind_ret_inv in Hr as (u2 & s4 & Hshift & Hr).
  apply shift_by_one_ret in Hshift as (o1 & x & x' & Ho1 & Hx & Habs & Hs4);
    [|exact Hhalf|exact Hw].
  simpl fst in Ho1, Hs4.
  rewrite list_lookup_insert_eq in Ho1 by exact Hi.
  inversion Ho1; subst o1. clear Ho1.
  rewrite list_insert_insert_eq in Hs4.
  apply objects_ret in Hr as [-> _]. rewrite Hs4.
  assert (HojL : length oj = L)
    by exact (proj1 (Forall_lookup _ _) Hrows j oj Hoj).
  assert (HoiL : length oi = L)
    by exact (proj1 (Forall_lookup _ _) Hrows i oi Hoi).
  rewrite get_set_slice_same in Hx
    by (rewrite ?length_get_slice; lia).
  split; [|apply length_insert].
  unfold OneDAdjacentRelation.evaluate. fold sl.
  apply (any_unit_distance_intro _ [x'] [x]).
  - apply list_elem_of_fmap.
    exists (set_slice sl [x'] (set_slice sl (get_slice sl oj) oi)).
    split.
    + rewrite get_set_slice_same; [reflexivity|simpl; lia|].
      rewrite length_set_slice. lia.
    + eapply list_elem_of_lookup_2. apply list_lookup_insert_eq. exact Hi.
  - apply list_elem_of_fmap. exists oj. split; [symmetry; exact Hx|].
    eapply list_elem_of_lookup_2.
    rewrite list_lookup_insert_ne by exact Hne. exact Hoj.
  - unfold l1_distance. simpl. lia.
Qed.
End AdjacentBalance.

(** *** [MultipleDAdjacentRelation.balance] is label-exact *)
Section MultipleDBalance.
Import MultipleDAdjacentRelation.
Context {R : Type} `{RandomSourceLaws R}.

(** No two fields of the list share a column. *)
Fixpoint pairwise_disjoint (l : list slice) : Prop :=
  match l with
  | [] => True
  | s :: l' => Forall (disjoint_slices s) l' /\ pairwise_disjoint l'
  end.

(** Row [oi] after each field of the list was copied from row [oj]. *)
Definition copy_fields (slices : list slice) (oj oi : list Z) : list Z :=
  foldl (fun o f => set_slice f (get_slice f oj) o) oi slices.

Lemma length_copy_fields (slices : list slice) (oj oi : list Z) :
  length (copy_fields slices oj oi) = length oi.
Proof.
  unfold copy_fields. revert oi.
  induction slices as [|f fs IH]; intros oi; [reflexivity|].
  simpl. rewrite IH. apply length_set_slice.
Qed.

Lemma get_copy_fields_other (f : slice) (slices : list slice)
    (oj oi : list Z) :
  Forall (fun s => (stop s <= length oj)%nat) slices ->
  Forall (disjoint_slices f) slices ->
  get_slice f (copy_fields slices oj oi) = get_slice f oi.
Proof.
  unfold copy_fields. revert oi.
  induction slices as [|s fs IH]; intros oi Hin Hd; [reflexivity|].
  apply Forall_cons in Hin as [Hs Hin]. apply Forall_cons in Hd as [Hfs Hd].
  simpl. rewrite IH by assumption.
  apply get_set_slice_other; [apply length_get_slice; exact Hs|exact Hfs].
Qed.

Lemma get_copy_fields (slices : list slice) (oj oi : list Z) (f : slice) :
  Forall (fun s => (stop s <= length oj)%nat) slices ->
  length oi = length oj ->
  pairwise_disjoint slices -> f ∈ slices ->
  get_slice f (copy_fields slices oj oi) = get_slice f oj.
Proof.
  revert oi. induction slices as [|s fs IH]; intros oi Hin Hlen Hpd Hf.
  { inversion Hf. }
  apply Forall_cons in Hin as [Hs Hin]. destruct Hpd as [Hd Hpd].
  apply elem_of_cons in Hf as [-> | Hf].
  - change (copy_fields (s :: fs) oj oi)
      with (copy_fields fs oj (set_slice s (get_slice s oj) oi)).
    rewrite get_copy_fields_other by assumption.
    apply get_set_slice_same; [apply length_get_slice; exact Hs|lia].
  - change (copy_fields (s :: fs) oj oi)
      with (copy_fields fs oj (set_slice s (get_slice s oj) oi)).
    apply IH; auto. rewrite length_set_slice. exact Hlen.
Qed.

(** The copying loop of [balance]. *)
Lemma copy_loop_ret (slices : list slice) (i j : nat) (oi oj : list Z)
    (st st' : list (list Z) * R) (u : unit) :
  i <> j -> fst st !! i = Some oi -> fst st !! j = Some oj ->
  for_each slices (fun field_slice =>
    v <- read_field j field_slice;; write_field i field_slice v) st
  = (Ret u, st') ->
  fst st' = <[i := copy_fields slices oj oi]> (fst st).
Proof.
  intros Hne. revert oi st.
  induction slices as [|f fs IH]; intros oi st Hoi Hoj Hr.
  - apply ret_inv in Hr as [_ <-]. simpl.
    symmetry. apply list_insert_id. exact Hoi.
  - cbn [for_each] in Hr.
    apply bind_ret_inv in Hr as (u1 & s1 & Hstep & Hr).
    apply bind_ret_inv in Hstep as (v & s2 & Hv & Hw).
    apply read_field_ret in Hv as [-> (o & Ho & ->)].
    rewrite Hoj in Ho. inversion Ho; subst o.
    apply write_field_ret in Hw as (o & Ho' & ->).
    rewrite Hoi in Ho'. inversion Ho'; subst o.
    assert (Hi : (i < length (fst st))%nat)
      by (eapply lookup_lt_Some; exact Hoi).
    apply IH with (oi := set_slice f (get_slice f oj) oi) in Hr.
    + simpl fst in Hr. rewrite list_insert_insert_eq in Hr. exact Hr.
    + simpl. apply list_lookup_insert_eq. exact Hi.
    + simpl. rewrite list_lookup_insert_ne by exact Hne. exact Hoj.
Qed.

Lemma l1_distance_app (p1 p2 q1 q2 : list Z) :
  length p1 = length q1 ->
  l1_distance (p1 ++ p2) (q1 ++ q2)
  = l1_distance p1 q1 + l1_distance p2 q2.
Proof.
  unfold l1_distance. revert q1.
  induction p1 as [|a p1 IH]; intros [|b q1] Hlen; try discriminate.
  - simpl. lia.
  - simpl in *. rewrite IH by lia. lia.
Qed.

Lemma l1_distance_refl (p : list Z) : l1_distance p p = 0.
Proof.
  unfold l1_distance. induction p as [|a p IH]; [reflexivity|].
  simpl. rewrite IH. lia.
Qed.

Lemma concat_fields_equal (slices : list slice) (o o' : list Z) :
  (forall f, f ∈ slices -> get_slice f o = get_slice f o') ->
  concat (map (fun s => get_slice s o) slices)
  = concat (map (fun s => get_slice s o') slices).
Proof.
  intros Heq. f_equal. apply map_ext_in. intros f Hf.
  apply Heq. apply list_elem_of_In. exact Hf.
Qed.

Lemma disjoint_slices_sym (s s' : slice) :
  disjoint_slices s s' -> disjoint_slices s' s.
Proof. unfold disjoint_slices. tauto. Qed.

Lemma pairwise_disjoint_middle (pre post : list slice) (f : slice) :
  pairwise_disjoint (pre ++ f :: post) ->
  Forall (disjoint_slices f) pre /\ Forall (disjoint_slices f) post.
Proof.
  induction pre as [|s pre IH]; simpl.
  - intros [Hf _]. split; [constructor | exact Hf].
  - intros [Hs Hpd]. destruct (IH Hpd) as [Hpre Hpost].
    split; [|exact Hpost]. constructor; [|exact Hpre].
    apply disjoint_slices_sym.
    rewrite Forall_app in Hs. destruct Hs as [_ Hs].
    apply Forall_cons in Hs as [Hs _]. exact Hs.
Qed.

(** [MultipleDAdjacentRelation.balance], called on a scene of rows of
    length [L] whose position fields are single columns within the row
    that do not overlap, returns only scenes the relation labels positive,
    of the same number of objects, provided no draw of [torch.rand] is
    exactly 0.5. *)
Theorem multiple_d_balance_label_exact (c : config) (L : nat)
    (objs objs' : list (list Z)) (r : R) (st' : list (list Z) * R) :
  never_half ->
  Forall (fun s => width s = 1%nat /\ (stop s <= L)%nat)
         (position_field_slices c) ->
  pairwise_disjoint (position_field_slices c) ->
  Forall (fun o => length o = L) objs ->
  balance c 0 (objs, r) = (Ret objs', st') ->
  evaluate c objs' = true /\ length objs' = length objs.
Proof.
  intros Hhalf Hfields Hpd Hrows. unfold balance.
  destruct (decide (0 <> 0)) as [Hne|_]; [congruence|].
  intros Hr.
  apply bind_ret_inv in Hr as (objs0 & s0 & Ho & Hr).
  apply objects_ret in Ho as [-> ->]. simpl fst in Hr.
  apply bind_ret_inv in Hr as ([i j] & s1 & Hij & Hr).
  apply two_random_indices_ret in Hij as (Hs1 & Hne & Hi & Hj).
  simpl fst in Hr. simpl snd in Hr. simpl in Hs1.
  destruct (lookup_lt_is_Some_2 objs i Hi) as [oi Hoi].
  destruct (lookup_lt_is_Some_2 objs j Hj) as [oj Hoj].
  assert (HoiL : length oi = L)
    by exact (proj1 (Forall_lookup _ _) Hrows i oi Hoi).
  assert (HojL : length oj = L)
    by exact (proj1 (Forall_lookup _ _) Hrows j oj Hoj).
  apply bind_ret_inv in Hr as (u1 & s2 & Hcopy & Hr).
  apply (copy_loop_ret _ i j oi oj) in Hcopy;
    [|exact Hne|rewrite Hs1; exact Hoi|rewrite Hs1; exact Hoj].
  rewrite Hs1 in Hcopy.
  set (oc := copy_fields (position_field_slices c) oj oi) in *.
  apply bind_ret_inv in Hr as (k & s3 & Hk & Hr).
  apply randint_ret in Hk as [Hs3 _].
  apply bind_ret_inv in Hr as (fg & s4 & Hfg & Hr).
  apply or_raise_ret in Hfg as [Hfg ->].
  apply bind_ret_inv in Hr as (u2 & s5 & Hshift & Hr).
  assert (Hfk : position_field_slices c !! Z.to_nat k = Some (fst fg)).
  { unfold position_field_slices. rewrite list_lookup_fmap, Hfg. reflexivity. }
  assert (Hfk_in : fst fg ∈ position_field_slices c)
    by (eapply list_elem_of_lookup_2; exact Hfk).
  destruct (proj1 (Forall_forall _ _) Hfields _ Hfk_in) as [Hwk Hsk].
  apply shift_by_one_ret in Hshift as (o1 & x & x' & Ho1 & Hx & Habs & Hs5);
    [|exact Hhalf|exact Hwk].
  rewrite Hs3, Hcopy in Ho1, Hs5.
  rewrite list_lookup_insert_eq in Ho1 by exact Hi.
  inversion Ho1; subst o1. clear Ho1.
  rewrite list_insert_insert_eq in Hs5.
  apply objects_ret in Hr as [-> _]. rewrite Hs5.
  split; [|apply length_insert].
  assert (HocL : length oc = L).
  { unfold oc. rewrite length_copy_fields. exact HoiL. }
  assert (Hstops : Forall (fun s => (stop s <= length oj)%nat)
                          (position_field_slices c)).
  { eapply Forall_impl; [exact Hfields|]. simpl. intros s [_ Hs]. lia. }
  assert (Hcopied : forall f, f ∈ position_field_slices c ->
                      get_slice f oc = get_slice f oj).
  { intros f Hf. unfold oc. apply get_copy_fields; auto. lia. }
  rewrite (Hcopied _ Hfk_in) in Hx.
  set (o2 := set_slice (fst fg) [x'] oc).
  unfold evaluate. simpl existsb. rewrite orb_false_r.
  apply (any_unit_distance_intro _
           (concat (map (fun s => get_slice s o2) (position_field_slices c)))
           (concat (map (fun s => get_slice s oj) (position_field_slices c)))).
  - unfold cat_fields. apply list_elem_of_fmap. exists o2.
    split; [reflexivity|].
    eapply list_elem_of_lookup_2. apply list_lookup_insert_eq. exact Hi.
  - unfold cat_fields. apply list_elem_of_fmap. exists oj.
    split; [reflexivity|].
    eapply list_elem_of_lookup_2.
    rewrite list_lookup_insert_ne by exact Hne. exact Hoj.
  - pose proof (take_drop_middle _ _ _ Hfk) as Hsplit.
    rewrite <- Hsplit in Hpd.
    apply pairwise_disjoint_middle in Hpd as [Hpre Hpost].
    assert (Hother : forall f, f ∈ position_field_slices c ->
                       disjoint_slices (fst fg) f ->
                       get_slice f o2 = get_slice f oj).
    { intros f Hf Hd. unfold o2.
      rewrite get_set_slice_other;
        [apply Hcopied; exact Hf|simpl; lia|apply disjoint_slices_sym; exact Hd]. }
    rewrite <- Hsplit. rewrite !map_app, !concat_app. simpl map. simpl concat.
    assert (Hpre_eq :
      concat (map (fun s => get_slice s o2)
                  (take (Z.to_nat k) (position_field_slices c)))
      = concat (map (fun s => get_slice s oj)
                    (take (Z.to_nat k) (position_field_slices c)))).
    { apply concat_fields_equal. intros f Hf. apply Hother.
      - eapply subseteq_take. exact Hf.
      - exact (proj1 (Forall_forall _ _) Hpre f Hf). }
    assert (Hpost_eq :
      concat (map (fun s => get_slice s o2)
                  (drop (S (Z.to_nat k)) (position_field_slices c)))
      = concat (map (fun s => get_slice s oj)
                    (drop (S (Z.to_nat k)) (position_field_slices c)))).
    { apply concat_fields_equal. intros f Hf. apply Hother.
      - eapply subseteq_drop. exact Hf.
      - exact (proj1 (Forall_forall _ _) Hpost f Hf). }
    rewrite Hpre_eq, Hpost_eq.
    assert (Hmid : get_slice (fst fg) o2 = [x']).
    { unfold o2. apply get_set_slice_same; [simpl; lia|lia]. }
    rewrite Hmid, Hx.
    rewrite l1_distance_app by reflexivity.
    rewrite l1_distance_app by reflexivity.
    rewrite !l1_distance_refl. unfold l1_distance. simpl. lia.
Qed.
End MultipleDBalance.

(** The balancers on the concrete scenes. *)

Example color_above_balance_of_b_over_a :
  fst (ColorAboveColorRelation.balance (R := nat) 5 canvas20 0
         (b_over_a, 0%nat))
  = Ret [[3; 10; 1; 0]; [4; 10; 0; 1]].
Proof. reflexivity. Qed.

Lemma color_above_balance_label_exact_witness :
  exists objs' st',
    ColorAboveColorRelation.balance (R := nat) 5 canvas20 0 (b_over_a, 0%nat)
    = (Ret objs', st')
    /\ ColorAboveColorRelation.evaluate canvas20 objs' = true
    /\ length objs' = length b_over_a.
Proof.
  eexists. eexists. split; [vm_compute; reflexivity|].
  eapply (color_above_balance_label_exact (H0 := counter_source_laws) canvas20
            4 b_over_a _ 5 0%nat).
  - repeat split; simpl; try lia; left; simpl; lia.
  - repeat constructor.
  - vm_compute. reflexivity.
Defined.

Lemma counter_source_never_half : never_half (R := nat).
Proof. intros r. simpl. intros Heq. discriminate. Qed.

Lemma one_d_balance_label_exact_witness :
  exists objs' st',
    OneDAdjacentRelation.balance (R := nat) line20 0 ([[0]; [5]], 0%nat)
    = (Ret objs', st')
    /\ OneDAdjacentRelation.evaluate line20 objs' = true
    /\ length objs' = 2%nat.
Proof.
  eexists. eexists. split; [vm_compute; reflexivity|].
  eapply (one_d_balance_label_exact (H0 := counter_source_laws) line20 1
            [[0]; [5]] _ 0%nat).
  - exact counter_source_never_half.
  - reflexivity.
  - simpl. lia.
  - repeat constructor.
  - vm_compute. reflexivity.
Defined.

(** A source whose [torch.rand] returns exactly 0.5. *)
Definition half_source : RandomSource nat := {|
  draw_randint := fun a _ r => (a, S r);
  draw_randperm := fun n r => (seq 0 n, S r);
  draw_rand := fun r => ((1 # 2)%Q, S r);
  draw_choices := fun options k r => (replicate k (hd 0%nat options), S r)
|}.

(** At that draw the shift is [torch.sign(0) = 0]: the modified object
    lands on the other one and the scene stays negative. *)
Example one_d_balance_zero_shift :
  fst (OneDAdjacentRelation.balance (H := half_source) line20 0
         ([[0]; [5]], 0%nat)) = Ret [[5]; [5]]
  /\ OneDAdjacentRelation.evaluate line20 [[5]; [5]] = false.
Proof. split; reflexivity. Qed.

(** The 2-D adjacency relation on x, y in [0, 20); objects are rows
    [x; y]. *)
Definition plane20 : MultipleDAdjacentRelation.config :=
  {| MultipleDAdjacentRelation.position_fields :=
       [(Slice 0 1, {| min_coord := 0; max_coord := 20 |});
        (Slice 1 2, {| min_coord := 0; max_coord := 20 |})] |}.

Lemma multiple_d_balance_label_exact_witness :
  exists objs' st',
    MultipleDAdjacentRelation.balance (R := nat) plane20 0
      ([[2; 3]; [7; 9]], 0%nat) = (Ret objs', st')
    /\ MultipleDAdjacentRelation.evaluate plane20 objs' = true
    /\ length objs' = 2%nat.
Proof.
  eexists. eexists. split; [vm_compute; reflexivity|].
  eapply (multiple_d_balance_label_exact (H0 := counter_source_laws) plane20 2
            [[2; 3]; [7; 9]] _ 0%nat).
  - exact counter_source_never_half.
  - repeat constructor; simpl; lia.
  - simpl. repeat split; repeat constructor; left; simpl; lia.
  - repeat constructor.
  - vm_compute. reflexivity.
Defined.

(** *** [ObjectCountRelation.balance] is label-exact *)

(** Counting rows through the index tensors [torch.nonzero] returns. *)
Lemma nonzero_map_elem (f : list Z -> bool) (s : list (list Z)) (i : nat) :
  i ∈ nonzero (map f s) <-> exists o, s !! i = Some o /\ f o = true.
Proof.
  rewrite nonzero_elem, list_lookup_fmap. split.
  - destruct (s !! i) as [o|]; [|discriminate]. simpl.
    intros Hf. inversion Hf. exists o. auto.
  - intros (o & -> & Hf). simpl. congruence.
Qed.

Lemma length_nonzero_map (f : list Z -> bool) (s : list (list Z)) :
  length (nonzero (map f s)) = length (filter (fun o => f o = true) s).
Proof.
  unfold nonzero. rewrite length_nonzero_from.
  induction s as [|o s IH]; [reflexivity|].
  simpl. rewrite !filter_cons.
  destruct (decide (f o = true)); simpl; rewrite IH; reflexivity.
Qed.

Lemma NoDup_incl_length (l k : list nat) :
  NoDup l -> (forall x, x ∈ l -> x ∈ k) -> (length l <= length k)%nat.
Proof.
  intros Hnd Hin. apply submseteq_length.
  apply NoDup_submseteq; assumption.
Qed.

(** Distinct rows that satisfy [f] are counted by the filter. *)
Lemma count_at_least (f : list Z -> bool) (s : list (list Z))
    (idx : list nat) :
  NoDup idx ->
  (forall i, i ∈ idx -> exists o, s !! i = Some o /\ f o = true) ->
  (length idx <= length (filter (fun o => f o = true) s))%nat.
Proof.
  intros Hnd Hall. rewrite <- length_nonzero_map.
  apply NoDup_incl_length; [exact Hnd|].
  intros i Hi. apply nonzero_map_elem. apply Hall. exact Hi.
Qed.

(** If every row that satisfies [f] in [s'] satisfies [g] in [s], at the
    same index, [s'] has no more [f] rows than [s] has [g] rows. *)
Lemma count_at_most (f g : list Z -> bool) (s s' : list (list Z)) :
  (forall i o', s' !! i = Some o' -> f o' = true ->
                exists o, s !! i = Some o /\ g o = true) ->
  (length (filter (fun o => f o = true) s')
   <= length (filter (fun o => g o = true) s))%nat.
Proof.
  intros Hall. rewrite <- !length_nonzero_map.
  apply NoDup_incl_length; [apply nonzero_from_NoDup|].
  intros i Hi. apply nonzero_map_elem in Hi as (o' & Ho' & Hf).
  apply nonzero_map_elem. eapply Hall; eauto.
Qed.

Lemma filter_bool_decide (P : list Z -> Prop) `{forall o, Decision (P o)}
    (s : list (list Z)) :
  filter (fun o => bool_decide (P o) = true) s = filter P s.
Proof.
  apply list_filter_iff. intros o. apply bool_decide_eq_true.
Qed.

Lemma count_complement (f : list Z -> bool) (s : list (list Z)) :
  (length (filter (fun o => f o = true) s)
   + length (filter (fun o => negb (f o) = true) s) = length s)%nat.
Proof.
  induction s as [|o s IH]; [reflexivity|].
  rewrite !filter_cons.
  destruct (decide (f o = true)) as [Hf|Hf];
    destruct (decide (negb (f o) = true)) as [Hn|Hn]; simpl; try lia;
    destruct (f o); simpl in *; congruence.
Qed.

(** The entry of row [i], column [col] of a tensor. *)
Definition entry (s : list (list Z)) (i col : nat) : option Z :=
  match s !! i with
  | Some o => o !! col
  | None => None
  end.

Section EntryWrites.
Context {R : Type} `{RandomSourceLaws R}.

Lemma write_entry_ret (i col : nat) (v : Z) (st st' : list (list Z) * R)
    (u : unit) :
  write_entry i col v st = (Ret u, st') ->
  snd st' = snd st
  /\ length (fst st') = length (fst st)
  /\ (forall L, rows L (fst st) -> rows L (fst st'))
  /\ forall i' col', entry (fst st') i' col'
       = if decide (i' = i /\ col' = col) then Some v
         else entry (fst st) i' col'.
Proof.
  unfold write_entry. destruct (fst st !! i) as [o|] eqn:Ho; [|discriminate].
  destruct (decide (col < length o)%nat) as [Hcol|]; [|discriminate].
  intros Hr. inversion Hr; subst. simpl.
  assert (Hi : (i < length (fst st))%nat) by (eapply lookup_lt_Some; eauto).
  split; [reflexivity|]. split; [apply length_insert|]. split.
  - intros L HL. apply Forall_insert; [exact HL|].
    rewrite length_insert. exact (proj1 (Forall_lookup _ _) HL i o Ho).
  - intros i' col'. unfold entry.
    destruct (decide (i' = i /\ col' = col)) as [[-> ->]|Hne].
    + rewrite list_lookup_insert_eq by exact Hi.
      apply list_lookup_insert_eq. exact Hcol.
    + destruct (decide (i' = i)) as [->|Hi'].
      * rewrite list_lookup_insert_eq by exact Hi. rewrite Ho.
        apply list_lookup_insert_ne. intros ->. apply Hne. auto.
      * rewrite list_lookup_insert_ne by congruence. reflexivity.
Qed.

(** A loop of single-entry writes of [v] changes exactly the entries it
    names. *)
Lemma write_entries_ret {A} (l : list A) (row col : A -> nat) (v : Z)
    (st st' : list (list Z) * R) (u : unit) :
  for_each l (fun p => write_entry (row p) (col p) v) st = (Ret u, st') ->
  snd st' = snd st
  /\ length (fst st') = length (fst st)
  /\ (forall L, rows L (fst st) -> rows L (fst st'))
  /\ forall i' col', entry (fst st') i' col'
       = if decide (Exists (fun p => row p = i' /\ col p = col') l)
         then Some v else entry (fst st) i' col'.
Proof.
  revert st. induction l as [|p l IH]; intros st Hr.
  - apply ret_inv in Hr as [_ <-].
    split; [reflexivity|]. split; [reflexivity|]. split; [auto|].
    intros i' col'. destruct (decide _) as [Hex|]; [|reflexivity].
    inversion Hex.
  - cbn [for_each] in Hr.
    apply bind_ret_inv in Hr as (u1 & s1 & Hw & Hr).
    apply write_entry_ret in Hw as (Hrng & Hlen & Hrows & Hent).
    apply IH in Hr as (Hrng' & Hlen' & Hrows' & Hent').
    split; [congruence|]. split; [congruence|]. split; [auto|].
    intros i' col'. rewrite Hent', Hent.
    destruct (decide (Exists (fun q => row q = i' /\ col q = col') l))
      as [Hl|Hnl].
    + destruct (decide _) as [_|Hn]; [reflexivity|].
      destruct Hn. right. exact Hl.
    + destruct (decide (i' = row p /\ col' = col p)) as [[-> ->]|Hnp].
      * destruct (decide _) as [_|Hn]; [reflexivity|].
        destruct Hn. left. auto.
      * destruct (decide _) as [Hex|_]; [|reflexivity].
        apply Exists_cons in Hex as [[<- <-]|Hex]; [destruct Hnp; auto|].
        contradiction.
Qed.
End EntryWrites.

(** *** Fields and entries *)

Lemma get_slice_entries (s : slice) (o o' : list Z) :
  (forall col, (start s <= col < stop s)%nat -> o !! col = o' !! col) ->
  get_slice s o = get_slice s o'.
Proof.
  intros Heq. unfold get_slice, width. apply list_eq. intros k.
  rewrite !lookup_take, !lookup_drop.
  destruct (decide (k < stop s - start s)%nat); [|reflexivity].
  apply Heq. lia.
Qed.

Lemma slice_entry (s : slice) (o t : list Z) (k : nat) :
  get_slice s o = t -> (k < length t)%nat ->
  o !! (start s + k)%nat = t !! k.
Proof.
  intros <- Hk. unfold get_slice in *.
  rewrite lookup_take, lookup_drop.
  rewrite length_take in Hk.
  destruct (decide (k < width s)%nat); [reflexivity|lia].
Qed.

Lemma one_hot_hit (n i : nat) : (i < n)%nat -> one_hot n i !! i = Some 1.
Proof.
  intros Hi. unfold one_hot. apply list_lookup_insert_eq.
  rewrite length_replicate. exact Hi.
Qed.

Lemma one_hot_miss (n i j : nat) :
  i <> j -> (j < n)%nat -> one_hot n i !! j = Some 0.
Proof.
  intros Hne Hj. unfold one_hot. rewrite list_lookup_insert_ne by exact Hne.
  apply lookup_replicate_2. exact Hj.
Qed.

Lemma one_hot_distinct (n i j : nat) :
  i <> j -> (j < n)%nat -> one_hot n i <> one_hot n j.
Proof.
  intros Hne Hj Heq.
  pose proof (one_hot_miss n i j Hne Hj) as Hm.
  rewrite Heq, one_hot_hit in Hm by exact Hj. discriminate.
Qed.

Lemma list_remove_spec (x : nat) (l l' : list nat) :
  NoDup l -> ObjectCountRelation.list_remove x l = Some l' ->
  forall y, y ∈ l' -> y ∈ l /\ y <> x.
Proof.
  revert l'. induction l as [|z l IH]; intros l' Hnd Hrm; [discriminate|].
  apply NoDup_cons in Hnd as [Hz Hnd]. simpl in Hrm.
  destruct (decide (z = x)) as [->|Hzx].
  - inversion Hrm; subst l'. intros y Hy. split; [right; exact Hy|].
    intros ->. contradiction.
  - destruct (ObjectCountRelation.list_remove x l) as [l''|] eqn:Hl;
      [|discriminate].
    simpl in Hrm. inversion Hrm; subst l'. intros y Hy.
    apply elem_of_cons in Hy as [-> | Hy].
    + split; [left|exact Hzx].
    + destruct (IH l'' Hnd eq_refl y Hy) as [Hin Hne].
      split; [right; exact Hin|exact Hne].
Qed.

Section FieldWrites.
Context {R : Type} `{RandomSourceLaws R}.

(** A loop writing [t] into field [f] of distinct rows. *)
Lemma write_fields_ret (targets : list nat) (f : slice) (t : list Z)
    (st st' : list (list Z) * R) (u : unit) :
  NoDup targets ->
  for_each targets (fun i => write_field i f t) st = (Ret u, st') ->
  length (fst st') = length (fst st)
  /\ (forall L, rows L (fst st) -> rows L (fst st'))
  /\ forall i, fst st' !! i
       = if decide (i ∈ targets) then set_slice f t <$> (fst st !! i)
         else fst st !! i.
Proof.
  revert st. induction targets as [|i0 targets IH]; intros st Hnd Hr.
  - apply ret_inv in Hr as [_ <-].
    split; [reflexivity|]. split; [auto|].
    intros i. destruct (decide _) as [Hin|]; [inversion Hin|reflexivity].
  - apply NoDup_cons in Hnd as [Hni Hnd]. cbn [for_each] in Hr.
    apply bind_ret_inv in Hr as (u1 & s1 & Hw & Hr).
    destruct u1. pose proof Hw as Hw'.
    apply write_field_ret in Hw as (o & Ho & ->).
    apply IH in Hr as (Hlen & Hrows & Hrow); [|exact Hnd].
    simpl fst in *.
    assert (Hi0 : (i0 < length (fst st))%nat)
      by (eapply lookup_lt_Some; exact Ho).
    split; [rewrite Hlen; apply length_insert|]. split.
    + intros L HL. apply Hrows.
      exact (proj1 (write_field_rows L i0 f t st _ tt Hw' HL)).
    + intros i. rewrite Hrow.
      destruct (decide (i = i0)) as [->|Hne].
      * destruct (decide (i0 ∈ targets)); [contradiction|].
        destruct (decide _) as [_|Hn]; [|destruct Hn; left].
        rewrite list_lookup_insert_eq by exact Hi0. rewrite Ho. reflexivity.
      * rewrite list_lookup_insert_ne by congruence.
        destruct (decide (i ∈ targets)) as [Hin|Hnin].
        -- destruct (decide _) as [_|Hn]; [reflexivity|].
           destruct Hn. right. exact Hin.
        -- destruct (decide _) as [Hin|_]; [|reflexivity].
           apply elem_of_cons in Hin as [-> | Hin]; contradiction.
Qed.
End FieldWrites.

Lemma nonzero_squeeze_vector (mask : list bool) (l : list nat) :
  nonzero_squeeze mask = Vector l -> l = nonzero mask.
Proof.
  unfold nonzero_squeeze. destruct (nonzero mask) as [|i [|j l']];
    intros Hv; inversion Hv; reflexivity.
Qed.

Lemma nonzero_squeeze_scalar (mask : list bool) (i : nat) :
  nonzero_squeeze mask = Scalar i -> nonzero mask = [i].
Proof.
  unfold nonzero_squeeze. destruct (nonzero mask) as [|j [|j' l']];
    intros Hv; inversion Hv; reflexivity.
Qed.

Lemma NoDup_nonzero (mask : list bool) : NoDup (nonzero mask).
Proof. apply nonzero_from_NoDup. Qed.

Section ObjectCountBalance.
Import ObjectCountRelation.
Context {R : Type} `{RandomSourceLaws R}.
Variable c : config.
Variable L : nat.

Local Abbreviation F := (first_field_slice c).
Local Abbreviation S2 := (second_field_slice c).
Local Abbreviation TA := (first_object_tensor c).
Local Abbreviation TB := (second_object_tensor c).

(** The layout of an object row of length [L]: both fields are as wide as
    their one-hot vectors and lie within the row, the second type is one of
    its field's types, and the two fields are either one field counted for
    two different types or two fields that do not overlap. *)
Definition count_layout_ok : Prop :=
  width F = first_n_types c /\ width S2 = second_n_types c
  /\ (stop F <= L)%nat /\ (stop S2 <= L)%nat
  /\ (second_field_index c < second_n_types c)%nat
  /\ ((F = S2 /\ first_n_types c = second_n_types c
       /\ first_field_index c <> second_field_index c)
      \/ disjoint_slices F S2).

Local Abbreviation nA s := (length (filter (is_first c) s)).
Local Abbreviation nB s := (length (filter (is_second c) s)).
Local Abbreviation isA := (fun o => bool_decide (is_first c o)).
Local Abbreviation isB := (fun o => bool_decide (is_second c o)).
Local Abbreviation notA := (fun o => negb (bool_decide (is_first c o))).
Local Abbreviation notB := (fun o => negb (bool_decide (is_second c o))).

Lemma second_entry_zero (o : list Z) :
  count_layout_ok ->
  o !! (start S2 + second_field_index c)%nat = Some 0 -> ~ is_second c o.
Proof.
  intros (_ & _ & _ & _ & Hb & _) Hz Hs.
  rewrite (slice_entry S2 o TB (second_field_index c) Hs) in Hz.
  - unfold second_object_tensor in Hz. rewrite one_hot_hit in Hz by exact Hb.
    discriminate.
  - unfold second_object_tensor. rewrite length_one_hot. exact Hb.
Qed.

Lemma one_field_exclusive (o : list Z) :
  count_layout_ok -> F = S2 -> is_first c o -> ~ is_second c o.
Proof.
  intros (_ & Hw & _ & _ & Hb & [(_ & Hn & Hab) | Hd]) HFS Ha Hs.
  - unfold is_first, is_second in *. rewrite HFS, Hs in Ha.
    unfold first_object_tensor, second_object_tensor in Ha.
    rewrite Hn in Ha. symmetry in Ha.
    exact (one_hot_distinct _ _ _ Hab Hb Ha).
  - unfold disjoint_slices in Hd. rewrite HFS in Hd.
    unfold width in Hw. lia.
Qed.
Lemma first_after_write (o : list Z) :
  count_layout_ok -> length o = L -> is_first c (set_slice F TA o).
Proof.
  intros (Hw & _ & HF & _) Ho. unfold is_first.
  apply get_set_slice_same.
  - unfold first_object_tensor. rewrite length_one_hot. symmetry. exact Hw.
  - rewrite Ho. exact HF.
Qed.

(** Writing the first type into rows that are not of the first type: each
    such row adds one to the first count, and the second count does not
    grow. *)
Lemma promote_rows (targets : list nat) (st st' : list (list Z) * R)
    (u : unit) :
  count_layout_ok -> rows L (fst st) -> NoDup targets ->
  (forall i, i ∈ targets ->
     exists o, fst st !! i = Some o /\ ~ is_first c o) ->
  for_each targets (fun i => write_field i F TA) st = (Ret u, st') ->
  length (fst st') = length (fst st)
  /\ (nA (fst st) + length targets <= nA (fst st'))%nat
  /\ (nB (fst st') <= nB (fst st))%nat.
Proof.
  intros Hlay Hrows Hnd Hin Hr.
  destruct (write_fields_ret targets F TA st st' u Hnd Hr)
    as (Hlen & _ & Hrow).
  assert (Hwritten : forall i o3, i ∈ targets -> fst st' !! i = Some o3 ->
            is_first c o3).
  { intros i o3 Hi Ho3. rewrite Hrow in Ho3.
    destruct (decide (i ∈ targets)); [|contradiction].
    destruct (Hin i Hi) as (o & Ho & _). rewrite Ho in Ho3.
    inversion Ho3; subst o3. apply first_after_write; [exact Hlay|].
    exact (proj1 (Forall_lookup _ _) Hrows i o Ho). }
  split; [exact Hlen|]. split.
  - set (I3 := nonzero (map notA (fst st'))).
    assert (Hnd3 : NoDup (I3 ++ targets)).
    { apply NoDup_app. split; [apply NoDup_nonzero|]. split; [|exact Hnd].
      intros x Hx Hxt. apply nonzero_map_elem in Hx as (o3 & Ho3 & Hn).
      pose proof (Hwritten x o3 Hxt Ho3) as Ha.
      apply negb_true_iff, bool_decide_eq_false in Hn. contradiction. }
    pose proof (count_at_least notA (fst st) (I3 ++ targets) Hnd3) as Hc.
    rewrite length_app in Hc. unfold I3 in Hc.
    rewrite length_nonzero_map in Hc.
    pose proof (count_complement isA (fst st)) as C1.
    pose proof (count_complement isA (fst st')) as C3.
    cbv beta in C1, C3. rewrite filter_bool_decide in C1, C3.
    cut (length (filter (fun o => notA o = true) (fst st'))
         + length targets
         <= length (filter (fun o => notA o = true) (fst st)))%nat.
    { cbv beta in *. lia. }
    apply Hc. intros i Hi.
    destruct (decide (i ∈ targets)) as [Hit|Hnit].
    + destruct (Hin i Hit) as (o & Ho & Hna). exists o. split; [exact Ho|].
      apply negb_true_iff, bool_decide_eq_false. exact Hna.
    + apply elem_of_app in Hi as [Hi|Hi]; [|contradiction].
      apply nonzero_map_elem in Hi as (o3 & Ho3 & Hn).
      rewrite Hrow in Ho3. destruct (decide (i ∈ targets)); [contradiction|].
      exists o3. split; [exact Ho3|exact Hn].
  - pose proof (count_at_most isB isB (fst st) (fst st')) as Hc.
    cbv beta in Hc. rewrite !filter_bool_decide in Hc. apply Hc.
    intros i o' Ho' Hb. apply bool_decide_eq_true in Hb.
    destruct (decide (i ∈ targets)) as [Hit|Hnit].
    + pose proof (Hwritten i o' Hit Ho') as Ha.
      rewrite Hrow in Ho'. destruct (decide (i ∈ targets)); [|contradiction].
      destruct (Hin i Hit) as (o & Ho & _). rewrite Ho in Ho'.
      inversion Ho'; subst o'. exists o. split; [exact Ho|].
      apply bool_decide_eq_true.
      destruct Hlay as (Hw & Hw2 & HF & HS & Hlt & [(HFS & Hn & Hab) | Hd]).
      * exfalso. refine (one_field_exclusive _ _ HFS Ha Hb).
        repeat split; try assumption. left. repeat split; assumption.
      * unfold is_second in *. rewrite <- Hb. symmetry.
        apply get_set_slice_other.
        -- unfold first_object_tensor. rewrite length_one_hot.
           symmetry. exact Hw.
        -- unfold disjoint_slices in Hd. lia.
    + rewrite Hrow in Ho'. destruct (decide (i ∈ targets)); [contradiction|].
      exists o'. split; [exact Ho'|]. apply bool_decide_eq_true. exact Hb.
Qed.
(** The second half of [balance]: rows that are not of the first type are
    given the first type. *)
Definition promote_firsts (objs : list (list Z))
    (min_objects_to_modify : Z) : B Scene :=
  if decide (min_objects_to_modify <= 0) then objects else
  let max_objects_to_modify :=
    Z.of_nat (length objs) - first_object_count c objs in
  num_objects_to_modify <-
    randint min_objects_to_modify max_objects_to_modify;;
  objs' <- objects;;
  let valid_indices_to_modify :=
    nonzero_squeeze
      (map (fun o => negb (bool_decide (is_first c o))) objs') in
  match valid_indices_to_modify with
  | Scalar i => write_field i (first_field_slice c) (first_object_tensor c)
  | Vector l =>
      perm <- on_rng (draw_randperm (length l));;
      shuffled <- gather l perm;;
      let indices_to_modify :=
        take (Z.to_nat num_objects_to_modify) shuffled in
      for_each indices_to_modify (fun i =>
        write_field i (first_field_slice c) (first_object_tensor c))
  end;;;
  objects.

Lemma promote_firsts_ret (objs0 : list (list Z)) (min1 : Z)
    (s1 st' : list (list Z) * R) (objs' : list (list Z)) :
  count_layout_ok -> rows L (fst s1) ->
  Z.of_nat (nB (fst s1)) + 1 <= Z.of_nat (nA (fst s1)) + min1 ->
  (nB (fst s1) < length (fst s1))%nat ->
  promote_firsts objs0 min1 s1 = (Ret objs', st') ->
  evaluate c objs' = true /\ length objs' = length (fst s1).
Proof.
  intros Hlay Hrows I1 I2 Hr. unfold promote_firsts in Hr.
  destruct (decide (min1 <= 0)) as [Hmin|Hmin].
  - apply objects_ret in Hr as [-> ->]. split; [|reflexivity].
    unfold evaluate, first_object_count, second_object_count.
    apply bool_decide_eq_true. lia.
  - cbv zeta in Hr.
    apply bind_ret_inv in Hr as (num & s2 & Hnum & Hr).
    apply randint_ret in Hnum as [Hs2 Hnum].
    apply bind_ret_inv in Hr as (objs1 & s3 & Ho & Hr).
    apply objects_ret in Ho as [-> ->].
    apply bind_ret_inv in Hr as (u & s4 & Hw & Hr).
    apply objects_ret in Hr as [-> ->].
    rewrite Hs2 in Hw.
    pose proof (count_complement isA (fst s1)) as C1.
    cbv beta in C1. rewrite filter_bool_decide in C1.
    assert (Hgen : exists targets s,
      fst s = fst s1 /\ NoDup targets
      /\ (forall i, i ∈ targets ->
            exists o, fst s !! i = Some o /\ ~ is_first c o)
      /\ ((Z.to_nat num <= length targets)%nat
          \/ length targets
             = length (filter (fun o => notA o = true) (fst s1)))
      /\ for_each targets (fun i => write_field i F TA) s = (Ret tt, s4)).
    { destruct (nonzero_squeeze (map notA (fst s1))) as [i|l] eqn:Hsq.
      - apply nonzero_squeeze_scalar in Hsq.
        exists [i], s2. split; [exact Hs2|].
        split; [apply NoDup_singleton|]. split; [|split].
        + intros j Hj. apply list_elem_of_singleton in Hj as ->.
          assert (Hi : i ∈ nonzero (map notA (fst s1)))
            by (rewrite Hsq; left).
          apply nonzero_map_elem in Hi as (o & Ho & Hn).
          exists o. rewrite Hs2. split; [exact Ho|].
          apply negb_true_iff, bool_decide_eq_false in Hn. exact Hn.
        + right. rewrite <- length_nonzero_map, Hsq. reflexivity.
        + cbn [for_each]. unfold bind. rewrite Hw. destruct u. reflexivity.
      - apply nonzero_squeeze_vector in Hsq.
        apply bind_ret_inv in Hw as (perm & s5 & Hperm & Hw).
        apply on_rng_ret in Hperm as [Hs5 Hperm].
        apply bind_ret_inv in Hw as (shuffled & s6 & Hg & Hw).
        unfold gather in Hg. apply or_raise_ret in Hg as [Hg ->].
        pose proof (randperm_perm (length l) (snd s2)) as Hp.
        rewrite <- Hperm in Hp.
        assert (Hndl : NoDup l) by (rewrite Hsq; apply NoDup_nonzero).
        assert (Hndp : NoDup perm) by (rewrite Hp; apply NoDup_seq).
        destruct (gather_NoDup l perm shuffled Hndl Hndp Hg)
          as (Hnds & Hlens & Hels).
        apply Permutation_length in Hp. rewrite length_seq in Hp.
        exists (take (Z.to_nat num) shuffled), s5.
        split; [rewrite Hs5; exact Hs2|].
        split; [exact (sublist_NoDup _ _ Hnds (sublist_take _ _))|].
        split; [|split].
        + intros i Hi. apply (subseteq_take (Z.to_nat num)) in Hi.
          destruct (Hels i Hi) as (j & _ & Hj).
          apply list_elem_of_lookup_2 in Hj. rewrite Hsq in Hj.
          apply nonzero_map_elem in Hj as (o & Ho & Hn).
          exists o. rewrite Hs5, Hs2. split; [exact Ho|].
          apply negb_true_iff, bool_decide_eq_false in Hn. exact Hn.
        + rewrite length_take, Hlens, Hp.
          rewrite <- length_nonzero_map, <- Hsq. lia.
        + destruct u. exact Hw. }
    destruct Hgen as (targets & s & Hs & Hnd & Hin & Hlen & Hrun).
    assert (Hrows' : rows L (fst s)) by (rewrite Hs; exact Hrows).
    destruct (promote_rows targets s s4 tt Hlay Hrows' Hnd Hin Hrun)
      as (Hl4 & HA & HB).
    rewrite Hs in *. split; [|exact Hl4].
    unfold evaluate, first_object_count, second_object_count.
    apply bool_decide_eq_true. lia.
Qed.
(** The first half of [balance]: when every row is of the second type,
    some of them are given another type of the second field. *)
Definition demote_seconds (objs : list (list Z)) : B Z :=
  let first_count := first_object_count c objs in
  let second_count := second_object_count c objs in
  let min_objects_to_modify := second_count - first_count + 1 in
  if decide (second_count = Z.of_nat (length objs))
  then
    let second_object_indices :=
      nonzero_squeeze (map (fun o => bool_decide (is_second c o)) objs) in
    n <- len_squeezed second_object_indices;;
    num_second_objects_to_modify <- randint 1 (Z.of_nat n - 1);;
    let k := Z.to_nat num_second_objects_to_modify in
    perm <- on_rng (draw_randperm n);;
    second_object_indices_to_modify <-
      match second_object_indices with
      | Scalar _ => raise IndexError
      | Vector l => gather l (take k perm)
      end;;
    new_assignment_options <-
      or_raise ValueError
        (list_remove (second_field_index c) (seq 0 (second_n_types c)));;
    cs <- choices new_assignment_options k;;
    let new_assignments :=
      map (fun ch => (start (second_field_slice c) + ch)%nat) cs in
    for_each second_object_indices_to_modify (fun i =>
      write_entry i
        (start (second_field_slice c) + second_field_index c)%nat 0);;;
    for_each (zip second_object_indices_to_modify new_assignments)
      (fun ia => write_entry (fst ia) (snd ia) 1);;;
    ret (min_objects_to_modify - num_second_objects_to_modify)
  else ret min_objects_to_modify.

Lemma demote_seconds_ret (objs : list (list Z)) (r : R) (min1 : Z)
    (s1 : list (list Z) * R) :
  count_layout_ok -> rows L objs ->
  demote_seconds objs (objs, r) = (Ret min1, s1) ->
  rows L (fst s1) /\ length (fst s1) = length objs
  /\ Z.of_nat (nB (fst s1)) + 1 <= Z.of_nat (nA (fst s1)) + min1
  /\ (nB (fst s1) < length objs)%nat.
Proof.
  intros Hlay Hrows Hr. unfold demote_seconds in Hr. cbv zeta in Hr.
  unfold first_object_count, second_object_count in Hr.
  pose proof (length_filter (is_second c) objs) as HleB.
  destruct (decide (Z.of_nat (nB objs) = Z.of_nat (length objs)))
    as [Hall|Hnall].
  2: { apply ret_inv in Hr as [<- <-]. simpl.
       split; [exact Hrows|]. split; [reflexivity|]. lia. }
  apply bind_ret_inv in Hr as (n & s0 & Hn & Hr).
  destruct (nonzero_squeeze (map isB objs)) as [i|l] eqn:Hsq;
    [discriminate Hn|].
  apply nonzero_squeeze_vector in Hsq.
  apply ret_inv in Hn as [<- <-].
  apply bind_ret_inv in Hr as (num & s2 & Hnum & Hr).
  apply randint_ret in Hnum as [Hs2 Hnum]. simpl in Hs2.
  apply bind_ret_inv in Hr as (perm & s3 & Hperm & Hr).
  apply on_rng_ret in Hperm as [Hs3 Hperm].
  apply bind_ret_inv in Hr as (targets & s4 & Hg & Hr).
  unfold gather in Hg. apply or_raise_ret in Hg as [Hg ->].
  apply bind_ret_inv in Hr as (options & s5 & Hopt & Hr).
  apply or_raise_ret in Hopt as [Hopt ->].
  apply bind_ret_inv in Hr as (cs & s6 & Hcs & Hr).
  apply bind_ret_inv in Hr as (u1 & s7 & H1 & Hr).
  apply bind_ret_inv in Hr as (u2 & s8 & H2 & Hr).
  apply ret_inv in Hr as [<- <-].
  (* the rows drawn *)
  pose proof (randperm_perm (length l) (snd s2)) as Hp.
  rewrite <- Hperm in Hp.
  assert (Hndl : NoDup l) by (rewrite Hsq; apply NoDup_nonzero).
  assert (Hndp : NoDup perm) by (rewrite Hp; apply NoDup_seq).
  apply Permutation_length in Hp. rewrite length_seq in Hp.
  set (k := Z.to_nat num) in *.
  assert (Hndt : NoDup (take k perm))
    by exact (sublist_NoDup _ _ Hndp (sublist_take _ _)).
  destruct (gather_NoDup l (take k perm) targets Hndl Hndt Hg)
    as (Hnd & Hlen & _).
  rewrite length_take, Hp in Hlen.
  (* the columns drawn *)
  assert (Hcols : forall p, p ∈ zip targets
                    (map (fun ch => (start S2 + ch)%nat) cs) ->
            exists ch, snd p = (start S2 + ch)%nat
                       /\ (ch < second_n_types c)%nat
                       /\ ch <> second_field_index c).
  { intros [x1 x2] Hp2. apply elem_of_zip_r in Hp2.
    apply list_elem_of_In, in_map_iff in Hp2 as (ch & <- & Hch).
    apply list_elem_of_In in Hch.
    unfold choices in Hcs. destruct options as [|o0 options];
      [discriminate Hcs|].
    apply on_rng_ret in Hcs as [_ ->].
    destruct (choices_spec (o0 :: options) k (snd s3)) as [_ Hall'];
      [discriminate|].
    rewrite Forall_forall in Hall'. apply Hall' in Hch.
    destruct (list_remove_spec _ _ _ (NoDup_seq 0 _) Hopt ch Hch)
      as [Hin Hne].
    apply elem_of_seq in Hin. exists ch. simpl. repeat split; [lia|exact Hne]. }
  assert (Hs6 : fst s6 = objs).
  { unfold choices in Hcs. destruct options; [discriminate Hcs|].
    apply on_rng_ret in Hcs as [-> _]. rewrite Hs3. exact Hs2. }
  destruct (write_entries_ret targets (fun i => i)
              (fun _ => (start S2 + second_field_index c)%nat) 0 s6 s7 u1 H1)
    as (_ & Hl7 & Hr7 & He7).
  destruct (write_entries_ret _ fst snd 1 s7 s8 u2 H2)
    as (_ & Hl8 & Hr8 & He8).
  rewrite Hs6 in *.
  assert (Hrows8 : rows L (fst s8)) by (apply Hr8, Hr7, Hrows).
  assert (Hlen8 : length (fst s8) = length objs) by congruence.
  destruct Hlay as (Hw & Hw2 & HF & HS & Hlt & Hfields).
  assert (Hlay : count_layout_ok) by (repeat split; assumption).
  (* the rows written are no longer of the second type *)
  assert (HnotB : (length targets
            <= length (filter (fun o => notB o = true) (fst s8)))%nat).
  { apply count_at_least; [exact Hnd|]. intros i Hi.
    pose proof (He8 i (start S2 + second_field_index c)%nat) as He.
    destruct (decide (Exists _ _)) as [Hex|_] in He.
    { apply Exists_exists in Hex as (p & Hp2 & _ & Hcol).
      apply Hcols in Hp2 as (ch & Hch & _ & Hne).
      rewrite Hch in Hcol. lia. }
    rewrite He7 in He.
    destruct (decide (Exists _ _)) as [_|Hnex] in He.
    2: { destruct Hnex. apply Exists_exists. exists i.
         split; [exact Hi|]. split; reflexivity. }
    unfold entry in He. destruct (fst s8 !! i) as [o|] eqn:Ho;
      [|discriminate He].
    exists o. split; [reflexivity|].
    apply negb_true_iff, bool_decide_eq_false.
    apply second_entry_zero; [exact Hlay|exact He]. }
  pose proof (count_complement isB (fst s8)) as CB.
  cbv beta in CB. rewrite filter_bool_decide in CB.
  (* the rows of the first type stay of the first type *)
  assert (HA : (nA objs <= nA (fst s8))%nat).
  { destruct Hfields as [(HFS & Hn & Hab) | Hd].
    - pose proof (count_at_most isA notB objs objs) as Hc.
      pose proof (count_complement isB objs) as CB0.
      cbv beta in Hc, CB0. rewrite !filter_bool_decide in Hc, CB0.
      cut (nA objs <= length (filter (fun o => notB o = true) objs))%nat;
        [lia|].
      apply Hc. intros i o Ho Ha. exists o. split; [exact Ho|].
      apply bool_decide_eq_true in Ha.
      apply negb_true_iff, bool_decide_eq_false.
      exact (one_field_exclusive o Hlay HFS Ha).
    - pose proof (count_at_most isA isA (fst s8) objs) as Hc.
      cbv beta in Hc. rewrite !filter_bool_decide in Hc. apply Hc.
      intros i o' Ho' Ha.
      destruct (lookup_lt_is_Some_2 (fst s8) i) as [o Ho].
      { rewrite Hlen8. eapply lookup_lt_Some. exact Ho'. }
      exists o. split; [exact Ho|].
      apply bool_decide_eq_true in Ha. apply bool_decide_eq_true.
      unfold is_first in *. rewrite <- Ha.
      apply get_slice_entries. intros col Hcol.
      pose proof (He8 i col) as He. unfold entry in He at 1.
      rewrite Ho in He. rewrite He.
      unfold disjoint_slices in Hd. unfold width in Hw2.
      destruct (decide (Exists _ _)) as [Hex|_].
      { apply Exists_exists in Hex as (p & Hp2 & _ & Hc2).
        apply Hcols in Hp2 as (ch & Hch & Hlt' & _).
        rewrite Hch in Hc2. lia. }
      rewrite He7.
      destruct (decide (Exists _ _)) as [Hex|_].
      { apply Exists_exists in Hex as (p & _ & _ & Hc2). lia. }
      unfold entry. rewrite Ho'. reflexivity. }
  split; [exact Hrows8|]. split; [exact Hlen8|].
  assert (Hk : (k <= length l)%nat) by (unfold k; lia).
  assert (Hk1 : (1 <= k)%nat) by (unfold k; lia).
  assert (Hkn : Z.of_nat k = num) by (unfold k; lia).
  lia.
Qed.
(** [ObjectCountRelation.balance], called on a scene of rows of length
    [L] whose two fields are laid out as [count_layout_ok] says, returns
    only scenes the relation labels positive (more objects of the first
    type than of the second), of the same number of objects. *)
Theorem object_count_balance_label_exact (objs objs' : list (list Z))
    (r : R) (st' : list (list Z) * R) :
  count_layout_ok -> rows L objs ->
  balance c 0 (objs, r) = (Ret objs', st') ->
  evaluate c objs' = true /\ length objs' = length objs.
Proof.
  intros Hlay Hrows Hr. unfold balance in Hr.
  destruct (decide (0 <> 0)) as [Hne|_]; [contradiction|].
  apply bind_ret_inv in Hr as (objs0 & s0 & Ho & Hr).
  apply objects_ret in Ho as [-> ->]. simpl fst in Hr. cbv zeta in Hr.
  apply bind_ret_inv in Hr as (min1 & s1 & Hd & Hr).
  apply (demote_seconds_ret objs r min1 s1 Hlay Hrows) in Hd
    as (Hrows1 & Hlen1 & I1 & I2).
  rewrite <- Hlen1 in I2.
  destruct (promote_firsts_ret objs min1 s1 st' objs' Hlay Hrows1 I1 I2 Hr)
    as [Hev Hlen].
  split; [exact Hev|]. rewrite Hlen. exact Hlen1.
Qed.
End ObjectCountBalance.

(** Circles against squares on a three-type shape field in columns 2..4. *)
Definition shapes3 : ObjectCountRelation.config := {|
  ObjectCountRelation.first_field_slice := Slice 2 5;
  ObjectCountRelation.first_n_types := 3;
  ObjectCountRelation.first_field_index := 0;
  ObjectCountRelation.second_field_slice := Slice 2 5;
  ObjectCountRelation.second_n_types := 3;
  ObjectCountRelation.second_field_index := 1
|}.

Definition all_squares : list (list Z) :=
  [[0; 0; 0; 1; 0]; [1; 0; 0; 1; 0]; [2; 0; 0; 1; 0]].

Lemma object_count_balance_of_all_squares :
  ObjectCountRelation.balance shapes3 0 (all_squares, 0%nat)
  = (Ret [[0; 0; 1; 0; 0]; [1; 0; 1; 0; 0]; [2; 0; 1; 0; 0]],
     ([[0; 0; 1; 0; 0]; [1; 0; 1; 0; 0]; [2; 0; 1; 0; 0]], 5%nat)).
Proof. vm_compute. reflexivity. Qed.

Lemma object_count_balance_label_exact_witness :
  ObjectCountRelation.evaluate shapes3
    [[0; 0; 1; 0; 0]; [1; 0; 1; 0; 0]; [2; 0; 1; 0; 0]] = true
  /\ length [[0; 0; 1; 0; 0]; [1; 0; 1; 0; 0]; [2; 0; 1; 0; 0]]
     = length all_squares.
Proof.
  eapply (object_count_balance_label_exact (H0 := counter_source_laws)
            shapes3 5 all_squares _ 0%nat).
  - unfold count_layout_ok. simpl. repeat split; try lia.
    left. repeat split. lia.
  - unfold rows, all_squares. repeat constructor.
  - vm_compute. reflexivity.
Defined.


(** ** [ObjectRelation._object_in_position] *)

Lemma forallb_map {A B} (g : B -> bool) (h : A -> B) (l : list A) :
  forallb g (map h l) = forallb (fun a => g (h a)) l.
Proof. induction l as [|a l IH]; simpl; [reflexivity|]. rewrite IH. reflexivity. Qed.

Lemma single_column (s : slice) (o : list Z) :
  width s = 1%nat -> (stop s <= length o)%nat ->
  exists x, get_slice s o = [x].
Proof.
  intros Hw Hs. pose proof (length_get_slice s o Hs) as Hl.
  rewrite Hw in Hl. destruct (get_slice s o) as [|x [|y l]]; try discriminate.
  exists x. reflexivity.
Qed.

(** What the collision test tests: with the position fields x and y, one
    column each, it reports a hit exactly when every object of the scene
    has the x of the position, or every object has its y. *)
Theorem object_in_position_spec {S} (xs ys : slice) (L : nat)
    (objs : list (list Z)) (px py : Z) (s : S) :
  width xs = 1%nat -> width ys = 1%nat ->
  (stop xs <= L)%nat -> (stop ys <= L)%nat -> rows L objs ->
  exists hit,
    _object_in_position [xs; ys] objs [px; py] s = (Ret hit, s)
    /\ (fst hit = true <->
        Forall (fun o => get_slice xs o = [px]) objs
        \/ Forall (fun o => get_slice ys o = [py]) objs).
Proof.
  intros Hwx Hwy Hsx Hsy Hrows.
  assert (Hcols : Forall (fun row => length row = length [px; py])
                    (cat_fields [xs; ys] objs)).
  { unfold cat_fields. apply Forall_forall. intros row Hrow.
    apply list_elem_of_fmap in Hrow as (o & -> & Ho).
    pose proof (proj1 (Forall_forall _ _) Hrows o Ho) as HoL. simpl in HoL.
    simpl. rewrite !length_app, !length_get_slice by lia.
    rewrite Hwx, Hwy. reflexivity. }
  unfold _object_in_position, bind. cbn [mapM].
  change (mapM (fun row => broadcast_eq row [px; py])
                (cat_fields [xs; ys] objs))
    with (mapM (fun row => broadcast_eq row [px; py])
                (cat_fields [xs; ys] objs)).
  assert (Hb : mapM (fun row => broadcast_eq row [px; py])
                 (cat_fields [xs; ys] objs)
               = Some (map (fun row => zip_with Z.eqb row [px; py])
                         (cat_fields [xs; ys] objs))).
  { clear - Hcols. induction Hcols as [|row rws Hrow _ IH]; [reflexivity|].
    cbn [mapM map]. rewrite IH. unfold broadcast_eq at 1.
    destruct (decide (length row = length [px; py])); [|contradiction].
    reflexivity. }
  simpl. rewrite Hb. simpl. rewrite Hwx, Hwy. simpl.
  change (all_over_rows 2 ?m) with
    [forallb (fun row => default false (row !! 0%nat)) m;
     forallb (fun row => default false (row !! 1%nat)) m].
  unfold cat_fields. rewrite !forallb_map. cbn [map concat].
  eexists. split; [reflexivity|]. cbn [fst].
  set (b0 := forallb _ objs). set (b1 := forallb _ objs).
  assert (H0 : b0 = true <-> Forall (fun o => get_slice xs o = [px]) objs).
  { unfold b0. rewrite forallb_forall, Forall_forall.
    split; intros Hall o Ho.
    - apply list_elem_of_In in Ho. pose proof (Hall o Ho) as Hb0.
      apply list_elem_of_In in Ho.
      pose proof (proj1 (Forall_forall _ _) Hrows o Ho) as HoL. simpl in HoL.
      destruct (single_column xs o Hwx) as [x Hx]; [lia|].
      destruct (single_column ys o Hwy) as [y Hy]; [lia|].
      rewrite Hx, Hy in Hb0. simpl in Hb0.
      apply Z.eqb_eq in Hb0. subst x. exact Hx.
    - apply list_elem_of_In in Ho. rewrite (Hall o Ho).
      pose proof (proj1 (Forall_forall _ _) Hrows o Ho) as HoL. simpl in HoL.
      destruct (single_column ys o Hwy) as [y Hy]; [lia|].
      rewrite Hy. simpl. apply Z.eqb_refl. }
  assert (H1 : b1 = true <-> Forall (fun o => get_slice ys o = [py]) objs).
  { unfold b1. rewrite forallb_forall, Forall_forall.
    split; intros Hall o Ho.
    - apply list_elem_of_In in Ho. pose proof (Hall o Ho) as Hb0.
      apply list_elem_of_In in Ho.
      pose proof (proj1 (Forall_forall _ _) Hrows o Ho) as HoL. simpl in HoL.
      destruct (single_column xs o Hwx) as [x Hx]; [lia|].
      destruct (single_column ys o Hwy) as [y Hy]; [lia|].
      rewrite Hx, Hy in Hb0. simpl in Hb0.
      apply Z.eqb_eq in Hb0. subst y. exact Hy.
    - apply list_elem_of_In in Ho. rewrite (Hall o Ho).
      pose proof (proj1 (Forall_forall _ _) Hrows o Ho) as HoL. simpl in HoL.
      destruct (single_column xs o Hwx) as [x Hx]; [lia|].
      rewrite Hx. simpl. apply Z.eqb_refl. }
  rewrite <- H0, <- H1.
  destruct b0, b1; simpl; split; intros Hh;
    try reflexivity; try discriminate; auto.
  destruct Hh; discriminate.
Qed.

Lemma object_in_position_spec_witness :
  exists hit,
    _object_in_position (S := unit) [Slice 0 1; Slice 1 2]
      [[0; 0]; [1; 1]] [0; 0] tt = (Ret hit, tt)
    /\ (fst hit = true <->
        Forall (fun o => get_slice (Slice 0 1) o = [0]) [[0; 0]; [1; 1]]
        \/ Forall (fun o => get_slice (Slice 1 2) o = [0]) [[0; 0]; [1; 1]]).
Proof.
  apply (object_in_position_spec (Slice 0 1) (Slice 1 2) 2);
    [reflexivity|reflexivity|simpl; lia|simpl; lia|repeat constructor].
Defined.

(** An object sits at (0, 0), and the test reports the position free. *)
Lemma occupied_position_reported_free :
  fst (_object_in_position (S := unit) [Slice 0 1; Slice 1 2]
         [[0; 0]; [1; 1]] [0; 0] tt)
  = Ret (false, Idx2 []).
Proof. vm_compute. reflexivity. Qed.

(** ** The balancers on scenes too small to balance *)

Section SmallScenes.
Context {R : Type} `{RandomSourceLaws R}.

Lemma two_random_indices_short (objs : list (list Z)) (n : nat) (r : R) :
  (n < 2)%nat ->
  exists r', two_random_indices n (objs, r) = (Raise ValueError, (objs, r')).
Proof.
  intros Hn. unfold two_random_indices, bind, on_rng. simpl.
  pose proof (randperm_perm n r) as Hp. apply Permutation_length in Hp.
  rewrite length_seq in Hp.
  destruct (draw_randperm n r) as [perm r']. simpl in Hp.
  exists r'. destruct perm as [|a [|b perm]]; simpl in *; try reflexivity.
  lia.
Qed.

Lemma pairing_balance_short (rel : relation) (fuel : nat)
    (objs : list (list Z)) (r : R) :
  (length objs < 2)%nat ->
  match rel with
  | OneDAdjacent _ | MultipleDAdjacent _ | IdenticalObjects _ =>
      exists r', balance fuel rel 0 (objs, r)
                 = (Raise ValueError, (objs, r'))
  | _ => True
  end.
Proof.
  intros Hn.
  destruct (two_random_indices_short objs (length objs) r Hn) as [r' Hr].
  destruct rel as [c|c|c|c|c]; try exact I; exists r'; simpl;
    [unfold OneDAdjacentRelation.balance
    |unfold MultipleDAdjacentRelation.balance
    |unfold IdenticalObjectsRelation.balance];
    (destruct (decide (0 <> 0)); [contradiction|]);
    unfold bind at 1; unfold objects at 1; simpl fst;
    unfold bind at 1; rewrite Hr; reflexivity.
Qed.

(** The three balancers that pair two objects raise [ValueError] on a
    scene of fewer than two objects, at the unpacking of
    [torch.randperm(n)[:2]], and leave the scene as it was. *)
Theorem pairing_balance_needs_two_objects
    (c1 : OneDAdjacentRelation.config)
    (c2 : MultipleDAdjacentRelation.config)
    (c3 : IdenticalObjectsRelation.config)
    (objs : list (list Z)) (r : R) :
  (length objs < 2)%nat ->
  (exists r', OneDAdjacentRelation.balance c1 0 (objs, r)
              = (Raise ValueError, (objs, r')))
  /\ (exists r', MultipleDAdjacentRelation.balance c2 0 (objs, r)
                 = (Raise ValueError, (objs, r')))
  /\ (exists r', IdenticalObjectsRelation.balance c3 0 (objs, r)
                 = (Raise ValueError, (objs, r'))).
Proof.
  intros Hn. split; [|split].
  - exact (pairing_balance_short (OneDAdjacent c1) 0 objs r Hn).
  - exact (pairing_balance_short (MultipleDAdjacent c2) 0 objs r Hn).
  - exact (pairing_balance_short (IdenticalObjects c3) 0 objs r Hn).
Qed.

(** On the empty scene each of the five balancers raises [ValueError],
    whatever its configuration, and the scene stays empty. *)
Theorem balance_of_empty_scene_raises (rel : relation) (fuel : nat) (r : R) :
  exists r', balance fuel rel 0 ([], r) = (Raise ValueError, ([], r')).
Proof.
  destruct rel as [c|c|c|c|c].
  - exact (pairing_balance_short (OneDAdjacent c) fuel [] r
             ltac:(simpl; lia)).
  - exact (pairing_balance_short (MultipleDAdjacent c) fuel [] r
             ltac:(simpl; lia)).
  - exists r. reflexivity.
  - exists r. reflexivity.
  - exact (pairing_balance_short (IdenticalObjects c) fuel [] r
             ltac:(simpl; lia)).
Qed.

End SmallScenes.

Section SingleSecond.
Import ObjectCountRelation.
Context {R : Type} `{RandomSource R}.

(** [ObjectCountRelation.balance] on a scene of one object, of the second
    type: [torch.nonzero(...).squeeze()] is a 0-dimensional tensor and
    [len] of it raises [TypeError]; nothing was drawn or written. *)
Theorem object_count_balance_single_second (c : ObjectCountRelation.config)
    (o : list Z) (r : R) :
  ObjectCountRelation.is_second c o ->
  ObjectCountRelation.balance c 0 ([o], r) = (Raise TypeError, ([o], r)).
Proof.
  intros Ho. unfold ObjectCountRelation.balance.
  destruct (decide (0 <> 0)); [contradiction|].
  unfold bind at 1. unfold objects at 1. cbn [fst].
  unfold ObjectCountRelation.second_object_count.
  assert (Hf : filter (ObjectCountRelation.is_second c) [o] = [o]).
  { rewrite filter_cons. destruct (decide _); [reflexivity|contradiction]. }
  rewrite Hf. cbn [length].
  destruct (decide (Z.of_nat 1 = Z.of_nat 1)); [|contradiction].
  unfold bind at 1. unfold bind at 1.
  assert (Hsq : nonzero_squeeze
                  (map (fun o => bool_decide (ObjectCountRelation.is_second c o))
                       [o]) = Scalar 0).
  { cbn [map]. rewrite bool_decide_eq_true_2 by exact Ho. reflexivity. }
  rewrite Hsq. reflexivity.
Qed.
End SingleSecond.

Lemma pairing_balance_needs_two_objects_witness :
  (exists r', OneDAdjacentRelation.balance line20 0 ([[3]], 0%nat)
              = (Raise ValueError, ([[3]], r')))
  /\ (exists r', MultipleDAdjacentRelation.balance plane20 0 ([[3]], 0%nat)
                 = (Raise ValueError, ([[3]], r')))
  /\ (exists r', IdenticalObjectsRelation.balance xy_color_shape 0
                   ([[3]], 0%nat)
                 = (Raise ValueError, ([[3]], r'))).
Proof.
  apply (pairing_balance_needs_two_objects (H0 := counter_source_laws)).
  simpl. lia.
Defined.

Lemma balance_of_empty_scene_raises_witness :
  exists r', balance 5 (ObjectCount shapes3) 0 ([], 0%nat)
             = (Raise ValueError, ([], r')).
Proof.
  exact (balance_of_empty_scene_raises (H0 := counter_source_laws)
           (ObjectCount shapes3) 5 0%nat).
Defined.

Lemma object_count_balance_single_second_witness :
  ObjectCountRelation.balance shapes3 0 ([[0; 0; 0; 1; 0]], 0%nat)
  = (Raise TypeError, ([[0; 0; 0; 1; 0]], 0%nat)).
Proof.
  apply object_count_balance_single_second.
  reflexivity.
Defined.

(** ** The adjacency balancers keep the objects on the grid *)

(** The field [s] of row [o] holds one coordinate the generator [g] can
    produce. *)
Definition in_grid (s : slice) (g : PositionField) (o : list Z) : Prop :=
  exists x, get_slice s o = [x] /\ min_coord g <= x <= max_coord g - 1.

Lemma sign_of_draw_range (u : Q) : -1 <= sign_of_draw u <= 1.
Proof. unfold sign_of_draw. destruct (u ?= 1 # 2)%Q; lia. Qed.

Section OnGrid.
Context {R : Type} `{RandomSourceLaws R}.

(** The boundary-aware shift of an on-grid coordinate stays on the grid,
    when the grid has at least two cells. *)
Lemma shift_by_one_on_grid (i : nat) (s : slice) (g : PositionField)
    (st st' : list (list Z) * R) (u : unit) (o : list Z) :
  width s = 1%nat -> (stop s <= length o)%nat ->
  min_coord g + 2 <= max_coord g ->
  fst st !! i = Some o -> in_grid s g o ->
  shift_by_one i s g st = (Ret u, st') ->
  exists x', min_coord g <= x' <= max_coord g - 1
    /\ fst st' = <[i := set_slice s [x'] o]> (fst st).
Proof.
  intros Hw Hstop Hcells Ho (x0 & Hx0 & Hrange). unfold shift_by_one.
  intros Hr.
  apply bind_ret_inv in Hr as (v & s1 & Hv & Hr).
  apply read_field_ret in Hv as [-> (o' & Ho' & ->)].
  rewrite Ho in Ho'. inversion Ho'; subst o'. clear Ho'.
  apply bind_ret_inv in Hr as (x & s2 & Hx & Hr).
  apply item_ret in Hx as [Hx ->].
  rewrite Hx0 in Hx. inversion Hx; subst x0. clear Hx.
  destruct (decide (x = min_coord g)) as [Hmin|Hmin].
  { unfold write_scalar in Hr. rewrite Hw in Hr.
    apply write_field_ret in Hr as (o1 & Ho1 & ->).
    rewrite Ho in Ho1. inversion Ho1; subst o1.
    exists (min_coord g + 1). split; [lia|reflexivity]. }
  destruct (decide (x = max_coord g - 1)) as [Hmax|Hmax].
  { unfold write_scalar in Hr. rewrite Hw in Hr.
    apply write_field_ret in Hr as (o1 & Ho1 & ->).
    rewrite Ho in Ho1. inversion Ho1; subst o1.
    exists (max_coord g - 2). split; [lia|reflexivity]. }
  apply bind_ret_inv in Hr as (d & s3 & Hd & Hr).
  apply on_rng_ret in Hd as [Hs3 ->].
  unfold add_scalar in Hr.
  apply bind_ret_inv in Hr as (v & s4 & Hv & Hr).
  apply read_field_ret in Hv as [-> (o1 & Ho1 & ->)].
  rewrite Hs3, Ho in Ho1. inversion Ho1; subst o1. clear Ho1.
  apply write_field_ret in Hr as (o1 & Ho1 & ->).
  rewrite Hs3, Ho in Ho1. inversion Ho1; subst o1. clear Ho1.
  rewrite Hx0. simpl map.
  pose proof (sign_of_draw_range (fst (draw_rand (snd st)))) as Hsg.
  eexists. split; [|rewrite Hs3; reflexivity]. lia.
Qed.

(** [OneDAdjacentRelation.balance] changes one object only, and of that
    object only the relevant coordinate, which stays on the grid. *)
Theorem one_d_balance_stays_on_grid (c : OneDAdjacentRelation.config)
    (L : nat) (objs objs' : list (list Z)) (r : R)
    (st' : list (list Z) * R) :
  width (OneDAdjacentRelation.relevant_field_slice c) = 1%nat ->
  (stop (OneDAdjacentRelation.relevant_field_slice c) <= L)%nat ->
  rows L objs ->
  min_coord (OneDAdjacentRelation.relevant_field_generator c) + 2
    <= max_coord (OneDAdjacentRelation.relevant_field_generator c) ->
  Forall (in_grid (OneDAdjacentRelation.relevant_field_slice c)
                  (OneDAdjacentRelation.relevant_field_generator c)) objs ->
  OneDAdjacentRelation.balance c 0 (objs, r) = (Ret objs', st') ->
  Forall (in_grid (OneDAdjacentRelation.relevant_field_slice c)
                  (OneDAdjacentRelation.relevant_field_generator c)) objs'
  /\ exists i oi x', objs !! i = Some oi
       /\ objs' = <[i := set_slice
                           (OneDAdjacentRelation.relevant_field_slice c)
                           [x'] oi]> objs.
Proof.
  set (sl := OneDAdjacentRelation.relevant_field_slice c).
  set (g := OneDAdjacentRelation.relevant_field_generator c).
  intros Hw Hs Hrows Hcells Hgrid.
  unfold OneDAdjacentRelation.balance. fold sl. fold g.
  destruct (decide (0 <> 0)) as [Hne|_]; [congruence|].
  intros Hr.
  apply bind_ret_inv in Hr as (objs0 & s0 & Ho & Hr).
  apply objects_ret in Ho as [-> ->]. simpl fst in Hr.
  apply bind_ret_inv in Hr as ([i j] & s1 & Hij & Hr).
  apply two_random_indices_ret in Hij as (Hs1 & Hne & Hi & Hj).
  simpl fst in Hr. simpl snd in Hr. simpl in Hs1.
  apply bind_ret_inv in Hr as (v & s2 & Hv & Hr).
  apply read_field_ret in Hv as [-> (oj & Hoj & ->)].
  rewrite Hs1 in Hoj.
  apply bind_ret_inv in Hr as (u1 & s3 & Hw1 & Hr).
  apply write_field_ret in Hw1 as (oi & Hoi & ->).
  rewrite Hs1 in Hoi. rewrite Hs1 in Hr.
  assert (HojL : length oj = L)
    by exact (proj1 (Forall_lookup _ _) Hrows j oj Hoj).
  assert (HoiL : length oi = L)
    by exact (proj1 (Forall_lookup _ _) Hrows i oi Hoi).
  apply bind_ret_inv in Hr as (u2 & s4 & Hshift & Hr).
  set (oc := set_slice sl (get_slice sl oj) oi) in *.
  assert (Hoc : get_slice sl oc = get_slice sl oj).
  { unfold oc. apply get_set_slice_same; [apply length_get_slice; lia|lia]. }
  apply (shift_by_one_on_grid i sl g _ _ _ oc) in Hshift
    as (x' & Hx' & Hs4); try assumption.
  - simpl fst in Hs4. rewrite list_insert_insert_eq in Hs4.
    apply objects_ret in Hr as [-> _]. rewrite Hs4.
    assert (Hset : set_slice sl [x'] oc = set_slice sl [x'] oi).
    { assert (Hst : (start sl + 1 <= L)%nat)
        by (unfold width in Hw; lia).
      unfold oc, set_slice. apply list_eq. intros k.
      destruct (decide (start sl <= k < start sl + 1)%nat) as [Hk|Hk].
      - rewrite list_lookup_inserts
          by (rewrite ?length_inserts; simpl; lia).
        rewrite list_lookup_inserts by (simpl; lia). reflexivity.
      - destruct (decide (k < start sl)%nat).
        + rewrite !list_lookup_inserts_lt by lia. reflexivity.
        + assert (Hlv : length (get_slice sl oj) = 1%nat)
            by (rewrite length_get_slice; lia).
          rewrite !list_lookup_inserts_ge by (simpl; lia). reflexivity. }
    rewrite Hset. split.
    + apply Forall_insert; [exact Hgrid|].
      exists x'. split; [|exact Hx'].
      apply get_set_slice_same; [simpl; lia|lia].
    + exists i, oi, x'. auto.
  - unfold oc. rewrite length_set_slice. lia.
  - simpl. apply list_lookup_insert_eq. exact Hi.
  - destruct (proj1 (Forall_lookup _ _) Hgrid j oj Hoj) as (x & Hx & Hxr).
    exists x. rewrite Hoc. auto.
Qed.
End OnGrid.

(** ** Copying fields from one object to another *)

Lemma lookup_set_slice (s : slice) (v o : list Z) (col : nat) :
  set_slice s v o !! col
  = if decide (start s <= col < start s + length v /\ col < length o)%nat
    then v !! (col - start s)%nat else o !! col.
Proof.
  unfold set_slice. destruct (decide _) as [[Hin Hlt]|Hout].
  - apply list_lookup_inserts; lia.
  - destruct (decide (col < length o)%nat) as [Hlt|Hge].
    + destruct (decide (col < start s)%nat).
      * apply list_lookup_inserts_lt. lia.
      * apply list_lookup_inserts_ge. lia.
    + rewrite (lookup_ge_None_2 o) by lia.
      apply lookup_ge_None_2. rewrite length_inserts. lia.
Qed.

Lemma lookup_copy_fields (slices : list slice) (oj oi : list Z) (col : nat) :
  length oi = length oj ->
  Forall (fun s => (stop s <= length oj)%nat) slices ->
  copy_fields slices oj oi !! col
  = if decide (Exists (fun s => (start s <= col < stop s)%nat) slices)
    then oj !! col else oi !! col.
Proof.
  revert oi. induction slices as [|s fs IH]; intros oi Hlen Hstops.
  { unfold copy_fields. cbn [foldl].
    destruct (decide (Exists _ _)) as [Hex|_]; [inversion Hex|reflexivity]. }
  apply Forall_cons in Hstops as [Hs Hstops].
  change (copy_fields (s :: fs) oj oi)
    with (copy_fields fs oj (set_slice s (get_slice s oj) oi)).
  rewrite IH; [|rewrite length_set_slice; exact Hlen|exact Hstops].
  pose proof (length_get_slice s oj Hs) as Hlv. unfold width in Hlv.
  destruct (decide (Exists _ fs)) as [Hex|Hnex].
  { destruct (decide (Exists _ _)) as [_|Hn]; [reflexivity|].
    destruct Hn. apply Exists_cons. right. exact Hex. }
  rewrite lookup_set_slice.
  destruct (decide (_ /\ _)) as [[Hin Hlt]|Hout].
  - destruct (decide (Exists _ _)) as [_|Hn].
    + rewrite <- (slice_entry s oj _ (col - start s) eq_refl) by lia.
      f_equal. lia.
    + destruct Hn. apply Exists_cons. left. lia.
  - destruct (decide (Exists _ _)) as [Hex|_]; [|reflexivity].
    apply Exists_cons in Hex as [Hex|Hex]; [lia|contradiction].
Qed.

Section IdenticalBalance.
Import IdenticalObjectsRelation.
Context {R : Type} `{RandomSourceLaws R}.

(** [IdenticalObjectsRelation.balance] does what the relation asks for:
    the scene it returns holds two different objects with the same
    contents in every property field, one of them as it was; the object
    it changed keeps every column outside the property fields, and no
    other object changes. *)
Theorem identical_balance_makes_identical_pair (c : config) (L : nat)
    (objs objs' : list (list Z)) (r : R) (st' : list (list Z) * R) :
  rows L objs ->
  Forall (fun s => (stop s <= L)%nat) (property_field_slices c) ->
  balance c 0 (objs, r) = (Ret objs', st') ->
  exists i j oi oj oi',
    i <> j /\ objs !! i = Some oi /\ objs !! j = Some oj
    /\ objs' = <[i := oi']> objs
    /\ Forall (fun s => get_slice s oi' = get_slice s oj)
              (property_field_slices c)
    /\ forall col,
         ~ Exists (fun s => (start s <= col < stop s)%nat)
                  (property_field_slices c) ->
         oi' !! col = oi !! col.
Proof.
  intros Hrows Hstops. unfold balance.
  destruct (decide (0 <> 0)) as [Hne|_]; [congruence|].
  intros Hr.
  apply bind_ret_inv in Hr as (objs0 & s0 & Ho & Hr).
  apply objects_ret in Ho as [-> ->]. simpl fst in Hr.
  apply bind_ret_inv in Hr as ([i j] & s1 & Hij & Hr).
  apply two_random_indices_ret in Hij as (Hs1 & Hne & Hi & Hj).
  simpl fst in Hr. simpl snd in Hr. simpl in Hs1.
  destruct (lookup_lt_is_Some_2 objs i Hi) as [oi Hoi].
  destruct (lookup_lt_is_Some_2 objs j Hj) as [oj Hoj].
  assert (HoiL : length oi = L)
    by exact (proj1 (Forall_lookup _ _) Hrows i oi Hoi).
  assert (HojL : length oj = L)
    by exact (proj1 (Forall_lookup _ _) Hrows j oj Hoj).
  apply bind_ret_inv in Hr as (u1 & s2 & Hcopy & Hr).
  apply (copy_loop_ret _ i j oi oj) in Hcopy;
    [|exact Hne|rewrite Hs1; exact Hoi|rewrite Hs1; exact Hoj].
  rewrite Hs1 in Hcopy. apply objects_ret in Hr as [-> _].
  assert (Hstops' : Forall (fun s => (stop s <= length oj)%nat)
                      (property_field_slices c)).
  { eapply Forall_impl; [exact Hstops|]. simpl. intros s Hs. lia. }
  exists i, j, oi, oj, (copy_fields (property_field_slices c) oj oi).
  split; [exact Hne|]. split; [exact Hoi|]. split; [exact Hoj|].
  split; [exact Hcopy|]. split.
  - apply Forall_forall. intros f Hf. apply get_slice_entries.
    intros col Hcol. rewrite lookup_copy_fields by (auto; lia).
    destruct (decide (Exists _ _)) as [_|Hn]; [reflexivity|].
    destruct Hn. apply Exists_exists. exists f. auto.
  - intros col Hcol. rewrite lookup_copy_fields by (auto; lia).
    destruct (decide (Exists _ _)) as [Hex|_]; [contradiction|reflexivity].
Qed.
End IdenticalBalance.

Section OnGridMultipleD.
Import MultipleDAdjacentRelation.
Context {R : Type} `{RandomSourceLaws R}.

(** Every position field of the row holds a coordinate of its grid. *)
Definition on_grid (c : config) (o : list Z) : Prop :=
  Forall (fun fg => in_grid (fst fg) (snd fg) o) (position_fields c).

(** [MultipleDAdjacentRelation.balance] changes one object only, and of
    that object only the position fields, which stay on the grid. *)
Theorem multiple_d_balance_stays_on_grid (c : config) (L : nat)
    (objs objs' : list (list Z)) (r : R) (st' : list (list Z) * R) :
  Forall (fun fg => width (fst fg) = 1%nat /\ (stop (fst fg) <= L)%nat
                    /\ min_coord (snd fg) + 2 <= max_coord (snd fg))
         (position_fields c) ->
  pairwise_disjoint (position_field_slices c) ->
  rows L objs -> Forall (on_grid c) objs ->
  balance c 0 (objs, r) = (Ret objs', st') ->
  Forall (on_grid c) objs'
  /\ exists i oi oi', objs !! i = Some oi /\ objs' = <[i := oi']> objs
       /\ forall col,
            ~ Exists (fun s => (start s <= col < stop s)%nat)
                     (position_field_slices c) ->
            oi' !! col = oi !! col.
Proof.
  intros Hfields Hpd Hrows Hgrid. unfold balance.
  destruct (decide (0 <> 0)) as [Hne|_]; [congruence|].
  intros Hr.
  apply bind_ret_inv in Hr as (objs0 & s0 & Ho & Hr).
  apply objects_ret in Ho as [-> ->]. simpl fst in Hr.
  apply bind_ret_inv in Hr as ([i j] & s1 & Hij & Hr).
  apply two_random_indices_ret in Hij as (Hs1 & Hne & Hi & Hj).
  simpl fst in Hr. simpl snd in Hr. simpl in Hs1.
  destruct (lookup_lt_is_Some_2 objs i Hi) as [oi Hoi].
  destruct (lookup_lt_is_Some_2 objs j Hj) as [oj Hoj].
  assert (HoiL : length oi = L)
    by exact (proj1 (Forall_lookup _ _) Hrows i oi Hoi).
  assert (HojL : length oj = L)
    by exact (proj1 (Forall_lookup _ _) Hrows j oj Hoj).
  apply bind_ret_inv in Hr as (u1 & s2 & Hcopy & Hr).
  apply (copy_loop_ret _ i j oi oj) in Hcopy;
    [|exact Hne|rewrite Hs1; exact Hoi|rewrite Hs1; exact Hoj].
  rewrite Hs1 in Hcopy.
  set (oc := copy_fields (position_field_slices c) oj oi) in *.
  apply bind_ret_inv in Hr as (k & s3 & Hk & Hr).
  apply randint_ret in Hk as [Hs3 _].
  apply bind_ret_inv in Hr as (fg & s4 & Hfg & Hr).
  apply or_raise_ret in Hfg as [Hfg ->].
  apply bind_ret_inv in Hr as (u2 & s5 & Hshift & Hr).
  assert (Hfg_in : fg ∈ position_fields c)
    by (eapply list_elem_of_lookup_2; exact Hfg).
  destruct (proj1 (Forall_forall _ _) Hfields _ Hfg_in) as (Hwk & Hsk & Hck).
  assert (Hfk : position_field_slices c !! Z.to_nat k = Some (fst fg)).
  { unfold position_field_slices. rewrite list_lookup_fmap, Hfg. reflexivity. }
  assert (Hfk_in : fst fg ∈ position_field_slices c)
    by (eapply list_elem_of_lookup_2; exact Hfk).
  assert (HocL : length oc = L).
  { unfold oc. rewrite length_copy_fields. exact HoiL. }
  assert (Hstops : Forall (fun s => (stop s <= length oj)%nat)
                          (position_field_slices c)).
  { unfold position_field_slices. apply Forall_fmap.
    eapply Forall_impl; [exact Hfields|]. simpl. intros s (_ & Hs & _). lia. }
  assert (Hcopied : forall f, f ∈ position_field_slices c ->
                      get_slice f oc = get_slice f oj).
  { intros f Hf. unfold oc. apply get_copy_fields; auto. lia. }
  pose proof (proj1 (Forall_lookup _ _) Hgrid j oj Hoj) as Hgj.
  apply (shift_by_one_on_grid i (fst fg) (snd fg) _ _ _ oc) in Hshift
    as (x' & Hx' & Hs5); try assumption; try lia.
  2: { rewrite Hs3, Hcopy. apply list_lookup_insert_eq. exact Hi. }
  2: { destruct (proj1 (Forall_forall _ _) Hgj fg Hfg_in) as (x & Hx & Hxr).
       exists x. rewrite (Hcopied _ Hfk_in). auto. }
  rewrite Hs3, Hcopy in Hs5. rewrite list_insert_insert_eq in Hs5.
  apply objects_ret in Hr as [-> _]. rewrite Hs5.
  set (o2 := set_slice (fst fg) [x'] oc).
  split.
  - apply Forall_insert; [exact Hgrid|].
    unfold on_grid. apply Forall_lookup. intros k' fg' Hfg'.
    destruct (decide (k' = Z.to_nat k)) as [->|Hk'].
    + rewrite Hfg in Hfg'. inversion Hfg'; subst fg'.
      exists x'. split; [|exact Hx'].
      unfold o2. apply get_set_slice_same; [simpl; lia|lia].
    + assert (Hd : disjoint_slices (fst fg) (fst fg')).
      { pose proof (take_drop_middle _ _ _ Hfk) as Hsplit.
        rewrite <- Hsplit in Hpd.
        apply pairwise_disjoint_middle in Hpd as [Hpre Hpost].
        assert (Hf' : position_field_slices c !! k' = Some (fst fg')).
        { unfold position_field_slices.
          rewrite list_lookup_fmap, Hfg'. reflexivity. }
        destruct (decide (k' < Z.to_nat k)%nat) as [Hlt|Hge].
        - apply (proj1 (Forall_lookup _ _) Hpre k').
          rewrite lookup_take. destruct (decide _); [exact Hf'|lia].
        - apply (proj1 (Forall_lookup _ _) Hpost (k' - S (Z.to_nat k))%nat).
          rewrite lookup_drop. rewrite <- Hf'. f_equal. lia. }
      assert (Hf'_in : fg' ∈ position_fields c)
        by (eapply list_elem_of_lookup_2; exact Hfg').
      destruct (proj1 (Forall_forall _ _) Hgj fg' Hf'_in) as (x & Hx & Hxr).
      exists x. split; [|exact Hxr]. unfold o2.
      rewrite get_set_slice_other;
        [|simpl; lia|apply disjoint_slices_sym; exact Hd].
      rewrite Hcopied; [exact Hx|].
      unfold position_field_slices. apply list_elem_of_fmap.
      exists fg'. auto.
  - exists i, oi, o2. split; [exact Hoi|]. split; [reflexivity|].
    intros col Hcol. unfold o2. rewrite lookup_set_slice.
    destruct (decide (_ /\ _)) as [[Hin _]|_].
    + destruct Hcol. apply Exists_exists. exists (fst fg).
      split; [exact Hfk_in|]. unfold width in Hwk. simpl in Hin. lia.
    + unfold oc. rewrite lookup_copy_fields by (auto; lia).
      destruct (decide (Exists _ _)) as [Hex|_]; [contradiction|reflexivity].
Qed.
End OnGridMultipleD.

(** ** The label of a scene does not depend on the order of its objects *)

Lemma existsb_Permutation {A} (f : A -> bool) (l l' : list A) :
  Permutation l l' -> existsb f l = existsb f l'.
Proof.
  induction 1 as [|x l l' _ IH|x y l|l l' l'' _ IH1 _ IH2]; simpl.
  - reflexivity.
  - rewrite IH. reflexivity.
  - destruct (f x), (f y); reflexivity.
  - congruence.
Qed.

Lemma forallb_Permutation {A} (f : A -> bool) (l l' : list A) :
  Permutation l l' -> forallb f l = forallb f l'.
Proof.
  induction 1 as [|x l l' _ IH|x y l|l l' l'' _ IH1 _ IH2]; simpl.
  - reflexivity.
  - rewrite IH. reflexivity.
  - destruct (f x), (f y); reflexivity.
  - congruence.
Qed.

Lemma existsb_pointwise {A} (f g : A -> bool) (l : list A) :
  (forall a, f a = g a) -> existsb f l = existsb g l.
Proof.
  intros Hfg. induction l as [|a l IH]; simpl; [reflexivity|].
  rewrite Hfg, IH. reflexivity.
Qed.

Lemma concat_Permutation {A} (l l' : list (list A)) :
  Permutation l l' -> Permutation (concat l) (concat l').
Proof.
  induction 1 as [|x l l' _ IH|x y l|l l' l'' _ IH1 _ IH2]; simpl.
  - reflexivity.
  - rewrite IH. reflexivity.
  - rewrite !app_assoc. apply Permutation_app_tail. apply Permutation_app_comm.
  - etransitivity; eassumption.
Qed.

Lemma any_unit_distance_Permutation (l l' : list (list Z)) :
  Permutation l l' -> any_unit_distance l = any_unit_distance l'.
Proof.
  intros Hp. unfold any_unit_distance.
  rewrite (existsb_Permutation _ l l' Hp).
  apply existsb_pointwise. intros p. apply existsb_Permutation. exact Hp.
Qed.

Section ColorAboveOrder.
Import ColorAboveColorRelation.

Lemma color_above_evaluate_Permutation (c : config)
    (objs objs' : list (list Z)) :
  Permutation objs objs' -> evaluate c objs = evaluate c objs'.
Proof.
  intros Hp. unfold evaluate, select_rows.
  assert (Hsel : forall t,
    Permutation
      (map (get_slice (y_field_slice c)) (filter (has_color c t) objs))
      (map (get_slice (y_field_slice c)) (filter (has_color c t) objs'))).
  { intros t. apply Permutation_map. apply filter_Permutation. exact Hp. }
  pose proof (Hsel (above_color_tensor c)) as Ha.
  pose proof (Hsel (below_color_tensor c)) as Hb.
  rewrite (Permutation_length Ha), (Permutation_length Hb).
  destruct (decide _); [reflexivity|].
  destruct (decide _); [reflexivity|].
  rewrite (existsb_Permutation _ _ _ (concat_Permutation _ _ Ha)).
  apply existsb_pointwise. intros a.
  apply forallb_Permutation. apply concat_Permutation. exact Hb.
Qed.
End ColorAboveOrder.

Section ObjectCountOrder.
Import ObjectCountRelation.

Lemma object_count_evaluate_Permutation (c : config)
    (objs objs' : list (list Z)) :
  Permutation objs objs' -> evaluate c objs = evaluate c objs'.
Proof.
  intros Hp. unfold evaluate, first_object_count, second_object_count.
  rewrite (Permutation_length (filter_Permutation (is_first c) _ _ Hp)).
  rewrite (Permutation_length (filter_Permutation (is_second c) _ _ Hp)).
  reflexivity.
Qed.
End ObjectCountOrder.

Section OrderOfObjects.
Context {R : Type} `{RandomSource R}.

(** For each of the five relations, [evaluate] gives a scene and any
    reordering of its objects the same label. *)
Theorem evaluate_ignores_object_order (rel : relation)
    (objs objs' : list (list Z)) :
  Permutation objs objs' -> evaluate rel objs = evaluate rel objs'.
Proof.
  intros Hp. destruct rel as [c|c|c|c|c]; simpl.
  - unfold OneDAdjacentRelation.evaluate.
    apply any_unit_distance_Permutation. apply Permutation_map. exact Hp.
  - unfold MultipleDAdjacentRelation.evaluate. simpl. f_equal.
    apply any_unit_distance_Permutation. unfold cat_fields.
    apply Permutation_map. exact Hp.
  - apply color_above_evaluate_Permutation. exact Hp.
  - apply object_count_evaluate_Permutation. exact Hp.
  - reflexivity.
Qed.
End OrderOfObjects.

Lemma one_d_balance_stays_on_grid_witness :
  Forall (in_grid (Slice 0 1) {| min_coord := 0; max_coord := 20 |})
         [[4]; [5]]
  /\ exists i oi x', [[0]; [5]] !! i = Some oi
       /\ [[4]; [5]] = <[i := set_slice (Slice 0 1) [x'] oi]> [[0]; [5]].
Proof.
  eapply (one_d_balance_stays_on_grid (H0 := counter_source_laws) line20 1
            [[0]; [5]] _ 0%nat).
  - reflexivity.
  - simpl. lia.
  - repeat constructor.
  - simpl. lia.
  - repeat (constructor; [eexists; split; [reflexivity|simpl; lia]|]).
    constructor.
  - vm_compute. reflexivity.
Defined.

Lemma multiple_d_balance_stays_on_grid_witness :
  exists objs',
    Forall (on_grid plane20) objs'
    /\ exists i oi oi', [[2; 3]; [7; 9]] !! i = Some oi
         /\ objs' = <[i := oi']> [[2; 3]; [7; 9]]
         /\ forall col,
              ~ Exists (fun s => (start s <= col < stop s)%nat)
                       (MultipleDAdjacentRelation.position_field_slices
                          plane20) ->
              oi' !! col = oi !! col.
Proof.
  eexists.
  eapply (multiple_d_balance_stays_on_grid (H0 := counter_source_laws)
            plane20 2 [[2; 3]; [7; 9]] _ 0%nat).
  - repeat constructor; simpl; lia.
  - simpl. repeat split; repeat constructor; left; simpl; lia.
  - repeat constructor.
  - repeat (constructor;
            [repeat (constructor;
                     [eexists; split; [reflexivity|simpl; lia]|]);
             constructor|]).
    constructor.
  - vm_compute. reflexivity.
Defined.

Lemma identical_balance_makes_identical_pair_witness :
  exists i j oi oj oi',
    i <> j /\ distinct_pair !! i = Some oi /\ distinct_pair !! j = Some oj
    /\ [[0; 0; 0; 1; 1; 0]; [3; 4; 0; 1; 1; 0]] = <[i := oi']> distinct_pair
    /\ Forall (fun s => get_slice s oi' = get_slice s oj)
              (IdenticalObjectsRelation.property_field_slices xy_color_shape)
    /\ forall col,
         ~ Exists (fun s => (start s <= col < stop s)%nat)
                  (IdenticalObjectsRelation.property_field_slices
                     xy_color_shape) ->
         oi' !! col = oi !! col.
Proof.
  eapply (identical_balance_makes_identical_pair (H0 := counter_source_laws)
            xy_color_shape 6 distinct_pair _ 0%nat).
  - repeat constructor.
  - repeat constructor; simpl; lia.
  - vm_compute. reflexivity.
Defined.

Lemma evaluate_ignores_object_order_witness :
  evaluate (R := nat) (ColorAboveColor canvas20) a_over_b
  = evaluate (R := nat) (ColorAboveColor canvas20) (reverse a_over_b).
Proof.
  apply evaluate_ignores_object_order. symmetry. apply reverse_Permutation.
Defined.


(** ** The batch generators label their scenes truthfully *)

Lemma masked_map {A} (f : A -> bool) (data : list A) :
  masked data (map f data) = filter (fun d => f d = true) data.
Proof.
  unfold masked. induction data as [|d data IH]; [reflexivity|].
  cbn [map zip zip_with]. rewrite !filter_cons. cbn [snd].
  destruct (decide (f d = true)); cbn [map fst]; rewrite IH; reflexivity.
Qed.

Lemma filter_complement_length {A} (f : A -> bool) (l : list A) :
  (length (filter (fun a => f a = true) l)
   + length (filter (fun a => negb (f a) = true) l) = length l)%nat.
Proof.
  induction l as [|a l IH]; [reflexivity|].
  rewrite !filter_cons. destruct (f a) eqn:Ha; simpl.
  - destruct (decide (true = true)); [|contradiction].
    destruct (decide (false = true)); [discriminate|]. simpl. lia.
  - destruct (decide (false = true)); [discriminate|].
    destruct (decide (true = true)); [|contradiction]. simpl. lia.
Qed.

Lemma positive_count_map {A} (f : A -> bool) (l : list A) :
  positive_count (map f l) = length (filter (fun a => f a = true) l).
Proof.
  unfold positive_count. induction l as [|a l IH]; [reflexivity|].
  cbn [map]. rewrite !filter_cons.
  destruct (decide (f a = true)); simpl; rewrite IH; reflexivity.
Qed.

Lemma index_select_ret {S A} (t : list A) (idx : list nat) (out : list A)
    (s s' : S) :
  index_select t idx s = (Ret out, s') ->
  s' = s /\ Forall2 (fun i y => t !! i = Some y) idx out.
Proof.
  unfold index_select. intros Hr. apply or_raise_ret in Hr as [Hm ->].
  split; [reflexivity|]. apply mapM_Some in Hm. exact Hm.
Qed.

(** Indexing the data and the labels by the same indices keeps each label
    with its scene. *)
Lemma selected_labels {A} (f : A -> bool) (data : list A) (idx : list nat)
    (d' : list A) (l' : list bool) :
  Forall2 (fun i y => data !! i = Some y) idx d' ->
  Forall2 (fun i y => map f data !! i = Some y) idx l' ->
  l' = map f d'.
Proof.
  intros Hd. revert l'. induction Hd as [|i y idx d' Hy _ IH]; intros l' Hl.
  - inversion Hl. reflexivity.
  - inversion Hl as [|i' b idx' l'' Hb Hl']; subst. cbn [map].
    rewrite list_lookup_fmap, Hy in Hb. inversion Hb; subst b.
    f_equal. apply IH. exact Hl'.
Qed.

Lemma selected_all {A} (t : list A) :
  Forall2 (fun i y => t !! i = Some y) (seq 0 (length t)) t.
Proof.
  apply Forall2_lookup. intros i.
  destruct (decide (i < length t)%nat) as [Hlt|Hge].
  - rewrite lookup_seq_lt by exact Hlt.
    destruct (lookup_lt_is_Some_2 t i Hlt) as [y Hy]. rewrite Hy.
    constructor. exact Hy.
  - rewrite lookup_seq_ge by lia. rewrite lookup_ge_None_2 by lia.
    constructor.
Qed.

Lemma selected_functional {A} (t : list A) (idx : list nat) (o o' : list A) :
  Forall2 (fun i y => t !! i = Some y) idx o ->
  Forall2 (fun i y => t !! i = Some y) idx o' -> o = o'.
Proof.
  intros Ho. revert o'. induction Ho as [|i y idx o Hy _ IH]; intros o' Ho'.
  - inversion Ho'. reflexivity.
  - inversion Ho' as [|i' y' idx' o'' Hy' Ho'']; subst.
    rewrite Hy in Hy'. inversion Hy'; subst. f_equal. apply IH. exact Ho''.
Qed.

(** Indexing by a permutation of all the indices permutes the tensor. *)
Lemma selected_Permutation {A} (t : list A) (idx idx' : list nat)
    (out : list A) :
  Permutation idx idx' ->
  Forall2 (fun i y => t !! i = Some y) idx out ->
  exists out', Forall2 (fun i y => t !! i = Some y) idx' out'
               /\ Permutation out out'.
Proof.
  intros Hp. revert out.
  induction Hp as [|x l l' _ IH|x y l|l l' l'' _ IH1 _ IH2]; intros out Ho.
  - inversion Ho. exists []. split; constructor.
  - inversion Ho as [|? a ? o Ha Ho']; subst.
    destruct (IH _ Ho') as (o' & Ho'' & Hperm).
    exists (a :: o'). split; [constructor; assumption|].
    constructor. exact Hperm.
  - inversion Ho as [|? a ? o Ha Ho']; subst.
    inversion Ho' as [|? b ? o2 Hb Ho'']; subst.
    exists (b :: a :: o2). split; [repeat constructor; assumption|].
    apply perm_swap.
  - destruct (IH1 _ Ho) as (o1 & Ho1 & Hp1).
    destruct (IH2 _ Ho1) as (o2 & Ho2 & Hp2).
    exists o2. split; [exact Ho2|]. etransitivity; eassumption.
Qed.

Section TruthfulLabels.
Import ObjectGen.
Context {R : Type} `{RandomSourceLaws R} {C : Type} `{!ObjectRelation R C}.
Variable sample_scene : R -> Scene * R.
Variable relation_ : C.
Variable default_batch_size : nat.
Variable balance_fuel : nat.

Lemma on_gen_ret {A} (f : R -> A * R) (r r' : R) (a : A) :
  on_gen f r = (Ret a, r') -> a = fst (f r).
Proof.
  unfold on_gen. destruct (f r) as [a' r1]. intros Hr.
  inversion Hr. reflexivity.
Qed.

Lemma draw_scenes_ret (P : Scene -> Prop) (n : nat) (r r' : R)
    (l : list Scene) :
  (forall r0, P (fst (sample_scene r0))) ->
  draw_scenes sample_scene n r = (Ret l, r') ->
  length l = n /\ Forall P l.
Proof.
  intros HP. revert r r' l. induction n as [|n IH]; intros r r' l Hr.
  - apply ret_inv in Hr as [<- _]. split; [reflexivity|constructor].
  - cbn [draw_scenes] in Hr.
    apply bind_ret_inv in Hr as (s & r1 & Hs & Hr).
    apply on_gen_ret in Hs as ->.
    apply bind_ret_inv in Hr as (rest & r2 & Hrest & Hr).
    apply IH in Hrest as [Hlen Hall].
    apply ret_inv in Hr as [<- _]. split; [simpl; lia|].
    constructor; [apply HP|exact Hall].
Qed.

(** [ObjectGenerator.__call__] returns [batch_size] sampled scenes, each
    with the label [evaluate] gives it. *)
Lemma ObjectGenerator_call_ret (P : Scene -> Prop) (n : nat) (r r' : R)
    (data : list Scene) (labels : list bool) :
  (forall r0, P (fst (sample_scene r0))) ->
  ObjectGenerator_call sample_scene relation_ default_batch_size (Some n) r
  = (Ret (data, labels), r') ->
  length data = n /\ n <> 0%nat /\ Forall P data
  /\ labels = map (evaluate relation_) data.
Proof.
  intros HP. unfold ObjectGenerator_call.
  change (default default_batch_size (Some n)) with n. cbv zeta.
  destruct (decide (n = 0%nat)) as [|Hn]; [discriminate|]. intros Hr.
  apply bind_ret_inv in Hr as (l & r1 & Hl & Hr).
  apply (draw_scenes_ret P) in Hl as [Hlen Hall]; [|exact HP].
  apply ret_inv in Hr as [Heq _]. inversion Heq; subst. auto.
Qed.

(** The pools of the rejection loop: the positive pool holds scenes
    labelled true only, the negative pool scenes labelled false only, and
    the two counters are the sizes of the pools. *)
Definition pools_ok (neg pos : list (list Scene)) (nc pc : nat) : Prop :=
  Forall (fun d => evaluate relation_ d = true) (concat pos)
  /\ Forall (fun d => evaluate relation_ d = false) (concat neg)
  /\ pc = length (concat pos) /\ nc = length (concat neg).

Lemma fill_pools_ret (fuel batch_size half : nat)
    (neg pos neg' pos' : list (list Scene)) (nc pc : nat) (r r' : R) :
  pools_ok neg pos nc pc ->
  fill_pools sample_scene relation_ default_batch_size fuel batch_size half
    neg pos nc pc r = (Ret (neg', pos'), r') ->
  Forall (fun d => evaluate relation_ d = true) (concat pos')
  /\ Forall (fun d => evaluate relation_ d = false) (concat neg')
  /\ (half <= length (concat pos'))%nat
  /\ (half <= length (concat neg'))%nat.
Proof.
  revert neg pos nc pc r.
  induction fuel as [|fuel IH]; intros neg pos nc pc r Hok;
    cbn [fill_pools].
  - destruct (decide _) as [Hc|Hc]; [discriminate|].
    intros Hr. apply ret_inv in Hr as [Heq _]. inversion Heq; subst.
    destruct Hok as (Hp & Hn & -> & ->).
    repeat split; try assumption; lia.
  - destruct (decide _) as [Hc|Hc].
    + intros Hr.
      apply bind_ret_inv in Hr as ([data labels] & r1 & Hcall & Hr).
      apply (ObjectGenerator_call_ret (fun _ => True)) in Hcall
        as (Hlen & _ & _ & ->); [|auto].
      cbn [fst snd] in Hr. apply IH in Hr; [exact Hr|].
      destruct Hok as (Hp & Hn & Hpc & Hnc).
      rewrite positive_count_map.
      pose proof (filter_complement_length (evaluate relation_) data) as Hcl.
      split; [|split; [|split]].
      * destruct (decide (pc < half)%nat); cbn [fst]; [|exact Hp].
        rewrite concat_app, Forall_app. split; [exact Hp|].
        simpl. rewrite app_nil_r, masked_map.
        apply Forall_forall. intros d Hd.
        apply list_elem_of_filter in Hd as [Hd _]. exact Hd.
      * destruct (decide (nc < half)%nat); cbn [fst]; [|exact Hn].
        rewrite concat_app, Forall_app. split; [exact Hn|].
        simpl. rewrite app_nil_r, map_map, masked_map.
        apply Forall_forall. intros d Hd.
        apply list_elem_of_filter in Hd as [Hd _].
        apply negb_true_iff in Hd. exact Hd.
      * destruct (decide (pc < half)%nat); cbn [fst snd]; [|exact Hpc].
        rewrite concat_app, length_app. simpl.
        rewrite app_nil_r, masked_map. lia.
      * destruct (decide (nc < half)%nat); cbn [fst snd]; [|exact Hnc].
        rewrite concat_app, length_app. simpl.
        rewrite app_nil_r, map_map, masked_map. lia.
    + intros Hr. apply ret_inv in Hr as [Heq _]. inversion Heq; subst.
      destruct Hok as (Hp & Hn & -> & ->).
      repeat split; try assumption; lia.
Qed.

(** A batch the post-hoc balanced generator returns for an even batch
    size has [batch_size] scenes, each with the label [evaluate] gives
    it, and exactly half of the labels are positive. *)
Theorem balanced_batch_is_balanced (fuel batch_size : nat) (r r' : R)
    (data : list Scene) (labels : list bool) :
  Nat.Even batch_size ->
  BalancedBatch_call sample_scene relation_ default_batch_size fuel
    (Some batch_size) r = (Ret (data, labels), r') ->
  length data = batch_size
  /\ labels = map (evaluate relation_) data
  /\ positive_count labels = (batch_size / 2)%nat.
Proof.
  intros [k Hk]. unfold BalancedBatch_call.
  change (default default_batch_size (Some batch_size)) with batch_size.
  cbv zeta. destruct (decide (batch_size = 1%nat)); [lia|].
  assert (Hhalf : (batch_size / 2 = k)%nat).
  { subst batch_size. rewrite Nat.mul_comm. apply Nat.div_mul. lia. }
  rewrite Hhalf. intros Hr.
  apply bind_ret_inv in Hr as ([neg pos] & r1 & Hpools & Hr).
  apply fill_pools_ret in Hpools as (Hp & Hn & Hlp & Hln).
  2: { repeat split; constructor. }
  cbn [fst snd] in Hr.
  apply bind_ret_inv in Hr as (positives & r2 & Hcp & Hr).
  assert (Hpos : positives = concat pos).
  { unfold cat_list in Hcp. destruct pos; [discriminate|].
    apply ret_inv in Hcp as [<- _]. reflexivity. }
  apply bind_ret_inv in Hr as (negatives & r3 & Hcn & Hr).
  assert (Hneg : negatives = concat neg).
  { unfold cat_list in Hcn. destruct neg; [discriminate|].
    apply ret_inv in Hcn as [<- _]. reflexivity. }
  subst positives negatives.
  apply bind_ret_inv in Hr as (perm & r4 & Hperm & Hr).
  apply on_gen_ret in Hperm.
  pose proof (randperm_perm batch_size r3) as Hpp. rewrite <- Hperm in Hpp.
  apply bind_ret_inv in Hr as (data_perm & r5 & Hd & Hr).
  apply index_select_ret in Hd as [-> Hd].
  apply bind_ret_inv in Hr as (labels_perm & r6 & Hl & Hr).
  apply index_select_ret in Hl as [-> Hl].
  apply ret_inv in Hr as [Heq _]. inversion Heq; subst data_perm labels_perm.
  set (d0 := take k (concat pos) ++ take k (concat neg)) in *.
  assert (Hl0 : replicate k true ++ replicate k false
                = map (evaluate relation_) d0).
  { unfold d0. rewrite map_app. f_equal.
    - apply list_eq. intros i. rewrite list_lookup_fmap.
      destruct (decide (i < k)%nat) as [Hi|Hi].
      + rewrite lookup_replicate_2 by exact Hi.
        destruct (lookup_lt_is_Some_2 (take k (concat pos)) i) as [d Hdi];
          [rewrite length_take; lia|].
        rewrite Hdi. simpl. f_equal. symmetry.
        apply (proj1 (Forall_forall _ _) Hp).
        eapply subseteq_take. eapply list_elem_of_lookup_2. exact Hdi.
      + rewrite !lookup_ge_None_2;
          rewrite ?length_replicate, ?length_take; try lia. reflexivity.
    - apply list_eq. intros i. rewrite list_lookup_fmap.
      destruct (decide (i < k)%nat) as [Hi|Hi].
      + rewrite lookup_replicate_2 by exact Hi.
        destruct (lookup_lt_is_Some_2 (take k (concat neg)) i) as [d Hdi];
          [rewrite length_take; lia|].
        rewrite Hdi. simpl. f_equal. symmetry.
        apply (proj1 (Forall_forall _ _) Hn).
        eapply subseteq_take. eapply list_elem_of_lookup_2. exact Hdi.
      + rewrite !lookup_ge_None_2;
          rewrite ?length_replicate, ?length_take; try lia. reflexivity. }
  rewrite Hl0 in Hl.
  pose proof (selected_labels _ _ _ _ _ Hd Hl) as Hlabels.
  split; [|split; [exact Hlabels|]].
  - rewrite <- (Forall2_length _ _ _ Hd), (Permutation_length Hpp).
    apply length_seq.
  - assert (Hlen0 : length (map (evaluate relation_) d0) = batch_size).
    { rewrite <- Hl0, length_app, !length_replicate. lia. }
    rewrite <- Hlen0 in Hpp.
    destruct (selected_Permutation _ _ _ _ Hpp Hl) as (out' & Hout' & Hpo).
    pose proof (selected_functional _ _ _ _ Hout' (selected_all _)) as ->.
    unfold positive_count.
    rewrite (Permutation_length (filter_Permutation _ _ _ Hpo)).
    rewrite <- Hl0, filter_app, length_app.
    assert (Ht : filter (fun b => b = true) (replicate k true)
                 = replicate k true).
    { clear. induction k as [|k IH]; [reflexivity|].
      simpl. rewrite filter_cons.
      destruct (decide (true = true)); [|contradiction]. rewrite IH.
      reflexivity. }
    assert (Hf : filter (fun b => b = true) (replicate k false) = []).
    { clear. induction k as [|k IH]; [reflexivity|].
      simpl. rewrite filter_cons.
      destruct (decide (false = true)); [discriminate|]. exact IH. }
    rewrite Ht, Hf, length_replicate. simpl. lia.
Qed.

(** *** [SmartBalancedBatchObjectGenerator] *)

Lemma scatter_map {A} (f : A -> bool) (t : list A) (idx : list nat)
    (vals : list A) :
  scatter (map f t) idx (map f vals) = map f (scatter t idx vals).
Proof.
  unfold scatter. revert t vals.
  induction idx as [|i idx IH]; intros t vals; [reflexivity|].
  destruct vals as [|v vals]; [reflexivity|].
  cbn [map zip zip_with foldl fst snd].
  rewrite <- IH. f_equal. symmetry. apply (list_fmap_insert f).
Qed.

Lemma scatter_Forall {A} (P : A -> Prop) (t : list A) (idx : list nat)
    (vals : list A) :
  Forall P t -> Forall P vals -> Forall P (scatter t idx vals).
Proof.
  unfold scatter. revert t vals.
  induction idx as [|i idx IH]; intros t vals Ht Hv; [exact Ht|].
  destruct vals as [|v vals]; [exact Ht|].
  apply Forall_cons in Hv as [Hv Hvals].
  cbn [zip zip_with foldl fst snd]. apply IH; [|exact Hvals].
  apply Forall_insert; assumption.
Qed.

Variable max_recursion_depth : Z.

(** The resampling loop keeps every label the label of its scene. *)
Lemma resample_rounds_truthful (n2p : bool) (P : Scene -> Prop)
    (fuel half : nat) (data : list Scene) (labels : list bool) (pc : nat)
    (depth : Z) (r r' : R) (ex : loop_exit) :
  (forall r0, P (fst (sample_scene r0))) ->
  labels = map (evaluate relation_) data -> Forall P data ->
  pc = positive_count labels ->
  resample_rounds sample_scene relation_ default_batch_size n2p
    max_recursion_depth fuel half data labels pc depth r = (Ret ex, r') ->
  match ex with
  | Returned d l _ =>
      l = map (evaluate relation_) d /\ Forall P d
      /\ positive_count l = half
  | Fallthrough d l pc' _ =>
      l = map (evaluate relation_) d /\ Forall P d
      /\ pc' = positive_count l /\ bool_decide (half < pc')%nat <> n2p
  end.
Proof.
  intros HP. revert data labels pc depth r.
  induction fuel as [|fuel IH]; intros data labels pc depth r Hl HPd Hpc;
    cbn [resample_rounds]; cbv zeta.
  - destruct (decide _) as [Hc|Hc]; [discriminate|].
    intros Hr. apply ret_inv in Hr as [<- _]. auto.
  - destruct (decide _) as [Hc|Hc].
    2: { intros Hr. apply ret_inv in Hr as [<- _]. auto. }
    destruct (decide (max_recursion_depth < depth + 1)); [discriminate|].
    intros Hr.
    apply bind_ret_inv in Hr as (num & r1 & Hnum & Hr).
    apply bind_ret_inv in Hr as ([nd nl] & r2 & Hcall & Hr).
    apply (ObjectGenerator_call_ret P) in Hcall
      as (_ & _ & HPn & ->); [|exact HP].
    cbn [fst snd] in Hr. subst labels. rewrite scatter_map in Hr.
    destruct (decide _) as [Heq|Hne] in Hr.
    + apply ret_inv in Hr as [<- _].
      split; [reflexivity|]. split; [|exact Heq].
      apply scatter_Forall; assumption.
    + apply IH in Hr; [exact Hr|reflexivity| |reflexivity].
      apply scatter_Forall; assumption.
Qed.

Lemma call_balance_ret (scene scene' : Scene) (label : Z) (r r' : R) :
  call_balance relation_ balance_fuel scene label r = (Ret scene', r') ->
  exists st', balance balance_fuel relation_ label (scene, r)
              = (Ret scene', st').
Proof.
  unfold call_balance.
  destruct (balance balance_fuel relation_ label (scene, r)) as [o st'].
  simpl. intros Hr. inversion Hr; subst. exists st'. reflexivity.
Qed.

(** The balancing loop of the negative-to-positive direction, on distinct
    targets, with a balancer that returns positive scenes only. *)
Lemma modify_targets_truthful (P : Scene -> Prop) (targets : list nat)
    (data : list Scene) (labels : list bool) (r r' : R) (d' : list Scene)
    (l' : list bool) :
  (forall scene r0 scene' st', P scene ->
     balance balance_fuel relation_ 0 (scene, r0) = (Ret scene', st') ->
     evaluate relation_ scene' = true) ->
  NoDup targets ->
  (forall i s, i ∈ targets -> data !! i = Some s -> P s) ->
  labels = map (evaluate relation_) data ->
  modify_targets relation_ balance_fuel true targets data labels r
  = (Ret (d', l'), r') ->
  l' = map (evaluate relation_) d'.
Proof.
  intros Hbal. revert data labels r.
  induction targets as [|i targets IH]; intros data labels r Hnd HPt Hl Hr.
  - apply ret_inv in Hr as [Heq _]. inversion Heq; subst. reflexivity.
  - apply NoDup_cons in Hnd as [Hni Hnd]. cbn [modify_targets] in Hr.
    apply bind_ret_inv in Hr as (scene & r1 & Hs & Hr).
    apply or_raise_ret in Hs as [Hs ->].
    apply bind_ret_inv in Hr as (scene' & r2 & Hb & Hr).
    apply call_balance_ret in Hb as [st' Hb]. cbn [negb] in Hb.
    apply Hbal in Hb; [|apply (HPt i); [left|exact Hs]].
    apply IH in Hr; [exact Hr|exact Hnd| |].
    + intros j s Hj Hjs. apply (HPt j); [right; exact Hj|].
      rewrite list_lookup_insert_ne in Hjs; [exact Hjs|].
      intros ->. contradiction.
    + subst labels. rewrite (list_fmap_insert (evaluate relation_)).
      rewrite Hb. reflexivity.
Qed.

(** The labels of a batch the directed balanced generator returns are the
    labels [evaluate] gives its scenes, when the relation's balancer
    returns only positive scenes on the scenes the field generators
    produce. *)
Theorem smart_batch_labels_truthful (P : Scene -> Prop) (batch_size : nat)
    (recursion_depth : Z) (r r' : R) (data : list Scene)
    (labels : list bool) :
  (forall r0, P (fst (sample_scene r0))) ->
  (forall scene r0 scene' st', P scene ->
     balance balance_fuel relation_ 0 (scene, r0) = (Ret scene', st') ->
     evaluate relation_ scene' = true) ->
  SmartBalancedBatch_call sample_scene relation_ default_batch_size
    balance_fuel true max_recursion_depth (Some batch_size) recursion_depth r
  = (Ret (data, labels), r') ->
  labels = map (evaluate relation_) data.
Proof.
  intros HP Hbal. unfold SmartBalancedBatch_call. intros Hr.
  apply bind_ret_inv in Hr as ([[d l] rounds] & r1 & Hr & Hret).
  apply ret_inv in Hret as [Heq _]. cbn [fst] in Heq.
  inversion Heq; subst d l. clear Heq.
  unfold SmartBalancedBatch_call_rounds in Hr.
  change (default default_batch_size (Some batch_size)) with batch_size in Hr.
  cbv zeta in Hr.
  destruct (decide (batch_size = 1%nat)).
  { apply bind_ret_inv in Hr as ([d l] & r2 & Hcall & Hret).
    apply (ObjectGenerator_call_ret P) in Hcall as (_ & _ & _ & ->);
      [|exact HP].
    apply ret_inv in Hret as [Heq _]. inversion Heq; subst. reflexivity. }
  destruct (decide (max_recursion_depth < recursion_depth));
    [discriminate|].
  apply bind_ret_inv in Hr as ([d0 l0] & r2 & Hcall & Hr).
  apply (ObjectGenerator_call_ret P) in Hcall as (_ & _ & HP0 & ->);
    [|exact HP].
  cbn [fst snd] in Hr.
  destruct (decide _) as [Heq|Hneq] in Hr.
  { apply ret_inv in Hr as [Heq' _]. inversion Heq'; subst. reflexivity. }
  apply bind_ret_inv in Hr as (ex & r3 & Hloop & Hr).
  apply (resample_rounds_truthful true P) in Hloop;
    [|exact HP|reflexivity|exact HP0|reflexivity].
  destruct ex as [d l k|d l pc' k].
  { destruct Hloop as (Hl & _ & _).
    apply ret_inv in Hr as [Heq' _]. inversion Heq'; subst. reflexivity. }
  destruct Hloop as (Hl & HPd & Hpc & _).
  apply bind_ret_inv in Hr as (m & r4 & Hm & Hr).
  apply bind_ret_inv in Hr as (perm & r5 & Hperm & Hr).
  apply on_gen_ret in Hperm.
  apply bind_ret_inv in Hr as (targets & r6 & Ht & Hr).
  apply bind_ret_inv in Hr as ([d' l'] & r7 & Hmod & Hr).
  apply ret_inv in Hr as [Heq' _]. inversion Heq'; subst d' l' rounds.
  clear Heq'.
  destruct (nonzero_squeeze _) as [i0|idxs] eqn:Hsq; [discriminate Ht|].
  apply ret_inv in Hm as [<- <-].
  unfold index_select in Ht. apply or_raise_ret in Ht as [Ht _].
  pose proof (randperm_perm (length idxs) r3) as Hpp.
  rewrite <- Hperm in Hpp.
  assert (Hndp : NoDup perm) by (rewrite Hpp; apply NoDup_seq).
  assert (Hndi : NoDup idxs).
  { apply nonzero_squeeze_vector in Hsq. rewrite Hsq.
    apply NoDup_nonzero. }
  destruct (gather_NoDup idxs _ targets Hndi
              (sublist_NoDup _ _ Hndp (sublist_take _ _)) Ht)
    as (Hndt & _ & _).
  apply (modify_targets_truthful P) in Hmod; try assumption.
  intros i s _ His. exact (proj1 (Forall_lookup _ _) HPd i s His).
Qed.
End TruthfulLabels.

Section PositiveToNegative.
Import ObjectGen.
Context {R : Type} `{RandomSourceLaws R}.
Variable sample_scene : R -> Scene * R.
Variable rel : relation.
Variable default_batch_size : nat.
Variable balance_fuel : nat.
Variable max_recursion_depth : Z.

Lemma balance_checks_label (fuel : nat) (objs : Scene) (r : R) :
  balance fuel rel 1 (objs, r) = (Raise ValueError, (objs, r)).
Proof.
  destruct rel as [c|c|c|c|c]; simpl;
    [ unfold OneDAdjacentRelation.balance
    | unfold MultipleDAdjacentRelation.balance
    | unfold ColorAboveColorRelation.balance
    | unfold ObjectCountRelation.balance
    | unfold IdenticalObjectsRelation.balance ];
    destruct (decide (1 <> 0)); try lia; reflexivity.
Qed.

(** In the positive-to-negative direction the balancing loop cannot get
    past its first target: the balancer is handed the label 1. *)
Lemma modify_targets_positive_to_negative (targets : list nat)
    (data : list Scene) (labels : list bool) (r r' : R) (b : batch) :
  modify_targets rel balance_fuel false targets data labels r = (Ret b, r') ->
  targets = [].
Proof.
  destruct targets as [|i targets]; [reflexivity|].
  cbn [modify_targets]. intros Hr.
  apply bind_ret_inv in Hr as (scene & r1 & Hs & Hr).
  apply or_raise_ret in Hs as [Hs ->].
  apply bind_ret_inv in Hr as (scene' & r2 & Hb & _).
  unfold call_balance in Hb. cbn [negb] in Hb.
  rewrite balance_checks_label in Hb. discriminate.
Qed.

(** With [negative_to_positive=False] the directed generator returns only
    what sampling and resampling gave it: a batch it returns carries the
    labels [evaluate] gives its scenes and, for a batch size other than
    1, exactly [batch_size / 2] positive ones; whenever a scene would
    have to be balanced, the call raises. *)
Theorem smart_batch_positive_to_negative (batch_size : nat)
    (recursion_depth : Z) (r r' : R) (data : list Scene)
    (labels : list bool) :
  SmartBalancedBatch_call sample_scene rel default_batch_size
    balance_fuel false max_recursion_depth (Some batch_size)
    recursion_depth r = (Ret (data, labels), r') ->
  labels = map (evaluate rel) data
  /\ (batch_size <> 1%nat ->
      positive_count labels = (batch_size / 2)%nat).
Proof.
  unfold SmartBalancedBatch_call. intros Hr.
  apply bind_ret_inv in Hr as ([[d l] rounds] & r1 & Hr & Hret).
  apply ret_inv in Hret as [Heq _]. cbn [fst] in Heq.
  inversion Heq; subst d l. clear Heq.
  unfold SmartBalancedBatch_call_rounds in Hr.
  change (default default_batch_size (Some batch_size)) with batch_size in Hr.
  cbv zeta in Hr.
  destruct (decide (batch_size = 1%nat)).
  { apply bind_ret_inv in Hr as ([d l] & r2 & Hcall & Hret).
    apply (ObjectGenerator_call_ret _ _ _ (fun _ => True)) in Hcall
      as (_ & _ & _ & ->); [|auto].
    apply ret_inv in Hret as [Heq _]. inversion Heq; subst.
    split; [reflexivity|contradiction]. }
  destruct (decide (max_recursion_depth < recursion_depth));
    [discriminate|].
  apply bind_ret_inv in Hr as ([d0 l0] & r2 & Hcall & Hr).
  apply (ObjectGenerator_call_ret _ _ _ (fun _ => True)) in Hcall
    as (_ & _ & HP0 & ->); [|auto].
  cbn [fst snd] in Hr.
  destruct (decide _) as [Heq|Hneq] in Hr.
  { apply ret_inv in Hr as [Heq' _]. inversion Heq'; subst.
    split; [reflexivity|intros _; exact Heq]. }
  apply bind_ret_inv in Hr as (ex & r3 & Hloop & Hr).
  apply (resample_rounds_truthful _ _ _ _ false (fun _ => True)) in Hloop;
    [|auto|reflexivity|exact HP0|reflexivity].
  destruct ex as [d l k|d l pc' k].
  { destruct Hloop as (Hl & _ & Hhalf).
    apply ret_inv in Hr as [Heq' _]. inversion Heq'; subst.
    split; [reflexivity|intros _; exact Hhalf]. }
  exfalso. destruct Hloop as (Hl & _ & Hpc & Hmore).
  assert (Hgt : (batch_size / 2 < pc')%nat).
  { destruct (decide (batch_size / 2 < pc')%nat) as [Hlt|Hge];
      [exact Hlt|].
    destruct Hmore. apply bool_decide_eq_false. exact Hge. }
  apply bind_ret_inv in Hr as (m & r4 & Hm & Hr).
  apply bind_ret_inv in Hr as (perm & r5 & Hperm & Hr).
  apply on_gen_ret in Hperm.
  apply bind_ret_inv in Hr as (targets & r6 & Ht & Hr).
  apply bind_ret_inv in Hr as (b & r7 & Hmod & _).
  apply modify_targets_positive_to_negative in Hmod. subst targets.
  destruct (nonzero_squeeze _) as [i0|idxs] eqn:Hsq; [discriminate Ht|].
  apply ret_inv in Hm as [<- <-].
  apply index_select_ret in Ht as [_ Ht].
  apply Forall2_length in Ht. cbn [length] in Ht.
  rewrite length_take in Ht.
  pose proof (randperm_perm (length idxs) r3) as Hpp.
  rewrite <- Hperm in Hpp. apply Permutation_length in Hpp.
  rewrite length_seq in Hpp.
  apply nonzero_squeeze_vector in Hsq.
  assert (Hlen : length idxs = pc').
  { rewrite Hsq. unfold nonzero. rewrite length_nonzero_from.
    cbn [negb]. rewrite Hpc. unfold positive_count.
    clear. induction l as [|b l IH]; [reflexivity|].
    cbn [map]. rewrite !filter_cons.
    destruct b.
    - rewrite bool_decide_eq_true_2 by reflexivity.
      destruct (decide (true = true)); [|contradiction].
      simpl. rewrite IH. reflexivity.
    - rewrite bool_decide_eq_false_2 by discriminate.
      destruct (decide (false = true)); [discriminate|]. exact IH. }
  lia.
Qed.
End PositiveToNegative.

Lemma balanced_batch_is_balanced_witness :
  exists data labels r',
    ObjectGen.BalancedBatch_call alternating line20 1 5 (Some 4%nat) 0%nat
    = (Ret (data, labels), r')
    /\ length data = 4%nat
    /\ labels = map (evaluate line20) data
    /\ positive_count labels = (4 / 2)%nat.
Proof.
  eexists. eexists. eexists. split; [vm_compute; reflexivity|].
  eapply (balanced_batch_is_balanced (H0 := counter_source_laws)
            alternating line20 1 5 4 0%nat).
  - exists 2%nat. reflexivity.
  - vm_compute. reflexivity.
Defined.

(** The object-count balancer returns positive scenes only (the two
    halves of [balance] put together). *)
Lemma object_count_balance_positive {R : Type} `{RandomSourceLaws R}
    (c : ObjectCountRelation.config) (L : nat) (objs objs' : list (list Z))
    (r : R) (st' : list (list Z) * R) :
  count_layout_ok c L -> rows L objs ->
  ObjectCountRelation.balance c 0 (objs, r) = (Ret objs', st') ->
  ObjectCountRelation.evaluate c objs' = true.
Proof.
  intros Hlay Hrows Hr. unfold ObjectCountRelation.balance in Hr.
  destruct (decide (0 <> 0)) as [Hne|_]; [contradiction|].
  apply bind_ret_inv in Hr as (objs0 & s0 & Ho & Hr).
  apply objects_ret in Ho as [-> ->]. simpl fst in Hr. cbv zeta in Hr.
  apply bind_ret_inv in Hr as (min1 & s1 & Hd & Hr).
  apply (demote_seconds_ret c L objs r min1 s1 Hlay Hrows) in Hd
    as (Hrows1 & Hlen1 & I1 & I2).
  rewrite <- Hlen1 in I2.
  exact (proj1 (promote_firsts_ret c L objs min1 s1 st' objs' Hlay Hrows1
                  I1 I2 Hr)).
Qed.

(** A field generator that keeps drawing three squares. *)
Definition squares_only (r : nat) : Scene * nat := (all_squares, S r).

Lemma smart_batch_labels_truthful_witness :
  exists data labels r',
    ObjectGen.SmartBalancedBatch_call squares_only shapes3 1 0 true 20
      (Some 2%nat) 0 0%nat = (Ret (data, labels), r')
    /\ labels = map (evaluate shapes3) data.
Proof.
  eexists. eexists. eexists. split; [vm_compute; reflexivity|].
  eapply (smart_batch_labels_truthful (H0 := counter_source_laws)
            squares_only shapes3 1 0 20 (rows 5) 2 0 0%nat).
  - intros r0. repeat constructor.
  - intros scene r0 scene' st' Hrows Hb.
    eapply (object_count_balance_positive (H0 := counter_source_laws)
              shapes3 5); [|exact Hrows|exact Hb].
    unfold count_layout_ok. simpl. repeat split; try lia.
    left. repeat split. lia.
  - vm_compute. reflexivity.
Defined.

Lemma smart_batch_positive_to_negative_witness :
  exists data labels r',
    ObjectGen.SmartBalancedBatch_call alternating (OneDAdjacent line20) 1 0
      false 20 (Some 2%nat) 0 0%nat = (Ret (data, labels), r')
    /\ labels = map (evaluate (OneDAdjacent line20)) data
    /\ (2%nat <> 1%nat -> positive_count labels = (2 / 2)%nat).
Proof.
  eexists. eexists. eexists. split; [vm_compute; reflexivity|].
  eapply (smart_batch_positive_to_negative (H0 := counter_source_laws)
            alternating (OneDAdjacent line20) 1 0 20 2 0 0%nat).
  vm_compute. reflexivity.
Defined.


(** ** The builders' location lists *)

Lemma elem_of_grid (a b c d x y : Z) :
  (x, y) ∈ grid a b c d <-> a <= x < b /\ c <= y < d.
Proof.
  unfold grid, py_range. rewrite list_elem_of_In, in_prod_iff.
  rewrite <- !list_elem_of_In, !elem_of_seqZ. lia.
Qed.

Lemma length_grid (a b c d : Z) :
  length (grid a b c d) = (Z.to_nat (b - a) * Z.to_nat (d - c))%nat.
Proof. unfold grid, py_range. rewrite length_prod, !length_seqZ. reflexivity. Qed.

Lemma length_py_slices {A} (l : list A) (m : Z) :
  (0 <= m <= Z.of_nat (length l) ->
   Z.of_nat (length (py_slice_to l m)) = m
   /\ Z.of_nat (length (py_slice_from l m)) = Z.of_nat (length l) - m)
  /\ (- Z.of_nat (length l) <= m < 0 ->
      Z.of_nat (length (py_slice_to l m)) = Z.of_nat (length l) + m
      /\ Z.of_nat (length (py_slice_from l m)) = - m).
Proof.
  unfold py_slice_to, py_slice_from, py_cut.
  rewrite length_take, length_drop.
  destruct (decide (m < 0)); split; intros Hm; lia.
Qed.

Section LocationLists.
Import QuinnObjects.
Context {G : Type} `{NumpyGeneratorLaws G}.

Lemma split_train_test_ret {A} (items train test : list A)
    (prop_train : option Q) (m : Z) (g g' : G) :
  _split_train_test items prop_train (Some m) g = (Ret (train, test), g') ->
  exists shuffled, Permutation shuffled items
    /\ train = py_slice_to shuffled m /\ test = py_slice_from shuffled m.
Proof.
  unfold _split_train_test, bind, on_np, ret, id.
  pose proof (np_shuffle_perm A items g) as Hperm.
  destruct prop_train as [p|]; cbv beta;
    destruct (np_shuffle items g) as [shuffled g1]; simpl in Hperm;
    intros Hrun; inversion Hrun; subst; exists shuffled; auto.
Qed.

Lemma reference_candidates_spec (og : ObjectGenerator)
    (x_max_ y_max_ x_margin ymb ymt : Z) (x y : Z) :
  (x, y) ∈ possible_reference_object_locations og x_max_ y_max_
             x_margin ymb ymt
  <-> x_margin <= x < x_max_ - x_margin - reference_object_length og
      /\ ymb <= y < y_max_ - ymt.
Proof. unfold possible_reference_object_locations. apply elem_of_grid. Qed.

Lemma at_least_ge (least : Z) (m : option Z) :
  least <= at_least least m /\ (forall v, m = Some v -> v <= at_least least m).
Proof.
  unfold at_least. destruct m as [v|]; [|split; [lia|discriminate]].
  destruct (decide (v < least)); split; try lia;
    intros v' Hv; inversion Hv; lia.
Qed.

(** Every reference-object location a constructor keeps, for training or
    for testing, respects the margins: the whole reference object lies
    between the x margins, and above and below it there is room for the
    target grid; with two reference objects, for the second one and the
    grid above it as well. *)
Theorem reference_locations_keep_margins (og : ObjectGenerator)
    (x_max_ y_max_ seed_ : Z) (ant ane : bool) (prop : option Q)
    (x_margin : option Z) (sp : spatial_mode) (pv : option Q) :
  (forall ymb ymt b x y,
      QuinnDatasetGenerator_init og x_max_ y_max_ seed_ ant ane prop
        x_margin ymb ymt sp pv = Ret b ->
      (x, y) ∈ train_reference_object_locations b
      \/ (x, y) ∈ test_reference_object_locations b ->
      default 0 x_margin <= x
      /\ x + reference_object_length og + default 0 x_margin < x_max_ + 1
      /\ ymb <= y < y_max_ - ymt)
  /\ (forall grid_size left n_train ymb ymt b x y,
        AboveBelowReferenceInductiveBias_init og x_max_ y_max_ seed_
          grid_size ant left n_train prop x_margin ymb ymt ane sp pv
        = Ret b ->
        (x, y) ∈ train_reference_object_locations (rib_base b)
        \/ (x, y) ∈ test_reference_object_locations (rib_base b) ->
        default 0 x_margin <= x
        /\ x + reference_object_length og + default 0 x_margin < x_max_ + 1
        /\ grid_size <= y /\ y + grid_size < y_max_)
  /\ (forall grid_size left n_train ymb ymt b x y,
        BetweenReferenceInductiveBias_init og x_max_ y_max_ seed_
          grid_size ant left n_train prop x_margin ymb ymt ane sp pv
        = Ret b ->
        (x, y) ∈ train_reference_object_locations (rib_base b)
        \/ (x, y) ∈ test_reference_object_locations (rib_base b) ->
        default 0 x_margin <= x
        /\ x + reference_object_length og + default 0 x_margin < x_max_ + 1
        /\ grid_size <= y /\ y + (grid_size + 1) + grid_size < y_max_).
Proof.
  split; [|split].
  - intros ymb ymt b x y Hb Hin.
    apply base_init_partitions in Hb as [_ Hcover].
    apply Hcover, reference_candidates_spec in Hin. lia.
  - intros g left n_train ymb ymt b x y Hb Hin.
    apply rib_init_partitions in Hb as [[_ Hcover] _].
    apply Hcover, reference_candidates_spec in Hin.
    pose proof (at_least_ge g ymb) as [Hb1 _].
    pose proof (at_least_ge g ymt) as [Ht1 _]. lia.
  - intros g left n_train ymb ymt b x y Hb Hin.
    unfold BetweenReferenceInductiveBias_init in Hb.
    apply rib_init_partitions in Hb as [[_ Hcover] _].
    apply Hcover, reference_candidates_spec in Hin.
    pose proof (at_least_ge g ymb) as [Hb1 _].
    pose proof (at_least_ge g (Some (at_least (2 * g + 1) ymt))) as [_ Ht1].
    specialize (Ht1 _ eq_refl).
    pose proof (at_least_ge (2 * g + 1) ymt) as [Ht2 _]. lia.
Qed.

(** The target-object locations of the above/below and between
    paradigms: the [grid_size] x [grid_size] grid is shuffled and cut at
    [n_train_target_object_locations], by default
    [grid_size * (grid_size - 1)], which leaves [grid_size] locations for
    testing; a negative cut counts from the end, as a Python slice
    does. *)
Theorem target_locations_split (og : ObjectGenerator)
    (x_max_ y_max_ seed_ : Z) (grid_size : Z) (ant : bool) (left : option Z)
    (n_train : option Z) (prop : option Q) (x_margin : option Z)
    (ymb ymt : option Z) (ane : bool) (sp : spatial_mode) (pv : option Q)
    (b : ReferenceInductiveBias) (n : Z) :
  0 <= grid_size ->
  n = default (grid_size * (grid_size - 1)) n_train ->
  ReferenceInductiveBias_init og x_max_ y_max_ seed_ grid_size ant left
    n_train prop x_margin ymb ymt ane sp pv = Ret b ->
  partitions (train_target_object_locations b)
             (test_target_object_locations b)
             (grid 0 grid_size 1 (grid_size + 1))
  /\ (0 <= n <= grid_size * grid_size ->
      Z.of_nat (length (train_target_object_locations b)) = n
      /\ Z.of_nat (length (test_target_object_locations b))
         = grid_size * grid_size - n)
  /\ (- (grid_size * grid_size) <= n < 0 ->
      Z.of_nat (length (train_target_object_locations b))
      = grid_size * grid_size + n
      /\ Z.of_nat (length (test_target_object_locations b)) = - n).
Proof.
  intros Hg -> Hb.
  pose proof (rib_init_partitions _ _ _ _ _ _ _ _ _ _ _ _ _ _ _ _ Hb)
    as [_ Hpart].
  split; [exact Hpart|].
  unfold ReferenceInductiveBias_init in Hb.
  destruct (QuinnDatasetGenerator_init _ _ _ _ _ _ _ _ _ _ _ _)
    as [base|e|] eqn:Hbase; try discriminate.
  destruct (_split_train_test _ None _ (rng base))
    as [[[train test]|e|] g1] eqn:Hsplit; try discriminate.
  inversion Hb; subst b. cbn [train_target_object_locations
                               test_target_object_locations fst snd].
  apply split_train_test_ret in Hsplit as (shuffled & Hperm & -> & ->).
  assert (Hlen : Z.of_nat (length shuffled) = grid_size * grid_size).
  { rewrite (Permutation_length Hperm), length_grid. nia. }
  pose proof (length_py_slices shuffled
                (default (grid_size * (grid_size - 1)) n_train)) as [H1 H2].
  rewrite Hlen in H1, H2. split; assumption.
Qed.
End LocationLists.

(** ** Splitting a dataset *)

Lemma selected_zip {A B} (t : list A) (u : list B) (idx : list nat)
    (o : list A) (l : list B) :
  Forall2 (fun i y => t !! i = Some y) idx o ->
  Forall2 (fun i y => u !! i = Some y) idx l ->
  Forall2 (fun i y => zip t u !! i = Some y) idx (zip o l).
Proof.
  intros Ho. revert l. induction Ho as [|i y idx o Hy _ IH]; intros l Hl.
  - inversion Hl. constructor.
  - inversion Hl as [|i' b idx' l' Hb Hl']; subst. cbn [zip zip_with].
    constructor; [|apply IH; exact Hl'].
    apply lookup_zip_with_Some. exists y, b. auto.
Qed.

Lemma selected_prefix {A} (t : list A) (n : nat) (out : list A) :
  Forall2 (fun i y => t !! i = Some y) (seq 0 n) out ->
  out = take n t /\ (n <= length t)%nat.
Proof.
  intros Hsel. pose proof (Forall2_length _ _ _ Hsel) as Hlen.
  rewrite length_seq in Hlen.
  assert (Hle : (n <= length t)%nat).
  { destruct n as [|n]; [lia|].
    destruct (lookup_lt_is_Some_2 out n) as [y Hy]; [lia|].
    pose proof (Forall2_lookup_r _ _ _ _ _ Hsel Hy) as (i & Hi & Hti).
    apply lookup_seq in Hi as [-> _]. simpl in Hti.
    apply lookup_lt_Some in Hti. lia. }
  split; [|exact Hle]. apply list_eq. intros i.
  rewrite lookup_take. destruct (decide (i < n)%nat) as [Hi|Hi].
  - destruct (lookup_lt_is_Some_2 out i) as [y Hy]; [lia|].
    pose proof (Forall2_lookup_r _ _ _ _ _ Hsel Hy) as (j & Hj & Htj).
    apply lookup_seq in Hj as [-> _]. simpl in Htj. congruence.
  - apply lookup_ge_None_2. lia.
Qed.

Section DatasetSplit.
Import QuinnObjects.
Context {G : Type} `{NumpyGeneratorLaws G}.
Local Abbreviation Builder := (@QuinnDatasetGenerator G).
Variable _create_training_dataset : M Builder Dataset.
Variable spatial_dataset_class
  : bool -> list Scene -> list Z -> Z -> Z -> outcome SpatialTensor.

(** The examples of a dataset: each scene with its label. *)
Definition examples (d : Dataset) : list (Scene * Z) :=
  zip (ds_objects d) (ds_labels d).

Lemma create_dataset_ret (objs : list Scene) (labels : list Z)
    (self self' : Builder) (d : Dataset) :
  _create_dataset spatial_dataset_class objs labels self = (Ret d, self') ->
  self' = self /\ ds_objects d = objs /\ ds_labels d = labels.
Proof.
  unfold _create_dataset, bind, get. cbn [fst snd].
  destruct (spatial_dataset self);
    [intros Hr; inversion Hr; subst; auto| |];
    (destruct (spatial_dataset_class _ objs labels _ _);
     intros Hr; inversion Hr; subst; auto).
Qed.

Lemma split_dataset_deals (dataset d1 d2 : Dataset)
    (prop_split : option Q) (split_index : option Z) (self self' : Builder) :
  _split_dataset spatial_dataset_class dataset prop_split split_index self
  = (Ret (d1, d2), self') ->
  Permutation (examples d1 ++ examples d2) (examples dataset)
  /\ length (ds_labels d1) = length (ds_objects d1)
  /\ length (ds_labels d2) = length (ds_objects d2)
  /\ (ds_len d1 + ds_len d2 = ds_len dataset)%nat.
Proof.
  unfold _split_dataset. intros Hr.
  assert (Hr' :
    exists m,
      (perm <- on_np rng set_rng (np_permutation (ds_len dataset));;
       o1 <- index_select (ds_objects dataset) (py_slice_to perm m);;
       l1 <- index_select (ds_labels dataset) (py_slice_to perm m);;
       d1 <- _create_dataset spatial_dataset_class o1 l1;;
       o2 <- index_select (ds_objects dataset) (py_slice_from perm m);;
       l2 <- index_select (ds_labels dataset) (py_slice_from perm m);;
       d2 <- _create_dataset spatial_dataset_class o2 l2;;
       ret (d1, d2)) self = (Ret (d1, d2), self')).
  { destruct prop_split as [p|], split_index as [i|];
      try discriminate; eexists; exact Hr. }
  clear Hr. destruct Hr' as (m & Hr).
  apply bind_ret_inv in Hr as (perm & s1 & Hperm & Hr).
  assert (Hpp : Permutation perm (seq 0 (ds_len dataset))).
  { unfold on_np in Hperm.
    pose proof (np_permutation_perm (ds_len dataset) (rng self)) as Hp.
    destruct (np_permutation (ds_len dataset) (rng self)) as [p g1].
    inversion Hperm; subst. exact Hp. }
  apply bind_ret_inv in Hr as (o1 & s2 & Ho1 & Hr).
  apply index_select_ret in Ho1 as [-> Ho1].
  apply bind_ret_inv in Hr as (l1 & s3 & Hl1 & Hr).
  apply index_select_ret in Hl1 as [-> Hl1].
  apply bind_ret_inv in Hr as (d1' & s4 & Hd1 & Hr).
  apply create_dataset_ret in Hd1 as (-> & Hd1o & Hd1l).
  apply bind_ret_inv in Hr as (o2 & s5 & Ho2 & Hr).
  apply index_select_ret in Ho2 as [-> Ho2].
  apply bind_ret_inv in Hr as (l2 & s6 & Hl2 & Hr).
  apply index_select_ret in Hl2 as [-> Hl2].
  apply bind_ret_inv in Hr as (d2' & s7 & Hd2 & Hr).
  apply create_dataset_ret in Hd2 as (-> & Hd2o & Hd2l).
  apply ret_inv in Hr as [Heq _]. inversion Heq; subst d1' d2'. clear Heq.
  pose proof (Forall2_length _ _ _ Ho1) as Hlo1.
  pose proof (Forall2_length _ _ _ Hl1) as Hll1.
  pose proof (Forall2_length _ _ _ Ho2) as Hlo2.
  pose proof (Forall2_length _ _ _ Hl2) as Hll2.
  unfold examples, ds_len. rewrite Hd1o, Hd1l, Hd2o, Hd2l.
  pose proof (Forall2_app (selected_zip _ _ _ _ _ Ho1 Hl1)
                (selected_zip _ _ _ _ _ Ho2 Hl2)) as Hsel.
  rewrite py_slices_app in Hsel.
  destruct (selected_Permutation _ _ _ _ Hpp Hsel) as (out' & Hout' & Hpo).
  apply selected_prefix in Hout' as [-> Hle].
  unfold ds_len in *. rewrite length_zip_with in Hle.
  rewrite take_ge in Hpo by (rewrite length_zip_with; lia).
  split; [exact Hpo|]. split; [lia|]. split; [lia|].
  rewrite <- Hlo1, <- Hlo2, <- length_app, py_slices_app.
  rewrite (Permutation_length Hpp). apply length_seq.
Qed.

(** [_split_dataset] deals the examples of a dataset into two datasets:
    no example is lost, none is duplicated, and each scene keeps its
    label. *)
Theorem split_dataset_partitions (dataset d1 d2 : Dataset)
    (prop_split : option Q) (split_index : option Z) (self self' : Builder) :
  _split_dataset spatial_dataset_class dataset prop_split split_index self
  = (Ret (d1, d2), self') ->
  Permutation (examples d1 ++ examples d2) (examples dataset)
  /\ length (ds_labels d1) = length (ds_objects d1)
  /\ length (ds_labels d2) = length (ds_objects d2)
  /\ (ds_len d1 + ds_len d2 = ds_len dataset)%nat.
Proof. apply split_dataset_deals. Qed.
(** The first call of [get_training_dataset] under a positive
    [prop_train_to_validation]: what [_create_training_dataset] made is
    dealt into the training set, which is returned and cached, and the
    validation set, which [get_validation_dataset] returns from then on;
    between them they hold every created example once. *)
Theorem training_split_off_validation (self self1 self' : Builder)
    (created t : Dataset) (p : Q) :
  train_dataset self = None ->
  _create_training_dataset self = (Ret created, self1) ->
  prop_train_to_validation self1 = Some p -> (0 < p)%Q ->
  get_training_dataset _create_training_dataset spatial_dataset_class self
  = (Ret t, self') ->
  exists v,
    train_dataset self' = Some t /\ validation_dataset self' = Some v
    /\ Permutation (examples t ++ examples v) (examples created)
    /\ get_validation_dataset _create_training_dataset spatial_dataset_class
         self' = (Ret (Some v), self').
Proof.
  intros Hnone Hc Hp Hpos. unfold get_training_dataset.
  unfold bind at 1. unfold get at 1. rewrite Hnone.
  unfold bind at 1. rewrite Hc.
  unfold bind at 1. unfold modify at 1.
  unfold bind at 1. unfold get at 1.
  replace (prop_train_to_validation (set_train_dataset (Some created) self1))
    with (Some p) by (symmetry; exact Hp).
  destruct (Qlt_le_dec 0 p) as [_|Hle];
    [|exfalso; exact (Qlt_not_le _ _ Hpos Hle)].
  intros Hr.
  apply bind_ret_inv in Hr as ([t' v] & s1 & Hsplit & Hr).
  apply split_dataset_deals in Hsplit as (Hperm & _).
  cbn [fst snd] in Hr. unfold bind, modify, ret in Hr.
  inversion Hr; subst t' self'. clear Hr.
  exists v. split; [reflexivity|]. split; [reflexivity|].
  split; [exact Hperm|]. reflexivity.
Qed.

(** Without a positive [prop_train_to_validation] there is no validation
    set: [get_validation_dataset] returns [None] and creates nothing, and
    [get_training_dataset] returns and caches the created dataset
    whole. *)
Theorem no_validation_without_proportion (self self1 : Builder)
    (created : Dataset) :
  train_dataset self = None -> validation_dataset self = None ->
  (prop_train_to_validation self = None
   \/ exists p, prop_train_to_validation self = Some p /\ (p <= 0)%Q) ->
  prop_train_to_validation self1 = prop_train_to_validation self ->
  _create_training_dataset self = (Ret created, self1) ->
  get_validation_dataset _create_training_dataset spatial_dataset_class self
  = (Ret None, self)
  /\ get_training_dataset _create_training_dataset spatial_dataset_class self
     = (Ret created, set_train_dataset (Some created) self1).
Proof.
  intros Hnone Hval Hp Hp1 Hc. split.
  - unfold get_validation_dataset.
    unfold bind at 1. unfold get at 1. rewrite Hval.
    destruct Hp as [Hp | (p & Hp & Hle)]; rewrite Hp.
    + unfold bind, ret, get. rewrite Hval. reflexivity.
    + destruct (Qlt_le_dec 0 p) as [Hlt|_];
        [exfalso; exact (Qlt_not_le _ _ Hlt Hle)|].
      unfold bind, ret, get. rewrite Hval. reflexivity.
  - unfold get_training_dataset.
    unfold bind at 1. unfold get at 1. rewrite Hnone.
    unfold bind at 1. rewrite Hc.
    unfold bind at 1. unfold modify at 1.
    unfold bind at 1. unfold get at 1.
    replace (prop_train_to_validation
               (set_train_dataset (Some created) self1))
      with (prop_train_to_validation self) by (symmetry; exact Hp1).
    destruct Hp as [Hp | (p & Hp & Hle)]; rewrite Hp; [reflexivity|].
    destruct (Qlt_le_dec 0 p) as [Hlt|_];
      [exfalso; exact (Qlt_not_le _ _ Hlt Hle)|]. reflexivity.
Qed.
End DatasetSplit.

Lemma reference_locations_keep_margins_witness :
  exists b,
    QuinnObjects.BetweenReferenceInductiveBias_init (G := nat)
      long_reference 20 20 33 3 true None None (Some (4 # 5)%Q) (Some 1)
      None None false QuinnObjects.NotSpatial (Some (1 # 10)%Q) = Ret b
    /\ forall x y,
         (x, y) ∈ QuinnObjects.train_reference_object_locations
                    (QuinnObjects.rib_base b)
         \/ (x, y) ∈ QuinnObjects.test_reference_object_locations
                       (QuinnObjects.rib_base b) ->
         default 0 (Some 1) <= x
         /\ x + QuinnObjects.reference_object_length long_reference
              + default 0 (Some 1) < 20 + 1
         /\ 3 <= y /\ y + (3 + 1) + 3 < 20.
Proof.
  eexists. split; [vm_compute; reflexivity|]. intros x y.
  apply (proj2 (proj2 (reference_locations_keep_margins
                         (H0 := reversing_generator_laws) long_reference
                         20 20 33 true false (Some (4 # 5)%Q) (Some 1)
                         QuinnObjects.NotSpatial (Some (1 # 10)%Q)))
           3 None None None None).
  vm_compute. reflexivity.
Defined.

Lemma target_locations_split_witness :
  exists b,
    QuinnObjects.ReferenceInductiveBias_init (G := nat)
      long_reference 20 20 33 3 true None None (Some (4 # 5)%Q) (Some 0)
      None None false QuinnObjects.NotSpatial (Some (1 # 10)%Q) = Ret b
    /\ partitions (QuinnObjects.train_target_object_locations b)
                  (QuinnObjects.test_target_object_locations b)
                  (grid 0 3 1 (3 + 1))
    /\ (0 <= 6 <= 3 * 3 ->
        Z.of_nat (length (QuinnObjects.train_target_object_locations b)) = 6
        /\ Z.of_nat (length (QuinnObjects.test_target_object_locations b))
           = 3 * 3 - 6)
    /\ (- (3 * 3) <= 6 < 0 ->
        Z.of_nat (length (QuinnObjects.train_target_object_locations b))
        = 3 * 3 + 6
        /\ Z.of_nat (length (QuinnObjects.test_target_object_locations b))
           = - 6).
Proof.
  eexists. split; [vm_compute; reflexivity|].
  eapply (target_locations_split (H0 := reversing_generator_laws)
            long_reference 20 20 33 3 true None None (Some (4 # 5)%Q)
            (Some 0) None None false QuinnObjects.NotSpatial
            (Some (1 # 10)%Q) _ 6).
  - lia.
  - reflexivity.
  - vm_compute. reflexivity.
Defined.

Lemma split_dataset_partitions_witness :
  exists d1 d2 self',
    QuinnObjects._split_dataset no_spatial_class four_scenes
      (Some (1 # 2)%Q) None fresh_builder = (Ret (d1, d2), self')
    /\ Permutation (examples d1 ++ examples d2) (examples four_scenes)
    /\ length (QuinnObjects.ds_labels d1)
       = length (QuinnObjects.ds_objects d1)
    /\ length (QuinnObjects.ds_labels d2)
       = length (QuinnObjects.ds_objects d2)
    /\ (QuinnObjects.ds_len d1 + QuinnObjects.ds_len d2
        = QuinnObjects.ds_len four_scenes)%nat.
Proof.
  eexists. eexists. eexists. split; [vm_compute; reflexivity|].
  eapply (split_dataset_partitions (H0 := reversing_generator_laws)
            no_spatial_class four_scenes _ _ (Some (1 # 2)%Q) None
            fresh_builder).
  vm_compute. reflexivity.
Defined.

Lemma training_split_off_validation_witness :
  exists t self' v,
    QuinnObjects.get_training_dataset create_four_scenes no_spatial_class
      fresh_builder = (Ret t, self')
    /\ QuinnObjects.train_dataset self' = Some t
    /\ QuinnObjects.validation_dataset self' = Some v
    /\ Permutation (examples t ++ examples v) (examples four_scenes)
    /\ QuinnObjects.get_validation_dataset create_four_scenes
         no_spatial_class self' = (Ret (Some v), self').
Proof.
  eexists. eexists.
  assert (Hrun : QuinnObjects.get_training_dataset create_four_scenes
                   no_spatial_class fresh_builder
                 = (Ret _, _)) by (vm_compute; reflexivity).
  destruct (training_split_off_validation (H0 := reversing_generator_laws)
              create_four_scenes no_spatial_class fresh_builder _ _
              four_scenes _ (1 # 2)%Q eq_refl eq_refl eq_refl eq_refl Hrun)
    as (v & H1 & H2 & H3 & H4).
  exists v. split; [exact Hrun|]. auto.
Defined.

(** The builder [fresh_builder] without a validation proportion. *)
Definition builder_without_validation
    : @QuinnObjects.QuinnDatasetGenerator nat :=
  {| QuinnObjects.object_generator := long_reference;
     QuinnObjects.x_max := 20;
     QuinnObjects.y_max := 20;
     QuinnObjects.seed := 33;
     QuinnObjects.rng := 0%nat;
     QuinnObjects.add_neither_train := false;
     QuinnObjects.add_neither_test := false;
     QuinnObjects.prop_train_reference_object_locations := Some (4 # 5)%Q;
     QuinnObjects.reference_object_x_margin := 0;
     QuinnObjects.reference_object_y_margin_bottom := 3;
     QuinnObjects.reference_object_y_margin_top := 3;
     QuinnObjects.train_reference_object_locations := [(0, 3)];
     QuinnObjects.test_reference_object_locations := [(1, 3)];
     QuinnObjects.spatial_dataset := QuinnObjects.NotSpatial;
     QuinnObjects.prop_train_to_validation := None;
     QuinnObjects.train_dataset := None;
     QuinnObjects.validation_dataset := None;
     QuinnObjects.test_datasets := None |}.

Lemma no_validation_without_proportion_witness :
  QuinnObjects.get_validation_dataset create_four_scenes no_spatial_class
    builder_without_validation = (Ret None, builder_without_validation)
  /\ QuinnObjects.get_training_dataset create_four_scenes no_spatial_class
       builder_without_validation
     = (Ret four_scenes,
        QuinnObjects.set_train_dataset (Some four_scenes)
          (QuinnObjects.set_rng 1%nat builder_without_validation)).
Proof.
  apply (no_validation_without_proportion create_four_scenes
           no_spatial_class builder_without_validation);
    try reflexivity.
  left. reflexivity.
Defined.

(** ** The object generators of [quinn_objects.py] *)

Lemma counting_sampler_laws : NumpySamplerLaws nat.
Proof.
  split; simpl; intros.
  - lia.
  - split; [apply length_replicate|].
    destruct a as [|x a].
    + destruct H as [Ha | ->]; [contradiction|]. constructor.
    + apply Forall_replicate. simpl. left.
  - unfold Qle, Qlt; simpl; lia.
Qed.

Section ObjectGenerators.
Import QuinnObjects QuinnDatasets.
Context {G : Type} `{NumpySamplerLaws G}.

Lemma integers_ret (low high z : Z) (g g' : G) :
  integers low high g = (Ret z, g') -> low <= z < high.
Proof.
  unfold integers. destruct (decide (low < high)) as [Hlt|]; [|discriminate].
  pose proof (np_integers_range low high g Hlt) as Hr.
  destruct (np_integers low high g) as [z' g1]. simpl in Hr.
  intros Heq. inversion Heq; subst. exact Hr.
Qed.

(** The type counts of a generator: at least one reference type and one
    train target type, and no negative number of test target types. *)
Definition valid_types (og : ObjectGeneratorConfig) : Prop :=
  1 <= n_reference_types og /\ 1 <= n_train_target_types og
  /\ 0 <= n_test_target_types og.

(** The types [_sample_type] may return for an object: a reference
    type, a train target type, or (for a test target when there are
    test-only types) a test target type. *)
Definition type_range (og : ObjectGeneratorConfig) (target train : bool)
    (z : Z) : Prop :=
  if negb target then 0 <= z < n_reference_types og
  else if train || bool_decide (n_test_target_types og = 0)
  then n_reference_types og <= z
       < n_reference_types og + n_train_target_types og
  else n_reference_types og + n_train_target_types og <= z < n_types og.

Lemma sample_type_ret (og : ObjectGeneratorConfig) (target train : bool)
    (z : Z) (g g' : G) :
  valid_types og ->
  _sample_type og target train g = (Ret z, g') ->
  type_range og target train z.
Proof.
  intros (Hr & Ht & Hs). unfold _sample_type, type_range, n_types.
  destruct (negb target).
  { destruct (decide _); intros Hz.
    - apply ret_inv in Hz as [<- _]. lia.
    - apply integers_ret in Hz. exact Hz. }
  destruct (train || bool_decide (n_test_target_types og = 0)).
  { destruct (decide _); intros Hz.
    - apply ret_inv in Hz as [<- _]. lia.
    - apply integers_ret in Hz. exact Hz. }
  destruct (decide _); intros Hz.
  - apply ret_inv in Hz as [<- _]. lia.
  - apply integers_ret in Hz. exact Hz.
Qed.

(** [_sample_type] keeps the three kinds of object type apart: reference
    objects get a type below [n_reference_types], train targets one of
    the next [n_train_target_types], and test targets, when there are
    test-only types, one of the last [n_test_target_types]; every type
    is below [n_types]. *)
Theorem sample_type_ranges (og : ObjectGeneratorConfig)
    (target train : bool) (z : Z) (g g' : G) :
  valid_types og ->
  _sample_type og target train g = (Ret z, g') ->
  type_range og target train z /\ 0 <= z < n_types og.
Proof.
  intros Hv Hz. pose proof (sample_type_ret og target train z g g' Hv Hz) as Hr.
  split; [exact Hr|]. destruct Hv as (H1 & H2 & H3).
  unfold type_range, n_types in *.
  destruct (negb target); [lia|].
  destruct (train || bool_decide (n_test_target_types og = 0)); lia.
Qed.

(** The rows of an object with type vector [object_type]. *)
Definition rows_at (og : ObjectGeneratorConfig) (length_ x y : Z)
    (object_type : list Z) : Scene :=
  if with_size og then [[x; y; length_] ++ object_type]
  else concat (map (fun j => [[x + j; y] ++ object_type])
                   (py_range 0 length_)).

Lemma to_one_hot_ret {S} (n n_types_ : Z) (v : list Z) (s s' : S) :
  _to_one_hot n n_types_ s = (Ret v, s') ->
  s' = s /\ length v = Z.to_nat n_types_
  /\ (0 <= n < n_types_ -> v = one_hot (Z.to_nat n_types_) (Z.to_nat n)).
Proof.
  unfold _to_one_hot. destruct (decide (n_types_ < 0)); [discriminate|].
  destruct (decide (0 <= n < n_types_)).
  { intros Hr. apply ret_inv in Hr as [<- <-].
    split; [reflexivity|]. split; [apply length_one_hot|reflexivity]. }
  destruct (decide (- n_types_ <= n < 0)); [|discriminate].
  intros Hr. apply ret_inv in Hr as [<- <-].
  split; [reflexivity|]. split; [apply length_one_hot|]. lia.
Qed.

Lemma object_rows_ret (og : ObjectGeneratorConfig) (target train : bool)
    (length_ x y : Z) (rows_ : Scene) (g g' : G) :
  object_rows og target train length_ x y g = (Ret rows_, g') ->
  exists z v,
    _sample_type og target train g = (Ret z, g')
    /\ length v = Z.to_nat (n_types og)
    /\ (0 <= z < n_types og
        -> v = one_hot (Z.to_nat (n_types og)) (Z.to_nat z))
    /\ rows_ = rows_at og length_ x y v
    /\ (with_size og = false -> 0 < length_).
Proof.
  unfold object_rows, rows_at, _sample_type_one_hot.
  destruct (with_size og); intros Hr.
  - apply bind_ret_inv in Hr as (v & g1 & Hv & Hr).
    apply bind_ret_inv in Hv as (z & g2 & Hz & Hv).
    apply to_one_hot_ret in Hv as (-> & Hlen & Hv).
    apply ret_inv in Hr as [<- <-].
    exists z, v. split; [exact Hz|]. split; [exact Hlen|].
    split; [exact Hv|]. split; [reflexivity|]. intros Hf. discriminate Hf.
  - apply bind_ret_inv in Hr as (v & g1 & Hv & Hr).
    apply bind_ret_inv in Hv as (z & g2 & Hz & Hv).
    apply to_one_hot_ret in Hv as (-> & Hlen & Hv).
    unfold cat_list in Hr.
    destruct (map _ (py_range 0 length_)) as [|r rs] eqn:Hmap;
      [discriminate|].
    apply ret_inv in Hr as [<- <-].
    exists z, v. split; [exact Hz|]. split; [exact Hlen|].
    split; [exact Hv|]. split; [rewrite <- Hmap; reflexivity|]. intros _.
    destruct (decide (0 < length_)) as [|Hle]; [assumption|].
    unfold py_range in Hmap. rewrite Z.sub_0_r in Hmap.
    assert (Hnil : seqZ 0 length_ = []).
    { apply length_zero_iff_nil. rewrite length_seqZ. lia. }
    rewrite Hnil in Hmap. discriminate.
Qed.

(** A scene that shows a target object at [target] and reference objects
    at [references]: the rows of the target, then those of each
    reference object, each object with a type vector of its own. *)
Definition shows (og : ObjectGeneratorConfig) (scene : Scene)
    (target : location) (references : list location) : Prop :=
  exists tv rvs,
    length rvs = length references
    /\ scene
       = rows_at og (target_object_length (og_lengths og))
           (fst target) (snd target) tv
         ++ concat (zip_with
                      (fun r v =>
                         rows_at og (reference_object_length (og_lengths og))
                           (fst r) (snd r) v)
                      references rvs).

Lemma for_list_references (og : ObjectGeneratorConfig)
    (references : list location) (train : bool) (rs : list Scene)
    (g g' : G) :
  for_list references (fun reference =>
    reference_object og (fst reference) (snd reference) train) g
  = (Ret rs, g') ->
  exists rvs, length rvs = length references
    /\ Forall (fun v => length v = Z.to_nat (n_types og)) rvs
    /\ rs = zip_with (fun r v =>
                        rows_at og (reference_object_length (og_lengths og))
                          (fst r) (snd r) v)
                     references rvs
    /\ (valid_types og ->
        Forall (fun v => exists z, 0 <= z < n_reference_types og
                  /\ v = one_hot (Z.to_nat (n_types og)) (Z.to_nat z)) rvs).
Proof.
  revert rs g g'. induction references as [|r references IH];
    intros rs g g' Hr.
  - apply ret_inv in Hr as [<- _]. exists []. repeat split; constructor.
  - cbn [for_list] in Hr.
    apply bind_ret_inv in Hr as (y & g1 & Hy & Hr).
    apply bind_ret_inv in Hr as (ys & g2 & Hys & Hr).
    apply ret_inv in Hr as [<- _].
    apply IH in Hys as (rvs & Hlen & Hlens & -> & Hty).
    unfold reference_object in Hy.
    apply object_rows_ret in Hy as (z & v & Hz & Hlv & Hv & -> & _).
    exists (v :: rvs). split; [simpl; lia|].
    split; [constructor; assumption|]. split; [reflexivity|].
    intros Hvalid. constructor; [|apply Hty; exact Hvalid].
    destruct (sample_type_ret og false train z _ _ Hvalid Hz) as [Hz0 Hz1].
    exists z. split; [lia|]. apply Hv.
    destruct Hvalid as (H1' & H2' & H3'). unfold n_types. lia.
Qed.

Lemma create_input_ret (og : ObjectGeneratorConfig) (target : location)
    (references : list location) (train : bool) (scene : Scene) (g g' : G) :
  create_input og target references train g = (Ret scene, g') ->
  shows og scene target references.
Proof.
  unfold create_input. intros Hr.
  apply bind_ret_inv in Hr as (t & g1 & Ht & Hr).
  apply bind_ret_inv in Hr as (rs & g2 & Hrs & Hr).
  apply ret_inv in Hr as [<- _].
  unfold target_object in Ht.
  apply object_rows_ret in Ht as (z & v & _ & _ & _ & -> & _).
  apply for_list_references in Hrs as (rvs & Hlen & _ & -> & _).
  exists v, rvs. split; [exact Hlen|reflexivity].
Qed.

(** [create_input] returns the rows of the target object followed by
    those of each reference object; the target's rows carry the one-hot
    vector of a target type and the rows of a reference object that of a
    reference type, so no target is of a reference object's type. *)
Theorem create_input_layout (og : ObjectGeneratorConfig) (target : location)
    (references : list location) (train : bool) (scene : Scene) (g g' : G) :
  valid_types og ->
  create_input og target references train g = (Ret scene, g') ->
  exists tz rzs,
    length rzs = length references
    /\ type_range og true train tz
    /\ Forall (fun z => 0 <= z < n_reference_types og) rzs
    /\ scene
       = rows_at og (target_object_length (og_lengths og))
           (fst target) (snd target)
           (one_hot (Z.to_nat (n_types og)) (Z.to_nat tz))
         ++ concat (zip_with
                      (fun r z =>
                         rows_at og (reference_object_length (og_lengths og))
                           (fst r) (snd r)
                           (one_hot (Z.to_nat (n_types og)) (Z.to_nat z)))
                      references rzs).
Proof.
  intros Hvalid. unfold create_input. intros Hr.
  apply bind_ret_inv in Hr as (t & g1 & Ht & Hr).
  apply bind_ret_inv in Hr as (rs & g2 & Hrs & Hr).
  apply ret_inv in Hr as [<- _].
  unfold target_object in Ht.
  apply object_rows_ret in Ht as (z & v & Hz & _ & Hv & -> & _).
  pose proof (sample_type_ret og true train z _ _ Hvalid Hz) as Hrange.
  assert (Hz0 : 0 <= z < n_types og).
  { destruct Hvalid as (H1' & H2' & H3').
    unfold type_range, n_types in *. cbn [negb] in Hrange.
    destruct (train || bool_decide (n_test_target_types og = 0)); lia. }
  rewrite (Hv Hz0).
  apply for_list_references in Hrs as (rvs & Hlen & _ & -> & Hty).
  specialize (Hty Hvalid).
  assert (Hzs : exists rzs, length rzs = length rvs
            /\ Forall (fun z => 0 <= z < n_reference_types og) rzs
            /\ rvs = map (fun z => one_hot (Z.to_nat (n_types og))
                                           (Z.to_nat z)) rzs).
  { clear - Hty. induction Hty as [|v' rvs (z' & Hz' & ->) _ IH].
    - exists []. repeat split; constructor.
    - destruct IH as (rzs & Hl & Hr & ->).
      exists (z' :: rzs). split; [simpl; lia|].
      split; [constructor; assumption|reflexivity]. }
  destruct Hzs as (rzs & Hl & Hr & ->).
  exists z, rzs. split; [lia|]. split; [exact Hrange|].
  split; [exact Hr|]. cbn [concat]. f_equal. f_equal.
  clear. revert rzs. induction references as [|r refs IH]; intros rzs;
    [reflexivity|].
  destruct rzs as [|z0 rzs]; [reflexivity|].
  cbn [map zip_with]. rewrite IH. reflexivity.
Qed.
End ObjectGenerators.

(** ** The datasets of the paradigms *)

Lemma for_each_inv {S A} (Inv : S -> Prop) (l : list A)
    (body : A -> M S unit) (st st' : S) (u : unit) :
  (forall x s s' u', x ∈ l -> Inv s -> body x s = (Ret u', s') -> Inv s') ->
  Inv st -> for_each l body st = (Ret u, st') -> Inv st'.
Proof.
  revert st. induction l as [|x l IH]; intros st Hbody Hinv Hr.
  - apply ret_inv in Hr as [_ <-]. exact Hinv.
  - cbn [for_each] in Hr.
    apply bind_ret_inv in Hr as (u1 & s1 & Hx & Hr).
    apply (IH s1); [|eapply Hbody; [left|exact Hinv|exact Hx]|exact Hr].
    intros y s s' u' Hy. apply Hbody. right. exact Hy.
Qed.

Section DatasetCreation.
Import QuinnObjects QuinnDatasets.
Context {G : Type} `{NumpyGenerator G} `{!NumpySampler G}
  `{!NumpySamplerLaws G}.
Local Abbreviation Builder := (@QuinnDatasetGenerator G).
Local Abbreviation building := (@building G).
Variable spatial_dataset_class
  : bool -> list Scene -> list Z -> Z -> Z -> outcome SpatialTensor.

(** From [st] to [st'] the scenes [objs] were appended to [objects] and
    the labels [labs] to [labels]. *)
Definition adds (st st' : building) (objs : list Scene) (labs : list Z)
    : Prop :=
  objects_ st' = objects_ st ++ objs /\ labels_ st' = labels_ st ++ labs.

Lemma adds_nothing (st : building) : adds st st [] [].
Proof. split; symmetry; apply app_nil_r. Qed.

Lemma adds_trans (s1 s2 s3 : building) (o1 o2 : list Scene)
    (l1 l2 : list Z) :
  adds s1 s2 o1 l1 -> adds s2 s3 o2 l2 -> adds s1 s3 (o1 ++ o2) (l1 ++ l2).
Proof.
  intros [Ho1 Hl1] [Ho2 Hl2]. split.
  - rewrite Ho2, Ho1, app_assoc. reflexivity.
  - rewrite Hl2, Hl1, app_assoc. reflexivity.
Qed.

Lemma append_input_ret (og : ObjectGeneratorConfig) (target : location)
    (references : list location) (train : bool) (st st' : building)
    (u : unit) :
  append_input og target references train st = (Ret u, st') ->
  exists scene, shows og scene target references /\ adds st st' [scene] [].
Proof.
  unfold append_input. intros Hr.
  apply bind_ret_inv in Hr as (o & s1 & Ho & Hr).
  unfold on_generator in Ho.
  destruct (create_input og target references train (generator_rng st))
    as [out g1] eqn:Hc.
  inversion Ho; subst out s1. clear Ho.
  apply create_input_ret in Hc.
  unfold append_object in Hr. inversion Hr; subst st'. clear Hr.
  exists o. split; [exact Hc|]. split; simpl; [reflexivity|].
  symmetry. apply app_nil_r.
Qed.

Lemma extend_labels_ret (l : list Z) (st st' : building) (u : unit) :
  extend_labels l st = (Ret u, st') -> adds st st' [] l.
Proof.
  unfold extend_labels. intros Hr. inversion Hr; subst st'.
  split; simpl; [symmetry; apply app_nil_r|reflexivity].
Qed.

Lemma on_self_rng_ret {A} (f : G -> A * G) (a : A) (st st' : building) :
  on_self_rng f st = (Ret a, st') ->
  adds st st' [] [] /\ a = fst (f (self_rng st)).
Proof.
  unfold on_self_rng. destruct (f (self_rng st)) as [a' g'].
  intros Hr. inversion Hr; subst. split; [|reflexivity].
  split; simpl; symmetry; apply app_nil_r.
Qed.

Lemma choice_ret (a : list Z) (size : nat) (l : list Z)
    (st st' : building) :
  choice a size st = (Ret l, st') ->
  adds st st' [] [] /\ length l = size /\ Forall (fun x => x ∈ a) l.
Proof.
  unfold choice. destruct (decide _) as [|Hok]; [discriminate|].
  intros Hr. apply on_self_rng_ret in Hr as [Hadds ->].
  split; [exact Hadds|]. apply np_choice_spec.
  destruct a as [|x a]; [|left; discriminate].
  destruct (decide (size = 0%nat)); [right; assumption|].
  destruct Hok. auto.
Qed.

(** Every scene of the list is paired with a label, and the pair
    satisfies [E]. *)
Definition all_examples (E : Scene -> Z -> Prop) (st : building) : Prop :=
  Forall2 E (objects_ st) (labels_ st).

Lemma all_examples_start (E : Scene -> Z -> Prop) (g1 g2 : G) :
  all_examples E {| self_rng := g1; generator_rng := g2;
                    objects_ := []; labels_ := [] |}.
Proof. unfold all_examples. simpl. constructor. Qed.

Lemma all_examples_adds (E : Scene -> Z -> Prop) (st st' : building)
    (objs : list Scene) (labs : list Z) :
  all_examples E st -> adds st st' objs labs -> Forall2 E objs labs ->
  all_examples E st'.
Proof.
  unfold all_examples. intros Hinv [-> ->] Hnew.
  apply Forall2_app; assumption.
Qed.

Lemma with_fresh_lists_ret (self : Builder) (body : M building unit)
    (gs gs' : G * G) (d : Dataset) :
  with_fresh_lists spatial_dataset_class self body gs = (Ret d, gs') ->
  exists st',
    body {| self_rng := fst gs; generator_rng := snd gs;
            objects_ := []; labels_ := [] |} = (Ret tt, st')
    /\ ds_objects d = objects_ st' /\ ds_labels d = labels_ st'
    /\ objects_ st' <> [].
Proof.
  unfold with_fresh_lists.
  destruct ((body;;; _create_dataset_of_lists spatial_dataset_class self) _)
    as [o st] eqn:Hrun.
  intros Hr. inversion Hr; subst o gs'. clear Hr.
  apply bind_ret_inv in Hrun as (u & st1 & Hbody & Hcreate).
  destruct u. exists st1. split; [exact Hbody|].
  unfold _create_dataset_of_lists in Hcreate.
  destruct (stack (objects_ st1) st1) as [[stacked|e|] s2] eqn:Hstack;
    try discriminate.
  assert (Hst : stacked = objects_ st1 /\ objects_ st1 <> []).
  { unfold stack in Hstack. destruct (objects_ st1) as [|s rest];
      [discriminate|].
    destruct (forallb _ rest); [|discriminate].
    inversion Hstack. split; [reflexivity|discriminate]. }
  destruct Hst as [-> Hne].
  destruct (_create_dataset spatial_dataset_class (objects_ st1)
              (labels_ st1) self) as [[d'|e|] s3] eqn:Hd; try discriminate.
  inversion Hcreate; subst d' st. clear Hcreate.
  apply create_dataset_ret in Hd as (_ & Ho & Hl). auto.
Qed.

(** The targets of the "neither" examples lie in a row of the canvas,
    in a column left of the reference object or right of it. *)
Definition beside (self : Builder) (og : ObjectGeneratorConfig)
    (corner target : location) : Prop :=
  (0 <= fst target < fst corner
   \/ fst corner + reference_object_length (og_lengths og) <= fst target
      < x_max self)
  /\ 0 <= snd target < y_max self.

Lemma append_neither_ret (E : Scene -> Z -> Prop) (self : Builder)
    (og : ObjectGeneratorConfig) (corner : location)
    (references : list location) (count : nat) (train : bool)
    (st st' : building) (u : unit) :
  (forall scene target,
     shows og scene target references -> beside self og corner target ->
     E scene 0) ->
  all_examples E st ->
  append_neither self og corner references count train st = (Ret u, st') ->
  all_examples E st'.
Proof.
  intros HE Hinv. unfold append_neither. intros Hr.
  apply bind_ret_inv in Hr as (nx & s1 & Hnx & Hr).
  apply choice_ret in Hnx as (Ha1 & _ & Hxs).
  apply bind_ret_inv in Hr as (ny & s2 & Hny & Hr).
  apply choice_ret in Hny as (Ha2 & _ & Hys).
  assert (Hinv2 : all_examples E s2).
  { eapply all_examples_adds; [|exact Ha2|constructor].
    eapply all_examples_adds; [exact Hinv|exact Ha1|constructor]. }
  eapply (for_each_inv (all_examples E)); [|exact Hinv2|exact Hr].
  intros [x y] s s' u' Hloc Hs Hbody.
  apply bind_ret_inv in Hbody as (u1 & s3 & Happ & Hext).
  apply append_input_ret in Happ as (scene & Hshows & Hadd1).
  apply extend_labels_ret in Hext.
  eapply all_examples_adds;
    [exact Hs|exact (adds_trans _ _ _ _ _ _ _ Hadd1 Hext)|].
  simpl. constructor; [|constructor]. apply (HE scene (x, y) Hshows).
  pose proof (elem_of_zip_l _ _ _ _ Hloc) as Hx.
  pose proof (elem_of_zip_r _ _ _ _ Hloc) as Hy.
  apply (proj1 (Forall_forall _ _) Hxs) in Hx.
  apply (proj1 (Forall_forall _ _) Hys) in Hy.
  unfold beside. cbn [fst snd].
  apply elem_of_app in Hx. unfold py_range in Hx, Hy.
  rewrite !elem_of_seqZ in Hx. rewrite elem_of_seqZ in Hy. lia.
Qed.
(** The target's first cell lies above or below a cell of the reference
    object. *)
Definition in_span (og : ObjectGeneratorConfig) (reference target : location)
    : Prop :=
  fst reference <= fst target
  < fst reference + reference_object_length (og_lengths og).

(** *** Above/below *)

(** An example of an above/below dataset: a target and one reference
    object, the target over the reference object and up to [grid_size]
    rows higher (the first class), over it and up to 3 rows lower (the
    second class), or beside it (class 0, when "neither" examples are
    added and the two classes are 1 and 2). *)
Definition above_below_example (self : Builder) (og : ObjectGeneratorConfig)
    (reference_locations : list location) (grid_size : Z)
    (add_neither : bool) (scene : Scene) (label : Z) : Prop :=
  exists reference target,
    reference ∈ reference_locations
    /\ shows og scene target [reference]
    /\ ((label = 0 + int_of_bool add_neither
         /\ snd reference < snd target <= snd reference + grid_size
         /\ in_span og reference target)
        \/ (label = 1 + int_of_bool add_neither
            /\ snd reference - 3 <= snd target < snd reference
            /\ in_span og reference target)
        \/ (add_neither = true /\ label = 0
            /\ beside self og reference target)).

Lemma above_below_pair (self : Builder) (og : ObjectGeneratorConfig)
    (refs : list location) (grid_size : Z) (add_neither : bool)
    (reference : location) (above below : location)
    (st s1 s2 s3 : building) (u1 u2 u3 : unit) :
  reference ∈ refs ->
  snd reference < snd above <= snd reference + grid_size ->
  in_span og reference above ->
  snd reference - 3 <= snd below < snd reference ->
  in_span og reference below ->
  all_examples (above_below_example self og refs grid_size add_neither) st ->
  append_input og above [reference] false st = (Ret u1, s1)
  \/ append_input og above [reference] true st = (Ret u1, s1) ->
  append_input og below [reference] false s1 = (Ret u2, s2)
  \/ append_input og below [reference] true s1 = (Ret u2, s2) ->
  extend_labels [0 + int_of_bool add_neither; 1 + int_of_bool add_neither] s2
  = (Ret u3, s3) ->
  all_examples (above_below_example self og refs grid_size add_neither) s3.
Proof.
  intros Hin Ha Has Hb Hbs Hinv H1' H2' H3'.
  assert (Hs1 : exists scene, shows og scene above [reference]
                              /\ adds st s1 [scene] []).
  { destruct H1' as [H1'|H1']; exact (append_input_ret _ _ _ _ _ _ _ H1'). }
  assert (Hs2 : exists scene, shows og scene below [reference]
                              /\ adds s1 s2 [scene] []).
  { destruct H2' as [H2'|H2']; exact (append_input_ret _ _ _ _ _ _ _ H2'). }
  destruct Hs1 as (sa & Hsa & Hadd1). destruct Hs2 as (sb & Hsb & Hadd2).
  apply extend_labels_ret in H3'.
  eapply all_examples_adds;
    [exact Hinv
    |exact (adds_trans _ _ _ _ _ _ _
              (adds_trans _ _ _ _ _ _ _ Hadd1 Hadd2) H3')|].
  simpl. constructor; [|constructor; [|constructor]].
  - exists reference, above. split; [exact Hin|]. split; [exact Hsa|].
    left. auto.
  - exists reference, below. split; [exact Hin|]. split; [exact Hsb|].
    right. left. auto.
Qed.

Lemma above_below_examples (self : ReferenceInductiveBias)
    (og : ObjectGeneratorConfig) (reference_locations : list location) :
  target_object_grid_size self <= 3 ->
  target_object_grid_size self <= reference_object_length (og_lengths og) ->
  (forall target_locations train gs gs' d,
      Forall (fun t => 0 <= fst t < target_object_grid_size self
                       /\ 1 <= snd t <= target_object_grid_size self)
             target_locations ->
      AboveBelow_create_left_right_dataset spatial_dataset_class self og
        reference_locations target_locations train gs = (Ret d, gs') ->
      Forall2 (above_below_example (rib_base self) og reference_locations
                 (target_object_grid_size self)
                 (if train then add_neither_train (rib_base self)
                  else add_neither_test (rib_base self)))
              (ds_objects d) (ds_labels d))
  /\ (forall middle_locations gs gs' d,
        Forall (fun t => 0 <= fst t
                           < reference_object_length (og_lengths og)
                         /\ 1 <= snd t <= target_object_grid_size self)
               (default (middle_target_object_locations self)
                        middle_locations) ->
        AboveBelow_create_middle_dataset spatial_dataset_class self og
          reference_locations middle_locations gs = (Ret d, gs') ->
        Forall2 (above_below_example (rib_base self) og reference_locations
                   (target_object_grid_size self)
                   (add_neither_train (rib_base self)))
                (ds_objects d) (ds_labels d)).
Proof.
  intros Hg3 Hglen. split.
  - intros targets train gs gs' d Htargets Hr.
    unfold AboveBelow_create_left_right_dataset in Hr.
    apply with_fresh_lists_ret in Hr as (st' & Hbody & -> & -> & _).
    set (an := if train then add_neither_train (rib_base self)
               else add_neither_test (rib_base self)) in *.
    eapply (for_each_inv
              (all_examples
                 (above_below_example (rib_base self) og reference_locations
                    (target_object_grid_size self) an))); [|apply all_examples_start|exact Hbody].
    intros reference s s' u' Hin Hs Hstep. cbv zeta in Hstep.
    apply bind_ret_inv in Hstep as (u1 & s1 & Hloop & Hneither).
    assert (Hs1 : all_examples
                    (above_below_example (rib_base self) og
                       reference_locations (target_object_grid_size self)
                       an) s1).
    { eapply (for_each_inv _ targets); [|exact Hs|exact Hloop].
      intros t r0 r1 u2 Ht Hr0 Hstep2.
      apply (proj1 (Forall_forall _ _) Htargets) in Ht as [Htx Hty].
      apply bind_ret_inv in Hstep2 as (u3 & r2 & Hpair & Hext).
      destruct (decide (above_or_between_left self <> 0)).
      + apply bind_ret_inv in Hpair as (u4 & r3 & Ha & Hb).
        eapply (above_below_pair (rib_base self) og reference_locations _ an
                  reference _ _ r0 r3 r2 r1);
          [exact Hin| | | | |exact Hr0
          |destruct train; [right|left]; exact Ha
          |destruct train; [right|left]; exact Hb|exact Hext];
          unfold in_span, loc_add; simpl; lia.
      + apply bind_ret_inv in Hpair as (u4 & r3 & Ha & Hb).
        eapply (above_below_pair (rib_base self) og reference_locations _ an
                  reference _ _ r0 r3 r2 r1);
          [exact Hin| | | | |exact Hr0
          |destruct train; [right|left]; exact Ha
          |destruct train; [right|left]; exact Hb|exact Hext];
          unfold in_span, loc_add; simpl; lia. }
    destruct an eqn:Han.
    + eapply append_neither_ret; [|exact Hs1|exact Hneither].
      intros scene target Hshows Hbeside.
      exists reference, target. split; [exact Hin|]. split; [exact Hshows|].
      right. right. auto.
    + apply ret_inv in Hneither as [_ <-]. exact Hs1.
  - intros middle gs gs' d Hmiddle Hr.
    unfold AboveBelow_create_middle_dataset in Hr.
    apply with_fresh_lists_ret in Hr as (st' & Hbody & -> & -> & _).
    cbv zeta in Hbody.
    eapply (for_each_inv
              (all_examples
                 (above_below_example (rib_base self) og reference_locations
                    (target_object_grid_size self)
                    (add_neither_train (rib_base self)))));
      [|apply all_examples_start|exact Hbody].
    intros reference s s' u' Hin Hs Hloop.
    eapply (for_each_inv _ _); [|exact Hs|exact Hloop].
    intros t r0 r1 u2 Ht Hr0 Hstep2.
    apply (proj1 (Forall_forall _ _) Hmiddle) in Ht as [Htx Hty].
    apply bind_ret_inv in Hstep2 as (u3 & r2 & Ha & Hstep2).
    apply bind_ret_inv in Hstep2 as (u4 & r3 & Hb & Hext).
    eapply (above_below_pair (rib_base self) og reference_locations _ _
              reference _ _ r0 r2 r3 r1);
      [exact Hin| | | | |exact Hr0|left; exact Ha|left; exact Hb|exact Hext];
      unfold in_span, loc_add; simpl; lia.
Qed.

(** In the datasets of the above/below paradigm the label tells where the
    target is: with a target grid of at most 3 rows that is no wider than
    the reference object, every example shows a target and a reference
    object at one of the given reference locations, and its label is the
    first class on targets placed over the reference object and up to
    [target_object_grid_size] rows higher, the second class on targets
    over it and up to 3 rows lower, and 0 on the "neither" targets in a
    column beside it. *)
Theorem above_below_labels_match_geometry (self : ReferenceInductiveBias)
    (og : ObjectGeneratorConfig) (reference_locations : list location) :
  target_object_grid_size self <= 3 ->
  target_object_grid_size self <= reference_object_length (og_lengths og) ->
  (forall target_locations train gs gs' d,
      Forall (fun t => 0 <= fst t < target_object_grid_size self
                       /\ 1 <= snd t <= target_object_grid_size self)
             target_locations ->
      AboveBelow_create_left_right_dataset spatial_dataset_class self og
        reference_locations target_locations train gs = (Ret d, gs') ->
      Forall2 (above_below_example (rib_base self) og reference_locations
                 (target_object_grid_size self)
                 (if train then add_neither_train (rib_base self)
                  else add_neither_test (rib_base self)))
              (ds_objects d) (ds_labels d))
  /\ (forall middle_locations gs gs' d,
        Forall (fun t => 0 <= fst t
                           < reference_object_length (og_lengths og)
                         /\ 1 <= snd t <= target_object_grid_size self)
               (default (middle_target_object_locations self)
                        middle_locations) ->
        AboveBelow_create_middle_dataset spatial_dataset_class self og
          reference_locations middle_locations gs = (Ret d, gs') ->
        Forall2 (above_below_example (rib_base self) og reference_locations
                   (target_object_grid_size self)
                   (add_neither_train (rib_base self)))
                (ds_objects d) (ds_labels d)).
Proof. exact (above_below_examples self og reference_locations). Qed.
(** *** Between *)

(** An example of a between dataset: a target and two reference objects,
    the second [grid_size + 1] rows above the first; the target is over
    them and between their rows (the second class), over them and up to
    [grid_size] rows above the upper one or up to 3 rows below the lower
    one (the first class), or beside them (class 0, when "neither"
    examples are added). *)
Definition between_example (self : Builder) (og : ObjectGeneratorConfig)
    (reference_locations : list location) (grid_size : Z)
    (add_neither : bool) (scene : Scene) (label : Z) : Prop :=
  exists bottom target,
    bottom ∈ reference_locations
    /\ shows og scene target [bottom; loc_add bottom (0, grid_size + 1)]
    /\ ((label = 1 + int_of_bool add_neither
         /\ snd bottom < snd target < snd bottom + (grid_size + 1)
         /\ in_span og bottom target)
        \/ (label = 0 + int_of_bool add_neither
            /\ (snd bottom + (grid_size + 1) < snd target
                  <= snd bottom + (grid_size + 1) + grid_size
                \/ snd bottom - 3 <= snd target < snd bottom)
            /\ in_span og bottom target)
        \/ (add_neither = true /\ label = 0
            /\ beside self og bottom target)).

Lemma between_examples (self : ReferenceInductiveBias)
    (og : ObjectGeneratorConfig) (reference_locations : list location) :
  target_object_grid_size self <= 3 ->
  target_object_grid_size self <= reference_object_length (og_lengths og) ->
  (forall target_locations train gs gs' d,
      Forall (fun t => 0 <= fst t < target_object_grid_size self
                       /\ 1 <= snd t <= target_object_grid_size self)
             target_locations ->
      Between_create_left_right_dataset spatial_dataset_class self og
        reference_locations target_locations train gs = (Ret d, gs') ->
      Forall2 (between_example (rib_base self) og reference_locations
                 (target_object_grid_size self)
                 (if train then add_neither_train (rib_base self)
                  else add_neither_test (rib_base self)))
              (ds_objects d) (ds_labels d))
  /\ (forall middle_locations gs gs' d,
        Forall (fun t => 0 <= fst t
                           < reference_object_length (og_lengths og)
                         /\ 1 <= snd t <= target_object_grid_size self)
               (default (middle_target_object_locations self)
                        middle_locations) ->
        Between_create_middle_dataset spatial_dataset_class self og
          reference_locations middle_locations gs = (Ret d, gs') ->
        Forall2 (between_example (rib_base self) og reference_locations
                   (target_object_grid_size self)
                   (add_neither_train (rib_base self)))
                (ds_objects d) (ds_labels d)).
Proof.
  intros Hg3 Hglen.
  set (g := target_object_grid_size self) in *.
  assert (Houtside : forall an bottom target scene,
            bottom ∈ reference_locations ->
            shows og scene target [bottom; loc_add bottom (0, g + 1)] ->
            (snd bottom + (g + 1) < snd target <= snd bottom + (g + 1) + g
             \/ snd bottom - 3 <= snd target < snd bottom) ->
            in_span og bottom target ->
            between_example (rib_base self) og reference_locations g an
              scene (0 + int_of_bool an)).
  { intros an bottom target scene Hin Hshows Hy Hx.
    exists bottom, target. split; [exact Hin|]. split; [exact Hshows|].
    right. left. auto. }
  assert (Hbetween : forall an bottom target scene,
            bottom ∈ reference_locations ->
            shows og scene target [bottom; loc_add bottom (0, g + 1)] ->
            snd bottom < snd target < snd bottom + (g + 1) ->
            in_span og bottom target ->
            between_example (rib_base self) og reference_locations g an
              scene (1 + int_of_bool an)).
  { intros an bottom target scene Hin Hshows Hy Hx.
    exists bottom, target. split; [exact Hin|]. split; [exact Hshows|].
    left. auto. }
  split.
  - intros targets train gs gs' d Htargets Hr.
    unfold Between_create_left_right_dataset in Hr.
    apply with_fresh_lists_ret in Hr as (st' & Hbody & -> & -> & _).
    fold g in Hbody.
    set (an := if train then add_neither_train (rib_base self)
               else add_neither_test (rib_base self)) in *.
    eapply (for_each_inv
              (all_examples
                 (between_example (rib_base self) og reference_locations g
                    an))); [|apply all_examples_start|exact Hbody].
    intros bottom s s' u' Hin Hs Hstep. cbv zeta in Hstep.
    apply bind_ret_inv in Hstep as (u1 & s1 & Hloop & Hneither).
    assert (Hs1 : all_examples
                    (between_example (rib_base self) og reference_locations
                       g an) s1).
    { eapply (for_each_inv _ targets); [|exact Hs|exact Hloop].
      intros t r0 r1 u2 Ht Hr0 Hstep2.
      apply (proj1 (Forall_forall _ _) Htargets) in Ht as [Htx Hty].
      apply bind_ret_inv in Hstep2 as (u3 & r2 & Hpair & Hext).
      apply extend_labels_ret in Hext.
      assert (Hpair' : exists sa sb ta tb,
                adds r0 r2 [sa; sb] []
                /\ shows og sa ta [bottom; loc_add bottom (0, g + 1)]
                /\ shows og sb tb [bottom; loc_add bottom (0, g + 1)]
                /\ (snd bottom + (g + 1) < snd ta <= snd bottom + (g + 1) + g
                    \/ snd bottom - 3 <= snd ta < snd bottom)
                /\ in_span og bottom ta
                /\ snd bottom < snd tb < snd bottom + (g + 1)
                /\ in_span og bottom tb).
      { destruct (decide (above_or_between_left self <> 0));
          apply bind_ret_inv in Hpair as (u & q0 & Hu & Hpair);
          apply on_self_rng_ret in Hu as [Hadd0 _];
          apply bind_ret_inv in Hpair as (u4 & q1 & Ha & Hb);
          apply append_input_ret in Hb as (sb & Hsb & Haddb);
          (destruct (Qlt_le_dec u (1 # 2));
           apply append_input_ret in Ha as (sa & Hsa & Hadda);
           pose proof (adds_trans _ _ _ _ _ _ _ Hadd0
                         (adds_trans _ _ _ _ _ _ _ Hadda Haddb)) as Hadds;
           simpl in Hadds;
           eexists sa, sb, _, _;
           (split; [exact Hadds|]); (split; [exact Hsa|]);
           (split; [exact Hsb|]);
           unfold in_span, loc_add; simpl; lia). }
      destruct Hpair' as (sa & sb & ta & tb & Hadds & Hsa & Hsb
                          & Hya & Hxa & Hyb & Hxb).
      eapply all_examples_adds;
        [exact Hr0|exact (adds_trans _ _ _ _ _ _ _ Hadds Hext)|].
      simpl. constructor; [|constructor; [|constructor]].
      - exact (Houtside an bottom ta sa Hin Hsa Hya Hxa).
      - exact (Hbetween an bottom tb sb Hin Hsb Hyb Hxb). }
    destruct an eqn:Han.
    + eapply append_neither_ret; [|exact Hs1|exact Hneither].
      intros scene target Hshows Hbeside.
      exists bottom, target. split; [exact Hin|]. split; [exact Hshows|].
      right. right. auto.
    + apply ret_inv in Hneither as [_ <-]. exact Hs1.
  - intros middle gs gs' d Hmiddle Hr.
    unfold Between_create_middle_dataset in Hr.
    apply with_fresh_lists_ret in Hr as (st' & Hbody & -> & -> & _).
    cbv zeta in Hbody. fold g in Hbody.
    set (an := add_neither_train (rib_base self)) in *.
    eapply (for_each_inv
              (all_examples
                 (between_example (rib_base self) og reference_locations g
                    an))); [|apply all_examples_start|exact Hbody].
    intros bottom s s' u' Hin Hs Hloop.
    eapply (for_each_inv _ _); [|exact Hs|exact Hloop].
    intros t r0 r1 u2 Ht Hr0 Hstep2.
    apply (proj1 (Forall_forall _ _) Hmiddle) in Ht as [Htx Hty].
    apply bind_ret_inv in Hstep2 as (u3 & r2 & Ha & Hstep2).
    apply bind_ret_inv in Hstep2 as (u4 & r3 & Hb & Hstep2).
    apply bind_ret_inv in Hstep2 as (u5 & r4 & Hc & Hext).
    apply append_input_ret in Ha as (sa & Hsa & Hadda).
    apply append_input_ret in Hb as (sb & Hsb & Haddb).
    apply append_input_ret in Hc as (sc & Hsc & Haddc).
    apply extend_labels_ret in Hext.
    eapply all_examples_adds;
      [exact Hr0
      |exact (adds_trans _ _ _ _ _ _ _
                (adds_trans _ _ _ _ _ _ _ Hadda
                   (adds_trans _ _ _ _ _ _ _ Haddb Haddc)) Hext)|].
    simpl. constructor; [|constructor; [|constructor; [|constructor]]].
    + apply (Houtside an bottom _ sa Hin Hsa);
        unfold in_span, loc_add; simpl; lia.
    + apply (Houtside an bottom _ sb Hin Hsb);
        unfold in_span, loc_add; simpl; lia.
    + apply (Hbetween an bottom _ sc Hin Hsc);
        unfold in_span, loc_add; simpl; lia.
Qed.

(** In the datasets of the between paradigm the label tells where the
    target is: with a target grid of at most 3 rows that is no wider than
    the reference object, the second class is given to targets between
    the rows of the two reference objects, the first class to targets up
    to [target_object_grid_size] rows above the upper or up to 3 rows
    below the lower one, whichever the random draw picks, and 0 to the
    "neither" targets in a column beside them. *)
Theorem between_labels_match_geometry (self : ReferenceInductiveBias)
    (og : ObjectGeneratorConfig) (reference_locations : list location) :
  target_object_grid_size self <= 3 ->
  target_object_grid_size self <= reference_object_length (og_lengths og) ->
  (forall target_locations train gs gs' d,
      Forall (fun t => 0 <= fst t < target_object_grid_size self
                       /\ 1 <= snd t <= target_object_grid_size self)
             target_locations ->
      Between_create_left_right_dataset spatial_dataset_class self og
        reference_locations target_locations train gs = (Ret d, gs') ->
      Forall2 (between_example (rib_base self) og reference_locations
                 (target_object_grid_size self)
                 (if train then add_neither_train (rib_base self)
                  else add_neither_test (rib_base self)))
              (ds_objects d) (ds_labels d))
  /\ (forall middle_locations gs gs' d,
        Forall (fun t => 0 <= fst t
                           < reference_object_length (og_lengths og)
                         /\ 1 <= snd t <= target_object_grid_size self)
               (default (middle_target_object_locations self)
                        middle_locations) ->
        Between_create_middle_dataset spatial_dataset_class self og
          reference_locations middle_locations gs = (Ret d, gs') ->
        Forall2 (between_example (rib_base self) og reference_locations
                   (target_object_grid_size self)
                   (add_neither_train (rib_base self)))
                (ds_objects d) (ds_labels d)).
Proof. exact (between_examples self og reference_locations). Qed.
(** *** One or two reference objects *)

(** An example of a one-or-two-reference-objects dataset, for the grid
    whose bottom left corner is one of the given reference locations.

    With one reference object, [single_reference_height] rows above the
    corner: the target is over it and higher, up to the grid's height
    above the corner (label 1), over it and lower, not below the corner
    (label 0), or beside it ("neither").

    With two, the lower one [bottom_reference_height] rows above the
    corner and the upper one [top_reference_height + 1] rows above it:
    the target is over them and between their rows (label 1), or below
    both and not below the corner, or above both and up to the grid's
    height plus one above the corner (label 0).  In a "neither" example
    the target is beside them and the upper reference object is
    [top_reference_height] rows above the corner.

    Labels 0 and 1 are raised by one when "neither" examples are added. *)
Definition single_example (self : OneOrTwoReferenceObjects)
    (og : ObjectGeneratorConfig) (reference_locations : list location)
    (add_neither : bool) (scene : Scene) (label : Z) : Prop :=
  exists corner target,
    corner ∈ reference_locations /\
    if two_reference_objects self then
      let bottom := loc_add corner (0, bottom_reference_height self) in
      (shows og scene target
         [bottom; loc_add corner (0, top_reference_height self + 1)]
       /\ in_span og corner target
       /\ ((label = 1 + int_of_bool add_neither
            /\ snd bottom < snd target
               < snd corner + (top_reference_height self + 1))
           \/ (label = 0 + int_of_bool add_neither
               /\ (snd corner <= snd target < snd bottom
                   \/ snd corner + (top_reference_height self + 1)
                      < snd target
                      <= snd corner + (target_object_grid_height self + 1)))))
      \/ (add_neither = true /\ label = 0
          /\ shows og scene target
               [bottom; loc_add corner (0, top_reference_height self)]
          /\ beside (oot_base self) og corner target)
    else
      let reference := loc_add corner (0, single_reference_height self) in
      shows og scene target [reference]
      /\ ((label = 1 + int_of_bool add_neither
           /\ snd reference < snd target
              <= snd corner + target_object_grid_height self
           /\ in_span og corner target)
          \/ (label = 0 + int_of_bool add_neither
              /\ snd corner <= snd target < snd reference
              /\ in_span og corner target)
          \/ (add_neither = true /\ label = 0
              /\ beside (oot_base self) og corner target)).

Lemma single_examples
    (self : OneOrTwoReferenceObjects) (og : ObjectGeneratorConfig)
    (reference_locations target_locations : list location) (train : bool)
    (gs gs' : G * G) (d : Dataset) :
  Forall (fun t => 0 <= fst t < reference_object_length (og_lengths og)
                   /\ 0 <= snd t < target_object_grid_height self)
         target_locations ->
  _create_single_dataset spatial_dataset_class self og reference_locations
    target_locations train gs = (Ret d, gs') ->
  Forall2 (single_example self og reference_locations
             (if train then add_neither_train (oot_base self)
              else add_neither_test (oot_base self)))
          (ds_objects d) (ds_labels d).
Proof.
  intros Htargets Hr. unfold _create_single_dataset in Hr.
  apply with_fresh_lists_ret in Hr as (st' & Hbody & -> & -> & _).
  set (an := if train then add_neither_train (oot_base self)
             else add_neither_test (oot_base self)) in *.
  cbv zeta in Hbody.
  apply bind_ret_inv in Hbody as (u0 & s0 & Hlabelled & Hneither).
  set (E := single_example self og reference_locations an).
  assert (Hs0 : all_examples E s0).
  { unfold E, single_example.
    destruct (two_reference_objects self) eqn:Htwo.
    - eapply (for_each_inv (all_examples _));
        [|apply all_examples_start|exact Hlabelled].
      intros corner s s' u' Hin Hs Hloop.
      eapply (for_each_inv _ _); [|exact Hs|exact Hloop].
      intros t r0 r1 u2 Ht Hr0 Hstep.
      apply (proj1 (Forall_forall _ _) Htargets) in Ht.
      apply bind_ret_inv in Hstep as (u3 & r2 & Ha & Hext).
      apply append_input_ret in Ha as (sa & Hsa & Hadda).
      apply extend_labels_ret in Hext.
      eapply all_examples_adds;
        [exact Hr0|exact (adds_trans _ _ _ _ _ _ _ Hadda Hext)|].
      simpl. constructor; [|constructor].
      exists corner. eexists. split; [exact Hin|].
      left. split; [exact Hsa|].
      destruct (decide (top_reference_height self <= snd t));
        [|destruct (decide (bottom_reference_height self <= snd t))];
        unfold in_span, loc_add; simpl; (split; [lia|]);
        [right|left|right]; (split; [reflexivity|lia]).
    - eapply (for_each_inv (all_examples _));
        [|apply all_examples_start|exact Hlabelled].
      intros corner s s' u' Hin Hs Hloop.
      eapply (for_each_inv _ _); [|exact Hs|exact Hloop].
      intros t r0 r1 u2 Ht Hr0 Hstep.
      apply (proj1 (Forall_forall _ _) Htargets) in Ht.
      apply bind_ret_inv in Hstep as (u3 & r2 & Ha & Hext).
      apply append_input_ret in Ha as (sa & Hsa & Hadda).
      apply extend_labels_ret in Hext.
      eapply all_examples_adds;
        [exact Hr0|exact (adds_trans _ _ _ _ _ _ _ Hadda Hext)|].
      simpl. constructor; [|constructor].
      exists corner. eexists. split; [exact Hin|].
      split; [exact Hsa|].
      destruct (decide (single_reference_height self <= snd t));
        unfold in_span, loc_add; simpl; [left|right; left];
        (split; [reflexivity|lia]). }
  destruct an eqn:Han.
  - eapply (for_each_inv (all_examples E)); [|exact Hs0|exact Hneither].
    intros corner s s' u' Hin Hs Hstep.
    eapply append_neither_ret; [|exact Hs|exact Hstep].
    intros scene target Hshows Hbeside.
    exists corner, target. split; [exact Hin|].
    destruct (two_reference_objects self).
    + right. auto.
    + split; [exact Hshows|]. right. right. auto.
  - apply ret_inv in Hneither as [_ <-]. exact Hs0.
Qed.

(** In the datasets of [OneOrTwoReferenceObjects], for target locations
    inside the target grid, the label tells where the target is, and no
    labelled target shares a row with a reference object: the rows added
    to the target's height skip the reference objects. *)
Theorem single_dataset_labels_match_geometry
    (self : OneOrTwoReferenceObjects) (og : ObjectGeneratorConfig)
    (reference_locations target_locations : list location) (train : bool)
    (gs gs' : G * G) (d : Dataset) :
  Forall (fun t => 0 <= fst t < reference_object_length (og_lengths og)
                   /\ 0 <= snd t < target_object_grid_height self)
         target_locations ->
  _create_single_dataset spatial_dataset_class self og reference_locations
    target_locations train gs = (Ret d, gs') ->
  Forall2 (single_example self og reference_locations
             (if train then add_neither_train (oot_base self)
              else add_neither_test (oot_base self)))
          (ds_objects d) (ds_labels d).
Proof. exact (single_examples self og reference_locations target_locations train gs gs' d). Qed.
(** *** The labels of a left-right dataset *)

Lemma for_each_adds {A} (l : list A) (body : A -> M building unit)
    (f : A -> list Z) (st st' : building) (u : unit) :
  (forall x s s' u', x ∈ l -> body x s = (Ret u', s') ->
     exists objs, adds s s' objs (f x) /\ length objs = length (f x)) ->
  for_each l body st = (Ret u, st') ->
  exists objs, adds st st' objs (concat (map f l))
               /\ length objs = length (concat (map f l)).
Proof.
  revert st. induction l as [|x l IH]; intros st Hbody Hr.
  - apply ret_inv in Hr as [_ <-]. exists []. split; [apply adds_nothing|].
    reflexivity.
  - cbn [for_each] in Hr.
    apply bind_ret_inv in Hr as (u1 & s1 & Hx & Hr).
    destruct (Hbody x st s1 u1 ltac:(left) Hx) as (o1 & Ha1 & Hl1).
    destruct (IH s1) as (o2 & Ha2 & Hl2); [|exact Hr|].
    { intros y s s' u' Hy. apply Hbody. right. exact Hy. }
    exists (o1 ++ o2). split; [exact (adds_trans _ _ _ _ _ _ _ Ha1 Ha2)|].
    cbn [map concat]. rewrite !length_app. lia.
Qed.

Lemma append_neither_adds (self : Builder) (og : ObjectGeneratorConfig)
    (corner : location) (references : list location) (count : nat)
    (train : bool) (st st' : building) (u : unit) :
  append_neither self og corner references count train st = (Ret u, st') ->
  exists objs, adds st st' objs (replicate count 0)
               /\ length objs = count.
Proof.
  unfold append_neither. intros Hr.
  apply bind_ret_inv in Hr as (nx & s1 & Hnx & Hr).
  apply choice_ret in Hnx as (Ha1 & Hlx & _).
  apply bind_ret_inv in Hr as (ny & s2 & Hny & Hr).
  apply choice_ret in Hny as (Ha2 & Hly & _).
  apply (for_each_adds _ _ (fun _ => [0])) in Hr as (objs & Hadds & Hlen).
  - assert (Hrep : concat (map (fun _ : Z * Z => [0]) (zip nx ny))
                   = replicate count 0).
    { assert (Hz : length (zip nx ny) = count)
        by (rewrite length_zip_with; lia).
      revert Hz. generalize (zip nx ny). clear. intros l <-.
      induction l as [|x l IH]; [reflexivity|]. simpl. rewrite IH.
      reflexivity. }
    rewrite Hrep in Hadds, Hlen. rewrite length_replicate in Hlen.
    exists objs. split; [|exact Hlen].
    pose proof (adds_trans _ _ _ _ _ _ _ Ha1
                  (adds_trans _ _ _ _ _ _ _ Ha2 Hadds)) as Hall.
    exact Hall.
  - intros loc s s' u' _ Hbody.
    apply bind_ret_inv in Hbody as (u1 & s3 & Happ & Hext).
    apply append_input_ret in Happ as (scene & _ & Hadd1).
    apply extend_labels_ret in Hext.
    exists [scene]. split; [|reflexivity].
    exact (adds_trans _ _ _ _ _ _ _ Hadd1 Hext).
Qed.

(** The labels of a left-right dataset of either paradigm, in the order
    of the examples: for each reference location the two classes in turn,
    once per target location, then one 0 per target location when
    "neither" examples are added; so each class has as many examples as
    any other, and every scene has its label. *)
Theorem left_right_dataset_labels (p : paradigm)
    (self : ReferenceInductiveBias) (og : ObjectGeneratorConfig)
    (reference_locations target_locations : list location) (train : bool)
    (add_neither : bool) (gs gs' : G * G) (d : Dataset) :
  add_neither = (if train then add_neither_train (rib_base self)
                 else add_neither_test (rib_base self)) ->
  _create_left_right_dataset spatial_dataset_class p self og
    reference_locations target_locations train gs = (Ret d, gs') ->
  ds_labels d
  = concat (map (fun _ : location =>
                   concat (map (fun _ : location =>
                                  [0 + int_of_bool add_neither;
                                   1 + int_of_bool add_neither])
                               target_locations)
                   ++ (if add_neither
                       then replicate (length target_locations) 0
                       else []))
                reference_locations)
  /\ length (ds_objects d) = length (ds_labels d).
Proof.
  intros Han Hr.
  assert (Hbody : exists body st',
    body {| self_rng := fst gs; generator_rng := snd gs;
            objects_ := []; labels_ := [] |} = (Ret tt, st')
    /\ ds_objects d = objects_ st' /\ ds_labels d = labels_ st'
    /\ exists inner,
         body = for_each reference_locations (fun reference_location =>
                  for_each target_locations (inner reference_location);;;
                  if add_neither
                  then append_neither (rib_base self) og reference_location
                         (match p with
                          | AboveBelowParadigm => [reference_location]
                          | BetweenParadigm =>
                              [reference_location;
                               loc_add reference_location
                                 (0, target_object_grid_size self + 1)]
                          end)
                         (length target_locations) train
                  else ret tt)
         /\ forall r t s s' u', inner r t s = (Ret u', s') ->
              exists objs,
                adds s s' objs [0 + int_of_bool add_neither;
                                1 + int_of_bool add_neither]
                /\ length objs = 2%nat).
  { destruct p; simpl in Hr;
      [unfold AboveBelow_create_left_right_dataset in Hr
      |unfold Between_create_left_right_dataset in Hr];
      apply with_fresh_lists_ret in Hr as (st' & Hbody & Ho & Hl & _);
      rewrite <- Han in Hbody; cbv zeta in Hbody;
      eexists; exists st'; (split; [exact Hbody|]);
      (split; [exact Ho|]); (split; [exact Hl|]);
      eexists; (split; [reflexivity|]);
      intros r t s s' u' Hstep;
      apply bind_ret_inv in Hstep as (u3 & r2 & Hpair & Hext);
      apply extend_labels_ret in Hext.
    - destruct (decide (above_or_between_left self <> 0));
        apply bind_ret_inv in Hpair as (u4 & r3 & Ha & Hb);
        apply append_input_ret in Ha as (sa & _ & Hadda);
        apply append_input_ret in Hb as (sb & _ & Haddb);
        exists [sa; sb]; (split; [|reflexivity]);
        exact (adds_trans _ _ _ _ _ _ _
                 (adds_trans _ _ _ _ _ _ _ Hadda Haddb) Hext).
    - destruct (decide (above_or_between_left self <> 0));
        apply bind_ret_inv in Hpair as (u & q0 & Hu & Hpair);
        apply on_self_rng_ret in Hu as [Hadd0 _];
        apply bind_ret_inv in Hpair as (u4 & q1 & Ha & Hb);
        apply append_input_ret in Hb as (sb & _ & Haddb);
        (destruct (Qlt_le_dec u (1 # 2));
         apply append_input_ret in Ha as (sa & _ & Hadda);
         exists [sa; sb]; (split; [|reflexivity]);
         exact (adds_trans _ _ _ _ _ _ _
                  (adds_trans _ _ _ _ _ _ _ Hadd0
                     (adds_trans _ _ _ _ _ _ _ Hadda Haddb)) Hext)). }
  destruct Hbody as (body & st' & Hrun & Ho & Hl & inner & -> & Hinner).
  apply (for_each_adds _ _
           (fun _ => concat (map (fun _ : location =>
                                    [0 + int_of_bool add_neither;
                                     1 + int_of_bool add_neither])
                                 target_locations)
                     ++ (if add_neither
                         then replicate (length target_locations) 0
                         else []))) in Hrun as (objs & [Hao Hal] & Hlen).
  - simpl in Hao, Hal. rewrite Ho, Hl, Hao, Hal. split; [reflexivity|].
    exact Hlen.
  - intros r s s' u' _ Hstep.
    apply bind_ret_inv in Hstep as (u1 & s1 & Hloop & Hneither).
    apply (for_each_adds _ _
             (fun _ => [0 + int_of_bool add_neither;
                        1 + int_of_bool add_neither])) in Hloop
      as (o1 & Ha1 & Hl1).
    2: { intros t q q' u2 _ Hq. apply Hinner in Hq as (objs & Hq & Hlq).
         exists objs. split; [exact Hq|exact Hlq]. }
    destruct add_neither.
    + apply append_neither_adds in Hneither as (o2 & Ha2 & Hl2).
      exists (o1 ++ o2). split; [exact (adds_trans _ _ _ _ _ _ _ Ha1 Ha2)|].
      rewrite !length_app, length_replicate. lia.
    + apply ret_inv in Hneither as [_ <-].
      exists o1. rewrite app_nil_r. split; [exact Ha1|exact Hl1].
Qed.
End DatasetCreation.

(** A generator of sized objects with one reference type, two train
    target types and one test-only target type. *)
Definition sized_generator : QuinnDatasets.ObjectGeneratorConfig :=
  {| QuinnDatasets.og_lengths := long_reference;
     QuinnDatasets.n_reference_types := 1;
     QuinnDatasets.n_train_target_types := 2;
     QuinnDatasets.n_test_target_types := 1;
     QuinnDatasets.with_size := true |}.

(** The same without a size field: one row per cell of an object. *)
Definition cell_generator : QuinnDatasets.ObjectGeneratorConfig :=
  {| QuinnDatasets.og_lengths := long_reference;
     QuinnDatasets.n_reference_types := 1;
     QuinnDatasets.n_train_target_types := 2;
     QuinnDatasets.n_test_target_types := 1;
     QuinnDatasets.with_size := false |}.

Lemma sized_generator_valid : valid_types sized_generator.
Proof. unfold valid_types. simpl. lia. Qed.

Lemma sample_type_ranges_witness :
  type_range sized_generator true false 3
  /\ 0 <= 3 < QuinnDatasets.n_types sized_generator.
Proof.
  apply (sample_type_ranges (H0 := counting_sampler_laws) sized_generator
           true false 3 0%nat 0%nat sized_generator_valid).
  reflexivity.
Defined.

Lemma create_input_layout_witness :
  exists scene g' tz rzs,
    QuinnDatasets.create_input (G := nat) cell_generator (2, 7) [(0, 3)] true
      0%nat = (Ret scene, g')
    /\ length rzs = length [(0, 3)]
    /\ type_range cell_generator true true tz
    /\ Forall (fun z => 0 <= z < 1) rzs
    /\ scene
       = rows_at cell_generator 1 2 7 (one_hot 4 (Z.to_nat tz))
         ++ concat (zip_with
                      (fun r z =>
                         rows_at cell_generator 9 (fst r) (snd r)
                           (one_hot 4 (Z.to_nat z)))
                      [(0, 3)] rzs).
Proof.
  eexists. eexists.
  assert (Hrun : QuinnDatasets.create_input (G := nat) cell_generator (2, 7)
                   [(0, 3)] true 0%nat = (Ret _, _))
    by (vm_compute; reflexivity).
  destruct (create_input_layout (H0 := counting_sampler_laws) cell_generator
              (2, 7) [(0, 3)] true _ 0%nat _
              ltac:(unfold valid_types; simpl; lia) Hrun)
    as (tz & rzs & H1 & H2 & H3 & H4).
  exists tz, rzs. split; [exact Hrun|]. auto.
Defined.

(** An above/below builder on a canvas 10 wide and 8 high. *)
Definition small_above_below
    : outcome (@QuinnObjects.ReferenceInductiveBias nat) :=
  QuinnObjects.AboveBelowReferenceInductiveBias_init (G := nat)
    long_reference 10 8 33 3 true None None (Some (4 # 5)%Q) (Some 0)
    None None false QuinnObjects.NotSpatial (Some (1 # 10)%Q).

(** A between builder on a canvas 10 wide and 12 high. *)
Definition small_between
    : outcome (@QuinnObjects.ReferenceInductiveBias nat) :=
  QuinnObjects.BetweenReferenceInductiveBias_init (G := nat)
    long_reference 10 12 33 3 true None None (Some (4 # 5)%Q) (Some 0)
    None None false QuinnObjects.NotSpatial (Some (1 # 10)%Q).

(** A builder with two reference objects on a canvas 10 wide and 12
    high. *)
Definition small_two_references
    : outcome (@QuinnObjects.OneOrTwoReferenceObjects nat) :=
  QuinnObjects.OneOrTwoReferenceObjects_init (G := nat)
    long_reference 10 12 33 true None true (Some (1 # 2)%Q)
    (Some (4 # 5)%Q) 8 (Some 0) None None false QuinnObjects.NotSpatial
    (Some (1 # 10)%Q).

Lemma above_below_labels_match_geometry_witness :
  exists self d gs',
    small_above_below = Ret self
    /\ QuinnDatasets.rib_create_training_dataset no_spatial_class
         QuinnDatasets.AboveBelowParadigm self sized_generator (0%nat, 0%nat)
       = (Ret d, gs')
    /\ Forall2 (above_below_example (QuinnObjects.rib_base self)
                  sized_generator
                  (QuinnObjects.train_reference_object_locations
                     (QuinnObjects.rib_base self))
                  (QuinnObjects.target_object_grid_size self)
                  (QuinnObjects.add_neither_train
                     (QuinnObjects.rib_base self)))
               (QuinnObjects.ds_objects d) (QuinnObjects.ds_labels d).
Proof.
  assert (Hinit : exists self, small_above_below = Ret self)
    by (eexists; vm_compute; reflexivity).
  destruct Hinit as [self Hinit]. exists self.
  vm_compute in Hinit. inversion Hinit; subst self. clear Hinit.
  eexists. eexists.
  split; [vm_compute; reflexivity|].
  split; [vm_compute; reflexivity|].
  match goal with
  | |- Forall2 (above_below_example (QuinnObjects.rib_base ?s) _ _ _ _) _ _ =>
      eapply (proj1 (above_below_labels_match_geometry
                       (NumpySamplerLaws0 := counting_sampler_laws)
                       no_spatial_class s sized_generator _
                       ltac:(simpl; lia) ltac:(simpl; lia))
                (QuinnObjects.train_target_object_locations s) true
                (0%nat, 0%nat))
  end.
  - repeat constructor; simpl; lia.
  - vm_compute. reflexivity.
Defined.

Lemma between_labels_match_geometry_witness :
  exists self d gs',
    small_between = Ret self
    /\ QuinnDatasets.rib_create_training_dataset no_spatial_class
         QuinnDatasets.BetweenParadigm self cell_generator (0%nat, 0%nat)
       = (Ret d, gs')
    /\ Forall2 (between_example (QuinnObjects.rib_base self) cell_generator
                  (QuinnObjects.train_reference_object_locations
                     (QuinnObjects.rib_base self))
                  (QuinnObjects.target_object_grid_size self)
                  (QuinnObjects.add_neither_train
                     (QuinnObjects.rib_base self)))
               (QuinnObjects.ds_objects d) (QuinnObjects.ds_labels d).
Proof.
  assert (Hinit : exists self, small_between = Ret self)
    by (eexists; vm_compute; reflexivity).
  destruct Hinit as [self Hinit]. exists self.
  vm_compute in Hinit. inversion Hinit; subst self. clear Hinit.
  eexists. eexists.
  split; [vm_compute; reflexivity|].
  split; [vm_compute; reflexivity|].
  match goal with
  | |- Forall2 (between_example (QuinnObjects.rib_base ?s) _ _ _ _) _ _ =>
      eapply (proj1 (between_labels_match_geometry
                       (NumpySamplerLaws0 := counting_sampler_laws)
                       no_spatial_class s cell_generator _
                       ltac:(simpl; lia) ltac:(simpl; lia))
                (QuinnObjects.train_target_object_locations s) true
                (0%nat, 0%nat))
  end.
  - repeat constructor; simpl; lia.
  - vm_compute. reflexivity.
Defined.

Lemma single_dataset_labels_match_geometry_witness :
  exists self d gs',
    small_two_references = Ret self
    /\ QuinnDatasets.oot_create_training_dataset no_spatial_class self
         sized_generator (0%nat, 0%nat) = (Ret d, gs')
    /\ Forall2 (single_example self sized_generator
                  (QuinnObjects.train_reference_object_locations
                     (QuinnObjects.oot_base self))
                  (QuinnObjects.add_neither_train
                     (QuinnObjects.oot_base self)))
               (QuinnObjects.ds_objects d) (QuinnObjects.ds_labels d).
Proof.
  assert (Hinit : exists self, small_two_references = Ret self)
    by (eexists; vm_compute; reflexivity).
  destruct Hinit as [self Hinit]. exists self.
  vm_compute in Hinit. inversion Hinit; subst self. clear Hinit.
  eexists. eexists.
  split; [vm_compute; reflexivity|].
  split; [vm_compute; reflexivity|].
  match goal with
  | |- Forall2 (single_example ?s _ _ _) _ _ =>
      eapply (single_dataset_labels_match_geometry
                (NumpySamplerLaws0 := counting_sampler_laws)
                no_spatial_class s sized_generator _
                (QuinnObjects.train_target_locations s) true (0%nat, 0%nat))
  end.
  - repeat constructor; simpl; lia.
  - vm_compute. reflexivity.
Defined.

Lemma left_right_dataset_labels_witness :
  exists self d gs',
    small_above_below = Ret self
    /\ QuinnDatasets._create_left_right_dataset no_spatial_class
         QuinnDatasets.AboveBelowParadigm self sized_generator
         [(0, 3); (0, 4)] [(0, 1); (2, 3)] true (0%nat, 0%nat)
       = (Ret d, gs')
    /\ QuinnObjects.ds_labels d
       = concat (map (fun _ : Z * Z =>
                        concat (map (fun _ : Z * Z => [0 + 1; 1 + 1])
                                    [(0, 1); (2, 3)])
                        ++ replicate 2 0)
                     [(0, 3); (0, 4)])
    /\ length (QuinnObjects.ds_objects d) = length (QuinnObjects.ds_labels d).
Proof.
  assert (Hinit : exists self, small_above_below = Ret self)
    by (eexists; vm_compute; reflexivity).
  destruct Hinit as [self Hinit]. exists self.
  vm_compute in Hinit. inversion Hinit; subst self. clear Hinit.
  eexists. eexists.
  split; [vm_compute; reflexivity|].
  match goal with
  | |- QuinnDatasets._create_left_right_dataset _ _ ?s _ _ _ _ _ = _ /\ _ =>
      split; [vm_compute; reflexivity|];
      eapply (left_right_dataset_labels
                (NumpySamplerLaws0 := counting_sampler_laws) no_spatial_class
                QuinnDatasets.AboveBelowParadigm s sized_generator
                [(0, 3); (0, 4)] [(0, 1); (2, 3)] true true (0%nat, 0%nat))
  end.
  - reflexivity.
  - vm_compute. reflexivity.
Defined.

(** ** The datasets of a constructed builder *)

Section ConstructedBuilders.
Import QuinnObjects QuinnDatasets.
Context {G : Type} `{NumpyGeneratorLaws G} `{!NumpySampler G}
  `{!NumpySamplerLaws G}.
Local Abbreviation Builder := (@QuinnDatasetGenerator G).
Variable spatial_dataset_class
  : bool -> list Scene -> list Z -> Z -> Z -> outcome SpatialTensor.

(** Every row of the scene starts with a position on the canvas: the
    indices [MinimalSpatialDataset] scatters the row to. *)
Definition cells_within (self : Builder) (scene : Scene) : Prop :=
  Forall (fun row => exists x y rest,
            row = x :: y :: rest
            /\ 0 <= x < x_max self /\ 0 <= y < y_max self) scene.

Lemma rows_at_within (self : Builder) (og : ObjectGeneratorConfig)
    (length_ x y : Z) (v : list Z) :
  0 <= x -> 0 <= y < y_max self ->
  x < x_max self ->
  (with_size og = false -> x + length_ <= x_max self) ->
  cells_within self (rows_at og length_ x y v).
Proof.
  intros Hx Hy Hxm Hcells. unfold cells_within, rows_at.
  destruct (with_size og).
  - constructor; [|constructor]. exists x, y, (length_ :: v). auto.
  - specialize (Hcells eq_refl).
    assert (Hj : Forall (fun j => 0 <= j < length_) (py_range 0 length_)).
    { apply Forall_forall. intros j Hin. unfold py_range in Hin.
      apply elem_of_seqZ in Hin. lia. }
    induction Hj as [|j l Hj _ IH]; [constructor|].
    cbn [map concat]. apply Forall_app. split; [|exact IH].
    constructor; [|constructor]. exists (x + j), y, v.
    split; [reflexivity|]. lia.
Qed.

(** A scene lies on the canvas when its target and its reference objects
    do. *)
Lemma shows_within (self : Builder) (og : ObjectGeneratorConfig)
    (scene : Scene) (target : location) (references : list location) :
  with_size og = true \/ target_object_length (og_lengths og) = 1 ->
  shows og scene target references ->
  0 <= fst target < x_max self -> 0 <= snd target < y_max self ->
  Forall (fun r => 0 <= fst r
                   /\ fst r + reference_object_length (og_lengths og)
                      < x_max self
                   /\ 0 <= reference_object_length (og_lengths og)
                   /\ 0 <= snd r < y_max self) references ->
  cells_within self scene.
Proof.
  intros Hone (tv & rvs & Hlen & ->) Hx Hy Hrefs.
  unfold cells_within. apply Forall_app. split.
  - apply rows_at_within; try lia.
    intros Hws. destruct Hone as [Hone|Hone]; [congruence|lia].
  - clear Hx Hy. revert rvs Hlen.
    induction Hrefs as [|r refs (Hr1 & Hr2 & Hr3 & Hr4) _ IH];
      intros [|v rvs] Hlen; try discriminate; [constructor|].
    cbn [zip_with concat]. apply Forall_app. split.
    + apply rows_at_within; lia.
    + apply IH. simpl in Hlen. lia.
Qed.

(** A labelled dataset all of whose examples satisfy [E]. *)
Definition labelled (E : Scene -> Z -> Prop) (d : Dataset) : Prop :=
  Forall2 E (ds_objects d) (ds_labels d).

Lemma labelled_impl (E E' : Scene -> Z -> Prop) (d : Dataset) :
  (forall scene label, E scene label -> E' scene label) ->
  labelled E d -> labelled E' d.
Proof.
  unfold labelled. intros HE Hd.
  induction Hd; constructor; auto.
Qed.

(** The constructor of a paradigm's class. *)
Definition paradigm_init (p : paradigm) :=
  match p with
  | AboveBelowParadigm => AboveBelowReferenceInductiveBias_init (G := G)
  | BetweenParadigm => BetweenReferenceInductiveBias_init (G := G)
  end.

(** An example of a paradigm's dataset that lies on the canvas. *)
Definition paradigm_example (p : paradigm) (self : ReferenceInductiveBias)
    (og : ObjectGeneratorConfig) (reference_locations : list location)
    (add_neither : bool) (scene : Scene) (label : Z) : Prop :=
  match p with
  | AboveBelowParadigm =>
      above_below_example (rib_base self) og reference_locations
        (target_object_grid_size self) add_neither scene label
  | BetweenParadigm =>
      between_example (rib_base self) og reference_locations
        (target_object_grid_size self) add_neither scene label
  end
  /\ cells_within (rib_base self) scene.

Lemma rib_init_fields (og : ObjectGenerator) (x_max_ y_max_ seed_ : Z)
    (grid_size : Z) (ant : bool) (left : option Z) (n_train : option Z)
    (prop : option Q) (x_margin : option Z) (ymb ymt : option Z)
    (ane : bool) (sp : spatial_mode) (pv : option Q)
    (b : ReferenceInductiveBias) :
  ReferenceInductiveBias_init og x_max_ y_max_ seed_ grid_size ant left
    n_train prop x_margin ymb ymt ane sp pv = Ret b ->
  target_object_grid_size b = grid_size
  /\ add_neither_train (rib_base b) = ant
  /\ add_neither_test (rib_base b) = ane
  /\ x_max (rib_base b) = x_max_ /\ y_max (rib_base b) = y_max_
  /\ middle_target_object_locations b
     = grid grid_size (reference_object_length og - grid_size)
            1 (grid_size + 1).
Proof.
  unfold ReferenceInductiveBias_init.
  destruct (QuinnDatasetGenerator_init _ _ _ _ _ _ _ _ _ _ _ _)
    as [base|e|] eqn:Hbase; try discriminate.
  destruct (_split_train_test _ None _ (rng base))
    as [[[train test]|e|] g1] eqn:Hsplit; try discriminate.
  intros Hb. inversion Hb; subst b. clear Hb.
  unfold QuinnDatasetGenerator_init, np_default_rng in Hbase.
  destruct (decide (seed_ < 0)); [discriminate|].
  destruct (_split_train_test _ prop None _)
    as [[[rtrain rtest]|e|] g0]; try discriminate.
  inversion Hbase; subst base. simpl. auto 10.
Qed.

(** The rows a paradigm needs above a reference location. *)
Definition rows_above (p : paradigm) (grid_size : Z) : Z :=
  match p with
  | AboveBelowParadigm => grid_size
  | BetweenParadigm => 2 * grid_size + 1
  end.

Lemma paradigm_init_rib (p : paradigm) (og : ObjectGenerator)
    (x_max_ y_max_ seed_ : Z) (grid_size : Z) (ant : bool)
    (left : option Z) (n_train : option Z) (prop : option Q)
    (x_margin : option Z) (ymb ymt : option Z) (ane : bool)
    (sp : spatial_mode) (pv : option Q) (b : ReferenceInductiveBias) :
  0 <= grid_size ->
  paradigm_init p og x_max_ y_max_ seed_ grid_size ant left n_train prop
    x_margin ymb ymt ane sp pv = Ret b ->
  exists ymt',
    ReferenceInductiveBias_init og x_max_ y_max_ seed_ grid_size ant left
      n_train prop x_margin ymb ymt' ane sp pv = Ret b
    /\ rows_above p grid_size <= at_least grid_size ymt'.
Proof.
  intros Hg Hb. destruct p; simpl in Hb.
  - exists ymt. split; [exact Hb|]. simpl.
    pose proof (at_least_ge grid_size ymt) as [Hge _]. exact Hge.
  - unfold BetweenReferenceInductiveBias_init in Hb.
    eexists. split; [exact Hb|]. cbn [rows_above].
    pose proof (at_least_ge grid_size
                  (Some (at_least (2 * grid_size + 1) ymt))) as [_ Hge].
    specialize (Hge _ eq_refl).
    pose proof (at_least_ge (2 * grid_size + 1) ymt) as [Hge' _]. lia.
Qed.

(** Where a constructed builder keeps its locations. *)
Definition rib_locations_ok (p : paradigm) (og : ObjectGeneratorConfig)
    (b : @ReferenceInductiveBias G) : Prop :=
  (forall r,
     r ∈ train_reference_object_locations (rib_base b)
     \/ r ∈ test_reference_object_locations (rib_base b) ->
     0 <= fst r
     /\ fst r + reference_object_length (og_lengths og) < x_max (rib_base b)
     /\ 3 <= snd r
     /\ snd r + rows_above p (target_object_grid_size b)
        < y_max (rib_base b))
  /\ (forall t,
        t ∈ train_target_object_locations b
        \/ t ∈ test_target_object_locations b ->
        0 <= fst t < target_object_grid_size b
        /\ 1 <= snd t <= target_object_grid_size b)
  /\ (forall t,
        t ∈ middle_target_object_locations b ->
        0 <= fst t < reference_object_length (og_lengths og)
        /\ 1 <= snd t <= target_object_grid_size b).

Lemma paradigm_init_locations (p : paradigm) (og : ObjectGeneratorConfig)
    (x_max_ y_max_ seed_ : Z) (grid_size : Z) (ant : bool)
    (left : option Z) (n_train : option Z) (prop : option Q)
    (x_margin : option Z) (ymb ymt : option Z) (ane : bool)
    (sp : spatial_mode) (pv : option Q) (b : ReferenceInductiveBias) :
  0 <= grid_size -> 0 <= default 0 x_margin ->
  3 <= at_least grid_size ymb ->
  paradigm_init p (og_lengths og) x_max_ y_max_ seed_ grid_size ant left
    n_train prop x_margin ymb ymt ane sp pv = Ret b ->
  rib_locations_ok p og b
  /\ target_object_grid_size b = grid_size
  /\ add_neither_train (rib_base b) = ant
  /\ add_neither_test (rib_base b) = ane.
Proof.
  intros Hg Hxm Hymb Hb.
  apply paradigm_init_rib in Hb as (ymt' & Hb & Hrows); [|exact Hg].
  pose proof (rib_init_fields _ _ _ _ _ _ _ _ _ _ _ _ _ _ _ _ Hb)
    as (Hgs & Hant & Hane & Hxmax & Hymax & Hmid).
  pose proof (rib_init_partitions _ _ _ _ _ _ _ _ _ _ _ _ _ _ _ _ Hb)
    as [[_ Hrefs] [_ Htargets]].
  split; [|auto]. split; [|split].
  - intros [x y] Hin. apply Hrefs, reference_candidates_spec in Hin.
    rewrite Hgs, Hxmax, Hymax. cbn [fst snd]. lia.
  - intros [x y] Hin. apply Htargets, elem_of_grid in Hin.
    rewrite Hgs. cbn [fst snd]. lia.
  - intros [x y] Hin. rewrite Hmid in Hin. apply elem_of_grid in Hin.
    rewrite Hgs. cbn [fst snd]. lia.
Qed.

Lemma paradigm_example_within (p : paradigm) (og : ObjectGeneratorConfig)
    (b : ReferenceInductiveBias) (refs : list location) (an : bool)
    (scene : Scene) (label : Z) :
  rib_locations_ok p og b ->
  0 <= target_object_grid_size b
       <= reference_object_length (og_lengths og) ->
  with_size og = true \/ target_object_length (og_lengths og) = 1 ->
  (forall r, r ∈ refs ->
     r ∈ train_reference_object_locations (rib_base b)
     \/ r ∈ test_reference_object_locations (rib_base b)) ->
  match p with
  | AboveBelowParadigm =>
      above_below_example (rib_base b) og refs (target_object_grid_size b)
        an scene label
  | BetweenParadigm =>
      between_example (rib_base b) og refs (target_object_grid_size b)
        an scene label
  end ->
  cells_within (rib_base b) scene.
Proof.
  intros (Hrefs & _ & _) Hg Hone Hsub.
  destruct p; intros (reference & target & Hin & Hshows & Hgeo);
    apply Hsub, Hrefs in Hin; cbn [rows_above] in Hin;
    apply (shows_within _ og scene target _ Hone Hshows);
    unfold in_span, beside, loc_add in *; cbn [fst snd] in *;
    try (repeat constructor; cbn [fst snd]; lia); lia.
Qed.

Lemma paradigm_left_right_labelled (p : paradigm)
    (og : ObjectGeneratorConfig) (b : ReferenceInductiveBias)
    (refs targets : list location) (train : bool) (gs gs' : G * G)
    (d : Dataset) :
  rib_locations_ok p og b ->
  0 <= target_object_grid_size b <= 3 ->
  target_object_grid_size b <= reference_object_length (og_lengths og) ->
  with_size og = true \/ target_object_length (og_lengths og) = 1 ->
  (forall r, r ∈ refs ->
     r ∈ train_reference_object_locations (rib_base b)
     \/ r ∈ test_reference_object_locations (rib_base b)) ->
  (forall t, t ∈ targets ->
     t ∈ train_target_object_locations b
     \/ t ∈ test_target_object_locations b) ->
  _create_left_right_dataset spatial_dataset_class p b og refs targets train
    gs = (Ret d, gs') ->
  labelled (paradigm_example p b og refs
              (if train then add_neither_train (rib_base b)
               else add_neither_test (rib_base b))) d.
Proof.
  intros Hok Hg Hlen Hone Hrsub Htsub Hr.
  assert (Htargets : Forall (fun t => 0 <= fst t < target_object_grid_size b
                                      /\ 1 <= snd t
                                         <= target_object_grid_size b)
                            targets).
  { apply Forall_forall. intros t Ht.
    apply Htsub, (proj1 (proj2 Hok)) in Ht. exact Ht. }
  assert (Hex : labelled
                  (match p with
                   | AboveBelowParadigm =>
                       above_below_example (rib_base b) og refs
                         (target_object_grid_size b)
                   | BetweenParadigm =>
                       between_example (rib_base b) og refs
                         (target_object_grid_size b)
                   end (if train then add_neither_train (rib_base b)
                        else add_neither_test (rib_base b))) d).
  { destruct p; cbn [_create_left_right_dataset] in Hr.
    - exact (proj1 (above_below_examples spatial_dataset_class b og refs
                      (proj2 Hg) Hlen) targets train gs gs' d Htargets Hr).
    - exact (proj1 (between_examples spatial_dataset_class b og refs
                      (proj2 Hg) Hlen) targets train gs gs' d Htargets Hr). }
  eapply labelled_impl; [|exact Hex].
  intros scene label HE. split; [destruct p; exact HE|].
  eapply (paradigm_example_within p og b refs); eauto.
  - lia.
  - destruct p; exact HE.
Qed.

Lemma paradigm_middle_labelled (p : paradigm)
    (og : ObjectGeneratorConfig) (b : ReferenceInductiveBias)
    (refs : list location) (gs gs' : G * G) (d : Dataset) :
  rib_locations_ok p og b ->
  0 <= target_object_grid_size b <= 3 ->
  target_object_grid_size b <= reference_object_length (og_lengths og) ->
  with_size og = true \/ target_object_length (og_lengths og) = 1 ->
  (forall r, r ∈ refs ->
     r ∈ train_reference_object_locations (rib_base b)
     \/ r ∈ test_reference_object_locations (rib_base b)) ->
  _create_middle_dataset spatial_dataset_class p b og refs
    (Some (middle_target_object_locations b)) gs = (Ret d, gs') ->
  labelled (paradigm_example p b og refs (add_neither_train (rib_base b))) d.
Proof.
  intros Hok Hg Hlen Hone Hrsub Hr.
  assert (Hmiddle : Forall (fun t => 0 <= fst t
                                       < reference_object_length
                                           (og_lengths og)
                                     /\ 1 <= snd t
                                        <= target_object_grid_size b)
                           (default (middle_target_object_locations b)
                              (Some (middle_target_object_locations b)))).
  { apply Forall_forall. intros t Ht. simpl in Ht.
    apply (proj2 (proj2 Hok)) in Ht. exact Ht. }
  assert (Hex : labelled
                  (match p with
                   | AboveBelowParadigm =>
                       above_below_example (rib_base b) og refs
                         (target_object_grid_size b)
                   | BetweenParadigm =>
                       between_example (rib_base b) og refs
                         (target_object_grid_size b)
                   end (add_neither_train (rib_base b))) d).
  { destruct p; cbn [_create_middle_dataset] in Hr.
    - exact (proj2 (above_below_examples spatial_dataset_class b og refs
                      (proj2 Hg) Hlen) _ gs gs' d Hmiddle Hr).
    - exact (proj2 (between_examples spatial_dataset_class b og refs
                      (proj2 Hg) Hlen) _ gs gs' d Hmiddle Hr). }
  eapply labelled_impl; [|exact Hex].
  intros scene label HE. split; [destruct p; exact HE|].
  eapply (paradigm_example_within p og b refs); eauto.
  - lia.
  - destruct p; exact HE.
Qed.

(** The datasets of a constructed above/below or between builder, with a
    target grid of 1 to 3 rows no wider than the reference object, no
    negative x margin, a bottom margin of at least 3 (as it is for the
    default grid size 3) and targets that take one row of the scene: every
    example of the training dataset and of the five test datasets is
    labelled by where its target is, around a reference location of the
    dataset's kind, and every row of its scene has a position on the
    canvas.  The two left/right test datasets of each kind of reference
    location number their classes by [add_neither_test]; the training
    dataset and the two "middle" test datasets by [add_neither_train]. *)
Theorem constructed_paradigm_datasets (p : paradigm)
    (og : ObjectGeneratorConfig) (x_max_ y_max_ seed_ : Z) (grid_size : Z)
    (ant : bool) (left : option Z) (n_train : option Z) (prop : option Q)
    (x_margin : option Z) (ymb ymt : option Z) (ane : bool)
    (sp : spatial_mode) (pv : option Q) (b : ReferenceInductiveBias) :
  1 <= grid_size <= 3 ->
  grid_size <= reference_object_length (og_lengths og) ->
  0 <= default 0 x_margin ->
  3 <= at_least grid_size ymb ->
  with_size og = true \/ target_object_length (og_lengths og) = 1 ->
  paradigm_init p (og_lengths og) x_max_ y_max_ seed_ grid_size ant left
    n_train prop x_margin ymb ymt ane sp pv = Ret b ->
  (forall gs gs' d,
      rib_create_training_dataset spatial_dataset_class p b og gs
      = (Ret d, gs') ->
      labelled (paradigm_example p b og
                  (train_reference_object_locations (rib_base b)) ant) d)
  /\ (forall gs gs' tests,
        rib_create_test_datasets spatial_dataset_class p b og gs
        = (Ret tests, gs') ->
        exists d1 d2 d3 d4 d5,
          tests = [(TRAIN_REFERENCE_TEST_TARGET, d1);
                   (TRAIN_REFERENCE_MIDDLE_TARGET, d2);
                   (TEST_REFERENCE_TRAIN_TARGET, d3);
                   (TEST_REFERENCE_TEST_TARGET, d4);
                   (TEST_REFERENCE_MIDDLE_TARGET, d5)]
          /\ labelled (paradigm_example p b og
                         (train_reference_object_locations (rib_base b))
                         ane) d1
          /\ labelled (paradigm_example p b og
                         (train_reference_object_locations (rib_base b))
                         ant) d2
          /\ labelled (paradigm_example p b og
                         (test_reference_object_locations (rib_base b))
                         ane) d3
          /\ labelled (paradigm_example p b og
                         (test_reference_object_locations (rib_base b))
                         ane) d4
          /\ labelled (paradigm_example p b og
                         (test_reference_object_locations (rib_base b))
                         ant) d5).
Proof.
  intros Hg Hlen Hxm Hymb Hone Hb.
  apply paradigm_init_locations in Hb as (Hok & Hgs & Hant & Hane);
    [|lia|exact Hxm|exact Hymb].
  rewrite <- Hgs in Hg, Hlen. rewrite <- Hant, <- Hane.
  assert (Hg' : 0 <= target_object_grid_size b <= 3) by lia.
  split.
  - intros gs gs' d Hr. unfold rib_create_training_dataset in Hr.
    exact (paradigm_left_right_labelled p og b _ _ true gs gs' d Hok Hg'
             Hlen Hone (fun r Hin => or_introl Hin)
             (fun t Hin => or_introl Hin) Hr).
  - intros gs gs' tests Hr. unfold rib_create_test_datasets in Hr.
    apply bind_ret_inv in Hr as (d1 & g1 & H1 & Hr).
    apply bind_ret_inv in Hr as (d2 & g2 & H2 & Hr).
    apply bind_ret_inv in Hr as (d3 & g3 & H3 & Hr).
    apply bind_ret_inv in Hr as (d4 & g4 & H4 & Hr).
    apply bind_ret_inv in Hr as (d5 & g5 & H5 & Hr).
    apply ret_inv in Hr as [<- _].
    exists d1, d2, d3, d4, d5. split; [reflexivity|].
    split; [|split; [|split; [|split]]].
    + exact (paradigm_left_right_labelled p og b _ _ false _ _ d1 Hok Hg'
               Hlen Hone (fun r Hin => or_introl Hin)
               (fun t Hin => or_intror Hin) H1).
    + exact (paradigm_middle_labelled p og b _ _ _ d2 Hok Hg' Hlen Hone
               (fun r Hin => or_introl Hin) H2).
    + exact (paradigm_left_right_labelled p og b _ _ false _ _ d3 Hok Hg'
               Hlen Hone (fun r Hin => or_intror Hin)
               (fun t Hin => or_introl Hin) H3).
    + exact (paradigm_left_right_labelled p og b _ _ false _ _ d4 Hok Hg'
               Hlen Hone (fun r Hin => or_intror Hin)
               (fun t Hin => or_intror Hin) H4).
    + exact (paradigm_middle_labelled p og b _ _ _ d5 Hok Hg' Hlen Hone
               (fun r Hin => or_intror Hin) H5).
Qed.

(** *** One or two reference objects *)

Lemma split_bands_perm (bands : list (list location)) (prop : option Q)
    (sps : list (list location * list location)) (g g' : G) :
  split_bands bands prop g = (Ret sps, g') ->
  Permutation (concat (map fst sps) ++ concat (map snd sps)) (concat bands).
Proof.
  revert sps g g'. induction bands as [|band bands IH]; intros sps g g' Hr.
  - apply ret_inv in Hr as [<- _]. reflexivity.
  - cbn [split_bands] in Hr.
    apply bind_ret_inv in Hr as ([train test] & g1 & Hsp & Hr).
    apply bind_ret_inv in Hr as (sps' & g2 & Hrest & Hr).
    apply ret_inv in Hr as [<- _].
    apply split_train_test_perm in Hsp. apply IH in Hrest.
    cbn [map concat fst snd]. rewrite <- Hsp, <- Hrest.
    rewrite <- !app_assoc. apply Permutation_app_head.
    rewrite !app_assoc. apply Permutation_app_tail.
    apply Permutation_app_comm.
Qed.

Lemma oot_init_targets (og : ObjectGenerator) (x_max_ y_max_ seed_ : Z)
    (between : bool) (two : option bool) (ant : bool)
    (prop_target prop : option Q) (height : Z) (x_margin : option Z)
    (ymb ymt : option Z) (ane : bool) (sp : spatial_mode) (pv : option Q)
    (b : OneOrTwoReferenceObjects) :
  OneOrTwoReferenceObjects_init og x_max_ y_max_ seed_ between two ant
    prop_target prop height x_margin ymb ymt ane sp pv = Ret b ->
  partitions (train_target_locations b) (test_target_locations b)
             (grid 0 (reference_object_length og) 0 height).
Proof.
  unfold OneOrTwoReferenceObjects_init.
  destruct (decide (height `mod` 4 <> 0)) as [|Hmod]; [discriminate|].
  destruct (QuinnDatasetGenerator_init _ _ _ _ _ _ _ _ _ _ _ _)
    as [base|e|] eqn:Hbase; try discriminate.
  destruct (_generate_and_split_target_object_locations _ _ _ _ _ _ _ _)
    as [[[train test]|e|] g1] eqn:Hsplit; try discriminate.
  intros Hb. inversion Hb; subst b. clear Hb.
  cbn [train_target_locations test_target_locations].
  assert (Hk : exists k, height = 4 * k).
  { exists (height `div` 4).
    pose proof (Z.div_mod height 4 ltac:(lia)) as Hdm. lia. }
  destruct Hk as [k ->].
  assert (Hb4 : (4 * k) `div` 4 = k)
    by (rewrite Z.mul_comm; apply Z.div_mul; lia).
  assert (Hb2 : (4 * k) `div` 2 = 2 * k).
  { replace (4 * k) with (2 * k * 2) by lia. apply Z.div_mul. lia. }
  assert (Ht4 : (4 * k * 3) `div` 4 = 3 * k).
  { replace (4 * k * 3) with (3 * k * 4) by lia. apply Z.div_mul. lia. }
  rewrite Hb4, Hb2, Ht4 in Hsplit.
  unfold _generate_and_split_target_object_locations in Hsplit.
  apply bind_ret_inv in Hsplit as (sps & g2 & Hbands & Hret).
  apply ret_inv in Hret as [Hret _]. inversion Hret; subst train test.
  apply split_bands_perm in Hbands.
  set (len := reference_object_length og) in *.
  destruct (default between two).
  - cbn [map concat fst snd] in Hbands. rewrite app_nil_r in Hbands.
    assert (Hnd : NoDup (grid 0 len 0 k ++ grid 0 len k (3 * k)
                         ++ grid 0 len (3 * k) (4 * k))).
    { apply NoDup_app. split; [apply NoDup_grid|]. split.
      - intros [x y] H1 H2. apply elem_of_grid in H1.
        apply elem_of_app in H2 as [H2|H2]; apply elem_of_grid in H2; lia.
      - apply NoDup_app. split; [apply NoDup_grid|].
        split; [|apply NoDup_grid].
        intros [x y] H1 H2. apply elem_of_grid in H1, H2. lia. }
    rewrite <- Hbands in Hnd.
    apply NoDup_app in Hnd as (_ & Hdisj & _). split; [exact Hdisj|].
    intros [x y]. rewrite <- elem_of_app, Hbands, !elem_of_app,
      !elem_of_grid. lia.
  - cbn [map concat fst snd] in Hbands. rewrite app_nil_r in Hbands.
    assert (Hnd : NoDup (grid 0 len 0 (2 * k)
                         ++ grid 0 len (2 * k) (4 * k))).
    { apply NoDup_app. split; [apply NoDup_grid|].
      split; [|apply NoDup_grid].
      intros [x y] H1 H2. apply elem_of_grid in H1, H2. lia. }
    rewrite <- Hbands in Hnd.
    apply NoDup_app in Hnd as (_ & Hdisj & _). split; [exact Hdisj|].
    intros [x y]. rewrite <- elem_of_app, Hbands, !elem_of_app,
      !elem_of_grid. lia.
Qed.

Lemma oot_init_fields (og : ObjectGenerator) (x_max_ y_max_ seed_ : Z)
    (between : bool) (two : option bool) (ant : bool)
    (prop_target prop : option Q) (height : Z) (x_margin : option Z)
    (ymb ymt : option Z) (ane : bool) (sp : spatial_mode) (pv : option Q)
    (b : OneOrTwoReferenceObjects) :
  OneOrTwoReferenceObjects_init og x_max_ y_max_ seed_ between two ant
    prop_target prop height x_margin ymb ymt ane sp pv = Ret b ->
  two_reference_objects b = default between two
  /\ target_object_grid_height b = height
  /\ height = 4 * bottom_reference_height b
  /\ single_reference_height b = 2 * bottom_reference_height b
  /\ top_reference_height b = 3 * bottom_reference_height b
  /\ add_neither_train (oot_base b) = ant
  /\ add_neither_test (oot_base b) = ane
  /\ x_max (oot_base b) = x_max_ /\ y_max (oot_base b) = y_max_.
Proof.
  unfold OneOrTwoReferenceObjects_init.
  destruct (decide (height `mod` 4 <> 0)) as [|Hmod]; [discriminate|].
  destruct (QuinnDatasetGenerator_init _ _ _ _ _ _ _ _ _ _ _ _)
    as [base|e|] eqn:Hbase; try discriminate.
  destruct (_generate_and_split_target_object_locations _ _ _ _ _ _ _ _)
    as [[[train test]|e|] g1] eqn:Hsplit; try discriminate.
  intros Hb. inversion Hb; subst b. clear Hb Hsplit.
  unfold QuinnDatasetGenerator_init, np_default_rng in Hbase.
  destruct (decide (seed_ < 0)); [discriminate|].
  destruct (_split_train_test _ prop None _)
    as [[[rtrain rtest]|e|] g0]; try discriminate.
  inversion Hbase; subst base. simpl.
  assert (Hk : exists k, height = 4 * k).
  { exists (height `div` 4).
    pose proof (Z.div_mod height 4 ltac:(lia)) as Hdm. lia. }
  destruct Hk as [k ->].
  assert (Hb4 : (4 * k) `div` 4 = k)
    by (rewrite Z.mul_comm; apply Z.div_mul; lia).
  assert (Hb2 : (4 * k) `div` 2 = 2 * k).
  { replace (4 * k) with (2 * k * 2) by lia. apply Z.div_mul. lia. }
  assert (Ht4 : (4 * k * 3) `div` 4 = 3 * k).
  { replace (4 * k * 3) with (3 * k * 4) by lia. apply Z.div_mul. lia. }
  rewrite Hb4, Hb2, Ht4. repeat split; lia.
Qed.

(** An example of a one-or-two-reference-objects dataset that lies on
    the canvas. *)
Definition one_or_two_example (self : OneOrTwoReferenceObjects)
    (og : ObjectGeneratorConfig) (reference_locations : list location)
    (add_neither : bool) (scene : Scene) (label : Z) : Prop :=
  single_example self og reference_locations add_neither scene label
  /\ cells_within (oot_base self) scene.

Definition oot_locations_ok (og : ObjectGeneratorConfig)
    (b : @OneOrTwoReferenceObjects G) : Prop :=
  (forall r,
     r ∈ train_reference_object_locations (oot_base b)
     \/ r ∈ test_reference_object_locations (oot_base b) ->
     0 <= fst r
     /\ fst r + reference_object_length (og_lengths og) < x_max (oot_base b)
     /\ 0 <= snd r
     /\ snd r + target_object_grid_height b
          + (if two_reference_objects b then 1 else 0)
        < y_max (oot_base b))
  /\ (forall t,
        t ∈ train_target_locations b \/ t ∈ test_target_locations b ->
        0 <= fst t < reference_object_length (og_lengths og)
        /\ 0 <= snd t < target_object_grid_height b).

Lemma oot_init_locations (og : ObjectGeneratorConfig)
    (x_max_ y_max_ seed_ : Z) (between : bool) (two : option bool)
    (ant : bool) (prop_target prop : option Q) (height : Z)
    (x_margin : option Z) (ymb ymt : option Z) (ane : bool)
    (sp : spatial_mode) (pv : option Q) (b : OneOrTwoReferenceObjects) :
  0 <= default 0 x_margin -> 0 <= default 0 ymb ->
  (default between two = true -> ymt <> Some height) ->
  OneOrTwoReferenceObjects_init (og_lengths og) x_max_ y_max_ seed_ between
    two ant prop_target prop height x_margin ymb ymt ane sp pv = Ret b ->
  oot_locations_ok og b.
Proof.
  intros Hxm Hymb Hymt Hb.
  pose proof (oot_init_fields _ _ _ _ _ _ _ _ _ _ _ _ _ _ _ _ _ Hb)
    as (Htwo & Hh & _ & _ & _ & _ & _ & Hxmax & Hymax).
  pose proof (oot_init_partitions _ _ _ _ _ _ _ _ _ _ _ _ _ _ _ _ _ Hb)
    as [_ Hrefs].
  pose proof (oot_init_targets _ _ _ _ _ _ _ _ _ _ _ _ _ _ _ _ _ Hb)
    as [_ Htargets].
  split.
  - intros [x y] Hin. apply Hrefs, reference_candidates_spec in Hin.
    rewrite Hh, Htwo, Hxmax, Hymax. cbn [fst snd].
    unfold oot_y_margin_top in Hin.
    destruct (default between two), ymt as [m|];
      try destruct (decide (m < height)); try lia.
    assert (m <> height) by (intros ->; apply Hymt; reflexivity). lia.
  - intros [x y] Hin. apply Htargets, elem_of_grid in Hin.
    rewrite Hh. cbn [fst snd]. lia.
Qed.

Lemma single_example_within (og : ObjectGeneratorConfig)
    (b : OneOrTwoReferenceObjects) (refs : list location) (an : bool)
    (scene : Scene) (label : Z) :
  oot_locations_ok og b ->
  0 < target_object_grid_height b ->
  target_object_grid_height b = 4 * bottom_reference_height b ->
  single_reference_height b = 2 * bottom_reference_height b ->
  top_reference_height b = 3 * bottom_reference_height b ->
  0 <= reference_object_length (og_lengths og) ->
  with_size og = true \/ target_object_length (og_lengths og) = 1 ->
  (forall r, r ∈ refs ->
     r ∈ train_reference_object_locations (oot_base b)
     \/ r ∈ test_reference_object_locations (oot_base b)) ->
  single_example b og refs an scene label ->
  cells_within (oot_base b) scene.
Proof.
  intros (Hrefs & _) Hh Hk Hsingle Htop Hlen Hone Hsub
    (corner & target & Hin & Hcase).
  apply Hsub, Hrefs in Hin.
  destruct (two_reference_objects b).
  - destruct Hcase as [(Hshows & Hspan & Hgeo)|(_ & _ & Hshows & Hbeside)];
      apply (shows_within _ og scene target _ Hone Hshows);
      unfold in_span, beside, loc_add in *; cbn [fst snd] in *;
      try (repeat constructor; cbn [fst snd]; lia); lia.
  - destruct Hcase as (Hshows & Hgeo).
    apply (shows_within _ og scene target _ Hone Hshows);
      unfold in_span, beside, loc_add in *; cbn [fst snd] in *;
      try (repeat constructor; cbn [fst snd]; lia); lia.
Qed.

Lemma single_dataset_labelled (og : ObjectGeneratorConfig)
    (b : OneOrTwoReferenceObjects) (refs targets : list location)
    (train : bool) (gs gs' : G * G) (d : Dataset) :
  oot_locations_ok og b ->
  0 < target_object_grid_height b ->
  target_object_grid_height b = 4 * bottom_reference_height b ->
  single_reference_height b = 2 * bottom_reference_height b ->
  top_reference_height b = 3 * bottom_reference_height b ->
  0 <= reference_object_length (og_lengths og) ->
  with_size og = true \/ target_object_length (og_lengths og) = 1 ->
  (forall r, r ∈ refs ->
     r ∈ train_reference_object_locations (oot_base b)
     \/ r ∈ test_reference_object_locations (oot_base b)) ->
  (forall t, t ∈ targets ->
     t ∈ train_target_locations b \/ t ∈ test_target_locations b) ->
  _create_single_dataset spatial_dataset_class b og refs targets train gs
  = (Ret d, gs') ->
  labelled (one_or_two_example b og refs
              (if train then add_neither_train (oot_base b)
               else add_neither_test (oot_base b))) d.
Proof.
  intros Hok Hh Hk Hsingle Htop Hlen Hone Hrsub Htsub Hr.
  assert (Htargets : Forall (fun t => 0 <= fst t
                                        < reference_object_length
                                            (og_lengths og)
                                      /\ 0 <= snd t
                                         < target_object_grid_height b)
                            targets).
  { apply Forall_forall. intros t Ht.
    apply Htsub, (proj2 Hok) in Ht. exact Ht. }
  pose proof (single_examples spatial_dataset_class b og refs targets train
                gs gs' d Htargets Hr) as Hex.
  eapply labelled_impl; [|exact Hex].
  intros scene label HE. split; [exact HE|].
  eapply (single_example_within og b refs); eauto.
Qed.

(** The train and test target locations of a constructed
    [OneOrTwoReferenceObjects] builder are disjoint and together are
    exactly the target grid, as wide as the reference object and
    [target_object_grid_height] high: the bands below, between and above
    the reference objects are split one by one and the parts put
    together. *)
Theorem one_or_two_target_locations_partition (og : ObjectGenerator)
    (x_max_ y_max_ seed_ : Z) (between : bool) (two : option bool)
    (ant : bool) (prop_target prop : option Q) (height : Z)
    (x_margin : option Z) (ymb ymt : option Z) (ane : bool)
    (sp : spatial_mode) (pv : option Q) (b : OneOrTwoReferenceObjects) :
  OneOrTwoReferenceObjects_init og x_max_ y_max_ seed_ between two ant
    prop_target prop height x_margin ymb ymt ane sp pv = Ret b ->
  partitions (train_target_locations b) (test_target_locations b)
             (grid 0 (reference_object_length og) 0 height).
Proof. apply oot_init_targets. Qed.

(** The datasets of a constructed [OneOrTwoReferenceObjects] builder, with
    a positive grid height, no negative margin, a top margin other than
    the grid height when there are two reference objects, and targets
    that take one row of the scene: every example of the training dataset
    and of the three test datasets is labelled by where its target is,
    around a reference location of the dataset's kind, and every row of
    its scene has a position on the canvas.  The test datasets number
    their classes by [add_neither_test]. *)
Theorem constructed_one_or_two_datasets (og : ObjectGeneratorConfig)
    (x_max_ y_max_ seed_ : Z) (between : bool) (two : option bool)
    (ant : bool) (prop_target prop : option Q) (height : Z)
    (x_margin : option Z) (ymb ymt : option Z) (ane : bool)
    (sp : spatial_mode) (pv : option Q) (b : OneOrTwoReferenceObjects) :
  0 < height ->
  0 <= reference_object_length (og_lengths og) ->
  0 <= default 0 x_margin -> 0 <= default 0 ymb ->
  (default between two = true -> ymt <> Some height) ->
  with_size og = true \/ target_object_length (og_lengths og) = 1 ->
  OneOrTwoReferenceObjects_init (og_lengths og) x_max_ y_max_ seed_ between
    two ant prop_target prop height x_margin ymb ymt ane sp pv = Ret b ->
  (forall gs gs' d,
      oot_create_training_dataset spatial_dataset_class b og gs
      = (Ret d, gs') ->
      labelled (one_or_two_example b og
                  (train_reference_object_locations (oot_base b)) ant) d)
  /\ (forall gs gs' tests,
        oot_create_test_datasets spatial_dataset_class b og gs
        = (Ret tests, gs') ->
        exists d1 d2 d3,
          tests = [(TRAIN_REFERENCE_TEST_TARGET, d1);
                   (TEST_REFERENCE_TRAIN_TARGET, d2);
                   (TEST_REFERENCE_TEST_TARGET, d3)]
          /\ labelled (one_or_two_example b og
                         (train_reference_object_locations (oot_base b))
                         ane) d1
          /\ labelled (one_or_two_example b og
                         (test_reference_object_locations (oot_base b))
                         ane) d2
          /\ labelled (one_or_two_example b og
                         (test_reference_object_locations (oot_base b))
                         ane) d3).
Proof.
  intros Hh Hlen Hxm Hymb Hymt Hone Hb.
  pose proof (oot_init_locations _ _ _ _ _ _ _ _ _ _ _ _ _ _ _ _ _
                Hxm Hymb Hymt Hb) as Hok.
  apply oot_init_fields in Hb
    as (_ & Hgh & Hk & Hsingle & Htop & Hant & Hane & _ & _).
  rewrite <- Hgh in Hh, Hk. rewrite <- Hant, <- Hane.
  split.
  - intros gs gs' d Hr. unfold oot_create_training_dataset in Hr.
    exact (single_dataset_labelled og b _ _ true gs gs' d Hok Hh Hk Hsingle
             Htop Hlen Hone (fun r Hin => or_introl Hin)
             (fun t Hin => or_introl Hin) Hr).
  - intros gs gs' tests Hr. unfold oot_create_test_datasets in Hr.
    apply bind_ret_inv in Hr as (d1 & g1 & H1 & Hr).
    apply bind_ret_inv in Hr as (d2 & g2 & H2 & Hr).
    apply bind_ret_inv in Hr as (d3 & g3 & H3 & Hr).
    apply ret_inv in Hr as [<- _].
    exists d1, d2, d3. split; [reflexivity|]. split; [|split].
    + exact (single_dataset_labelled og b _ _ false _ _ d1 Hok Hh Hk
               Hsingle Htop Hlen Hone (fun r Hin => or_introl Hin)
               (fun t Hin => or_intror Hin) H1).
    + exact (single_dataset_labelled og b _ _ false _ _ d2 Hok Hh Hk
               Hsingle Htop Hlen Hone (fun r Hin => or_intror Hin)
               (fun t Hin => or_introl Hin) H2).
    + exact (single_dataset_labelled og b _ _ false _ _ d3 Hok Hh Hk
               Hsingle Htop Hlen Hone (fun r Hin => or_intror Hin)
               (fun t Hin => or_intror Hin) H3).
Qed.

End ConstructedBuilders.

Lemma constructed_paradigm_datasets_witness :
  exists b d gs',
    small_above_below = Ret b
    /\ QuinnDatasets.rib_create_training_dataset no_spatial_class
         QuinnDatasets.AboveBelowParadigm b sized_generator (0%nat, 0%nat)
       = (Ret d, gs')
    /\ labelled (paradigm_example QuinnDatasets.AboveBelowParadigm b
                   sized_generator
                   (QuinnObjects.train_reference_object_locations
                      (QuinnObjects.rib_base b)) true) d.
Proof.
  assert (Hinit : exists b, small_above_below = Ret b)
    by (eexists; vm_compute; reflexivity).
  destruct Hinit as [b Hinit]. exists b.
  vm_compute in Hinit. inversion Hinit; subst b. clear Hinit.
  eexists. eexists.
  split; [vm_compute; reflexivity|].
  split; [vm_compute; reflexivity|].
  match goal with
  | |- labelled (paradigm_example _ ?s _ _ _) _ =>
      eapply (proj1 (constructed_paradigm_datasets
                       (H0 := reversing_generator_laws)
                       (NumpySamplerLaws0 := counting_sampler_laws)
                       no_spatial_class QuinnDatasets.AboveBelowParadigm
                       sized_generator 10 8 33 3 true None None
                       (Some (4 # 5)%Q) (Some 0) None None false
                       QuinnObjects.NotSpatial (Some (1 # 10)%Q) s
                       ltac:(lia) ltac:(simpl; lia) ltac:(simpl; lia)
                       ltac:(unfold QuinnObjects.at_least; lia)
                       ltac:(left; reflexivity)
                       ltac:(vm_compute; reflexivity))
                (0%nat, 0%nat))
  end.
  vm_compute. reflexivity.
Defined.

Lemma one_or_two_target_locations_partition_witness :
  exists b,
    small_two_references = Ret b
    /\ partitions (QuinnObjects.train_target_locations b)
                  (QuinnObjects.test_target_locations b) (grid 0 9 0 8).
Proof.
  assert (Hinit : exists b, small_two_references = Ret b)
    by (eexists; vm_compute; reflexivity).
  destruct Hinit as [b Hinit]. exists b. split; [exact Hinit|].
  exact (one_or_two_target_locations_partition
           (H0 := reversing_generator_laws) long_reference 10 12 33 true
           None true (Some (1 # 2)%Q) (Some (4 # 5)%Q) 8 (Some 0) None None
           false QuinnObjects.NotSpatial (Some (1 # 10)%Q) b Hinit).
Defined.

Lemma constructed_one_or_two_datasets_witness :
  exists b d gs',
    small_two_references = Ret b
    /\ QuinnDatasets.oot_create_training_dataset no_spatial_class b
         sized_generator (0%nat, 0%nat) = (Ret d, gs')
    /\ labelled (one_or_two_example b sized_generator
                   (QuinnObjects.train_reference_object_locations
                      (QuinnObjects.oot_base b)) true) d.
Proof.
  assert (Hinit : exists b, small_two_references = Ret b)
    by (eexists; vm_compute; reflexivity).
  destruct Hinit as [b Hinit]. exists b.
  vm_compute in Hinit. inversion Hinit; subst b. clear Hinit.
  eexists. eexists.
  split; [vm_compute; reflexivity|].
  split; [vm_compute; reflexivity|].
  match goal with
  | |- labelled (one_or_two_example ?s _ _ _) _ =>
      eapply (proj1 (constructed_one_or_two_datasets
                       (H0 := reversing_generator_laws)
                       (NumpySamplerLaws0 := counting_sampler_laws)
                       no_spatial_class sized_generator 10 12 33 true None
                       true (Some (1 # 2)%Q) (Some (4 # 5)%Q) 8 (Some 0)
                       None None false QuinnObjects.NotSpatial
                       (Some (1 # 10)%Q) s
                       ltac:(lia) ltac:(simpl; lia) ltac:(simpl; lia)
                       ltac:(simpl; lia) ltac:(intros _; discriminate)
                       ltac:(left; reflexivity)
                       ltac:(vm_compute; reflexivity))
                (0%nat, 0%nat))
  end.
  vm_compute. reflexivity.
Defined.

(** ** Builders without a legal reference location *)

Section EmptyCandidates.
Import QuinnObjects QuinnDatasets.
Context {G : Type} `{NumpyGeneratorLaws G} `{!NumpySampler G}.
Local Abbreviation Builder := (@QuinnDatasetGenerator G).
Variable spatial_dataset_class
  : bool -> list Scene -> list Z -> Z -> Z -> outcome SpatialTensor.

Lemma base_init_empty (og : ObjectGenerator) (x_max_ y_max_ seed_ : Z)
    (ant ane : bool) (p : Q) (x_margin : option Z) (ymb ymt : Z)
    (sp : spatial_mode) (pv : option Q) :
  0 <= seed_ ->
  possible_reference_object_locations og x_max_ y_max_ (default 0 x_margin)
    ymb ymt = [] ->
  exists b,
    QuinnDatasetGenerator_init og x_max_ y_max_ seed_ ant ane (Some p)
      x_margin ymb ymt sp pv = Ret b
    /\ train_reference_object_locations b = []
    /\ test_reference_object_locations b = []
    /\ train_dataset b = None /\ validation_dataset b = None
    /\ test_datasets b = None.
Proof.
  intros Hseed Hempty.
  destruct (base_init_returns og x_max_ y_max_ seed_ ant ane p x_margin
              ymb ymt sp pv Hseed) as (b & Hb & Hds).
  exists b. split; [exact Hb|].
  pose proof (base_init_partitions _ _ _ _ _ _ _ _ _ _ _ _ _ Hb) as Hpart.
  rewrite Hempty in Hpart. apply partitions_nil in Hpart as [-> ->].
  auto.
Qed.

Lemma rib_init_empty (og : ObjectGenerator) (x_max_ y_max_ seed_ : Z)
    (grid_size : Z) (ant : bool) (left n_train : option Z) (p : Q)
    (x_margin : option Z) (ymb ymt : option Z) (ane : bool)
    (sp : spatial_mode) (pv : option Q) :
  0 <= seed_ ->
  possible_reference_object_locations og x_max_ y_max_ (default 0 x_margin)
    (at_least grid_size ymb) (at_least grid_size ymt) = [] ->
  exists b,
    ReferenceInductiveBias_init og x_max_ y_max_ seed_ grid_size ant left
      n_train (Some p) x_margin ymb ymt ane sp pv = Ret b
    /\ train_reference_object_locations (rib_base b) = []
    /\ test_reference_object_locations (rib_base b) = [].
Proof.
  intros Hseed Hempty.
  destruct (base_init_empty og x_max_ y_max_ seed_ ant ane p x_margin
              (at_least grid_size ymb) (at_least grid_size ymt) sp pv
              Hseed Hempty) as (base & Hbase & Htr & Hte & _).
  unfold ReferenceInductiveBias_init. rewrite Hbase.
  destruct (split_train_test_returns
              (grid 0 grid_size 1 (grid_size + 1)) None
              (Some (default (grid_size * (grid_size - 1)) n_train))
              (rng base))
    as (train & test & ->); [right; discriminate|].
  eexists. split; [reflexivity|]. simpl. auto.
Qed.

Lemma split_bands_returns (bands : list (list location)) (p : Q) (g : G) :
  exists sps g', split_bands bands (Some p) g = (Ret sps, g').
Proof.
  revert g. induction bands as [|band bands IH]; intros g.
  - eexists. eexists. reflexivity.
  - cbn [split_bands].
    destruct (split_train_test_returns band (Some p) None g)
      as (train & test & Hsp); [left; discriminate|].
    destruct (IH (snd (np_shuffle band g))) as (sps & g' & Hrest).
    eexists. eexists. unfold bind at 1. rewrite Hsp.
    unfold bind at 1. rewrite Hrest. reflexivity.
Qed.

Lemma oot_init_empty (og : ObjectGenerator) (x_max_ y_max_ seed_ : Z)
    (between : bool) (two : option bool) (ant : bool) (pt p : Q)
    (height : Z) (x_margin : option Z) (ymb ymt : option Z) (ane : bool)
    (sp : spatial_mode) (pv : option Q) :
  0 <= seed_ -> height `mod` 4 = 0 ->
  possible_reference_object_locations og x_max_ y_max_ (default 0 x_margin)
    (default 0 ymb) (oot_y_margin_top height (default between two) ymt)
  = [] ->
  exists b,
    OneOrTwoReferenceObjects_init og x_max_ y_max_ seed_ between two ant
      (Some pt) (Some p) height x_margin ymb ymt ane sp pv = Ret b
    /\ train_reference_object_locations (oot_base b) = []
    /\ test_reference_object_locations (oot_base b) = [].
Proof.
  intros Hseed Hmod Hempty.
  destruct (base_init_empty og x_max_ y_max_ seed_ ant ane p x_margin
              (default 0 ymb)
              (oot_y_margin_top height (default between two) ymt) sp pv
              Hseed Hempty) as (base & Hbase & Htr & Hte & _).
  unfold OneOrTwoReferenceObjects_init.
  destruct (decide (height `mod` 4 <> 0)); [contradiction|].
  rewrite Hbase.
  unfold _generate_and_split_target_object_locations.
  match goal with
  | |- context [split_bands ?bands (Some pt)] =>
      destruct (split_bands_returns bands pt (rng base))
        as (sps & g' & Hbands)
  end.
  unfold bind. rewrite Hbands.
  eexists. split; [reflexivity|]. simpl. auto.
Qed.

(** A dataset-creating method that appends nothing fails at
    [torch.stack], and has drawn nothing. *)
Lemma with_fresh_lists_nothing (self : Builder)
    (body : M (@building G) unit) (gs : G * G) :
  (forall st, body st = (Ret tt, st)) ->
  with_fresh_lists spatial_dataset_class self body gs
  = (Raise RuntimeError, gs).
Proof.
  intros Hbody. unfold with_fresh_lists, bind. rewrite Hbody.
  destruct gs as [g1 g2]. reflexivity.
Qed.

Lemma left_right_nothing (p : paradigm) (b : ReferenceInductiveBias)
    (og : ObjectGeneratorConfig) (targets : list location) (train : bool)
    (gs : G * G) :
  _create_left_right_dataset spatial_dataset_class p b og [] targets train
    gs = (Raise RuntimeError, gs).
Proof.
  destruct p; cbn [_create_left_right_dataset];
    apply with_fresh_lists_nothing; intros st; reflexivity.
Qed.

Lemma single_nothing (b : OneOrTwoReferenceObjects)
    (og : ObjectGeneratorConfig) (targets : list location) (train : bool)
    (gs : G * G) :
  _create_single_dataset spatial_dataset_class b og [] targets train gs
  = (Raise RuntimeError, gs).
Proof.
  apply with_fresh_lists_nothing. intros st.
  destruct (two_reference_objects b), train,
    (add_neither_train (oot_base b)), (add_neither_test (oot_base b));
    reflexivity.
Qed.

Lemma rib_datasets_nothing (p : paradigm) (b : ReferenceInductiveBias)
    (og : ObjectGeneratorConfig) (gs : G * G) :
  train_reference_object_locations (rib_base b) = [] ->
  rib_create_training_dataset spatial_dataset_class p b og gs
  = (Raise RuntimeError, gs)
  /\ rib_create_test_datasets spatial_dataset_class p b og gs
     = (Raise RuntimeError, gs).
Proof.
  intros Htr.
  unfold rib_create_training_dataset, rib_create_test_datasets, bind.
  rewrite Htr, !left_right_nothing. split; reflexivity.
Qed.

Lemma oot_datasets_nothing (b : OneOrTwoReferenceObjects)
    (og : ObjectGeneratorConfig) (gs : G * G) :
  train_reference_object_locations (oot_base b) = [] ->
  oot_create_training_dataset spatial_dataset_class b og gs
  = (Raise RuntimeError, gs)
  /\ oot_create_test_datasets spatial_dataset_class b og gs
     = (Raise RuntimeError, gs).
Proof.
  intros Htr.
  unfold oot_create_training_dataset, oot_create_test_datasets, bind.
  rewrite Htr, !single_nothing. split; reflexivity.
Qed.

(** C9, as the code has it: an empty candidate-location list does not
    stop construction, and no empty dataset comes of it either.  Given a
    seed that is not negative and the train proportions, every
    constructor (the base one and those of the above/below, the between
    and the one-or-two-reference-objects builders) returns a builder
    whose train and test reference locations are both empty; the base
    constructor has materialized no dataset.  On such a builder the
    methods that create the training dataset and the test datasets raise
    [RuntimeError], from [torch.stack] of an empty list, with no random
    draw made. *)
Theorem empty_candidates_construct_without_datasets
    (og : ObjectGeneratorConfig) (x_max_ y_max_ seed_ : Z) (ant ane : bool)
    (p : Q) (x_margin : option Z) (sp : spatial_mode) (pv : option Q) :
  0 <= seed_ ->
  (forall ymb ymt,
      possible_reference_object_locations (og_lengths og) x_max_ y_max_
        (default 0 x_margin) ymb ymt = [] ->
      exists b,
        QuinnDatasetGenerator_init (og_lengths og) x_max_ y_max_ seed_ ant
          ane (Some p) x_margin ymb ymt sp pv = Ret b
        /\ train_reference_object_locations b = []
        /\ test_reference_object_locations b = []
        /\ train_dataset b = None /\ validation_dataset b = None
        /\ test_datasets b = None)
  /\ (forall grid_size left n_train ymb ymt,
        possible_reference_object_locations (og_lengths og) x_max_ y_max_
          (default 0 x_margin) (at_least grid_size ymb)
          (at_least grid_size ymt) = [] ->
        exists b,
          AboveBelowReferenceInductiveBias_init (og_lengths og) x_max_
            y_max_ seed_ grid_size ant left n_train (Some p) x_margin ymb
            ymt ane sp pv = Ret b
          /\ train_reference_object_locations (rib_base b) = []
          /\ test_reference_object_locations (rib_base b) = []
          /\ forall gs,
               rib_create_training_dataset spatial_dataset_class
                 AboveBelowParadigm b og gs = (Raise RuntimeError, gs)
               /\ rib_create_test_datasets spatial_dataset_class
                    AboveBelowParadigm b og gs = (Raise RuntimeError, gs))
  /\ (forall grid_size left n_train ymb ymt,
        possible_reference_object_locations (og_lengths og) x_max_ y_max_
          (default 0 x_margin) (at_least grid_size ymb)
          (at_least grid_size (Some (at_least (2 * grid_size + 1) ymt)))
        = [] ->
        exists b,
          BetweenReferenceInductiveBias_init (og_lengths og) x_max_ y_max_
            seed_ grid_size ant left n_train (Some p) x_margin ymb ymt ane
            sp pv = Ret b
          /\ train_reference_object_locations (rib_base b) = []
          /\ test_reference_object_locations (rib_base b) = []
          /\ forall gs,
               rib_create_training_dataset spatial_dataset_class
                 BetweenParadigm b og gs = (Raise RuntimeError, gs)
               /\ rib_create_test_datasets spatial_dataset_class
                    BetweenParadigm b og gs = (Raise RuntimeError, gs))
  /\ (forall between two pt height ymb ymt,
        height `mod` 4 = 0 ->
        possible_reference_object_locations (og_lengths og) x_max_ y_max_
          (default 0 x_margin) (default 0 ymb)
          (oot_y_margin_top height (default between two) ymt) = [] ->
        exists b,
          OneOrTwoReferenceObjects_init (og_lengths og) x_max_ y_max_ seed_
            between two ant (Some pt) (Some p) height x_margin ymb ymt ane
            sp pv = Ret b
          /\ train_reference_object_locations (oot_base b) = []
          /\ test_reference_object_locations (oot_base b) = []
          /\ forall gs,
               oot_create_training_dataset spatial_dataset_class b og gs
               = (Raise RuntimeError, gs)
               /\ oot_create_test_datasets spatial_dataset_class b og gs
                  = (Raise RuntimeError, gs)).
Proof.
  intros Hseed. split; [|split; [|split]].
  - intros ymb ymt Hempty. apply base_init_empty; assumption.
  - intros grid_size left n_train ymb ymt Hempty.
    destruct (rib_init_empty (og_lengths og) x_max_ y_max_ seed_ grid_size
                ant left n_train p x_margin ymb ymt ane sp pv Hseed Hempty)
      as (b & Hb & Htr & Hte).
    exists b. split; [exact Hb|]. split; [exact Htr|]. split; [exact Hte|].
    intros gs. apply rib_datasets_nothing. exact Htr.
  - intros grid_size left n_train ymb ymt Hempty.
    destruct (rib_init_empty (og_lengths og) x_max_ y_max_ seed_ grid_size
                ant left n_train p x_margin ymb
                (Some (at_least (2 * grid_size + 1) ymt)) ane sp pv Hseed
                Hempty) as (b & Hb & Htr & Hte).
    exists b. split; [exact Hb|]. split; [exact Htr|]. split; [exact Hte|].
    intros gs. apply rib_datasets_nothing. exact Htr.
  - intros between two pt height ymb ymt Hmod Hempty.
    destruct (oot_init_empty (og_lengths og) x_max_ y_max_ seed_ between two
                ant pt p height x_margin ymb ymt ane sp pv Hseed Hmod Hempty)
      as (b & Hb & Htr & Hte).
    exists b. split; [exact Hb|]. split; [exact Htr|]. split; [exact Hte|].
    intros gs. apply oot_datasets_nothing. exact Htr.
Qed.

End EmptyCandidates.

Lemma empty_candidates_construct_without_datasets_witness :
  QuinnObjects.possible_reference_object_locations long_reference 5 20
    (default 0 (Some 0)) (QuinnObjects.at_least 3 None)
    (QuinnObjects.at_least 3 None) = []
  /\ exists b,
       QuinnObjects.AboveBelowReferenceInductiveBias_init (G := nat)
         long_reference 5 20 33 3 true None None (Some (4 # 5)%Q) (Some 0)
         None None false QuinnObjects.NotSpatial (Some (1 # 10)%Q) = Ret b
       /\ QuinnObjects.train_reference_object_locations
            (QuinnObjects.rib_base b) = []
       /\ QuinnObjects.test_reference_object_locations
            (QuinnObjects.rib_base b) = []
       /\ forall gs,
            QuinnDatasets.rib_create_training_dataset no_spatial_class
              QuinnDatasets.AboveBelowParadigm b sized_generator gs
            = (Raise RuntimeError, gs)
            /\ QuinnDatasets.rib_create_test_datasets no_spatial_class
                 QuinnDatasets.AboveBelowParadigm b sized_generator gs
               = (Raise RuntimeError, gs).
Proof.
  assert (Hempty : QuinnObjects.possible_reference_object_locations
                     long_reference 5 20 (default 0 (Some 0))
                     (QuinnObjects.at_least 3 None)
                     (QuinnObjects.at_least 3 None) = [])
    by reflexivity.
  split; [exact Hempty|].
  exact (proj1 (proj2 (empty_candidates_construct_without_datasets
                         (H0 := reversing_generator_laws) no_spatial_class
                         sized_generator 5 20 33 true false (4 # 5)%Q
                         (Some 0) QuinnObjects.NotSpatial (Some (1 # 10)%Q)
                         ltac:(lia)))
           3 None None None None Hempty).
Defined.
